(* ===== verification/_CoqProject ===== *)
-Q . S2P
Prelude.v
GoStrings.v
GoJson.v
GoTypes.v
GoProtocol.v
GoHandshake.v
GoRegistry.v
GoServer.v
GoStruct.v
GoWire.v
GoRaw.v
GoDispatch.v
GoCommands.v
GoMaster.v
GoSession.v
GoCluster.v
GoNodes.v
GoXml.v
GoEffect.v
GoVM.v
GoDocker.v
GoSlave.v
GoForm.v
GoWeb.v
GoPortal.v
GoHost.v
JsObj.v
FaTables.v
FaMeta.v
FaConfig.v
FaRegistry.v
JsInt.v
ConflictMd5.v
ConflictDetect.v
JsNumber.v
FaHtml.v
FaTransform.v
FaRender.v
FaBoot.v
FaEnv.v
FaDom.v
FaReplace.v
FaPseudo.v
FaObserver.v
