(* ===== verification/Prelude.v ===== *)
(** Centralis: a verification library of the cluster manager (Go, under src/src) and of
    the icon toolkit its web interface serves (JavaScript, under src/static/fa6/js).

    * The program

    The icon toolkit is [fontawesome.js]: a registry of icons with lookup tables, a
    configuration, a renderer that turns an icon into abstract nodes and these into HTML or
    into nodes of the page, parsers of the page's own nodes, and an observer that keeps the
    page up to date.  [conflict-detection.js] tests every style sheet and script of a page
    in a frame of its own to find copies of the toolkit that disturb one another; it
    carries an MD5 library to tell nodes apart.  The cluster manager has an orchestrator
    that keeps a registry of masters and of the clusters they may join; masters connect to
    it, and nodes (slaves) to a master, over lines of JSON after a handshake in which the
    one that connects signs a challenge.

    * The files

    Prelude: results, tactics, strings, splitting and joining, the order of Go maps.
    GoStrings, GoJson: what the Go code uses of [strings], [strconv] and [encoding/json].
    GoTypes: the wire types of core/protocol/types.go.
    GoProtocol: core/protocol/line.go and packet.go: lines, packets and their JSON.
    GoHandshake: core/protocol/handshake.go, base64, the payloads of the authentication.
    GoRegistry: orchestrator/registry: [Store], [UpsertMaster] and the queries,
      [AllowedClusters] over a database that is a parameter.
    GoServer: the handshakes of master/server.go, slave/slave.go and orchestrator/tcp/server.go,
      registry/auth.go, and the orchestrator's loop over the packets of a master.
    GoDispatch: tcp/server.go: the table of connected masters and the way of a command to one.
    GoStruct: encoding/json for typed values: a codec for each type of field, structs from a
      list of their tagged fields, and the laws a codec has (class [Lawful] and its kin).
    GoWire: the tagged fields of every struct of types.go, as instances of [WireStruct].
    GoRaw: the raw texts a decoder keeps can be encoded again.
    GoCommands: slave/handlers and the loop of master/orchestrator_client.go: what becomes of
      a command, and of the list of all virtual machines; a request and its time-out.
    GoMaster: the handshake of a master with the orchestrator, and the whitelists of main.go.
    GoSession: a session of a master with the orchestrator after the handshake: heartbeats,
      the read loop, commands and their time-outs, interleaved.
    GoCluster: the way of a command from an announcement of a master to the slave and back.
    GoNodes: master/nodes.go: requests that wait for replies, the read loop, the table of nodes.
    GoXml: encoding/xml as slave/libvirt uses it: [EscapeText], the decoder, and a writer.
    GoEffect: programs that call code outside the repository, their runs, and rules for them.
    GoVM: slave/libvirt and slave/handlers/libvirt.go: virtual machines.
    GoDocker: slave/docker and slave/handlers/docker.go: containers.
    GoSlave: the whole table of handlers of a slave, as programs over libvirt and docker.
    GoForm: what the pages use of [strings], [strconv] and forms.
    GoWeb: orchestrator/web/main.go: the pages, as programs over the registry and commands.
    GoPortal: a form that is sent, its way to the slave and back.
    GoHost: slave/firewall and slave/hardware.
    JsObj: JavaScript objects with their enumeration order.  JsInt: 32-bit operators.
      JsNumber: binary64 numbers, [parseFloat], the shortest decimal of a number.
    FaTables, FaMeta: the tables of families, styles and weights and the maps made of them.
    FaConfig: settings, the [config] object, change callbacks.
    FaRegistry: packs, [build], class names to a canonical icon, the library, [parse.icon].
    FaHtml: [htmlEscape], [joinAttributes], [joinStyles], [toHtml], and a reader of HTML.
    FaTransform: [parseTransformString], [transformForSvg], [transformForCss].
    FaRender: [asFoundIcon], [findIcon], [makeInlineSvgAbstract], masks, symbols, layers, and
      the [icon], [text], [counter] and [layer] methods.
    FaBoot: packs, shims and core on one page, [domready], the style sheet, the plugins.
    FaEnv: what is found of the browser, the performance marks, the methods of [dom].
    FaDom: a tree of nodes, the parsers of style, classes and attributes, [parseMeta].
    FaReplace: [convertSVG], the mutators, [generateMutation], [onTree]; the tree of the page
      and the trees cut off from it, whose nodes the mutators still reach.
    FaPseudo: icons for the [::before] and [::after] boxes of nodes.
    FaObserver: the records of the mutation observer, and when it listens.
    ConflictMd5: the MD5 and HMAC code, and RFC 1321 and RFC 2104 to compare it with.
    ConflictDetect: nodes, frames, polling, messages and the report of the detector.

    A definition has the name of what it models; a name that Rocq or another file has
    already used gets a suffix ([Z_families] for [Z], [d_2] for [d$2]).  State that a
    closure or an object keeps is a record: [fa] for the registry, [page] for the document,
    [watch_state] for the observers, [detector] for the conflict detector, [Store] for the
    orchestrator.  An operation takes the state and gives the new one; one that can throw
    or fail gives a [result], or the state so far and the exception.  A handler of a
    connection is a computation in the monad [GoServer.M] over what is still to be read and
    what has been written; where goroutines or promises interleave, [GoNodes.conn_step],
    [FaPseudo.box_step] and [GoSession.session_step] are the steps.  Code that asks libvirt,
    docker or the rest of the orchestrator is a program ([GoEffect.prog]) whose calls are
    answered by the other side: rules such as [GoEffect.holds] speak of all answers, and a
    model of the other side ([GoEffect.run]) runs it.

    * What is proved

    Registry: the lookup tables are those [build] makes in every reachable state; alias
    lookup is sound and complete; class names resolve without throwing, in any order, and
    short and long style classes agree; what is added to the library is found, and a name
    that resolves is an icon that is rendered.
    Output: HTML reads back as the nodes it was made of, so no value breaks out of its
    place; nodes made directly and nodes made through HTML are the same tree; masks refer to
    what they define; a transform says for each axis what its own words say, and one that is
    left out is the identity.
    Page: a replacement changes its node only; after [onTree] nothing is left to replace
    and a second run changes nothing; the observer ignores what the toolkit puts in and
    follows a change of class; where one bad attribute, a second [watch] or the end of a
    search defeats this, theorems say exactly how.
    Boxes: however searches overlap, a box gets one icon; a search after it has arrived is
    idle when the character has a name in the style, and draws the icon again when it is one
    of version 4 without; both take of the page's parser what the HTML standard says of an SVG
    element whose names it keeps ([FaPseudo.svg_html_law]), and the icons are proved to be
    written with such names; [getPrefix] gives known prefixes, exactly for the known families.
    Start: packs for different styles and shims for different names may be loaded in any
    order, with the core anywhere among them: all lookups have the same answers, and every
    icon and shim is found; [domready] runs each function once and in order; the style sheet is put in once and before the page's
    own; hooks run in the order of the plugins.
    Conflict detector: the MD5 code is RFC 1321 and RFC 2104; the detector ends in bounded
    time when a script or a style sheet of the page is to be tested, where the delays of its
    timers and how late the browser runs them are counted, hears its frames and nobody else,
    and its report accounts for every node.
    Orchestrator: the store implements the log of its accepted updates; a master is shown
    exactly while its last update is fresh; every stored master was admitted.
    Network: packets arrive as they were sent, in order, with the payload in compact form;
    base64 loses nothing; an honest slave is registered and both sides agree; who is admitted
    has proved the key behind its identity and is on the list; a connection changes no record
    but its own; a reply always finds room in its channel, and a request gets the first
    packet that replies to it and no other; a command for a cluster goes to one eligible live
    master of it, and only a command reply with the id of the packet is taken for the answer; a
    command is carried out on its node and the result of the handler comes back, in compact
    form, when the node and the master answer within the time-outs of their requests, and an
    error when they do not, also when the whole way is taken from the announcement of the
    node on; a session survives as long as no request gives up before its answer, and then
    every heartbeat has its answer and every command that can be read a reply, which reaches
    the request that waits for it; a request that gives up ends the session; the list of virtual machines has an entry for
    every node; a whitelisted master that holds its key is admitted.
    Virtual machines: the XML of a domain, a volume or a CD drive reads back as what was meant:
    its names, sizes, counts, paths and disks, whatever characters the names have; whatever libvirt answers, a handler makes only the changes of its action, a
    creation does what was asked and lets go of what it opened, and a deletion never stops a
    domain unasked and deletes only the volumes of the domain, after it was undefined; two
    lemmas show what a creation that fails leaves behind, and what a deletion does when
    libvirt cannot say whether the domain runs.
    Containers: a creation makes one container, which is what the payload says; a lemma shows
    that one that cannot be started keeps its name.  No handler of the whole table makes a
    call that is not its action's, and what it answers is JSON.
    Web interface: a page asks only about the cluster its path names, and sends commands only
    to the node its path names there; a request that is not a POST of a form sends only
    commands that list, and one that is sends one more at most; what the handler of an action reads is what the form
    stands for; a click goes all the way to the handler on the
    node and its result comes back, or the page says that the time is over; a lemma shows what the error that two goroutines share
    can hide.
    Host: the rules of the firewall, which never let a master in by the address it has, and
    the one reading whose failure ends the slave.
    Environment: performance marks never throw; the last of [noAuto] and [dom.watch] decides.

    * Bounds and fuel

    Texts are lists of bytes (Go) or of code units below 256 (JavaScript).  [read_html] has
    the length of its text as fuel, and every node takes at least one character;
    [GoJson.parse] has twice the length and one more ([value_fuel], [value_parse_fuel]);
    [replace_literal] has the length of the text it rewrites; [print_nat] and
    [print_hex] have the number of binary digits; [num_to_string] tries 17 digits, which
    tell all binary64 numbers apart; the polling of the detector is bounded by [max_calls],
    which is proved.  The decoder of [GoXml] has the length of its text and one more, and a rule
    about a program ([GoEffect.holds]) speaks of all its finite runs; programs are well-founded
    trees, so that every run is finite.  Words of 32 bits wrap around as the operators of the code do.

    * What is not modelled

    Of the cluster manager: sockets and their deadlines, key files, the configuration and the start
    of the processes, templates, static files, the matching of routes by [ServeMux], the log,
    and what the kernel does with the rules of the firewall.  libvirt and docker are
    parameters, as the answers of [GoVM.libvirt] and [GoDocker.docker], and so are
    functions of the moby library, SHA-256, Ed25519 and random bytes.  Of the toolkit: the
    text of the style rules and the icons of the packs, which are data that the theorems leave
    open; the copies of the toolkit that other files of the directory hold are not
    modelled a second time.  What a browser computes (layout
    text, computed styles, selectors, its HTML parser and writer, random numbers, which
    attribute names it accepts) is a parameter: the fields of [FaDom.host] and arguments of
    the definitions of FaPseudo.  Mutexes are not modelled: what is done under one is one
    step.  Properties inherited from [Object.prototype] are not modelled. *)
From stdpp Require Import base gmap strings list fin_maps.
From Stdlib Require Import Lia ZArith Ascii.
From Stdlib Require String.

#[export] Set Default Goal Selector "!".

(** * Results: Go's [(value, error)] pairs

    An operation that returns [(v, nil)] is [Ok v]; one that returns an error is
    [Err msg], with the text of the error. *)
Inductive result (A : Type) : Type :=
  | Ok (a : A)
  | Err (msg : string).
Arguments Ok {A} a.
Arguments Err {A} msg.

Definition res_bind {A B} (r : result A) (k : A -> result B) : result B :=
  match r with Ok a => k a | Err m => Err m end.

Definition res_map {A B} (f : A -> B) (r : result A) : result B :=
  match r with Ok a => Ok (f a) | Err m => Err m end.

Definition is_ok {A} (r : result A) : bool :=
  match r with Ok _ => true | Err _ => false end.

Definition of_option {A} (m : string) (o : option A) : result A :=
  match o with Some a => Ok a | None => Err m end.

Declare Scope res_scope.
Delimit Scope res_scope with res.
Notation "'let?' x ':=' r 'in' k" := (res_bind r (fun x => k))
  (at level 10, x pattern, r at level 100, k at level 200) : res_scope.
Notation "'guard?' b 'orelse' m 'in' k" := (if b then k else Err m)
  (at level 10, b at level 100, m at level 100, k at level 200) : res_scope.

#[export] Instance result_eq_dec {A} `{EqDecision A} : EqDecision (result A).
Proof. solve_decision. Defined.

Lemma res_bind_ok {A B} (r : result A) (k : A -> result B) b :
  res_bind r k = Ok b <-> exists a, r = Ok a /\ k a = Ok b.
Proof. destruct r; naive_solver. Qed.

Lemma res_bind_assoc {A B C} (r : result A) (f : A -> result B) (g : B -> result C) :
  res_bind (res_bind r f) g = res_bind r (fun a => res_bind (f a) g).
Proof. by destruct r. Qed.

(** * Tactics of the development *)

(** Case on the scrutinee of a match in the goal or in a hypothesis. *)
Ltac dmatch :=
  match goal with
  | |- context [match ?x with _ => _ end] => destruct x eqn:?
  | H : context [match ?x with _ => _ end] |- _ => destruct x eqn:?
  end.
Ltac dmatches := repeat (dmatch; simplify_eq/=).

(** Decide a closed proposition by evaluation. *)
Ltac by_decide := apply (bool_decide_unpack _); vm_compute; exact I.

(** Evaluate a closed goal. *)
Ltac eval_closed := vm_compute; repeat split; try reflexivity; try discriminate.

(** * Characters and strings

    A Go string is its bytes; a [string] is the list of them. *)
Definition chr (n : nat) : ascii := ascii_of_nat n.
Definition DQ : ascii := chr 34.
Definition NL : ascii := chr 10.
Definition str1 (a : ascii) : string := String a EmptyString.
#[global] Arguments str1 : simpl never.
Definition nl_str : string := str1 NL.

#[global] Arguments String.append !s1 s2 : simpl nomatch.

Abbreviation bytes_of := String.list_ascii_of_string.
Abbreviation of_bytes := String.string_of_list_ascii.

Lemma bytes_of_app s1 s2 : bytes_of (s1 +:+ s2) = bytes_of s1 ++ bytes_of s2.
Proof. induction s1 as [|a s1 IH]; [done|]. cbn. f_equal. apply IH. Qed.

Lemma of_bytes_app l1 l2 : of_bytes (l1 ++ l2) = of_bytes l1 +:+ of_bytes l2.
Proof. induction l1 as [|a l1 IH]; [done|]. cbn. f_equal. apply IH. Qed.

Lemma of_bytes_of s : of_bytes (bytes_of s) = s.
Proof. apply String.string_of_list_ascii_of_string. Qed.

Lemma bytes_of_of l : bytes_of (of_bytes l) = l.
Proof. apply String.list_ascii_of_string_of_list_ascii. Qed.

Lemma bytes_of_inj s1 s2 : bytes_of s1 = bytes_of s2 -> s1 = s2.
Proof. intros H. by rewrite <- (of_bytes_of s1), H, of_bytes_of. Qed.

Lemma str_app_nil_r s : s +:+ "" = s.
Proof. induction s as [|a s IH]; [done|]. cbn. f_equal. apply IH. Qed.

Lemma str_app_assoc s1 s2 s3 : s1 +:+ (s2 +:+ s3) = (s1 +:+ s2) +:+ s3.
Proof. induction s1 as [|a s1 IH]; [done|]. cbn. f_equal. apply IH. Qed.

Lemma str_app_inj_l p s1 s2 : p +:+ s1 = p +:+ s2 -> s1 = s2.
Proof. induction p as [|a p IH]; cbn; [done|]. intros [=]. by apply IH. Qed.

Create HintDb str.
Create HintDb registry.
#[export] Hint Rewrite bytes_of_app of_bytes_app of_bytes_of bytes_of_of
  str_app_nil_r : str.

(** Equality tests, as the code writes them. *)
Definition str_eqb (s t : string) : bool := bool_decide (s = t).
Definition chr_eqb (a b : ascii) : bool := bool_decide (a = b).
Definition str_empty (s : string) : bool := str_eqb s "".
#[global] Arguments str_eqb : simpl never.
#[global] Arguments chr_eqb : simpl never.

Lemma str_eqb_eq s t : str_eqb s t = true <-> s = t.
Proof. apply bool_decide_eq_true. Qed.
Lemma str_eqb_neq s t : str_eqb s t = false <-> s <> t.
Proof. apply bool_decide_eq_false. Qed.
Lemma str_eqb_refl s : str_eqb s s = true.
Proof. by apply str_eqb_eq. Qed.
Lemma chr_eqb_eq a b : chr_eqb a b = true <-> a = b.
Proof. apply bool_decide_eq_true. Qed.
Lemma chr_eqb_neq a b : chr_eqb a b = false <-> a <> b.
Proof. apply bool_decide_eq_false. Qed.
Lemma chr_eqb_refl a : chr_eqb a a = true.
Proof. by apply chr_eqb_eq. Qed.
Lemma chr_eqb_spec a b : reflect (a = b) (chr_eqb a b).
Proof. apply bool_decide_reflect. Qed.
Lemma str_eqb_spec s t : reflect (s = t) (str_eqb s t).
Proof. apply bool_decide_reflect. Qed.
#[export] Hint Rewrite str_eqb_refl chr_eqb_refl : str.
#[export] Hint Resolve str_eqb_refl : core.

Fixpoint mem_str (s : string) (l : list string) : bool :=
  match l with [] => false | t :: l => str_eqb s t || mem_str s l end.

Lemma mem_str_elem s l : mem_str s l = true <-> s ∈ l.
Proof.
  induction l as [|t l IH]; cbn; [split; [done|]; by intros ?%elem_of_nil|].
  rewrite orb_true_iff, IH, str_eqb_eq, elem_of_cons. done.
Qed.
Lemma mem_str_not_elem s l : mem_str s l = false <-> s ∉ l.
Proof. rewrite <- mem_str_elem. by destruct (mem_str s l). Qed.

(** * Splitting and joining on one character *)
Fixpoint split_on (c : ascii) (s : string) : list string :=
  match s with
  | EmptyString => [""]
  | String a s' =>
      if chr_eqb a c then "" :: split_on c s'
      else match split_on c s' with
           | [] => [String a ""]
           | p :: ps => String a p :: ps
           end
  end.

Fixpoint join (sep : string) (l : list string) : string :=
  match l with
  | [] => ""
  | [p] => p
  | p :: ps => p +:+ sep +:+ join sep ps
  end.

Fixpoint str_mem_chr (c : ascii) (s : string) : bool :=
  match s with EmptyString => false | String a s' => chr_eqb a c || str_mem_chr c s' end.

Lemma split_on_not_nil c s : split_on c s <> [].
Proof. destruct s as [|a s]; cbn; [done|]. repeat case_match; done. Qed.

(** Joining the parts gives the string back. *)
Lemma join_split_on c s : join (str1 c) (split_on c s) = s.
Proof.
  induction s as [|a s IH]; [done|]. cbn -[str_eqb].
  pose proof (split_on_not_nil c s) as Hn.
  destruct (split_on c s) as [|p ps]; [done|].
  destruct (chr_eqb_spec a c) as [->|E]; cbn -[join].
  - change (join (str1 c) ("" :: p :: ps)) with ("" +:+ str1 c +:+ join (str1 c) (p :: ps)).
    rewrite IH. done.
  - destruct ps as [|q ps]; cbn -[join] in *; [by rewrite <- IH|].
    rewrite <- IH. done.
Qed.

Lemma split_on_no_sep c s : str_mem_chr c s = false -> split_on c s = [s].
Proof.
  induction s as [|a s IH]; cbn; [done|]. intros [-> H]%orb_false_iff. by rewrite IH.
Qed.

Lemma split_on_app c s t :
  str_mem_chr c s = false -> split_on c (s +:+ str1 c +:+ t) = s :: split_on c t.
Proof.
  induction s as [|a s IH]; cbn.
  - intros _. unfold str1. cbn. by rewrite chr_eqb_refl.
  - intros [-> H]%orb_false_iff. by rewrite IH.
Qed.

(** Splitting a joined list of separator-free parts gives the parts back. *)
Lemma split_on_join c l :
  l <> [] -> Forall (fun p => str_mem_chr c p = false) l ->
  split_on c (join (str1 c) l) = l.
Proof.
  intros Hn HF. induction HF as [|p l Hp HF IH]; [done|].
  destruct l as [|q l]; [by apply split_on_no_sep|].
  change (join (str1 c) (p :: q :: l)) with (p +:+ str1 c +:+ join (str1 c) (q :: l)).
  rewrite split_on_app by done. by rewrite IH.
Qed.

Lemma split_on_parts c s : Forall (fun p => str_mem_chr c p = false) (split_on c s).
Proof.
  induction s as [|a s IH]; cbn; [by repeat constructor|].
  destruct (chr_eqb a c) eqn:E; [by constructor|].
  destruct (split_on c s) as [|p ps]; inversion_clear IH; repeat constructor; try done; cbn;
    by rewrite E.
Qed.

(** * Prefixes, suffixes and substrings *)
Fixpoint str_drop_prefix (p s : string) : option string :=
  match p, s with
  | EmptyString, _ => Some s
  | String a p', String b s' => if chr_eqb a b then str_drop_prefix p' s' else None
  | _, _ => None
  end.
Definition has_prefix (p s : string) : bool :=
  match str_drop_prefix p s with Some _ => true | None => false end.
Fixpoint str_contains (p s : string) : bool :=
  has_prefix p s || match s with EmptyString => false | String _ s' => str_contains p s' end.

Lemma str_drop_prefix_app p s : str_drop_prefix p (p +:+ s) = Some s.
Proof.
  induction p as [|a p IH]; cbn; [done|]. by rewrite chr_eqb_refl.
Qed.
Lemma str_drop_prefix_Some p s r : str_drop_prefix p s = Some r <-> s = p +:+ r.
Proof.
  split; [|intros ->; apply str_drop_prefix_app].
  revert s. induction p as [|a p IH]; intros s; cbn; [congruence|].
  destruct s as [|b s]; [done|]. destruct (chr_eqb_spec a b) as [->|]; [|done].
  intros ->%IH. done.
Qed.

(** * Ranging over a map

    Go visits the entries of a map in an unspecified order: [enumerates l m] says that
    [l] is one order in which the loop can meet them. *)
Definition enumerates {A} (l : list (string * A)) (m : gmap string A) : Prop :=
  l ≡ₚ map_to_list m.

Lemma elem_of_enumeration {A} (l : list (string * A)) (m : gmap string A) k v :
  enumerates l m -> (k, v) ∈ l <-> m !! k = Some v.
Proof. unfold enumerates. intros ->. apply elem_of_map_to_list. Qed.

Lemma enumerates_map_to_list {A} (m : gmap string A) : enumerates (map_to_list m) m.
Proof. unfold enumerates. reflexivity. Qed.
#[export] Hint Resolve enumerates_map_to_list : core.
