(* ===== verification/GoStrings.v ===== *)
(** Go's [strings] package as the source uses it: [TrimSpace], [ToLower] on ASCII,
    [Fields], [TrimPrefix], [Trim], and the decimal conversions of [strconv] and
    [fmt].  A string is its bytes, so the white space beyond ASCII is recognised in
    its UTF-8 encoding, from the front and from the back. *)
From stdpp Require Import base strings list.
From Stdlib Require Import Lia ZArith Ascii.
From S2P Require Import Prelude.

(** * White space (unicode.IsSpace) *)
Definition byte_val (a : ascii) : nat := nat_of_ascii a.

(** The ASCII part: tab, line feed, vertical tab, form feed, carriage return, space. *)
Definition space1 (a : ascii) : bool :=
  let n := byte_val a in ((9 <=? n) && (n <=? 13)) || (n =? 32).
(** U+0085 and U+00A0. *)
Definition space2 (a b : ascii) : bool :=
  (byte_val a =? 194) && ((byte_val b =? 133) || (byte_val b =? 160)).
(** U+1680, U+2000..U+200A, U+2028, U+2029, U+202F, U+205F, U+3000. *)
Definition space3 (a b c : ascii) : bool :=
  let x := byte_val a in let y := byte_val b in let z := byte_val c in
  ((x =? 225) && (y =? 154) && (z =? 128))
  || ((x =? 226) && (y =? 128) &&
      (((128 <=? z) && (z <=? 138)) || (z =? 168) || (z =? 169) || (z =? 175)))
  || ((x =? 226) && (y =? 129) && (z =? 159))
  || ((x =? 227) && (y =? 128) && (z =? 128)).

Section Trim.
(** The two- and three-byte encodings, in the order the bytes are met. *)
Variables (p2 : ascii -> ascii -> bool) (p3 : ascii -> ascii -> ascii -> bool).
Fixpoint drop_spaces (l : list ascii) : list ascii :=
  match l with
  | [] => []
  | a :: l1 =>
      if space1 a then drop_spaces l1
      else match l1 with
           | [] => l
           | b :: l2 =>
               if p2 a b then drop_spaces l2
               else match l2 with
                    | [] => l
                    | c :: l3 => if p3 a b c then drop_spaces l3 else l
                    end
           end
  end.
Definition head_space (l : list ascii) : bool :=
  match l with
  | [] => false
  | a :: l1 =>
      space1 a || match l1 with
                  | [] => false
                  | b :: l2 => p2 a b || match l2 with [] => false | c :: _ => p3 a b c end
                  end
  end.
Lemma drop_spaces_ind (P : list ascii -> Prop) :
  (forall l, head_space l = false -> P l) ->
  (forall a l, space1 a = true -> P l -> P (a :: l)) ->
  (forall a b l, space1 a = false -> p2 a b = true -> P l -> P (a :: b :: l)) ->
  (forall a b c l, space1 a = false -> p2 a b = false -> p3 a b c = true -> P l ->
     P (a :: b :: c :: l)) ->
  forall l, P l.
Proof.
  intros H0 H1 H2 H3 l. remember (length l) as n eqn:En.
  revert l En. induction n as [n IH] using lt_wf_ind. intros l ->.
  destruct (head_space l) eqn:E; [|by apply H0].
  destruct l as [|a [|b [|c l]]]; cbn in E; try done.
  - rewrite orb_false_r in E. apply H1; [done|]. by apply H0.
  - destruct (space1 a) eqn:E1; cbn in E; [apply H1; [done|]; by eapply IH; [|done]; cbn; lia|].
    rewrite orb_false_r in E. apply H2; [done..|]. by apply H0.
  - destruct (space1 a) eqn:E1; cbn in E; [apply H1; [done|]; by eapply IH; [|done]; cbn; lia|].
    destruct (p2 a b) eqn:E2; cbn in E; [apply H2; [done..|]; by eapply IH; [|done]; cbn; lia|].
    apply H3; [done..|]. eapply IH; [|done]. cbn; lia.
Qed.
Lemma drop_spaces_fix l : head_space l = false -> drop_spaces l = l.
Proof.
  destruct l as [|a [|b [|c l]]]; cbn; intros H; repeat (case_match; try done);
    by rewrite ?orb_true_r in H.
Qed.
Lemma drop_spaces_1 a l : space1 a = true -> drop_spaces (a :: l) = drop_spaces l.
Proof. cbn. by intros ->. Qed.
Lemma drop_spaces_2 a b l :
  space1 a = false -> p2 a b = true -> drop_spaces (a :: b :: l) = drop_spaces l.
Proof. cbn. by intros -> ->. Qed.
Lemma drop_spaces_3 a b c l :
  space1 a = false -> p2 a b = false -> p3 a b c = true ->
  drop_spaces (a :: b :: c :: l) = drop_spaces l.
Proof. cbn. by intros -> -> ->. Qed.
Lemma head_drop_spaces l : head_space (drop_spaces l) = false.
Proof.
  induction l as [l H|a l H IH|a b l H H' IH|a b c l H H' H'' IH] using drop_spaces_ind.
  - by rewrite drop_spaces_fix.
  - by rewrite drop_spaces_1.
  - by rewrite drop_spaces_2.
  - by rewrite drop_spaces_3.
Qed.
Lemma drop_spaces_idem l : drop_spaces (drop_spaces l) = drop_spaces l.
Proof. apply drop_spaces_fix, head_drop_spaces. Qed.
(** What is dropped is a prefix. *)
Lemma drop_spaces_suffix l : exists p, l = p ++ drop_spaces l.
Proof.
  induction l as [l H|a l H [p IH]|a b l H H' [p IH]|a b c l H H' H'' [p IH]]
    using drop_spaces_ind.
  - exists []. by rewrite drop_spaces_fix.
  - exists (a :: p). rewrite drop_spaces_1 by done. cbn. by rewrite <- IH.
  - exists (a :: b :: p). rewrite drop_spaces_2 by done. cbn. by rewrite <- IH.
  - exists (a :: b :: c :: p). rewrite drop_spaces_3 by done. cbn. by rewrite <- IH.
Qed.
Lemma head_space_app l q : head_space l = true -> head_space (l ++ q) = true.
Proof.
  destruct l as [|a [|b [|c l]]]; cbn; try done; intros H.
  - rewrite orb_false_r in H. by rewrite H.
  - rewrite orb_false_r in H. by rewrite orb_assoc, H.
Qed.
(** A byte that ends no encoding: appending it leaves the dropped part alone. *)
Lemma drop_spaces_snoc l z :
  (forall a, p2 a z = false) -> (forall a b, p3 a b z = false) -> space1 z = true ->
  drop_spaces (l ++ [z]) = match drop_spaces l with [] => [] | l' => l' ++ [z] end.
Proof.
  intros Z2 Z3 Z1.
  induction l as [l H|a l H IH|a b l H H' IH|a b c l H H' H'' IH] using drop_spaces_ind.
  - rewrite (drop_spaces_fix l) by done.
    destruct l as [|a l]; [cbn; by rewrite Z1|].
    apply drop_spaces_fix.
    destruct l as [|b [|c l]]; cbn in *; rewrite ?Z2, ?Z3, ?orb_false_r in *; done.
  - rewrite <- app_comm_cons, !drop_spaces_1 by done. done.
  - rewrite <- !app_comm_cons, !drop_spaces_2 by done. done.
  - rewrite <- !app_comm_cons, !drop_spaces_3 by done. done.
Qed.
End Trim.

(** * strings.TrimSpace *)
Definition trim_left (l : list ascii) : list ascii := drop_spaces space2 space3 l.
Definition trim_right (l : list ascii) : list ascii :=
  reverse (drop_spaces (fun b a => space2 a b) (fun c b a => space3 a b c) (reverse l)).
Definition TrimSpace (s : string) : string := of_bytes (trim_right (trim_left (bytes_of s))).

Lemma trim_right_prefix l : exists q, l = trim_right l ++ q.
Proof.
  unfold trim_right.
  destruct (drop_spaces_suffix (fun b a => space2 a b) (fun c b a => space3 a b c) (reverse l))
    as [p Hp].
  exists (reverse p). rewrite <- reverse_app, <- Hp. by rewrite reverse_involutive.
Qed.

Lemma trim_left_right l : trim_left (trim_right (trim_left l)) = trim_right (trim_left l).
Proof.
  apply drop_spaces_fix.
  destruct (trim_right_prefix (trim_left l)) as [q Hq].
  destruct (head_space space2 space3 (trim_right (trim_left l))) eqn:E; [|done].
  apply (head_space_app _ _ _ q) in E. rewrite <- Hq in E.
  unfold trim_left in E. by rewrite head_drop_spaces in E.
Qed.

Lemma trim_right_idem l : trim_right (trim_right l) = trim_right l.
Proof. unfold trim_right. by rewrite reverse_involutive, drop_spaces_idem. Qed.

(** Trimming twice is trimming once. *)
Lemma TrimSpace_idem s : TrimSpace (TrimSpace s) = TrimSpace s.
Proof. unfold TrimSpace. by rewrite bytes_of_of, trim_left_right, trim_right_idem. Qed.
#[export] Hint Rewrite TrimSpace_idem : str.

Lemma trim_right_snoc_space l z : space1 z = true -> trim_right (l ++ [z]) = trim_right l.
Proof. intros Hz. unfold trim_right. rewrite reverse_snoc. by rewrite drop_spaces_1. Qed.

(** A line feed at the end does not survive. *)
Lemma TrimSpace_nl s : TrimSpace (s +:+ nl_str) = TrimSpace s.
Proof.
  unfold TrimSpace. f_equal. rewrite bytes_of_app. change (bytes_of nl_str) with [NL].
  unfold trim_left. rewrite drop_spaces_snoc.
  - destruct (drop_spaces _ _ (bytes_of s)) as [|a l] eqn:E; [done|].
    by apply trim_right_snoc_space.
  - intros a. unfold space2. cbn. by rewrite andb_false_r.
  - intros a b. unfold space3. cbn. by rewrite !andb_false_r.
  - done.
Qed.

(** A string between two bytes that are no white space and no part of its encodings
    is left alone. *)
Definition solid (a : ascii) : bool := (33 <=? byte_val a) && (byte_val a <=? 126).

Lemma solid_head p2 p3 a l :
  (forall b, p2 a b = false) -> (forall b c, p3 a b c = false) ->
  solid a = true -> head_space p2 p3 (a :: l) = false.
Proof.
  intros H2 H3 Ha. unfold solid in Ha.
  assert (space1 a = false) as H1.
  { unfold space1. apply andb_true_iff in Ha as [?%Nat.leb_le ?%Nat.leb_le].
    apply orb_false_iff. split; [apply andb_false_iff; right; by apply Nat.leb_gt; lia|].
    apply Nat.eqb_neq. lia. }
  cbn. rewrite H1. cbn. destruct l as [|b [|c l]]; rewrite ?H2, ?H3; done.
Qed.

Lemma solid_not_lead a n : solid a = true -> 127 <= n -> (byte_val a =? n) = false.
Proof.
  unfold solid. intros [?%Nat.leb_le ?%Nat.leb_le]%andb_true_iff ?. apply Nat.eqb_neq. lia.
Qed.
Lemma solid_not_above a n : solid a = true -> 127 <= n -> (n <=? byte_val a) = false.
Proof.
  unfold solid. intros [?%Nat.leb_le ?%Nat.leb_le]%andb_true_iff ?. apply Nat.leb_gt. lia.
Qed.

Ltac solid_no H :=
  intros; cbv beta; unfold space2, space3; cbv zeta;
  repeat ((rewrite (solid_not_lead _ _ H) by lia) || (rewrite (solid_not_above _ _ H) by lia));
  rewrite ?andb_false_l, ?orb_false_l, ?andb_false_r, ?orb_false_r; done.

Lemma trim_right_solid l z : solid z = true -> trim_right (l ++ [z]) = l ++ [z].
Proof.
  intros Hz. unfold trim_right. rewrite reverse_snoc, drop_spaces_fix.
  - by rewrite reverse_cons, reverse_involutive.
  - apply solid_head; [solid_no Hz|solid_no Hz|done].
Qed.

Lemma TrimSpace_solid a l z :
  solid a = true -> solid z = true ->
  TrimSpace (of_bytes (a :: l ++ [z])) = of_bytes (a :: l ++ [z]).
Proof.
  intros Ha Hz. unfold TrimSpace. rewrite bytes_of_of. f_equal.
  unfold trim_left. rewrite drop_spaces_fix.
  - rewrite app_comm_cons. by apply trim_right_solid.
  - apply solid_head; [solid_no Ha|solid_no Ha|done].
Qed.

Lemma TrimSpace_solid1 a : solid a = true -> TrimSpace (str1 a) = str1 a.
Proof.
  intros Ha. unfold TrimSpace. change (bytes_of (str1 a)) with [a]. unfold trim_left.
  rewrite drop_spaces_fix; [|apply solid_head; [solid_no Ha|solid_no Ha|done]].
  by rewrite (trim_right_solid [] a Ha : trim_right [a] = [a]).
Qed.

(** A string of visible ASCII characters is its own trim. *)
Lemma TrimSpace_all_solid s :
  Forall (fun a => solid a = true) (bytes_of s) -> TrimSpace s = s.
Proof.
  intros H. rewrite <- (of_bytes_of s).
  destruct (bytes_of s) as [|a l]; [done|]. apply Forall_cons in H as [Ha H].
  destruct l as [|z l _] using rev_ind; [by apply TrimSpace_solid1|].
  apply Forall_app in H as [_ [Hz _]%Forall_cons]. by apply TrimSpace_solid.
Qed.

(** * strings.TrimPrefix, strings.Trim on one character, strings.ToLower *)
Definition TrimPrefix (s p : string) : string := default s (str_drop_prefix p s).

Fixpoint drop_chr (c : ascii) (l : list ascii) : list ascii :=
  match l with [] => [] | a :: l' => if chr_eqb a c then drop_chr c l' else l end.
Definition Trim_chr (s : string) (c : ascii) : string :=
  of_bytes (reverse (drop_chr c (reverse (drop_chr c (bytes_of s))))).

(** ASCII letters only: enough for comparing with ASCII words, since no other
    character is mapped to an ASCII letter of those words. *)
Definition lower_ascii (a : ascii) : ascii :=
  let n := byte_val a in if (65 <=? n) && (n <=? 90) then chr (n + 32) else a.
Fixpoint ToLower (s : string) : string :=
  match s with EmptyString => EmptyString | String a s' => String (lower_ascii a) (ToLower s') end.

(** * Decimal numbers *)
Definition digit_chr (d : Z) : ascii := chr (48 + Z.to_nat d).
Definition chr_digit (a : ascii) : option Z :=
  let n := byte_val a in
  if (48 <=? n) && (n <=? 57) then Some (Z.of_nat n - 48)%Z else None.

Fixpoint dec_digits (fuel : nat) (n : Z) (acc : string) : string :=
  match fuel with
  | O => acc
  | S f =>
      let acc' := String (digit_chr (n mod 10)) acc in
      if (n <? 10)%Z then acc' else dec_digits f (n / 10) acc'
  end.
(** The decimal digits of a natural number; one more step than its binary length is
    enough fuel. *)
Definition print_nat (n : Z) : string := dec_digits (S (Z.to_nat (Z.log2 n))) n "".
Definition print_int (n : Z) : string :=
  if (n <? 0)%Z then String (chr 45) (print_nat (- n)) else print_nat n.

Fixpoint parse_digits (acc : Z) (s : string) : option Z :=
  match s with
  | EmptyString => Some acc
  | String a s' =>
      match chr_digit a with Some d => parse_digits (10 * acc + d) s' | None => None end
  end.
Definition parse_nat (s : string) : option Z :=
  match s with EmptyString => None | _ => parse_digits 0 s end.

(** What can be decided for the ten digits holds for every digit. *)
Lemma digit_check (P : Z -> Prop) `{forall d, Decision (P d)} :
  bool_decide (Forall P (seqZ 0 10)) = true -> forall d, (0 <= d < 10)%Z -> P d.
Proof. intros Hb%bool_decide_eq_true d Hd. rewrite Forall_forall in Hb. apply Hb, elem_of_seqZ. lia. Qed.
Lemma chr_digit_digit_chr d : (0 <= d < 10)%Z -> chr_digit (digit_chr d) = Some d.
Proof.
  revert d. apply (digit_check (fun d => chr_digit (digit_chr d) = Some d)). by vm_compute.
Qed.

Lemma dec_digits_app f n acc : dec_digits f n acc = dec_digits f n "" +:+ acc.
Proof.
  revert n acc. induction f as [|f IH]; intros n acc; cbn -[Z.modulo Z.div digit_chr]; [done|].
  destruct (n <? 10)%Z; [done|].
  rewrite IH, (IH _ (String _ "")), <- str_app_assoc. done.
Qed.

Lemma parse_digits_app acc s t :
  parse_digits acc (s +:+ t) =
  match parse_digits acc s with Some v => parse_digits v t | None => None end.
Proof.
  revert acc. induction s as [|a s IH]; intros acc; cbn; [done|]. destruct (chr_digit a); auto.
Qed.

Lemma parse_dec_digits f n acc :
  (0 <= n < 2 ^ Z.of_nat f)%Z ->
  exists k, (0 <= k)%Z /\
    parse_digits acc (dec_digits f n "") = Some (acc * 10 ^ k + n)%Z.
Proof.
  revert n acc. induction f as [|f IH]; intros n acc Hn.
  { exists 0%Z. cbn in Hn. split; [lia|]. cbn. f_equal. lia. }
  cbn -[Z.modulo Z.div digit_chr].
  destruct (Z.ltb_spec n 10) as [Hlt|Hge].
  - exists 1%Z. split; [lia|]. cbn -[digit_chr].
    rewrite Z.mod_small by lia. rewrite chr_digit_digit_chr by lia. f_equal. lia.
  - rewrite dec_digits_app, parse_digits_app.
    assert (0 <= n / 10 < 2 ^ Z.of_nat f)%Z as Hd.
    { split; [apply Z.div_pos; lia|]. apply Z.div_lt_upper_bound; [lia|].
      rewrite Nat2Z.inj_succ, Z.pow_succ_r in Hn by lia. lia. }
    destruct (IH (n / 10)%Z acc Hd) as (k & Hk & ->).
    exists (Z.succ k). split; [lia|]. cbn -[digit_chr Z.modulo].
    rewrite chr_digit_digit_chr by (apply Z.mod_pos_bound; lia).
    f_equal. rewrite Z.pow_succ_r by lia.
    pose proof (Z.div_mod n 10 ltac:(lia)). lia.
Qed.

Lemma dec_digits_not_empty f n acc : dec_digits (S f) n acc <> "".
Proof.
  cbn -[Z.modulo Z.div digit_chr]. destruct (n <? 10)%Z; [done|].
  rewrite dec_digits_app. by destruct (dec_digits f _ "").
Qed.

Lemma print_nat_fuel n : (0 <= n)%Z -> (0 <= n < 2 ^ Z.of_nat (S (Z.to_nat (Z.log2 n))))%Z.
Proof.
  intros Hn. split; [done|].
  rewrite Nat2Z.inj_succ, Z2Nat.id by apply Z.log2_nonneg.
  destruct (Z.eq_dec n 0) as [->|]; [done|]. apply Z.log2_spec. lia.
Qed.

(** Reading back what was printed gives the number. *)
Lemma parse_print_nat n : (0 <= n)%Z -> parse_nat (print_nat n) = Some n.
Proof.
  intros Hn. unfold parse_nat, print_nat.
  destruct (parse_dec_digits _ n 0 (print_nat_fuel n Hn)) as (k & Hk & H).
  pose proof (dec_digits_not_empty (Z.to_nat (Z.log2 n)) n "").
  destruct (dec_digits _ _ _); [done|]. by rewrite H.
Qed.
