(* ===== verification/GoJson.v ===== *)
(** [encoding/json] as the source uses it: the texts [Marshal] writes, the scanner and
    [unquote] of [Unmarshal], and [compact], which [Marshal] applies to a
    [json.RawMessage].  Texts are byte lists.

    A parsed object keeps, next to each member, the text of its value, because a
    [json.RawMessage] field receives that text.
    Not modelled: the nesting limit of 10000 of [Unmarshal]. *)
From stdpp Require Import base strings list.
From Stdlib Require Import Lia ZArith Ascii.
From S2P Require Import Prelude GoStrings.

Inductive json : Type :=
  | JNull
  | JBool (b : bool)
  | JNum (lit : string)
  | JStr (s : string)
  | JArr (items : list json)
  | JObj (members : list (string * string * json)).

(** * UTF-8 (unicode/utf8): the well-formed encodings of two, three and four bytes *)
Definition in_range (lo hi : nat) (a : ascii) : bool := (lo <=? byte_val a) && (byte_val a <=? hi).
Definition cont (a : ascii) : bool := in_range 128 191 a.
Definition rune2 (a b : ascii) : bool := in_range 194 223 a && cont b.
Definition rune3 (a b c : ascii) : bool :=
  cont c &&
  ((byte_val a =? 224) && in_range 160 191 b
   || in_range 225 236 a && cont b
   || (byte_val a =? 237) && in_range 128 159 b
   || in_range 238 239 a && cont b).
Definition rune4 (a b c d : ascii) : bool :=
  cont c && cont d &&
  ((byte_val a =? 240) && in_range 144 191 b
   || in_range 241 243 a && cont b
   || (byte_val a =? 244) && in_range 128 143 b).
Definition ascii_byte (a : ascii) : bool := byte_val a <? 128.

(** Well-formed UTF-8. *)
Inductive utf8 : list ascii -> Prop :=
  | utf8_nil : utf8 []
  | utf8_1 a l : ascii_byte a = true -> utf8 l -> utf8 (a :: l)
  | utf8_2 a b l : rune2 a b = true -> utf8 l -> utf8 (a :: b :: l)
  | utf8_3 a b c l : rune3 a b c = true -> utf8 l -> utf8 (a :: b :: c :: l)
  | utf8_4 a b c d l : rune4 a b c d = true -> utf8 l -> utf8 (a :: b :: c :: d :: l).

(** * Writing strings ([appendString] with HTML escaping) *)
Definition hex_chr (n : nat) : ascii := if n <? 10 then chr (48 + n) else chr (87 + n).
Definition BSL : ascii := chr 92.

Definition esc_ascii (a : ascii) : list ascii :=
  let n := byte_val a in
  if (n =? 34) || (n =? 92) then [BSL; a]
  else if n =? 8 then [BSL; "b"%char]
  else if n =? 12 then [BSL; "f"%char]
  else if n =? 10 then [BSL; "n"%char]
  else if n =? 13 then [BSL; "r"%char]
  else if n =? 9 then [BSL; "t"%char]
  else if (n <? 32) || (n =? 60) || (n =? 62) || (n =? 38) then
    [BSL; "u"%char; "0"%char; "0"%char; hex_chr (n / 16); hex_chr (n mod 16)]
  else [a].

(** U+2028 and U+2029. *)
Definition line_sep (a b c : ascii) : bool :=
  (byte_val a =? 226) && (byte_val b =? 128) && ((byte_val c =? 168) || (byte_val c =? 169)).
Definition esc_line_sep (c : ascii) : list ascii :=
  bytes_of "\u202" ++ [hex_chr (byte_val c mod 16)].
Definition esc_bad : list ascii := bytes_of "\ufffd".

Fixpoint esc (l : list ascii) : list ascii :=
  match l with
  | [] => []
  | a :: l1 =>
      if ascii_byte a then esc_ascii a ++ esc l1
      else
        let bad := esc_bad ++ esc l1 in
        match l1 with
        | [] => bad
        | b :: l2 =>
            if rune2 a b then a :: b :: esc l2
            else match l2 with
                 | [] => bad
                 | c :: l3 =>
                     if rune3 a b c then
                       (if line_sep a b c then esc_line_sep c else [a; b; c]) ++ esc l3
                     else match l3 with
                          | [] => bad
                          | d :: l4 => if rune4 a b c d then a :: b :: c :: d :: esc l4 else bad
                          end
                 end
        end
  end.

Definition text_str (s : string) : list ascii := DQ :: esc (bytes_of s) ++ [DQ].

(** * Reading strings (the scanner and [unquote]) *)
Definition hex_val (a : ascii) : option nat :=
  let n := byte_val a in
  if (48 <=? n) && (n <=? 57) then Some (n - 48)
  else if (97 <=? n) && (n <=? 102) then Some (n - 87)
  else if (65 <=? n) && (n <=? 70) then Some (n - 55)
  else None.
Definition u4 (a b c d : ascii) : option N :=
  match hex_val a, hex_val b, hex_val c, hex_val d with
  | Some x, Some y, Some z, Some w =>
      Some (4096 * N.of_nat x + 256 * N.of_nat y + 16 * N.of_nat z + N.of_nat w)%N
  | _, _, _, _ => None
  end.
Definition chrN (n : N) : ascii := ascii_of_N n.
Definition RuneError : N := 65533.
(** [utf8.AppendRune]; a surrogate becomes U+FFFD. *)
Definition append_rune (r : N) : list ascii :=
  let r := if ((55296 <=? r) && (r <=? 57343))%N then RuneError else r in
  (if r <? 128 then [chrN r]
   else if r <? 2048 then [chrN (192 + r / 64); chrN (128 + r mod 64)]
   else if r <? 65536 then
     [chrN (224 + r / 4096); chrN (128 + (r / 64) mod 64); chrN (128 + r mod 64)]
   else [chrN (240 + r / 262144); chrN (128 + (r / 4096) mod 64);
         chrN (128 + (r / 64) mod 64); chrN (128 + r mod 64)])%N.
Definition is_high (r : N) : bool := ((55296 <=? r) && (r <=? 56319))%N.
Definition is_low (r : N) : bool := ((56320 <=? r) && (r <=? 57343))%N.
Definition pair_rune (r r2 : N) : N := (65536 + 1024 * (r - 55296) + (r2 - 56320))%N.
#[global] Arguments pair_rune : simpl never.
#[global] Arguments append_rune : simpl never.
#[global] Arguments is_high : simpl never.
#[global] Arguments is_low : simpl never.
#[global] Arguments u4 : simpl never.
Definition simple_esc (e : ascii) : option ascii :=
  let n := byte_val e in
  if (n =? 34) || (n =? 92) || (n =? 47) then Some e
  else if n =? 98 then Some (chr 8) else if n =? 102 then Some (chr 12)
  else if n =? 110 then Some (chr 10) else if n =? 114 then Some (chr 13)
  else if n =? 116 then Some (chr 9) else None.

Definition push (p : list ascii) (r : option (list ascii * list ascii))
  : option (list ascii * list ascii) :=
  match r with Some (s, rest) => Some (p ++ s, rest) | None => None end.

(** From just behind the opening quote to just behind the closing one. *)
Fixpoint unq (l : list ascii) : option (list ascii * list ascii) :=
  match l with
  | [] => None
  | a :: l1 =>
      if chr_eqb a DQ then Some ([], l1)
      else if chr_eqb a BSL then
        match l1 with
        | [] => None
        | e :: l2 =>
            if chr_eqb e "u"%char then
              match l2 with
              | h1 :: h2 :: h3 :: h4 :: l6 =>
                  match u4 h1 h2 h3 h4 with
                  | None => None
                  | Some r =>
                      let alone := push (append_rune r) (unq l6) in
                      match l6 with
                      | x :: y :: k1 :: k2 :: k3 :: k4 :: l12 =>
                          if is_high r && chr_eqb x BSL && chr_eqb y "u"%char then
                            match u4 k1 k2 k3 k4 with
                            | Some r2 =>
                                if is_low r2 then
                                  push (append_rune (pair_rune r r2)) (unq l12)
                                else alone
                            | None => alone
                            end
                          else alone
                      | _ => alone
                      end
                  end
              | _ => None
              end
            else match simple_esc e with
                 | Some c => push [c] (unq l2)
                 | None => None
                 end
        end
      else if byte_val a <? 32 then None
      else if ascii_byte a then push [a] (unq l1)
      else
        let bad := push (append_rune RuneError) (unq l1) in
        match l1 with
        | [] => bad
        | b :: l2 =>
            if rune2 a b then push [a; b] (unq l2)
            else match l2 with
                 | [] => bad
                 | c :: l3 =>
                     if rune3 a b c then push [a; b; c] (unq l3)
                     else match l3 with
                          | [] => bad
                          | d :: l4 => if rune4 a b c d then push [a; b; c; d] (unq l4) else bad
                          end
                 end
        end
  end.

Lemma chr_byte_val a : chr (byte_val a) = a.
Proof. apply ascii_nat_embedding. Qed.

Lemma not_ascii_special a : ascii_byte a = false ->
  chr_eqb a DQ = false /\ chr_eqb a BSL = false /\ (byte_val a <? 32) = false.
Proof.
  unfold ascii_byte. intros H%Nat.ltb_ge. split_and!.
  - apply chr_eqb_neq. intros ->. change (byte_val DQ) with 34 in H. lia.
  - apply chr_eqb_neq. intros ->. change (byte_val BSL) with 92 in H. lia.
  - apply Nat.ltb_ge. lia.
Qed.

Lemma unq_u4 h1 h2 h3 h4 r l :
  u4 h1 h2 h3 h4 = Some r -> is_high r = false ->
  unq (BSL :: "u"%char :: h1 :: h2 :: h3 :: h4 :: l) = push (append_rune r) (unq l).
Proof.
  intros Hu Hr. change (unq (BSL :: "u"%char :: h1 :: h2 :: h3 :: h4 :: l)) with
    (match u4 h1 h2 h3 h4 with
     | None => None
     | Some r =>
         let alone := push (append_rune r) (unq l) in
         match l with
         | x :: y :: k1 :: k2 :: k3 :: k4 :: l12 =>
             if is_high r && chr_eqb x BSL && chr_eqb y "u"%char then
               match u4 k1 k2 k3 k4 with
               | Some r2 =>
                   if is_low r2 then
                     push (append_rune (pair_rune r r2)) (unq l12)
                   else alone
               | None => alone
               end
             else alone
         | _ => alone
         end
     end).
  rewrite Hu. cbv zeta. rewrite Hr.
  by destruct l as [|? [|? [|? [|? [|? [|? l]]]]]].
Qed.

Lemma unq_esc_ascii a rest :
  ascii_byte a = true -> unq (esc_ascii a ++ rest) = push [a] (unq rest).
Proof.
  destruct a as [[] [] [] [] [] [] [] []]; intros H; try discriminate H;
    try reflexivity;
    lazymatch goal with |- unq (esc_ascii ?a ++ rest) = _ =>
      exact (unq_u4 "0" "0" (hex_chr (byte_val a / 16)) (hex_chr (byte_val a mod 16))
               (N.of_nat (byte_val a)) rest eq_refl eq_refl)
    end.
Qed.

Lemma ascii_byte_false_lead a lo : in_range lo 255 a = true -> 128 <= lo -> ascii_byte a = false.
Proof.
  unfold in_range, ascii_byte. intros [?%Nat.leb_le ?]%andb_true_iff ?. apply Nat.ltb_ge. lia.
Qed.

Ltac byte_arith :=
  unfold rune2, rune3, rune4, cont, in_range, ascii_byte, line_sep in *;
  repeat match goal with
  | H : _ && _ = true |- _ => apply andb_true_iff in H as [? ?]
  | H : _ || _ = true |- _ => apply orb_true_iff in H as [?|?]
  | H : (_ <=? _) = true |- _ => apply Nat.leb_le in H
  | H : (_ =? _) = true |- _ => apply Nat.eqb_eq in H
  end.

Lemma rune2_not_ascii a b : rune2 a b = true -> ascii_byte a = false.
Proof. intros H. byte_arith; apply Nat.ltb_ge; lia. Qed.
Lemma rune3_not_ascii a b c : rune3 a b c = true -> ascii_byte a = false /\ rune2 a b = false.
Proof.
  intros H. byte_arith; (split; [apply Nat.ltb_ge; lia|]);
    apply andb_false_iff; left; apply andb_false_iff; right; apply Nat.leb_gt; lia.
Qed.
Lemma rune4_not_ascii a b c d :
  rune4 a b c d = true -> ascii_byte a = false /\ rune2 a b = false /\ rune3 a b c = false.
Proof.
  intros H. byte_arith; (split_and!;
    [apply Nat.ltb_ge; lia
    |apply andb_false_iff; left; apply andb_false_iff; right; apply Nat.leb_gt; lia
    |apply andb_false_iff; right; repeat (apply orb_false_iff; split);
     apply andb_false_iff; left; first
       [apply Nat.eqb_neq; lia|apply andb_false_iff; right; apply Nat.leb_gt; lia]]).
Qed.

Lemma unq_rune2 a b l : rune2 a b = true -> unq (a :: b :: l) = push [a; b] (unq l).
Proof.
  intros H. pose proof (rune2_not_ascii _ _ H) as Ha.
  destruct (not_ascii_special a Ha) as (E1 & E2 & E3). cbn [unq]. by rewrite E1, E2, E3, Ha, H.
Qed.
Lemma unq_rune3 a b c l : rune3 a b c = true -> unq (a :: b :: c :: l) = push [a; b; c] (unq l).
Proof.
  intros H. destruct (rune3_not_ascii _ _ _ H) as [Ha H2].
  destruct (not_ascii_special a Ha) as (E1 & E2 & E3). cbn [unq]. by rewrite E1, E2, E3, Ha, H2, H.
Qed.
Lemma unq_rune4 a b c d l :
  rune4 a b c d = true -> unq (a :: b :: c :: d :: l) = push [a; b; c; d] (unq l).
Proof.
  intros H. destruct (rune4_not_ascii _ _ _ _ H) as (Ha & H2 & H3).
  destruct (not_ascii_special a Ha) as (E1 & E2 & E3). cbn [unq]. by rewrite E1, E2, E3, Ha, H2, H3, H.
Qed.

Lemma unq_line_sep a b c l :
  line_sep a b c = true -> unq (esc_line_sep c ++ l) = push [a; b; c] (unq l).
Proof.
  intros H. byte_arith.
  all: rewrite <- (chr_byte_val a), <- (chr_byte_val b), <- (chr_byte_val c).
  all: repeat match goal with E : byte_val _ = _ |- _ => rewrite E; clear E end.
  - exact (unq_u4 "2" "0" "2" "8" 8232%N l eq_refl eq_refl).
  - exact (unq_u4 "2" "0" "2" "9" 8233%N l eq_refl eq_refl).
Qed.

(** A string of well-formed UTF-8 is read back as it was written. *)
Lemma unq_esc l rest : utf8 l -> unq (esc l ++ DQ :: rest) = Some (l, rest).
Proof.
  intros H. induction H as [|a l Ha H IH|a b l Hr H IH|a b c l Hr H IH|a b c d l Hr H IH].
  - reflexivity.
  - cbn [esc]. rewrite Ha, <- app_assoc, unq_esc_ascii by done. by rewrite IH.
  - cbn [esc]. rewrite (rune2_not_ascii _ _ Hr), Hr. cbn [app].
    rewrite unq_rune2 by done. by rewrite IH.
  - cbn [esc]. destruct (rune3_not_ascii _ _ _ Hr) as [Ha H2]. rewrite Ha, H2, Hr.
    rewrite <- app_assoc. destruct (line_sep a b c) eqn:E.
    + rewrite unq_line_sep with (a := a) (b := b) by done. by rewrite IH.
    + cbn [app]. rewrite unq_rune3 by done. by rewrite IH.
  - cbn [esc]. destruct (rune4_not_ascii _ _ _ _ Hr) as (Ha & H2 & H3).
    rewrite Ha, H2, H3, Hr. cbn [app]. rewrite unq_rune4 by done. by rewrite IH.
Qed.

(** Printable ASCII is well-formed UTF-8. *)
Lemma utf8_ascii l : Forall (fun a => ascii_byte a = true) l -> utf8 l.
Proof. induction 1; by constructor. Qed.

Lemma utf8_app l1 l2 : utf8 l1 -> utf8 l2 -> utf8 (l1 ++ l2).
Proof.
  induction 1; cbn; intros ?; [done|apply utf8_1|apply utf8_2|apply utf8_3|apply utf8_4]; auto.
Qed.

(** * Numbers *)
Definition num_char (a : ascii) : bool :=
  let n := byte_val a in
  (in_range 48 57 a) || (n =? 45) || (n =? 43) || (n =? 46) || (n =? 101) || (n =? 69).
Definition is_digit (a : ascii) : bool := in_range 48 57 a.

Fixpoint span (p : ascii -> bool) (l : list ascii) : list ascii * list ascii :=
  match l with
  | [] => ([], [])
  | a :: l' => if p a then let (x, y) := span p l' in (a :: x, y) else ([], l)
  end.

(** The JSON grammar of a number: sign, integer part, fraction, exponent. *)
Definition num_exp (l : list ascii) : bool :=
  match l with
  | [] => true
  | e :: l1 =>
      ((byte_val e =? 101) || (byte_val e =? 69)) &&
      let l2 := match l1 with
                | s :: l2 => if (byte_val s =? 43) || (byte_val s =? 45) then l2 else l1
                | [] => l1
                end in
      match span is_digit l2 with ([], _) => false | (_, []) => true | _ => false end
  end.
Definition num_frac (l : list ascii) : bool :=
  match l with
  | d :: l1 =>
      if byte_val d =? 46 then
        match span is_digit l1 with ([], _) => false | (_, l2) => num_exp l2 end
      else num_exp l
  | [] => true
  end.
Definition valid_num (l : list ascii) : bool :=
  let l := match l with s :: l' => if byte_val s =? 45 then l' else l | [] => l end in
  match span is_digit l with
  | ([], _) => false
  | (z :: ds, l2) => (negb (byte_val z =? 48) || bool_decide (ds = [])) && num_frac l2
  end.

(** * Values *)
Definition ws (a : ascii) : bool :=
  let n := byte_val a in (n =? 32) || (n =? 9) || (n =? 10) || (n =? 13).
Fixpoint skip_ws (l : list ascii) : list ascii :=
  match l with [] => [] | a :: l' => if ws a then skip_ws l' else l end.

Fixpoint strip (p l : list ascii) : option (list ascii) :=
  match p, l with
  | [], _ => Some l
  | a :: p', b :: l' => if chr_eqb a b then strip p' l' else None
  | _, _ => None
  end.

Definition LBRACE : ascii := chr 123.
Definition RBRACE : ascii := chr 125.
Definition LBRACK : ascii := chr 91.
Definition RBRACK : ascii := chr 93.
Definition COMMA : ascii := chr 44.
Definition COLON : ascii := chr 58.

(** What was read between [l] and its remainder [rest]. *)
Definition consumed (l rest : list ascii) : string := of_bytes (take (length l - length rest) l).

(** [fuel] bounds the number of values and separators read: twice the length of the
    text and one more is enough ([value_fuel]). *)
Fixpoint value (fuel : nat) (l : list ascii) {struct fuel} : option (json * list ascii) :=
  match fuel with
  | O => None
  | S f =>
      match l with
      | [] => None
      | a :: l1 =>
          if chr_eqb a DQ then
            match unq l1 with Some (s, r) => Some (JStr (of_bytes s), r) | None => None end
          else if chr_eqb a LBRACE then
            match skip_ws l1 with
            | b :: r => if chr_eqb b RBRACE then Some (JObj [], r)
                        else match members f (b :: r) with
                             | Some (ms, r') => Some (JObj ms, r')
                             | None => None
                             end
            | [] => None
            end
          else if chr_eqb a LBRACK then
            match skip_ws l1 with
            | b :: r => if chr_eqb b RBRACK then Some (JArr [], r)
                        else match items f (b :: r) with
                             | Some (vs, r') => Some (JArr vs, r')
                             | None => None
                             end
            | [] => None
            end
          else match strip (bytes_of "true") l with
          | Some r => Some (JBool true, r)
          | None =>
          match strip (bytes_of "false") l with
          | Some r => Some (JBool false, r)
          | None =>
          match strip (bytes_of "null") l with
          | Some r => Some (JNull, r)
          | None =>
              let (n, r) := span num_char l in
              if valid_num n then Some (JNum (of_bytes n), r) else None
          end end end
      end
  end
(** The items of an array from the first one to the closing bracket. *)
with items (fuel : nat) (l : list ascii) {struct fuel} : option (list json * list ascii) :=
  match fuel with
  | O => None
  | S f =>
      match value f (skip_ws l) with
      | None => None
      | Some (v, r) =>
          match skip_ws r with
          | c :: r' =>
              if chr_eqb c COMMA then
                match items f r' with Some (vs, r2) => Some (v :: vs, r2) | None => None end
              else if chr_eqb c RBRACK then Some ([v], r')
              else None
          | [] => None
          end
      end
  end
(** The members of an object from the first key to the closing brace. *)
with members (fuel : nat) (l : list ascii) {struct fuel}
  : option (list (string * string * json) * list ascii) :=
  match fuel with
  | O => None
  | S f =>
      match skip_ws l with
      | q :: l1 =>
          if chr_eqb q DQ then
            match unq l1 with
            | Some (k, r) =>
                match skip_ws r with
                | c :: r1 =>
                    if chr_eqb c COLON then
                      let v0 := skip_ws r1 in
                      match value f v0 with
                      | None => None
                      | Some (v, r2) =>
                          let m := (of_bytes k, consumed v0 r2, v) in
                          match skip_ws r2 with
                          | d :: r3 =>
                              if chr_eqb d COMMA then
                                match members f r3 with
                                | Some (ms, r4) => Some (m :: ms, r4)
                                | None => None
                                end
                              else if chr_eqb d RBRACE then Some ([m], r3)
                              else None
                          | [] => None
                          end
                      end
                    else None
                | [] => None
                end
            | None => None
            end
          else None
      | [] => None
      end
  end.

(** [checkValid] and the parse of a whole text. *)
Definition parse (s : string) : option json :=
  let l := skip_ws (bytes_of s) in
  match value (S (2 * length l)) l with
  | Some (v, r) => match skip_ws r with [] => Some v | _ => None end
  | None => None
  end.

(** ** The fuel of [parse] is enough: more of it changes nothing *)
Lemma skip_ws_length l : length (skip_ws l) <= length l.
Proof. induction l as [|a l IH]; cbn; [done|]. destruct (ws a); cbn; lia. Qed.

Lemma strip_length p l r : strip p l = Some r -> length r + length p = length l.
Proof.
  revert l. induction p as [|a p IH]; intros [|b l]; cbn; try done.
  - by intros [= <-].
  - intros [= <-]. cbn. lia.
  - destruct (chr_eqb a b); [|done]. intros ?%IH. lia.
Qed.

Lemma span_length p l : length (fst (span p l)) + length (snd (span p l)) = length l.
Proof.
  induction l as [|a l IH]; cbn; [done|]. destruct (p a); [|done].
  destruct (span p l). cbn in *. lia.
Qed.

Lemma push_Some p r s rest :
  push p r = Some (s, rest) -> exists s', r = Some (s', rest) /\ s = p ++ s'.
Proof. unfold push. destruct r as [[]|]; [|done]. intros [= <- <-]. eauto. Qed.

Lemma unq_length l s r : unq l = Some (s, r) -> length r < length l.
Proof.
  remember (length l) as n eqn:En. revert l s r En.
  induction n as [n IH] using lt_wf_ind. intros l s r ->.
  assert (forall l' p, length l' < length l -> push p (unq l') = Some (s, r) ->
    length r < length l) as K.
  { intros l' p Hl (s' & Hu & _)%push_Some. pose proof (IH _ Hl l' s' r eq_refl Hu). lia. }
  destruct l as [|a l]; cbn [unq]; [done|]. cbn in K.
  repeat match goal with
  | |- (let _ := _ in _) = _ -> _ => cbv zeta
  | |- None = Some _ -> _ => done
  | |- Some _ = Some _ -> _ => intros [= <- <-]; cbn; lia
  | |- push _ (unq _) = Some _ -> _ => apply K; cbn; lia
  | |- match ?x with _ => _ end = Some _ -> _ => destruct x
  end.
Qed.

Lemma consumes f :
  (forall l v r, value f l = Some (v, r) -> length r < length l)
  /\ (forall l vs r, items f l = Some (vs, r) -> length r < length l)
  /\ (forall l ms r, members f l = Some (ms, r) -> length r < length l).
Proof.
  induction f as [|f (IHv & IHi & IHm)]; [by split_and!|]. split_and!.
  - intros [|a l] v r; cbn [value]; [done|]. pose proof (skip_ws_length l).
    pose proof (span_length num_char (a :: l)) as Hs.
    repeat case_match; intros [=]; subst;
      repeat match goal with
      | H : unq _ = Some _ |- _ => apply unq_length in H
      | H : items _ _ = Some _ |- _ => apply IHi in H
      | H : members _ _ = Some _ |- _ => apply IHm in H
      | H : strip _ _ = Some _ |- _ => apply strip_length in H
      | H : skip_ws _ = _ |- _ => rewrite H in *; clear H
      end; cbn [fst snd length bytes_of] in *; try lia.
    match goal with H : valid_num ?n = true |- _ => destruct n; [done|] end.
    cbn [length] in *. lia.
  - intros l v r; cbn [items]. pose proof (skip_ws_length l).
    destruct (value f (skip_ws l)) as [[w r1]|] eqn:E; [|done]. apply IHv in E.
    pose proof (skip_ws_length r1). destruct (skip_ws r1) as [|c r2]; [done|]. cbn in *.
    repeat case_match; intros [=]; subst; [|lia].
    match goal with H : items _ _ = Some _ |- _ => apply IHi in H end. lia.
  - intros l v r; cbn [members]. pose proof (skip_ws_length l).
    destruct (skip_ws l) as [|q l1]; [done|]. destruct (chr_eqb q DQ); [|done].
    destruct (unq l1) as [[k r0]|] eqn:E; [|done]. apply unq_length in E.
    pose proof (skip_ws_length r0). destruct (skip_ws r0) as [|c r1]; [done|].
    destruct (chr_eqb c COLON); [|done]. cbv zeta. pose proof (skip_ws_length r1).
    destruct (value f (skip_ws r1)) as [[w r2]|] eqn:E2; [|done]. apply IHv in E2.
    pose proof (skip_ws_length r2). destruct (skip_ws r2) as [|d r3]; [done|]. cbn in *.
    repeat case_match; intros [=]; subst; [|lia].
    match goal with H : members _ _ = Some _ |- _ => apply IHm in H end. lia.
Qed.

(** One step of each of the three, as equations. *)
Lemma value_S f l : value (S f) l = ltac:(let t := eval cbn [value] in (value (S f) l) in exact t).
Proof. reflexivity. Qed.
Lemma items_S f l : items (S f) l = ltac:(let t := eval cbn [items] in (items (S f) l) in exact t).
Proof. reflexivity. Qed.
Lemma members_S f l :
  members (S f) l = ltac:(let t := eval cbn [members] in (members (S f) l) in exact t).
Proof. reflexivity. Qed.

Lemma value_more f :
  (forall l, 2 * length l < f -> value (S f) l = value f l)
  /\ (forall l, S (2 * length l) < f -> items (S f) l = items f l)
  /\ (forall l, 2 * length l < f -> members (S f) l = members f l).
Proof.
  induction f as [|f (IHv & IHi & IHm)]; [split_and!; intros; lia|].
  destruct (consumes f) as (Cv & Ci & Cm). split_and!.
  - intros [|a l] Hl; [done|]. cbn [length] in Hl.
    rewrite (value_S (S f)), (value_S f (a :: l)).
    pose proof (skip_ws_length l).
    destruct (chr_eqb a DQ); [done|]. destruct (chr_eqb a LBRACE).
    { destruct (skip_ws l) as [|b r]; [done|]. destruct (chr_eqb b RBRACE); [done|].
      rewrite IHm; [done|]. cbn [length] in *. lia. }
    destruct (chr_eqb a LBRACK); [|done].
    destruct (skip_ws l) as [|b r]; [done|]. destruct (chr_eqb b RBRACK); [done|].
    rewrite IHi; [done|]. cbn [length] in *. lia.
  - intros l Hl. pose proof (skip_ws_length l).
    rewrite (items_S (S f)), (items_S f l).
    rewrite IHv by lia. destruct (value f (skip_ws l)) as [[w r1]|] eqn:E; [|done].
    apply Cv in E. pose proof (skip_ws_length r1).
    destruct (skip_ws r1) as [|c r2]; [done|]. cbn [length] in *. by rewrite IHi by lia.
  - intros l Hl. pose proof (skip_ws_length l).
    rewrite (members_S (S f)), (members_S f l).
    destruct (skip_ws l) as [|q l1]; [done|]. destruct (chr_eqb q DQ); [|done].
    destruct (unq l1) as [[k r0]|] eqn:E; [|done]. apply unq_length in E.
    pose proof (skip_ws_length r0). destruct (skip_ws r0) as [|c r1]; [done|].
    destruct (chr_eqb c COLON); [|done]. cbv zeta. pose proof (skip_ws_length r1). cbn [length] in *.
    rewrite IHv by lia. destruct (value f (skip_ws r1)) as [[w r2]|] eqn:E2; [|done].
    apply Cv in E2. pose proof (skip_ws_length r2).
    destruct (skip_ws r2) as [|d r3]; [done|]. cbn [length] in *. by rewrite IHm by lia.
Qed.

(** Any fuel above twice the length gives the result of [parse]. *)
Lemma value_fuel f l : 2 * length l < f -> value f l = value (S (2 * length l)) l.
Proof.
  intros Hf. remember (f - S (2 * length l)) as k eqn:Ek.
  assert (f = k + S (2 * length l)) as -> by lia. clear.
  induction k as [|k IH]; [done|].
  destruct (value_more (k + S (2 * length l))) as [H _]. rewrite <- IH. apply H.
  apply Nat.lt_lt_add_l, Nat.lt_succ_diag_r.
Qed.

(** ** What was read does not depend on what follows it *)
Lemma unq_quote l s r : unq l = Some (s, r) -> DQ ∈ l.
Proof.
  remember (length l) as n eqn:En. revert l s r En.
  induction n as [n IH] using lt_wf_ind. intros l s r ->.
  assert (forall l' p, length l' < length l -> push p (unq l') = Some (s, r) -> DQ ∈ l') as K.
  { intros l' p Hl (s' & Hu & _)%push_Some. by eapply IH. }
  destruct l as [|a l]; cbn [unq]; [done|].
  destruct (chr_eqb_spec a DQ) as [->|_]; [intros _; left|].
  repeat match goal with
  | |- (let _ := _ in _) = _ -> _ => cbv zeta
  | |- None = Some _ -> _ => done
  | |- push _ (unq ?l') = Some _ -> _ =>
      let H := fresh in intros H%K; [|cbn; lia]; rewrite !elem_of_cons; rewrite ?elem_of_cons in H; tauto
  | |- match ?x with _ => _ end = Some _ -> _ => destruct x
  end.
Qed.

Lemma rune3_quote a c : rune3 a DQ c = false.
Proof. unfold rune3, cont. cbn. by rewrite !andb_false_r. Qed.
Lemma rune4_quote2 a c d : rune4 a DQ c d = false.
Proof. unfold rune4, cont. cbn. by rewrite !andb_false_r. Qed.
Lemma rune4_quote3 a b d : rune4 a b DQ d = false.
Proof. unfold rune4. change (cont DQ) with false. done. Qed.

Lemma unq_u_some l s r : unq (BSL :: "u"%char :: l) = Some (s, r) ->
  exists h1 h2 h3 h4 l', l = h1 :: h2 :: h3 :: h4 :: l'.
Proof.
  destruct l as [|h1 [|h2 [|h3 [|h4 l]]]]; intros H; [discriminate H..|]. by exists h1, h2, h3, h4, l.
Qed.

Lemma unq_app x l s r : unq l = Some (s, r) -> unq (l ++ x) = Some (s, r ++ x).
Proof.
  remember (length l) as n eqn:En. revert l s r En.
  induction n as [n IH] using lt_wf_ind. intros l s r ->.
  assert (forall l' p, length l' < length l -> push p (unq l') = Some (s, r) ->
    push p (unq (l' ++ x)) = Some (s, r ++ x)) as K.
  { intros l' p Hl (s' & Hu & ->)%push_Some. by rewrite (IH _ Hl l' s' r eq_refl Hu). }
  destruct l as [|a l]; [done|]. cbn [app unq]. destruct (chr_eqb a DQ); [by intros [= <- <-]|].
  destruct (chr_eqb a BSL).
  - destruct l as [|e l]; [done|]. cbn [app]. destruct (chr_eqb e "u"%char).
    + destruct l as [|h1 [|h2 [|h3 [|h4 l6]]]]; try done. cbn [app].
      destruct (u4 h1 h2 h3 h4) as [rn|]; [|done]. cbv zeta.
      assert (push (append_rune rn) (unq l6) = Some (s, r) ->
        (forall y z w, l6 = y :: z :: w -> chr_eqb y BSL && chr_eqb z "u"%char = true -> 4 <= length w) ) as Hlen.
      { intros (s' & Hu & _)%push_Some y z w -> [->%chr_eqb_eq ->%chr_eqb_eq]%andb_true_iff.
        apply unq_u_some in Hu as (? & ? & ? & ? & ? & ->). cbn. lia. }
      assert (push (append_rune rn) (unq l6) = Some (s, r) -> l6 <> [] /\ (forall y, l6 = [y] -> chr_eqb y BSL = false)) as Hone.
      { intros (s' & Hu & _)%push_Some. split; [by intros ->|].
        intros y ->. apply unq_quote, list_elem_of_singleton in Hu as <-. done. }
      destruct l6 as [|y [|z w]].
      * intros H. by destruct (Hone H).
      * intros H. destruct (Hone H) as [_ Hy]. rewrite <- (K [y] _ ltac:(cbn; lia) H). cbn [app].
        destruct x as [|x1 [|x2 [|x3 [|x4 [|x5 x]]]]]; try done. by rewrite (Hy y eq_refl), andb_false_r.
      * cbn [app]. destruct (is_high rn && chr_eqb y BSL && chr_eqb z "u"%char) eqn:Eb.
        -- rewrite <- andb_assoc in Eb. apply andb_true_iff in Eb as [_ Eb].
           destruct w as [|k1 [|k2 [|k3 [|k4 w]]]];
             try (intros H; specialize (Hlen H _ _ _ eq_refl Eb); cbn in Hlen; lia).
           cbn [app]. destruct (u4 k1 k2 k3 k4) as [r2|]; [destruct (is_low r2)|];
             apply K; cbn; lia.
        -- destruct w as [|k1 [|k2 [|k3 [|k4 w]]]]; cbn [app]; intros H;
             apply K in H; try (cbn; lia); cbn [app] in H;
             repeat match goal with |- context [match x with _ => _ end] => destruct x end; done.
    + destruct (simple_esc e); [|done]. apply K. cbn. lia.
  - destruct (byte_val a <? 32); [done|]. destruct (ascii_byte a); [apply K; cbn; lia|]. cbv zeta.
    destruct l as [|b l2]; [done|]. cbn [app]. destruct (rune2 a b); [apply K; cbn; lia|].
    destruct l2 as [|c l3].
    + intros H. assert (b = DQ) as ->.
      { apply push_Some in H as (s' & Hu & _). by apply unq_quote, list_elem_of_singleton in Hu. }
      apply K in H; [|cbn; lia]. cbn [app] in *. destruct x as [|c x]; [done|]. rewrite rune3_quote.
      destruct x as [|d x]; [done|]. by rewrite rune4_quote2.
    + cbn [app]. destruct (rune3 a b c); [apply K; cbn; lia|]. destruct l3 as [|d l4].
      * intros H. assert (b = DQ \/ c = DQ) as Hq.
        { apply push_Some in H as (s' & Hu & _). apply unq_quote in Hu.
          rewrite !elem_of_cons, elem_of_nil in Hu. naive_solver. }
        apply K in H; [|cbn; lia]. cbn [app] in *. destruct x as [|d x]; [done|].
        destruct Hq as [-> | ->]; by rewrite ?rune4_quote2, ?rune4_quote3.
      * cbn [app]. destruct (rune4 a b c d); apply K; cbn; lia.
Qed.

(** No number goes on into [x]. *)
Definition ends_number (x : list ascii) : bool :=
  match x with [] => true | a :: _ => negb (num_char a) end.

Lemma skip_ws_app l x a r : skip_ws l = a :: r -> skip_ws (l ++ x) = a :: r ++ x.
Proof.
  induction l as [|b l IH]; cbn; [done|]. destruct (ws b); [done|]. by intros [= -> ->].
Qed.

Lemma strip_app p l x r : strip p l = Some r -> strip p (l ++ x) = Some (r ++ x).
Proof.
  revert l. induction p as [|a p IH]; intros [|b l]; cbn; try done.
  - by intros [= <-].
  - by intros [= <-].
  - destruct (chr_eqb a b); [apply IH|done].
Qed.

Lemma span_app p l x :
  match x with [] => True | a :: _ => p a = false end ->
  span p (l ++ x) = (fst (span p l), snd (span p l) ++ x).
Proof.
  intros Hx. induction l as [|a l IH]; cbn.
  - destruct x as [|b x]; [done|]. cbn. by rewrite Hx.
  - destruct (p a); [|done]. rewrite IH. by destruct (span p l).
Qed.

Lemma strip_other a p b l : chr_eqb a b = false -> strip (a :: p) (b :: l) = None.
Proof. cbn. by intros ->. Qed.

Lemma strip_head a p b l r : strip (a :: p) (b :: l) = Some r -> b = a.
Proof. cbn. destruct (chr_eqb_spec a b); [done|discriminate]. Qed.

Lemma consumed_app l r x : length r <= length l -> consumed (l ++ x) (r ++ x) = consumed l r.
Proof.
  intros H. unfold consumed. rewrite !length_app, take_app_le by lia. do 2 f_equal. lia.
Qed.

(** The keywords are no numbers. *)
Lemma number_no_keyword a l n r :
  span num_char (a :: l) = (n, r) -> valid_num n = true -> forall x,
  strip (bytes_of "true") (a :: x) = None /\ strip (bytes_of "false") (a :: x) = None
  /\ strip (bytes_of "null") (a :: x) = None.
Proof.
  cbn [span]. destruct (num_char a) eqn:Ea.
  - intros _ _ x. split_and!; apply strip_other, chr_eqb_neq; intros <-; by vm_compute in Ea.
  - intros [= <- <-]. discriminate.
Qed.

Lemma value_app x f : ends_number x = true ->
  (forall l v r, value f l = Some (v, r) -> value f (l ++ x) = Some (v, r ++ x))
  /\ (forall l vs r, items f l = Some (vs, r) -> items f (l ++ x) = Some (vs, r ++ x))
  /\ (forall l ms r, members f l = Some (ms, r) -> members f (l ++ x) = Some (ms, r ++ x)).
Proof.
  intros Hx. assert (match x with [] => True | a :: _ => num_char a = false end) as Hx'.
  { destruct x; [done|]. by apply negb_true_iff. }
  induction f as [|f (IHv & IHi & IHm)]; [by split_and!|]. split_and!.
  - intros [|a l] v r; [done|]. cbn [app]. rewrite !value_S.
    destruct (chr_eqb a DQ).
    { destruct (unq l) as [[s r1]|] eqn:E; [|done]. intros [= <- <-]. by rewrite (unq_app x _ _ _ E). }
    destruct (chr_eqb a LBRACE).
    { destruct (skip_ws l) as [|b r1] eqn:E; [done|]. rewrite (skip_ws_app _ x _ _ E).
      destruct (chr_eqb b RBRACE); [by intros [= <- <-]|].
      destruct (members f (b :: r1)) as [[ms r2]|] eqn:Em; [|done]. intros [= <- <-].
      apply IHm in Em. cbn [app] in Em. by rewrite Em. }
    destruct (chr_eqb a LBRACK).
    { destruct (skip_ws l) as [|b r1] eqn:E; [done|]. rewrite (skip_ws_app _ x _ _ E).
      destruct (chr_eqb b RBRACK); [by intros [= <- <-]|].
      destruct (items f (b :: r1)) as [[ms r2]|] eqn:Em; [|done]. intros [= <- <-].
      apply IHi in Em. cbn [app] in Em. by rewrite Em. }
    destruct (strip (bytes_of "true") (a :: l)) as [r1|] eqn:E1.
    { intros [= <- <-]. apply (strip_app _ _ x) in E1. cbn [app] in E1. by rewrite E1. }
    destruct (strip (bytes_of "false") (a :: l)) as [r1|] eqn:E2.
    { intros [= <- <-]. pose proof (strip_head _ _ _ _ _ E2) as ->.
      change (strip (bytes_of "true") ("f"%char :: l ++ x)) with (@None (list ascii)).
      apply (strip_app _ _ x) in E2. cbn [app] in E2.
      by rewrite E2. }
    destruct (strip (bytes_of "null") (a :: l)) as [r1|] eqn:E3.
    { intros [= <- <-]. pose proof (strip_head _ _ _ _ _ E3) as ->.
      change (strip (bytes_of "true") ("n"%char :: l ++ x)) with (@None (list ascii)).
      change (strip (bytes_of "false") ("n"%char :: l ++ x)) with (@None (list ascii)).
      apply (strip_app _ _ x) in E3. cbn [app] in E3. by rewrite E3. }
    destruct (span num_char (a :: l)) as [n r1] eqn:En. destruct (valid_num n) eqn:Ev; [|done].
    intros [= <- <-]. destruct (number_no_keyword a l n r1 En Ev (l ++ x)) as (-> & -> & ->).
    pose proof (span_app num_char (a :: l) x Hx') as Hs. cbn [app] in Hs.
    rewrite Hs, En. cbn [fst snd]. by rewrite Ev.
  - intros l v r. rewrite !items_S. destruct (skip_ws l) as [|a l1] eqn:El.
    { by destruct f. }
    rewrite (skip_ws_app _ x _ _ El).
    destruct (value f (a :: l1)) as [[w r1]|] eqn:E; [|done]. apply IHv in E. cbn [app] in E.
    rewrite E. destruct (skip_ws r1) as [|c r2] eqn:E1; [done|]. rewrite (skip_ws_app _ x _ _ E1).
    destruct (chr_eqb c COMMA).
    + destruct (items f r2) as [[vs r3]|] eqn:E2; [|done]. intros [= <- <-]. by rewrite (IHi _ _ _ E2).
    + destruct (chr_eqb c RBRACK); [|done]. by intros [= <- <-].
  - intros l v r. rewrite !members_S. destruct (skip_ws l) as [|q l1] eqn:El; [done|].
    rewrite (skip_ws_app _ x _ _ El). destruct (chr_eqb q DQ); [|done].
    destruct (unq l1) as [[k r0]|] eqn:E; [|done]. rewrite (unq_app x _ _ _ E).
    destruct (skip_ws r0) as [|c r1] eqn:E0; [done|]. rewrite (skip_ws_app _ x _ _ E0).
    destruct (chr_eqb c COLON); [|done]. cbv zeta.
    destruct (skip_ws r1) as [|a l2] eqn:E1; [by destruct f|]. rewrite (skip_ws_app _ x _ _ E1).
    destruct (value f (a :: l2)) as [[w r2]|] eqn:E2; [|done].
    pose proof (proj1 (consumes f) _ _ _ E2). apply IHv in E2 as E2'. cbn [app] in E2'. rewrite E2'.
    destruct (skip_ws r2) as [|d r3] eqn:E3; [done|]. rewrite (skip_ws_app _ x _ _ E3).
    replace (consumed (a :: l2 ++ x) (r2 ++ x)) with (consumed (a :: l2) r2)
      by (symmetry; apply (consumed_app (a :: l2)); lia).
    destruct (chr_eqb d COMMA).
    + destruct (members f r3) as [[ms r4]|] eqn:E4; [|done]. intros [= <- <-]. by rewrite (IHm _ _ _ E4).
    + destruct (chr_eqb d RBRACE); [|done]. by intros [= <- <-].
Qed.

(** * [appendCompact]: what [Marshal] makes of the text of a [json.RawMessage] *)
Inductive place := Outside | Inside | Escaped.
Definition next_place (p : place) (a : ascii) : place :=
  match p with
  | Outside => if chr_eqb a DQ then Inside else Outside
  | Inside => if chr_eqb a DQ then Outside else if chr_eqb a BSL then Escaped else Inside
  | Escaped => Inside
  end.
Definition html_chr (a : ascii) : bool :=
  let n := byte_val a in (n =? 60) || (n =? 62) || (n =? 38).
(** White space outside of the strings is dropped; the characters [<], [>] and [&]
    and the two line separators are written as escapes. *)
Fixpoint compact_from (p : place) (l : list ascii) {struct l} : list ascii :=
  match l with
  | [] => []
  | a :: l1 =>
      if html_chr a then esc_ascii a ++ compact_from (next_place p a) l1
      else
        let keep := match p with
                    | Outside => if ws a then [] else [a]
                    | _ => [a]
                    end ++ compact_from (next_place p a) l1 in
        match l1 with
        | b :: c :: l3 =>
            if line_sep a b c then
              esc_line_sep c ++ compact_from (next_place (next_place (next_place p a) b) c) l3
            else keep
        | _ => keep
        end
  end.
(** [None] where the text is not valid JSON. *)
Definition compact (s : string) : option string :=
  match parse s with
  | Some _ => Some (of_bytes (compact_from Outside (bytes_of s)))
  | None => None
  end.

(** The scanner of a string: what [unq] accepts, and where it stops. *)
Fixpoint scan (l : list ascii) : option (list ascii) :=
  match l with
  | [] => None
  | a :: l1 =>
      if chr_eqb a DQ then Some l1
      else if chr_eqb a BSL then
        match l1 with
        | [] => None
        | e :: l2 =>
            if chr_eqb e "u"%char then
              match l2 with
              | h1 :: h2 :: h3 :: h4 :: l6 => if u4 h1 h2 h3 h4 then scan l6 else None
              | _ => None
              end
            else if simple_esc e then scan l2 else None
        end
      else if byte_val a <? 32 then None
      else scan l1
  end.

Lemma scan_high a l : ascii_byte a = false -> scan (a :: l) = scan l.
Proof. intros H. destruct (not_ascii_special a H) as (E1 & E2 & E3). cbn [scan]. by rewrite E1, E2, E3. Qed.
Lemma cont_high a : cont a = true -> ascii_byte a = false.
Proof. unfold cont, in_range, ascii_byte. intros [?%Nat.leb_le _]%andb_true_iff. apply Nat.ltb_ge. lia. Qed.
Lemma rune3_cont a b c : rune3 a b c = true -> cont b = true /\ cont c = true.
Proof.
  intros H. byte_arith; split; apply andb_true_iff; split; apply Nat.leb_le; lia.
Qed.
Lemma rune4_cont a b c d : rune4 a b c d = true -> cont b = true /\ cont c = true /\ cont d = true.
Proof.
  intros H. byte_arith; split_and!; apply andb_true_iff; split; apply Nat.leb_le; lia.
Qed.

Lemma unq_scan l : match unq l with Some (_, r) => scan l = Some r | None => scan l = None end.
Proof.
  remember (length l) as n eqn:En. revert l En.
  induction n as [n IH] using lt_wf_ind. intros l ->.
  assert (forall l' p, length l' < length l -> scan l = scan l' ->
    match push p (unq l') with Some (_, r) => scan l = Some r | None => scan l = None end) as K.
  { intros l' p Hl ->. specialize (IH _ Hl l' eq_refl). by destruct (unq l') as [[]|]. }
  destruct l as [|a l]; [done|]. cbn [unq].
  destruct (chr_eqb a DQ) eqn:E1; [cbn [scan]; by rewrite E1|].
  destruct (chr_eqb a BSL) eqn:E2.
  - destruct l as [|e l]; [cbn [scan]; by rewrite E1, E2|].
    destruct (chr_eqb e "u"%char) eqn:E3.
    + destruct l as [|h1 [|h2 [|h3 [|h4 l6]]]]; try (cbn [scan]; rewrite ?E1, ?E2, ?E3; done).
      assert (scan (a :: e :: h1 :: h2 :: h3 :: h4 :: l6) = if u4 h1 h2 h3 h4 then scan l6 else None) as Hs
        by (cbn [scan]; by rewrite E1, E2, E3).
      destruct (u4 h1 h2 h3 h4) as [rn|] eqn:E4; [|done]. cbv zeta.
      assert (match push (append_rune rn) (unq l6) with
        | Some (_, r) => scan (a :: e :: h1 :: h2 :: h3 :: h4 :: l6) = Some r
        | None => scan (a :: e :: h1 :: h2 :: h3 :: h4 :: l6) = None end) as Ka
        by (apply K; [cbn; lia|done]).
      destruct l6 as [|y [|z [|k1 [|k2 [|k3 [|k4 l12]]]]]]; try exact Ka.
      destruct (is_high rn && chr_eqb y BSL && chr_eqb z "u"%char) eqn:E5; [|exact Ka].
      destruct (u4 k1 k2 k3 k4) as [r2|] eqn:E6; [|exact Ka]. destruct (is_low r2); [|exact Ka].
      apply K; [cbn; lia|]. rewrite Hs.
      apply andb_true_iff in E5 as [[_ ->%chr_eqb_eq]%andb_true_iff ->%chr_eqb_eq].
      change (scan (BSL :: "u"%char :: k1 :: k2 :: k3 :: k4 :: l12)) with
        (if u4 k1 k2 k3 k4 then scan l12 else None). by rewrite E6.
    + assert (scan (a :: e :: l) = if simple_esc e then scan l else None) as Hs
        by (cbn [scan]; by rewrite E1, E2, E3).
      destruct (simple_esc e); [|done]. apply K; [cbn; lia|done].
  - destruct (byte_val a <? 32) eqn:E3; [cbn [scan]; by rewrite E1, E2, E3|].
    assert (scan (a :: l) = scan l) as Hs by (cbn [scan]; by rewrite E1, E2, E3).
    destruct (ascii_byte a); [apply K; [cbn; lia|done]|]. cbv zeta.
    assert (match push (append_rune RuneError) (unq l) with
      | Some (_, r) => scan (a :: l) = Some r | None => scan (a :: l) = None end) as Kb
      by (apply K; [cbn; lia|done]).
    destruct l as [|b l2]; [exact Kb|]. destruct (rune2 a b) eqn:R2.
    { apply K; [cbn; lia|]. rewrite Hs. apply scan_high, cont_high. by apply andb_true_iff in R2 as [_ R2]. }
    destruct l2 as [|c l3]; [exact Kb|]. destruct (rune3 a b c) eqn:R3.
    { apply K; [cbn; lia|]. apply rune3_cont in R3 as [? ?]. rewrite Hs.
      by rewrite !scan_high by (by apply cont_high). }
    destruct l3 as [|d l4]; [exact Kb|]. destruct (rune4 a b c d) eqn:R4; [|exact Kb].
    apply K; [cbn; lia|]. apply rune4_cont in R4 as (? & ? & ?). rewrite Hs.
    by rewrite !scan_high by (by apply cont_high).
Qed.

(** ** Compacting keeps the text readable *)
(** No control characters, the line feed among them. *)
Definition plain (l : list ascii) : Prop := Forall (fun a => 32 <= byte_val a) l.

Lemma compact_ascii p a l : html_chr a = false -> ascii_byte a = true ->
  compact_from p (a :: l) =
    match p with Outside => if ws a then [] else [a] | _ => [a] end
    ++ compact_from (next_place p a) l.
Proof.
  intros Hh Ha. cbn [compact_from]. rewrite Hh. destruct l as [|b [|c l]]; [done..|].
  destruct (line_sep a b c) eqn:E; [|done]. exfalso.
  unfold line_sep in E. apply andb_true_iff in E as [[E _]%andb_true_iff _].
  unfold ascii_byte in Ha. apply Nat.eqb_eq in E. apply Nat.ltb_lt in Ha. lia.
Qed.

Lemma line_sep_high a b c : line_sep a b c = true ->
  ascii_byte a = false /\ ascii_byte b = false /\ ascii_byte c = false.
Proof. intros H. byte_arith; split_and!; apply Nat.ltb_ge; lia. Qed.

Lemma scan_html a l : html_chr a = true -> scan (esc_ascii a ++ l) = scan l.
Proof. destruct a as [[] [] [] [] [] [] [] []]; intros H; try discriminate H; reflexivity. Qed.
Lemma scan_line_sep a b c l : line_sep a b c = true -> scan (esc_line_sep c ++ l) = scan l.
Proof.
  intros H. byte_arith; rewrite <- (chr_byte_val c);
    match goal with E : byte_val c = _ |- _ => rewrite E end; reflexivity.
Qed.
Lemma plain_esc_html a : html_chr a = true -> plain (esc_ascii a).
Proof.
  destruct a as [[] [] [] [] [] [] [] []]; intros H; try discriminate H;
    apply (bool_decide_unpack _); vm_compute; exact I.
Qed.
Lemma plain_line_sep a b c : line_sep a b c = true -> plain (esc_line_sep c).
Proof.
  intros H. byte_arith; rewrite <- (chr_byte_val c);
    match goal with E : byte_val c = _ |- _ => rewrite E end;
    apply (bool_decide_unpack _); vm_compute; exact I.
Qed.

(** The characters behind a backslash, and the digits of an escape. *)
Definition esc_body (a : ascii) : bool :=
  negb (html_chr a) && ascii_byte a && (32 <=? byte_val a).
Lemma simple_esc_body e c : simple_esc e = Some c -> esc_body e = true.
Proof. destruct e as [[] [] [] [] [] [] [] []]; vm_compute; intros H; done. Qed.
Lemma hex_body a n : hex_val a = Some n -> esc_body a = true /\ next_place Inside a = Inside.
Proof. destruct a as [[] [] [] [] [] [] [] []]; vm_compute; intros H; done. Qed.
Lemma u4_body a b c d r : u4 a b c d = Some r ->
  Forall (fun x => esc_body x = true /\ next_place Inside x = Inside) [a; b; c; d].
Proof.
  unfold u4. destruct (hex_val a) eqn:Ea, (hex_val b) eqn:Eb, (hex_val c) eqn:Ec, (hex_val d) eqn:Ed;
    try done. intros _. repeat constructor; by eapply hex_body.
Qed.
Lemma compact_body p a l : p <> Outside -> esc_body a = true ->
  compact_from p (a :: l) = a :: compact_from (next_place p a) l.
Proof.
  unfold esc_body. intros Hp [[Hh%negb_true_iff Ha]%andb_true_iff _]%andb_true_iff.
  rewrite compact_ascii by done. by destruct p.
Qed.
Lemma esc_body_plain a : esc_body a = true -> 32 <= byte_val a.
Proof. by intros [_ H%Nat.leb_le]%andb_true_iff. Qed.

Ltac plain_list :=
  unfold plain; rewrite ?Forall_cons, ?Forall_nil; split_and!;
  first [done | by apply esc_body_plain | by apply Nat.ltb_ge | by apply Nat.leb_le].

(** Compacting leaves the text as it is, whatever follows; [p] is where it starts and [p']
    where it ends. *)
Definition settles (p p' : place) (q : list ascii) : Prop :=
  forall x, compact_from p (q ++ x) = q ++ compact_from p' x.
Lemma settles_app p1 p2 p3 q1 q2 : settles p1 p2 q1 -> settles p2 p3 q2 -> settles p1 p3 (q1 ++ q2).
Proof. intros H1 H2 x. by rewrite <- !app_assoc, H1, H2. Qed.
Lemma settles_html a : html_chr a = true -> settles Inside Inside (esc_ascii a).
Proof.
  destruct a as [[] [] [] [] [] [] [] []]; intros H x; try discriminate H;
    match goal with |- context [esc_ascii ?a] =>
      let l := eval vm_compute in (esc_ascii a) in change (esc_ascii a) with l
    end; cbn [app]; rewrite !compact_ascii by done; reflexivity.
Qed.
Lemma settles_line_sep a b c : line_sep a b c = true -> settles Inside Inside (esc_line_sep c).
Proof.
  intros H x. byte_arith; rewrite <- (chr_byte_val c);
    match goal with E : byte_val c = _ |- _ => rewrite E end;
    match goal with |- context [esc_line_sep ?c] =>
      let l := eval vm_compute in (esc_line_sep c) in change (esc_line_sep c) with l
    end; cbn [app]; rewrite !compact_ascii by done; reflexivity.
Qed.

Definition string_token (l r q : list ascii) : Prop :=
  compact_from Inside l = q ++ compact_from Outside r /\ plain q /\ settles Inside Outside q
  /\ forall x, scan (q ++ x) = Some x.

(** A character of the string that is not ASCII stands first in the input too. *)
Lemma compact_head l b r : compact_from Inside l = b :: r -> ascii_byte b = false ->
  exists l', l = b :: l' /\ (byte_val b <> 226 -> r = compact_from Inside l').
Proof.
  destruct l as [|a l]; [done|]. intros H Hb.
  assert (html_chr a = false) as Hh.
  { destruct (html_chr a) eqn:E; [|done]. exfalso. cbn [compact_from] in H. rewrite E in H.
    revert E H. destruct a as [[] [] [] [] [] [] [] []]; intros E; try discriminate E; intros [= <- _];
      discriminate Hb. }
  assert (forall c d, line_sep a c d = true -> forall y, esc_line_sep d ++ y <> b :: r) as Hs.
  { intros c d E y Hy. byte_arith; revert Hy; unfold esc_line_sep; cbn [bytes_of]; intros [= <- _];
      discriminate Hb. }
  assert (compact_from Inside (a :: l) = a :: compact_from (next_place Inside a) l) as Hk.
  { cbn [compact_from] in *. rewrite Hh in *. destruct l as [|c [|d l]]; [done..|].
    destruct (line_sep a c d) eqn:E; [|done]. by destruct (Hs c d E _ H). }
  rewrite Hk in H. injection H as -> <-. exists l. split; [done|]. intros _.
  destruct (not_ascii_special b Hb) as (F1 & F2 & _). cbn [next_place]. by rewrite F1, F2.
Qed.

Lemma string_token_cons p l l' r q :
  string_token l' r q -> compact_from Inside l = p ++ compact_from Inside l' -> plain p ->
  settles Inside Outside (p ++ q) ->
  (forall y, scan (p ++ y) = scan y) -> string_token l r (p ++ q).
Proof.
  intros (H1 & H2 & H3 & H4) H Hp Hq Hs. split_and!; [|by apply Forall_app|done|].
  - by rewrite H, H1, app_assoc.
  - intros x. by rewrite <- app_assoc, Hs.
Qed.

Lemma string_token_settles p l r q : settles Inside Inside p -> string_token l r q ->
  settles Inside Outside (p ++ q).
Proof. intros Hp (_ & _ & Hq & _). by eapply settles_app. Qed.
(** A character that is kept, and does not start a line separator. *)
Lemma settles_keep a l r q : html_chr a = false -> next_place Inside a = Inside ->
  compact_from Inside (a :: l) = a :: compact_from Inside l ->
  string_token l r q -> settles Inside Outside (a :: q).
Proof.
  intros Hh Hn Hk (Hc & _ & Hq & Hs) x. cbn [app].
  assert (compact_from Inside (a :: q ++ x) = a :: compact_from Inside (q ++ x)) as ->; [|by rewrite Hq].
  destruct q as [|b q]; [discriminate (Hs [])|]. cbn [app].
  assert (forall c y, b :: q ++ x = b :: c :: y -> line_sep a b c = false) as Hno.
  { intros c y [= E]. destruct (line_sep a b c) eqn:El; [|done]. exfalso.
    destruct (line_sep_high _ _ _ El) as (_ & Hb & Hcc).
    destruct q as [|c' q].
    { specialize (Hs []). cbn [scan app] in Hs. destruct (chr_eqb b DQ) eqn:F1; [apply chr_eqb_eq in F1 as ->; discriminate Hb|].
      destruct (chr_eqb b BSL) eqn:F2; [apply chr_eqb_eq in F2 as ->; discriminate Hb|]. by destruct (byte_val b <? 32). }
    injection E as -> _. cbn [app] in Hc.
    destruct (compact_head _ _ _ Hc Hb) as (l' & -> & Hr).
    assert (byte_val b <> 226) as Hb2 by (byte_arith; lia). specialize (Hr Hb2).
    destruct (compact_head _ _ _ (eq_sym Hr) Hcc) as (l2 & -> & _).
    cbn [compact_from] in Hk. rewrite Hh, El in Hk. unfold esc_line_sep in Hk. injection Hk as <- _. discriminate El. }
  cbn [compact_from]. rewrite Hh, Hn. destruct (q ++ x) as [|c y] eqn:E; [done|]. by rewrite (Hno c y).
Qed.

Lemma compact_scan l r : scan l = Some r -> exists q, string_token l r q.
Proof.
  remember (length l) as n eqn:En. revert l r En.
  induction n as [n IH] using lt_wf_ind. intros l r ->.
  assert (forall p l', length l' < length l -> scan l' = Some r ->
    compact_from Inside l = p ++ compact_from Inside l' -> plain p ->
    (forall q, string_token l' r q -> settles Inside Outside (p ++ q)) ->
    (forall y, scan (p ++ y) = scan y) -> exists q, string_token l r q) as K.
  { intros p l' Hl Hr H Hp Ht Hs. destruct (IH _ Hl l' r eq_refl Hr) as [q Hq].
    exists (p ++ q). eapply string_token_cons; eauto. }
  destruct l as [|a l]; [done|]. cbn [scan].
  destruct (chr_eqb_spec a DQ) as [->|HDQ].
  { intros [= ->]. exists [DQ]. split_and!; [|by repeat constructor| |done].
    - by rewrite (compact_ascii Inside DQ r).
    - intros x. cbn [app]. by rewrite (compact_ascii Inside DQ x). }
  destruct (chr_eqb_spec a BSL) as [->|HBSL].
  - destruct l as [|e l]; [done|]. destruct (chr_eqb_spec e "u"%char) as [->|Hu].
    + destruct l as [|h1 [|h2 [|h3 [|h4 l]]]]; try done.
      destruct (u4 h1 h2 h3 h4) as [rn|] eqn:Eu; [|done]. intros Hr.
      pose proof (u4_body _ _ _ _ _ Eu) as Hb. rewrite !Forall_cons in Hb.
      destruct Hb as ([B1 P1] & [B2 P2] & [B3 P3] & [B4 P4] & _).
      assert (settles Inside Inside [BSL; "u"%char; h1; h2; h3; h4]) as Hst.
      { intros y. cbn [app]. rewrite (compact_body Inside BSL), (compact_body _ "u"%char) by done.
        change (next_place (next_place Inside BSL) "u"%char) with Inside.
        by rewrite !compact_body, P1, !compact_body, P2, !compact_body, P3, !compact_body, P4 by done. }
      apply (K [BSL; "u"%char; h1; h2; h3; h4] l); [cbn; lia|done|exact (Hst l)| | |].
      * plain_list.
      * intros q. by apply string_token_settles.
      * intros y. change (scan (BSL :: "u"%char :: h1 :: h2 :: h3 :: h4 :: y) = scan y).
        change (scan (BSL :: "u"%char :: h1 :: h2 :: h3 :: h4 :: y)) with
          (if u4 h1 h2 h3 h4 then scan y else None). by rewrite Eu.
    + destruct (simple_esc e) as [c|] eqn:Ee; [|done]. intros Hr.
      pose proof (simple_esc_body _ _ Ee) as Hb.
      assert (settles Inside Inside [BSL; e]) as Hst.
      { intros y. cbn [app]. by rewrite (compact_body Inside BSL), compact_body by done. }
      apply (K [BSL; e] l); [cbn; lia|done|exact (Hst l)| | |].
      * plain_list.
      * intros q. by apply string_token_settles.
      * intros y. cbn [app scan]. change (chr_eqb BSL DQ) with false. change (chr_eqb BSL BSL) with true.
        cbn [andb]. apply chr_eqb_neq in Hu. by rewrite Hu, Ee.
  - destruct (byte_val a <? 32) eqn:E32; [done|]. intros Hr.
    apply chr_eqb_neq in HDQ, HBSL.
    assert (next_place Inside a = Inside) as Hn by (cbn; by rewrite HDQ, HBSL).
    assert (forall y, scan (a :: y) = scan y) as Hs by (intros y; cbn [scan]; by rewrite HDQ, HBSL, E32).
    assert (html_chr a = false -> compact_from Inside (a :: l) = [a] ++ compact_from Inside l ->
      exists q, string_token (a :: l) r q) as Hkeep.
    { intros Hh H. apply (K [a] l); [cbn; lia|done|done|plain_list| |done].
      intros q. cbn [app]. by apply (settles_keep a l). }
    destruct (html_chr a) eqn:Eh.
    + apply (K (esc_ascii a) l); [cbn; lia|done| |by apply plain_esc_html| |intros; by apply scan_html].
      2: { intros q. apply string_token_settles. by apply settles_html. }
      cbn [compact_from]. by rewrite Eh, Hn.
    + destruct l as [|b [|c l]]; [apply Hkeep; [done|]; cbn [compact_from]; by rewrite Eh, ?Hn..|].
      destruct (line_sep a b c) eqn:El.
      2: { apply Hkeep; [done|]. remember (b :: c :: l) as l1 eqn:El1. cbn [compact_from].
           rewrite Eh, Hn. subst l1. by rewrite El. }
      destruct (line_sep_high _ _ _ El) as (Ha & Hb & Hc).
      assert (forall d, ascii_byte d = false -> next_place Inside d = Inside) as Hi.
      { intros d (F1 & F2 & _)%not_ascii_special. cbn. by rewrite F1, F2. }
      apply (K (esc_line_sep c) l); [cbn; lia| | |by eapply plain_line_sep| |
        intros; by eapply scan_line_sep].
      3: { intros q. apply string_token_settles. by eapply settles_line_sep. }
      * by rewrite !scan_high in Hr by done.
      * remember (b :: c :: l) as l1 eqn:El1. cbn [compact_from]. rewrite Eh. subst l1.
        by rewrite El, Hn, !Hi by done.
Qed.

(** ** More fuel reads the same *)
Lemma value_mono f :
  (forall l z, value f l = Some z -> value (S f) l = Some z)
  /\ (forall l z, items f l = Some z -> items (S f) l = Some z)
  /\ (forall l z, members f l = Some z -> members (S f) l = Some z).
Proof.
  induction f as [|f (IHv & IHi & IHm)]; [by split_and!|]. split_and!.
  - intros [|a l] z; [done|]. rewrite (value_S (S f)), (value_S f (a :: l)).
    destruct (chr_eqb a DQ); [done|]. destruct (chr_eqb a LBRACE).
    { destruct (skip_ws l) as [|b r]; [done|]. destruct (chr_eqb b RBRACE); [done|].
      destruct (members f (b :: r)) as [[ms r1]|] eqn:E; [|done]. by rewrite (IHm _ _ E). }
    destruct (chr_eqb a LBRACK); [|done].
    destruct (skip_ws l) as [|b r]; [done|]. destruct (chr_eqb b RBRACK); [done|].
    destruct (items f (b :: r)) as [[ms r1]|] eqn:E; [|done]. by rewrite (IHi _ _ E).
  - intros l z. rewrite (items_S (S f)), (items_S f l).
    destruct (value f (skip_ws l)) as [[w r1]|] eqn:E; [|done]. rewrite (IHv _ _ E).
    destruct (skip_ws r1) as [|c r2]; [done|]. destruct (chr_eqb c COMMA); [|done].
    destruct (items f r2) as [[vs r3]|] eqn:E2; [|done]. by rewrite (IHi _ _ E2).
  - intros l z. rewrite (members_S (S f)), (members_S f l).
    destruct (skip_ws l) as [|q l1]; [done|]. destruct (chr_eqb q DQ); [|done].
    destruct (unq l1) as [[k r0]|]; [|done]. destruct (skip_ws r0) as [|c r1]; [done|].
    destruct (chr_eqb c COLON); [|done]. cbv zeta.
    destruct (value f (skip_ws r1)) as [[w r2]|] eqn:E; [|done]. rewrite (IHv _ _ E).
    destruct (skip_ws r2) as [|d r3]; [done|]. destruct (chr_eqb d COMMA); [|done].
    destruct (members f r3) as [[ms r4]|] eqn:E2; [|done]. by rewrite (IHm _ _ E2).
Qed.

Lemma value_le f f' l z : f <= f' -> value f l = Some z -> value f' l = Some z.
Proof. induction 1 as [|f' _ IH]; [done|]. intros H. by apply (value_mono f'), IH. Qed.
Lemma items_le f f' l z : f <= f' -> items f l = Some z -> items f' l = Some z.
Proof. induction 1 as [|f' _ IH]; [done|]. intros H. by apply (value_mono f'), IH. Qed.
Lemma members_le f f' l z : f <= f' -> members f l = Some z -> members f' l = Some z.
Proof. induction 1 as [|f' _ IH]; [done|]. intros H. by apply (value_mono f'), IH. Qed.

(** The value [parse] finds is the one any fuel finds. *)
Lemma value_parse_fuel f l z : value f l = Some z -> value (S (2 * length l)) l = Some z.
Proof.
  intros H. destruct (decide (f <= S (2 * length l))) as [Hf|Hf]; [by eapply value_le|].
  rewrite <- (value_fuel f) by lia. done.
Qed.

(** ** Where a value starts *)
Lemma value_skip f l z : value f l = Some z -> skip_ws l = l.
Proof.
  destruct f, l as [|a l]; try done. intros H. cbn [skip_ws]. destruct (ws a) eqn:E; [|done]. exfalso.
  revert E. destruct a as [[] [] [] [] [] [] [] []]; intros E; try discriminate E; discriminate H.
Qed.
Lemma value_no_close f l z : value f l = Some z ->
  exists a l', l = a :: l' /\ chr_eqb a RBRACK = false.
Proof.
  destruct f, l as [|a l]; try done. intros H. exists a, l. split; [done|].
  apply chr_eqb_neq. intros ->. discriminate H.
Qed.
Lemma skip_ws_idem l : skip_ws (skip_ws l) = skip_ws l.
Proof. induction l as [|a l IH]; cbn; [done|]. destruct (ws a) eqn:E; [done|]. cbn. by rewrite E. Qed.
Lemma items_skip f l : items f (skip_ws l) = items f l.
Proof. destruct f; [done|]. by rewrite !items_S, skip_ws_idem. Qed.
Lemma members_skip f l : members f (skip_ws l) = members f l.
Proof. destruct f; [done|]. by rewrite !members_S, skip_ws_idem. Qed.

(** ** The characters of numbers, keywords and punctuation *)
Definition word_chr (a : ascii) : bool :=
  negb (html_chr a) && ascii_byte a && negb (ws a) && negb (chr_eqb a DQ) && (32 <=? byte_val a).
Lemma num_word a : num_char a = true -> word_chr a = true.
Proof. destruct a as [[] [] [] [] [] [] [] []]; intros H; try discriminate H; reflexivity. Qed.
Lemma compact_word p l : forallb word_chr p = true ->
  compact_from Outside (p ++ l) = p ++ compact_from Outside l /\ plain p.
Proof.
  induction p as [|a p IH]; [split; [done|constructor]|]. cbn [forallb app].
  intros [Ha [IH1 IH2]%IH]%andb_true_iff.
  assert (compact_from Outside (a :: p ++ l) = a :: compact_from Outside (p ++ l) /\ 32 <= byte_val a)
    as [-> ?].
  { unfold word_chr in Ha. rewrite !andb_true_iff, !negb_true_iff in Ha.
    destruct Ha as ((((H1 & H2) & H3) & H4) & H5%Nat.leb_le). split; [|done].
    rewrite compact_ascii by done. cbn [next_place]. by rewrite H3, H4. }
  rewrite IH1. split; [done|]. by constructor.
Qed.
Lemma span_word l n r : span num_char l = (n, r) -> l = n ++ r /\ forallb word_chr n = true.
Proof.
  revert n r. induction l as [|a l IH]; cbn; intros n r; [by intros [= <- <-]|].
  destruct (num_char a) eqn:E; [|by intros [= <- <-]].
  destruct (span num_char l) as [x y]. intros [= <- <-]. destruct (IH _ _ eq_refl) as [-> Hf].
  split; [done|]. cbn. by rewrite (num_word _ E).
Qed.
Lemma strip_Some p l r : strip p l = Some r -> l = p ++ r.
Proof.
  revert l. induction p as [|a p IH]; intros [|b l]; cbn; try done; [by intros [= <-]..|].
  destruct (chr_eqb_spec a b) as [->|]; [|done]. by intros ->%IH.
Qed.
Lemma compact_skip l : compact_from Outside l = compact_from Outside (skip_ws l).
Proof.
  induction l as [|a l IH]; [done|]. cbn [skip_ws]. destruct (ws a) eqn:E; [|done].
  rewrite <- IH. revert E.
  destruct a as [[] [] [] [] [] [] [] []]; intros E; try discriminate E; by rewrite compact_ascii.
Qed.

(** ** A compacted value, followed by anything that cannot continue it *)
Definition reads {A} (rd : nat -> list ascii -> option (A * list ascii)) (ok : list ascii -> bool)
    (t : list ascii) (v : A) : Prop :=
  exists f, forall f' x, f <= f' -> ok x = true -> rd f' (t ++ x) = Some (v, x).
Definition any_text (_ : list ascii) : bool := true.
(** On one line, and already compact. *)
Definition clean (t : list ascii) : Prop := plain t /\ settles Outside Outside t.
Definition token (t : list ascii) : Prop := clean t /\ exists v, reads value ends_number t v.
Definition items_token (t : list ascii) : Prop := clean t /\ exists vs, reads items any_text t vs.
Definition members_token (t : list ascii) : Prop := clean t /\ exists ms, reads members any_text t ms.

(** One equation for all fuels gives [reads]. *)
Lemma reads_value t v f : (forall x, ends_number x = true -> value f (t ++ x) = Some (v, x)) ->
  reads value ends_number t v.
Proof. intros H. exists f. intros f' x Hf Hx. eapply value_le; eauto. Qed.

Lemma string_reads q : plain q -> (forall x, scan (q ++ x) = Some x) ->
  exists s, forall x, unq (q ++ x) = Some (s, x).
Proof.
  intros _ H. pose proof (unq_scan q) as Hq. specialize (H []) as H0. rewrite app_nil_r in H0.
  destruct (unq q) as [[s r]|] eqn:E; [|congruence]. rewrite H0 in Hq. injection Hq as <-.
  exists s. intros x. by rewrite (unq_app x _ _ _ E).
Qed.

Lemma compact_string l s r : unq l = Some (s, r) ->
  exists q s', compact_from Outside (DQ :: l) = DQ :: q ++ compact_from Outside r /\ clean (DQ :: q)
    /\ forall x, unq (q ++ x) = Some (s', x).
Proof.
  intros E. pose proof (unq_scan l) as Hs. rewrite E in Hs.
  destruct (compact_scan l r Hs) as (q & H1 & H2 & H4 & H3).
  destruct (string_reads q H2 H3) as [s' Hq]. exists q, s'. split_and!; [|split; [plain_list|]|done].
  - rewrite compact_ascii by done. change (next_place Outside DQ) with Inside. by rewrite H1.
  - intros x. cbn [app]. rewrite compact_ascii by done. change (next_place Outside DQ) with Inside. by rewrite H4.
Qed.

Lemma plain_cons a l : 32 <= byte_val a -> plain l -> plain (a :: l).
Proof. by constructor. Qed.
Lemma plain_app l1 l2 : plain l1 -> plain l2 -> plain (l1 ++ l2).
Proof. apply Forall_app_2. Qed.
Lemma compact_punct a l : word_chr a = true ->
  compact_from Outside (a :: l) = a :: compact_from Outside l.
Proof. intros H. apply (compact_word [a] l). cbn. by rewrite H. Qed.

Lemma clean_cons a l : word_chr a = true -> clean l -> clean (a :: l).
Proof.
  intros Ha [Hp Hs]. split.
  - apply plain_cons; [|done]. unfold word_chr in Ha. by apply andb_true_iff in Ha as [_ H%Nat.leb_le].
  - intros x. cbn [app]. by rewrite compact_punct, Hs.
Qed.
Lemma clean_app l1 l2 : clean l1 -> clean l2 -> clean (l1 ++ l2).
Proof. intros [] []. split; [by apply plain_app|by eapply settles_app]. Qed.
Lemma clean_nil : clean [].
Proof. split; [constructor|done]. Qed.
#[local] Hint Resolve clean_cons clean_app clean_nil : json.
#[local] Hint Extern 1 (word_chr _ = true) => reflexivity : json.

Lemma skip_ws_punct a l : word_chr a = true -> skip_ws (a :: l) = a :: l.
Proof.
  unfold word_chr. rewrite !andb_true_iff, !negb_true_iff. intros ((((_ & _) & H) & _) & _).
  cbn. by rewrite H.
Qed.
(** Compares the punctuation characters the goal names. *)
Ltac punct :=
  cbn [app];
  repeat rewrite skip_ws_punct by done;
  repeat match goal with
  | |- context [skip_ws (DQ :: ?l)] => change (skip_ws (DQ :: l)) with (DQ :: l)
  end;
  repeat match goal with
  | |- context [chr_eqb ?a ?b] =>
      match eval vm_compute in (chr_eqb a b) with
      | true => change (chr_eqb a b) with true
      | false => change (chr_eqb a b) with false
      end
  end; cbv iota zeta.

Lemma reads_skip t v x : reads value ends_number t v -> ends_number x = true ->
  skip_ws (t ++ x) = t ++ x.
Proof. intros [f H] Hx. by eapply value_skip, (H f x). Qed.

(** An array and an object around what their readers accept. *)
Lemma array_token t : items_token t -> token (LBRACK :: t).
Proof.
  intros (Hp & vs & f & H). split; [eauto with json|]. exists (JArr vs). apply (reads_value _ _ (S f)).
  intros x _. cbn [app]. rewrite value_S. punct.
  pose proof (H f x (le_n f) eq_refl) as Hi. rewrite <- items_skip in Hi.
  destruct f as [|f]; [done|]. rewrite items_S, skip_ws_idem in Hi.
  destruct (skip_ws (t ++ x)) as [|b r] eqn:E; [by destruct f|].
  assert (chr_eqb b RBRACK = false) as ->.
  { destruct (value f (b :: r)) as [z|] eqn:Ev; [|done].
    by destruct (value_no_close _ _ _ Ev) as (? & ? & [= -> ->] & ?). }
  rewrite <- E, items_skip. by rewrite (H (S f) x).
Qed.

Lemma object_token t : members_token t -> token (LBRACE :: t).
Proof.
  intros (Hp & ms & f & H). split; [eauto with json|]. exists (JObj ms). apply (reads_value _ _ (S f)).
  intros x _. cbn [app]. rewrite value_S. punct.
  pose proof (H f x (le_n f) eq_refl) as Hm. rewrite <- members_skip in Hm.
  destruct f as [|f]; [done|]. rewrite members_S, skip_ws_idem in Hm.
  destruct (skip_ws (t ++ x)) as [|b r] eqn:E; [done|].
  destruct (chr_eqb_spec b RBRACE) as [->|]; [discriminate Hm|].
  rewrite <- E, members_skip. by rewrite (H (S f) x).
Qed.

(** An item and what follows it. *)
Lemma items_one t v : clean t -> reads value ends_number t v -> items_token (t ++ [RBRACK]).
Proof.
  intros Hp [f H]. split; [eauto with json|]. exists [v], (S f). intros f' x Hf _.
  destruct f' as [|f']; [lia|]. rewrite <- app_assoc. cbn [app]. rewrite items_S.
  erewrite value_skip by (apply (H f); done). rewrite H by (lia || done). by punct.
Qed.
Lemma items_more t v t2 : clean t -> reads value ends_number t v -> items_token t2 ->
  items_token (t ++ COMMA :: t2).
Proof.
  intros Hp [f H] (Hp2 & vs & f2 & H2). split; [eauto with json|].
  exists (v :: vs), (S (f + f2)). intros f' x Hf _.
  destruct f' as [|f']; [lia|]. rewrite <- app_assoc. cbn [app]. rewrite items_S.
  erewrite value_skip by (apply (H f); done). rewrite H by (lia || done).
  punct. by rewrite H2 by (lia || done).
Qed.

(** The text of a member. *)
Definition member_text (k t : list ascii) : list ascii := DQ :: k ++ COLON :: t.
Lemma members_S_text f k s t x :
  (forall y, unq (k ++ y) = Some (s, y)) ->
  skip_ws (t ++ x) = t ++ x ->
  members (S f) (member_text k t ++ x) =
    match value f (t ++ x) with
    | None => None
    | Some (v, r2) =>
        let m := (of_bytes s, consumed (t ++ x) r2, v) in
        match skip_ws r2 with
        | d :: r3 =>
            if chr_eqb d COMMA then
              match members f r3 with Some (ms, r4) => Some (m :: ms, r4) | None => None end
            else if chr_eqb d RBRACE then Some ([m], r3)
            else None
        | [] => None
        end
    end.
Proof.
  intros Hk Ht. unfold member_text. rewrite members_S. punct.
  rewrite <- app_assoc. cbn [app]. rewrite Hk. punct. by rewrite Ht.
Qed.

Lemma consumed_all t x : consumed (t ++ x) x = of_bytes t.
Proof. unfold consumed. rewrite length_app, Nat.add_sub. by rewrite take_app_length. Qed.

Lemma members_one k s t v : (forall y, unq (k ++ y) = Some (s, y)) -> reads value ends_number t v ->
  reads members any_text (member_text k t ++ [RBRACE]) [(of_bytes s, of_bytes t, v)].
Proof.
  intros Hk [f H]. exists (S f). intros f' x Hf _. destruct f' as [|f']; [lia|].
  rewrite <- app_assoc. cbn [app]. rewrite (members_S_text _ _ _ _ _ Hk).
  - rewrite H by (lia || done). punct. by rewrite consumed_all.
  - by erewrite value_skip by (apply (H f); done).
Qed.
Lemma members_more k s t v t2 ms : (forall y, unq (k ++ y) = Some (s, y)) ->
  reads value ends_number t v -> reads members any_text t2 ms ->
  reads members any_text (member_text k t ++ COMMA :: t2) ((of_bytes s, of_bytes t, v) :: ms).
Proof.
  intros Hk [f H] [f2 H2]. exists (S (f + f2)). intros f' x Hf _. destruct f' as [|f']; [lia|].
  rewrite <- app_assoc. cbn [app]. rewrite (members_S_text _ _ _ _ _ Hk).
  - rewrite H by (lia || done). punct. rewrite H2 by (lia || done).
    by rewrite consumed_all.
  - by erewrite value_skip by (apply (H f); done).
Qed.

(** [q] is what [compact] makes of the part of [l] that was read before [r]. *)
Definition compacts (tok : list ascii -> Prop) (l r : list ascii) : Prop :=
  exists q, compact_from Outside l = q ++ compact_from Outside r /\ tok q.

Lemma word_token p l r v : forallb word_chr p = true -> l = p ++ r ->
  reads value ends_number p v -> compacts token l r.
Proof.
  intros Hw -> Hr. destruct (compact_word p r Hw) as [Hc Hp]. exists p. split; [done|].
  split; [|by exists v]. split; [done|]. intros x. by apply compact_word.
Qed.

Lemma keyword_reads p v : p = bytes_of "true" /\ v = JBool true \/ p = bytes_of "false" /\ v = JBool false
  \/ p = bytes_of "null" /\ v = JNull -> reads value ends_number p v.
Proof. intros H. apply (reads_value _ _ 1). intros x _. by destruct H as [[-> ->]|[[-> ->]|[-> ->]]]. Qed.

Lemma number_reads a l n r : chr_eqb a DQ = false -> chr_eqb a LBRACE = false ->
  chr_eqb a LBRACK = false -> span num_char (a :: l) = (n, r) -> valid_num n = true ->
  reads value ends_number n (JNum (of_bytes n)).
Proof.
  intros H1 H2 H3 Hs Hv. apply (reads_value _ _ 1). intros x Hx.
  destruct (number_no_keyword a l n r Hs Hv (tail n ++ x)) as (K1 & K2 & K3).
  assert (exists n', n = a :: n') as [n' ->].
  { cbn [span] in Hs. destruct (num_char a); [|by injection Hs as <- <-].
    destruct (span num_char l). injection Hs as <- <-. eauto. }
  cbn [app tail] in *. rewrite value_S, H1, H2, H3, K1, K2, K3.
  assert (forall m y z, span num_char m = (y, z) -> span num_char y = (y, [])) as Hid.
  { induction m as [|b m IH]; cbn; intros y z; [by intros [= <- <-]|].
    destruct (num_char b) eqn:Eb; [|by intros [= <- <-]].
    destruct (span num_char m) as [y' z'] eqn:Em. intros [= <- <-]. cbn.
    by rewrite Eb, (IH _ _ eq_refl). }
  apply Hid in Hs. pose proof (span_app num_char (a :: n') x) as Ha. cbn [app] in Ha.
  rewrite Ha, Hs.
  - cbn [fst snd app]. by rewrite Hv.
  - destruct x; [done|]. by apply negb_true_iff.
Qed.

Lemma compact_value f :
  (forall l v r, value f l = Some (v, r) -> compacts token l r)
  /\ (forall l vs r, items f l = Some (vs, r) -> compacts items_token l r)
  /\ (forall l ms r, members f l = Some (ms, r) -> compacts members_token l r).
Proof.
  induction f as [|f (IHv & IHi & IHm)]; [by split_and!|]. split_and!.
  - intros [|a l] v r; [done|]. rewrite value_S.
    destruct (chr_eqb a DQ) eqn:E1.
    { apply chr_eqb_eq in E1 as ->. destruct (unq l) as [[s r1]|] eqn:E; [|done]. intros [= <- <-].
      destruct (compact_string _ _ _ E) as (q & s' & H1 & H2 & H3).
      exists (DQ :: q). split; [done|]. split; [done|]. exists (JStr (of_bytes s')).
      apply (reads_value _ _ 1). intros x _. cbn [app]. rewrite value_S, H3. by punct. }
    destruct (chr_eqb a LBRACE) eqn:E2.
    { apply chr_eqb_eq in E2 as ->. destruct (skip_ws l) as [|b r1] eqn:E; [done|].
      assert (compact_from Outside (LBRACE :: l) = LBRACE :: compact_from Outside (b :: r1)) as Hc
        by (rewrite compact_punct, compact_skip, E; done).
      destruct (chr_eqb_spec b RBRACE) as [->|_].
      - intros [= <- <-]. exists [LBRACE; RBRACE]. split; [by rewrite Hc, compact_punct|].
        split; [eauto with json|]. exists (JObj []). by apply (reads_value _ _ 1).
      - destruct (members f (b :: r1)) as [[ms r2]|] eqn:Em; [|done]. intros [= <- <-].
        destruct (IHm _ _ _ Em) as (q & Hq & Ht). exists (LBRACE :: q).
        split; [by rewrite Hc, Hq|]. by apply object_token. }
    destruct (chr_eqb a LBRACK) eqn:E3.
    { apply chr_eqb_eq in E3 as ->. destruct (skip_ws l) as [|b r1] eqn:E; [done|].
      assert (compact_from Outside (LBRACK :: l) = LBRACK :: compact_from Outside (b :: r1)) as Hc
        by (rewrite compact_punct, compact_skip, E; done).
      destruct (chr_eqb_spec b RBRACK) as [->|_].
      - intros [= <- <-]. exists [LBRACK; RBRACK]. split; [by rewrite Hc, compact_punct|].
        split; [eauto with json|]. exists (JArr []). by apply (reads_value _ _ 1).
      - destruct (items f (b :: r1)) as [[ms r2]|] eqn:Em; [|done]. intros [= <- <-].
        destruct (IHi _ _ _ Em) as (q & Hq & Ht). exists (LBRACK :: q).
        split; [by rewrite Hc, Hq|]. by apply array_token. }
    destruct (strip (bytes_of "true") (a :: l)) as [r1|] eqn:Et.
    { intros [= <- <-]. apply strip_Some in Et. eapply word_token; [|exact Et|apply keyword_reads]; eauto. }
    destruct (strip (bytes_of "false") (a :: l)) as [r1|] eqn:Ef.
    { intros [= <- <-]. apply strip_Some in Ef. eapply word_token; [|exact Ef|apply keyword_reads]; eauto. }
    destruct (strip (bytes_of "null") (a :: l)) as [r1|] eqn:En.
    { intros [= <- <-]. apply strip_Some in En. eapply word_token; [|exact En|apply keyword_reads]; eauto. }
    destruct (span num_char (a :: l)) as [n r1] eqn:Es. destruct (valid_num n) eqn:Ev; [|done].
    intros [= <- <-]. destruct (span_word _ _ _ Es) as [Hl Hw].
    eapply word_token; [done|exact Hl|]. by eapply number_reads.
  - intros l vs r. rewrite items_S. rewrite <- (skip_ws_idem l) at 1.
    destruct (value f (skip_ws (skip_ws l))) as [[w r1]|] eqn:Ew; [|done].
    rewrite skip_ws_idem in Ew. destruct (IHv _ _ _ Ew) as (q & Hq & Hp & w' & Hr).
    destruct (skip_ws r1) as [|c r2] eqn:E1; [done|].
    assert (compact_from Outside l = q ++ compact_from Outside (c :: r2)) as Hc
      by (rewrite compact_skip, Hq, (compact_skip r1), E1; done).
    destruct (chr_eqb_spec c COMMA) as [->|_].
    + destruct (items f r2) as [[vs2 r3]|] eqn:E2; [|done]. intros [= <- <-].
      destruct (IHi _ _ _ E2) as (q2 & Hq2 & Ht2). exists (q ++ COMMA :: q2).
      split; [|by eapply items_more]. by rewrite Hc, compact_punct, Hq2, <- app_assoc.
    + destruct (chr_eqb_spec c RBRACK) as [->|_]; [|done]. intros [= <- <-].
      exists (q ++ [RBRACK]). split; [|by eapply items_one].
      by rewrite Hc, compact_punct, <- app_assoc.
  - intros l ms r. rewrite members_S. destruct (skip_ws l) as [|b l1] eqn:El; [done|].
    destruct (chr_eqb_spec b DQ) as [->|_]; [|done].
    destruct (unq l1) as [[k r0]|] eqn:E; [|done].
    destruct (compact_string _ _ _ E) as (qk & k' & H1 & H2 & H3).
    destruct (skip_ws r0) as [|c r1] eqn:E0; [done|].
    destruct (chr_eqb_spec c COLON) as [->|_]; [|done]. cbv zeta.
    destruct (value f (skip_ws r1)) as [[w r2]|] eqn:Ew; [|done].
    destruct (IHv _ _ _ Ew) as (q & Hq & Hp & w' & Hr).
    destruct (skip_ws r2) as [|d r3] eqn:E3; [done|].
    assert (compact_from Outside l = member_text qk q ++ compact_from Outside (d :: r3)) as Hc.
    { unfold member_text. rewrite compact_skip, El, H1, (compact_skip r0), E0, compact_punct by done.
      rewrite (compact_skip r1), Hq, (compact_skip r2), E3. cbn [app]. by rewrite <- !app_assoc. }
    assert (clean (member_text qk q)) as Hpm.
    { unfold member_text. rewrite app_comm_cons. eauto with json. }
    destruct (chr_eqb_spec d COMMA) as [->|_].
    + destruct (members f r3) as [[ms2 r4]|] eqn:E4; [|done]. intros [= <- <-].
      destruct (IHm _ _ _ E4) as (q2 & Hq2 & Hp2 & ms' & Hr2). exists (member_text qk q ++ COMMA :: q2).
      split; [by rewrite Hc, compact_punct, Hq2, <- app_assoc|].
      split; [eauto with json|]. eexists. by eapply members_more.
    + destruct (chr_eqb_spec d RBRACE) as [->|_]; [|done]. intros [= <- <-].
      exists (member_text qk q ++ [RBRACE]).
      split; [by rewrite Hc, compact_punct, <- app_assoc|].
      split; [eauto with json|]. eexists. by eapply members_one.
Qed.

(** What [compact] writes is one value on one line. *)
Lemma compact_token s t : compact s = Some t -> token (bytes_of t).
Proof.
  unfold compact, parse. cbv zeta. destruct (value _ (skip_ws (bytes_of s))) as [[v r]|] eqn:E; [|done].
  destruct (skip_ws r) as [|? ?] eqn:Er; [|done]. intros [= <-]. rewrite bytes_of_of.
  destruct (compact_value (S (2 * length (skip_ws (bytes_of s))))) as [Hv _].
  destruct (Hv _ _ _ E) as (q & Hq & Ht).
  rewrite compact_skip, Hq, (compact_skip r), Er. cbn [compact_from]. by rewrite app_nil_r.
Qed.

(** A token is what [parse] reads. *)
Lemma token_parse t v : reads value ends_number t v -> parse (of_bytes t) = Some v.
Proof.
  intros [f H]. specialize (H f [] (le_n f) eq_refl). rewrite app_nil_r in H.
  unfold parse. rewrite bytes_of_of, (value_skip _ _ _ H). apply value_parse_fuel in H. by rewrite H.
Qed.

(** A text that was compacted once is not changed by compacting it again. *)
Lemma token_settled t : token t -> compact (of_bytes t) = Some (of_bytes t).
Proof.
  intros [[_ Hs] [v Hv]]. unfold compact. rewrite (token_parse _ _ Hv), bytes_of_of.
  specialize (Hs []). cbn [compact_from] in Hs. rewrite app_nil_r in Hs. by rewrite Hs.
Qed.
Lemma compact_idem s t : compact s = Some t -> compact t = Some t.
Proof. intros H%compact_token%token_settled. by rewrite of_bytes_of in H. Qed.
