(* ===== verification/GoTypes.v ===== *)
(** The wire types of [core/protocol/types.go], field by field, and the packet type
    names.  [json.RawMessage] is the bytes of a JSON text, with [""] for nil; a Go
    [float64] is a [spec_float]; integers of a fixed width are [Z], and the range of
    each width is stated where it matters.  [*int] is an [option]. *)
From stdpp Require Import base strings list gmap.
From Stdlib Require Import ZArith Ascii SpecFloat.
From S2P Require Import Prelude.

(** * Packet type names (types.go, the [PacketType] constants) *)
Definition PacketError : string := "error".
Definition PacketAuthHello : string := "auth.hello".
Definition PacketAuthChallenge : string := "auth.challenge".
Definition PacketAuthProof : string := "auth.proof".
Definition PacketAuthOK : string := "auth.ok".
Definition PacketHeartbeat : string := "heartbeat".
Definition PacketHeartbeatReply : string := "heartbeat.reply".
Definition PacketNodeCommand : string := "node.command".
Definition PacketNodeCommandReply : string := "node.command.reply".
Definition PacketOrchCommand : string := "orchestrator.command".
Definition PacketOrchCommandReply : string := "orchestrator.command.reply".
Definition PacketMasterRegister : string := "master.register".
Definition PacketMasterHeartbeat : string := "master.heartbeat".

Abbreviation RawMessage := string (only parsing).

(** * Authentication and registration payloads *)
Record AuthHello := mkAuthHello {
  ah_ID : string; ah_PubKey : string; ah_Role : string;
  ah_Name : string; ah_Cluster : string; ah_Advertise : string }.

Record AuthChallenge := mkAuthChallenge { ac_Challenge : string }.

Record AuthProof := mkAuthProof { ap_Signature : string }.

Record NodeInfo := mkNodeInfo { ni_ID : string; ni_Name : string; ni_IP : string }.

Record MasterInfo := mkMasterInfo {
  mi_ID : string; mi_Name : string; mi_Cluster : string;
  mi_Advertise : string; mi_PubKey : string; mi_Nodes : list NodeInfo }.

(** * Heartbeats *)
Record HeartbeatUsage := mkHeartbeatUsage {
  hu_CPUPercent : spec_float; hu_RAMPercent : spec_float }.
Record HeartbeatHardware := mkHeartbeatHardware { hh_CPUCores : Z; hh_RAMBytes : Z }.
Record Heartbeat := mkHeartbeat { hb_Usage : HeartbeatUsage; hb_Hardware : HeartbeatHardware }.

(** * Commands *)
Record OrchestratorCommand := mkOrchestratorCommand {
  oc_NodeID : string; oc_Command : RawMessage }.
Record CommandReply := mkCommandReply {
  cr_NodeID : string; cr_Status : string; cr_Message : string; cr_Output : RawMessage }.
Record NodeCommand := mkNodeCommand { nc_Action : string; nc_Params : RawMessage }.

(** * Virtual machines and storage *)
Record VMDomain := mkVMDomain {
  vd_ID : Z; vd_UUID : string; vd_Name : string; vd_Active : bool; vd_Persistent : bool;
  vd_Autostart : bool; vd_State : string; vd_MaxMemMB : Z; vd_MemoryMB : Z; vd_VCPUs : Z;
  vd_ISOPath : string }.
Record VMListNode := mkVMListNode {
  vn_NodeID : string; vn_Domains : list VMDomain; vn_Error : string }.
Record VMListAggregate := mkVMListAggregate { va_Nodes : list VMListNode }.

(** * Parameters and results of the handlers of a slave *)
Record LibvirtStorageVolume := mkLibvirtStorageVolume {
  lv_Name : string; lv_Key : string; lv_Path : string; lv_Format : string; lv_Capacity : Z;
  lv_Allocation : Z }.
Record LibvirtStoragePool := mkLibvirtStoragePool {
  lp_Name : string; lp_UUID : string; lp_Active : bool; lp_Persistent : bool;
  lp_Autostart : bool; lp_Capacity : Z; lp_Allocation : Z; lp_Available : Z;
  lp_Volumes : list LibvirtStorageVolume }.
Record LibvirtNetwork := mkLibvirtNetwork {
  ln_Name : string; ln_UUID : string; ln_Active : bool; ln_Persistent : bool;
  ln_Autostart : bool }.
Record LibvirtVMActionParams := mkLibvirtVMActionParams { vp_Name : string }.
Record LibvirtVMCreateParams := mkLibvirtVMCreateParams {
  vc_Name : string; vc_MemoryMB : Z; vc_VCPUs : Z; vc_DiskPool : string; vc_DiskName : string;
  vc_DiskSizeGB : Z; vc_Network : string; vc_ISOPath : string; vc_Autostart : bool;
  vc_Start : bool }.
Record LibvirtVMCreateResult := mkLibvirtVMCreateResult {
  vr_Name : string; vr_UUID : string; vr_DiskVolume : string; vr_DiskPath : string }.
Record LibvirtVMSetAutostartParams := mkLibvirtVMSetAutostartParams {
  vs_Name : string; vs_Enabled : bool }.
Record LibvirtVMAttachISOParams := mkLibvirtVMAttachISOParams {
  vi_Name : string; vi_ISOPath : string }.
Record LibvirtVMDeleteParams := mkLibvirtVMDeleteParams {
  vx_Name : string; vx_ForceStop : bool; vx_RemoveVolumes : bool }.
Record DockerContainer := mkDockerContainer {
  dc_ID : string; dc_Image : string; dc_Names : list string; dc_State : string;
  dc_Status : string; dc_Created : Z }.
Record DockerImage := mkDockerImage {
  di_ID : string; di_RepoTags : list string; di_Size : Z; di_Created : Z;
  di_Labels : gmap string string }.
Record DockerImagePullParams := mkDockerImagePullParams { dp_Image : string }.
Record DockerImageRemoveParams := mkDockerImageRemoveParams {
  dr_Image : string; dr_Force : bool; dr_PruneChildren : bool }.
Record DockerImageRemoveResult := mkDockerImageRemoveResult {
  dd_Deleted : list string; dd_Untagged : list string }.
Record DockerContainerCreateParams := mkDockerContainerCreateParams {
  cc_Image : string; cc_Name : string; cc_Command : string; cc_Entrypoint : string;
  cc_WorkingDir : string; cc_Env : list string; cc_Ports : list string; cc_PublishAll : bool;
  cc_AutoRemove : bool; cc_RestartPolicy : string; cc_Start : bool }.
Record DockerContainerCreateResult := mkDockerContainerCreateResult {
  ce_ID : string; ce_Warnings : list string }.
Record DockerContainerStartParams := mkDockerContainerStartParams { cs_ID : string }.
Record DockerContainerStopParams := mkDockerContainerStopParams {
  ct_ID : string; ct_TimeoutSeconds : option Z }.
Record DockerContainerRestartParams := mkDockerContainerRestartParams {
  cx_ID : string; cx_TimeoutSeconds : option Z }.
Record DockerContainerRemoveParams := mkDockerContainerRemoveParams {
  cm_ID : string; cm_Force : bool; cm_RemoveVolumes : bool }.

#[export] Instance NodeInfo_eq_dec : EqDecision NodeInfo.
Proof. solve_decision. Defined.
#[export] Instance MasterInfo_eq_dec : EqDecision MasterInfo.
Proof. solve_decision. Defined.
#[export] Instance VMDomain_eq_dec : EqDecision VMDomain.
Proof. solve_decision. Defined.
#[export] Instance VMListNode_eq_dec : EqDecision VMListNode.
Proof. solve_decision. Defined.
#[export] Instance CommandReply_eq_dec : EqDecision CommandReply.
Proof. solve_decision. Defined.
#[export] Instance NodeCommand_eq_dec : EqDecision NodeCommand.
Proof. solve_decision. Defined.
