(* ===== verification/GoProtocol.v ===== *)
(** The framing and the handshake of [core/protocol]: the lines of line.go, the packets
    of packet.go and the identities, challenges and hello lines of handshake.go.

    A [*bufio.Reader] is the bytes still to come, a [*bufio.Writer] the bytes sent so
    far and how many more the connection takes; [None] is the nil pointer.  SHA-256,
    Ed25519 and the random source are parameters; base64 is defined here.
    The payload given to [NewPacket] is an [any]: [Marshal] on it is a parameter. *)
From stdpp Require Import base strings list.
From Stdlib Require Import Lia ZArith Ascii.
From S2P Require Import Prelude GoStrings GoJson GoTypes.
Local Open Scope res_scope.

(** * Readers and writers *)
(** [ReadString('\n')]: the line with its end cut off, and the rest; [None] at the end
    of the stream, with everything read. *)
Fixpoint cut_line (l : list ascii) : option (list ascii * list ascii) :=
  match l with
  | [] => None
  | a :: l' =>
      if chr_eqb a NL then Some ([], l')
      else match cut_line l' with Some (x, r) => Some (a :: x, r) | None => None end
  end.
Definition in_stream : Type := option (list ascii).
Definition EOF : string := "EOF".

Record sink := mkSink { sent : list ascii; room : option nat }.
(** [WriteString] and [Flush]: what the connection takes, and whether it took all.
    A writer that failed once takes nothing more. *)
Definition write_flush (w : sink) (text : list ascii) : result unit * sink :=
  match room w with
  | None => (Ok tt, mkSink (sent w ++ text) None)
  | Some n =>
      (if length text <=? n then Ok tt else Err "write failed",
       mkSink (sent w ++ take n text) (Some (n - length text)))
  end.

(** * line.go *)
Definition WriteLine (writer : option sink) (line : string) : result unit * option sink :=
  match writer with
  | None => (Err "nil writer", None)
  | Some w =>
      let line := TrimSpace line in
      if str_empty line then (Err "empty line", Some w)
      else let (e, w') := write_flush w (bytes_of (line +:+ nl_str)) in (e, Some w')
  end.

Definition ReadLine (reader : in_stream) : result string * in_stream :=
  match reader with
  | None => (Err "nil reader", None)
  | Some l =>
      match cut_line l with
      | None => (Err EOF, Some [])
      | Some (x, r) =>
          let line := TrimSpace (of_bytes x +:+ nl_str) in
          if str_empty line then (Err "empty line", Some r) else (Ok line, Some r)
      end
  end.

(** * packet.go *)
Record Packet := mkPacket {
  pk_Type : string; pk_ID : string; pk_ReplyTo : string; pk_Error : string;
  pk_Payload : RawMessage }.
#[export] Instance Packet_eq_dec : EqDecision Packet.
Proof. solve_decision. Defined.
Definition zero_packet : Packet := mkPacket "" "" "" "" "".

Section NewPacket.
(** [json.Marshal] on the values that are sent. *)
Context {A : Type} (Marshal : A -> result string).
Definition NewPacket (packetType : string) (payload : option A) : result Packet :=
  if str_empty (TrimSpace packetType) then Err "packet type is empty"
  else
    let? raw := match payload with None => Ok "" | Some v => Marshal v end in
    Ok (mkPacket packetType "" "" "" raw).
Definition NewReply (packetType replyTo : string) (payload : option A) : result Packet :=
  let? p := NewPacket packetType payload in
  Ok (mkPacket (pk_Type p) (pk_ID p) (TrimSpace replyTo) (pk_Error p) (pk_Payload p)).
End NewPacket.

Definition NewError (message : string) : Packet :=
  mkPacket PacketError "" "" (TrimSpace message) "".

(** [decode] is what [Unmarshal] does for the type of [out]. *)
Definition DecodePayload {A} (decode : json -> result A) (p : Packet) : result A :=
  if str_empty (pk_Payload p) then Err "payload is empty"
  else match parse (pk_Payload p) with
       | None => Err "invalid JSON"
       | Some v => decode v
       end.

(** ** The JSON text of a packet: the struct tags, with [omitempty] *)
Definition omitempty (name s : string) : list (string * list ascii) :=
  if str_empty s then [] else [(name, text_str s)].
Definition packet_fields (p : Packet) (payload : option string) : list (string * list ascii) :=
  [("type", text_str (pk_Type p))]
  ++ omitempty "id" (pk_ID p) ++ omitempty "reply_to" (pk_ReplyTo p) ++ omitempty "error" (pk_Error p)
  ++ match payload with None => [] | Some t => [("payload", bytes_of t)] end.

Definition field_text (name : string) (t : list ascii) : list ascii := text_str name ++ COLON :: t.
Fixpoint fields_text (fs : list (string * list ascii)) : list ascii :=
  match fs with
  | [] => [RBRACE]
  | (k, t) :: fs' =>
      field_text k t ++ match fs' with [] => [RBRACE] | _ => COMMA :: fields_text fs' end
  end.
Definition object_text (fs : list (string * list ascii)) : list ascii := LBRACE :: fields_text fs.

(** A [RawMessage] is compacted; it must be valid JSON. *)
Definition marshal_raw (raw : RawMessage) : result (option string) :=
  if str_empty raw then Ok None
  else match compact raw with
       | Some t => Ok (Some t)
       | None => Err "json: error calling MarshalJSON for type json.RawMessage"
       end.
Definition MarshalPacket (p : Packet) : result (list ascii) :=
  let? payload := marshal_raw (pk_Payload p) in
  Ok (object_text (packet_fields p payload)).

Definition WritePacket (writer : option sink) (p : Packet) : result unit * option sink :=
  match writer with
  | None => (Err "nil writer", None)
  | Some w =>
      if str_empty (TrimSpace (pk_Type p)) then (Err "packet type is empty", Some w)
      else match MarshalPacket p with
           | Err e => (Err e, Some w)
           | Ok b => let (e, w') := write_flush w (b ++ [NL]) in (e, Some w')
           end
  end.

(** ** Decoding an object into the struct *)
Inductive field := FType | FID | FReplyTo | FError | FPayload.
Definition exact_field (k : string) : option field :=
  if str_eqb k "type" then Some FType
  else if str_eqb k "id" then Some FID
  else if str_eqb k "reply_to" then Some FReplyTo
  else if str_eqb k "error" then Some FError
  else if str_eqb k "payload" then Some FPayload
  else None.
(** A key without its case: the ASCII letters, the long s (U+017F) and the Kelvin sign
    (U+212A); no other character folds to one of ASCII. *)
Fixpoint fold_bytes (l : list ascii) : list ascii :=
  match l with
  | [] => []
  | a :: l1 =>
      let keep := lower_ascii a :: fold_bytes l1 in
      match l1 with
      | b :: l2 =>
          if (byte_val a =? 197) && (byte_val b =? 191) then "s"%char :: fold_bytes l2
          else match l2 with
               | c :: l3 =>
                   if (byte_val a =? 226) && (byte_val b =? 132) && (byte_val c =? 170) then
                     "k"%char :: fold_bytes l3
                   else keep
               | [] => keep
               end
      | [] => keep
      end
  end.
Definition fold_name (k : string) : string := of_bytes (fold_bytes (bytes_of k)).
(** A key matches exactly or without regard to case. *)
Definition field_of (k : string) : option field :=
  match exact_field k with Some f => Some f | None => exact_field (fold_name k) end.

Definition set_string (f : field) (s : string) (p : Packet) : Packet :=
  match f, p with
  | FType, mkPacket t i r e y => mkPacket s i r e y
  | FID, mkPacket t i r e y => mkPacket t s r e y
  | FReplyTo, mkPacket t i r e y => mkPacket t i s e y
  | FError, mkPacket t i r e y => mkPacket t i r s y
  | FPayload, mkPacket t i r e y => mkPacket t i r e s
  end.
(** The packet so far, and whether some member had the wrong type. *)
Definition decode_member (acc : Packet * bool) (m : string * string * json) : Packet * bool :=
  let '(p, bad) := acc in
  let '(k, raw, v) := m in
  match field_of k with
  | None => (p, bad)
  | Some FPayload => (set_string FPayload raw p, bad)
  | Some f =>
      match v with
      | JStr s => (set_string f s p, bad)
      | JNull => (p, bad)
      | _ => (p, true)
      end
  end.
Definition UnmarshalPacket (text : string) : result Packet :=
  match parse text with
  | None => Err "invalid JSON"
  | Some (JObj ms) =>
      let (p, bad) := foldl decode_member (zero_packet, false) ms in
      if bad : bool then Err "json: cannot unmarshal into Go struct field" else Ok p
  | Some JNull => Ok zero_packet
  | Some _ => Err "json: cannot unmarshal into Go value of type protocol.Packet"
  end.

Definition ReadPacket (reader : in_stream) : result Packet * in_stream :=
  match reader with
  | None => (Err "nil reader", None)
  | Some l =>
      match cut_line l with
      | None => (Err EOF, Some [])
      | Some (x, r) =>
          let line := TrimSpace (of_bytes x +:+ nl_str) in
          (if str_empty line then Err "empty packet line"
           else
             let? p := UnmarshalPacket line in
             if str_empty (TrimSpace (pk_Type p)) then Err "packet type missing" else Ok p,
           Some r)
      end
  end.

(** * Lemmas *)
(** ** Lines *)
Lemma cut_line_app x r : NL ∉ x -> cut_line (x ++ NL :: r) = Some (x, r).
Proof.
  induction x as [|a x IH]; cbn; intros H; [done|]. apply not_elem_of_cons in H as [Ha Hx].
  destruct (chr_eqb_spec a NL) as [->|_]; [done|]. by rewrite IH.
Qed.
Lemma cut_line_Some l x r : cut_line l = Some (x, r) -> l = x ++ NL :: r /\ NL ∉ x.
Proof.
  revert x r. induction l as [|a l IH]; cbn; intros x r; [done|].
  destruct (chr_eqb_spec a NL) as [->|Hn].
  - intros [= <- <-]. split; [done|]. apply not_elem_of_nil.
  - destruct (cut_line l) as [[y s]|]; [|done]. intros [= <- <-].
    destruct (IH _ _ eq_refl) as [-> Hy]. split; [done|]. rewrite elem_of_cons. by intros [?|?].
Qed.
Lemma plain_no_nl l : plain l -> NL ∉ l.
Proof. intros H Hn. unfold plain in H. rewrite Forall_forall in H. apply H in Hn. by apply Nat.leb_le in Hn. Qed.

(** ** Texts of strings *)
Lemma esc_step (P : list ascii -> Prop) :
  P [] ->
  (forall a l, ascii_byte a = true -> P l -> P (a :: l)) ->
  (forall a l, ascii_byte a = false -> esc (a :: l) = esc_bad ++ esc l -> P l -> P (a :: l)) ->
  (forall a b l, rune2 a b = true -> P l -> P (a :: b :: l)) ->
  (forall a b c l, rune3 a b c = true -> P l -> P (a :: b :: c :: l)) ->
  (forall a b c d l, rune4 a b c d = true -> P l -> P (a :: b :: c :: d :: l)) ->
  forall l, P l.
Proof.
  intros H0 H1 Hb H2 H3 H4 l. remember (length l) as n eqn:En. revert l En.
  induction n as [n IH] using lt_wf_ind. intros l ->.
  assert (forall l', length l' < length l -> P l') as K by eauto.
  destruct l as [|a l]; [done|]. destruct (ascii_byte a) eqn:Ea; [apply H1, K; [done|cbn; lia]|].
  assert (esc (a :: l) = esc_bad ++ esc l -> P (a :: l)) as Kb by (intros; apply Hb, K; cbn; auto).
  cbn [esc] in Kb. rewrite Ea in Kb. destruct l as [|b l2]; [by apply Kb|].
  destruct (rune2 a b) eqn:R2; [apply H2, K; [done|cbn; lia]|]. destruct l2 as [|c l3]; [by apply Kb|].
  destruct (rune3 a b c) eqn:R3; [apply H3, K; [done|cbn; lia]|]. destruct l3 as [|d l4]; [by apply Kb|].
  destruct (rune4 a b c d) eqn:R4; [apply H4, K; [done|cbn; lia]|]. by apply Kb.
Qed.

Lemma plain_high a : ascii_byte a = false -> 32 <= byte_val a.
Proof. unfold ascii_byte. intros H%Nat.ltb_ge. lia. Qed.
Lemma plain_esc_ascii a : ascii_byte a = true -> plain (esc_ascii a).
Proof.
  destruct a as [[] [] [] [] [] [] [] []]; intros H; try discriminate H;
    apply (bool_decide_unpack _); vm_compute; exact I.
Qed.
Ltac plain_bytes :=
  unfold plain in *; rewrite ?Forall_cons, ?Forall_nil; split_and!;
  first [done | by apply plain_high, cont_high | by apply plain_high].
Lemma plain_esc l : plain (esc l).
Proof.
  induction l as [|a l Ha IH|a l Ha He IH|a b l Hr IH|a b c l Hr IH|a b c d l Hr IH] using esc_step.
  - constructor.
  - cbn [esc]. rewrite Ha. apply plain_app; [by apply plain_esc_ascii|done].
  - rewrite He. apply plain_app; [|done]. apply (bool_decide_unpack _). vm_compute. exact I.
  - cbn [esc]. rewrite (rune2_not_ascii _ _ Hr), Hr.
    pose proof (rune2_not_ascii _ _ Hr). apply andb_true_iff in Hr as [_ Hr]. plain_bytes.
  - cbn [esc]. destruct (rune3_not_ascii _ _ _ Hr) as [Ha ->]. rewrite Ha, Hr.
    apply plain_app; [|done]. destruct (line_sep a b c) eqn:E; [by eapply plain_line_sep|].
    apply rune3_cont in Hr as [Hb Hc].
    plain_bytes.
  - cbn [esc]. destruct (rune4_not_ascii _ _ _ _ Hr) as (Ha & -> & ->). rewrite Ha, Hr.
    apply rune4_cont in Hr as (Hb & Hc & Hd).
    plain_bytes.
Qed.

(** A string as the packet sends it: it can be written in UTF-8. *)
Definition utf8_str (s : string) : Prop := utf8 (bytes_of s).
Lemma text_str_reads s : utf8_str s -> reads value ends_number (text_str s) (JStr s).
Proof.
  intros H. apply (reads_value _ _ 1). intros x _. unfold text_str. cbn [app].
  rewrite value_S. punct. rewrite <- app_assoc. cbn [app]. rewrite (unq_esc _ _ H).
  by rewrite of_bytes_of.
Qed.
Lemma plain_text_str s : plain (text_str s).
Proof.
  apply plain_cons; [by apply Nat.leb_le|]. apply plain_app; [apply plain_esc|plain_list].
Qed.

(** ** The text of an object is read member by member *)
Definition good_field (f : string * list ascii) (v : json) : Prop :=
  utf8_str f.1 /\ reads value ends_number f.2 v.
Definition member_of (f : string * list ascii) (v : json) : string * string * json :=
  (f.1, of_bytes f.2, v).

Lemma field_text_member k t : field_text k t = member_text (esc (bytes_of k) ++ [DQ]) t.
Proof. unfold field_text, text_str, member_text. cbn [app]. by rewrite <- !app_assoc. Qed.
Lemma key_reads k : utf8_str k -> forall y, unq ((esc (bytes_of k) ++ [DQ]) ++ y) = Some (bytes_of k, y).
Proof. intros H y. rewrite <- app_assoc. by apply unq_esc. Qed.

Lemma fields_reads fs vs : fs <> [] -> Forall2 good_field fs vs ->
  reads members any_text (fields_text fs) (zip_with member_of fs vs).
Proof.
  intros Hne H. induction H as [|[k t] v fs vs [Hk Hv] H IH]; [done|]. cbn [fields_text].
  rewrite field_text_member. unfold member_of at 1. cbn [fst snd zip_with] in *.
  rewrite <- (of_bytes_of k) at 2.
  destruct H as [|f2 v2 fs vs H2 H].
  - apply members_one; [by apply key_reads|done].
  - apply members_more; [by apply key_reads|done|by apply IH].
Qed.

Lemma object_reads fs vs : fs <> [] -> Forall2 good_field fs vs ->
  reads value ends_number (object_text fs) (JObj (zip_with member_of fs vs)).
Proof.
  intros Hne H. destruct (fields_reads fs vs Hne H) as [f Hf]. apply (reads_value _ _ (S f)).
  intros x _. unfold object_text. cbn [app]. rewrite value_S. punct.
  assert (exists r, skip_ws (fields_text fs ++ x) = DQ :: r) as [r Er].
  { destruct fs as [|[k t] fs]; [done|]. cbn [fields_text]. unfold field_text, text_str.
    cbn [app]. eexists. by cbn [skip_ws]. }
  rewrite Er. punct. rewrite <- Er, members_skip. by rewrite (Hf f x).
Qed.

Lemma plain_object fs : Forall (fun f => plain f.2) fs -> plain (object_text fs).
Proof.
  intros H. apply plain_cons; [by apply Nat.leb_le|].
  induction H as [|[k t] fs Ht H IH]; cbn [fields_text fst snd] in *; [plain_list|].
  apply plain_app.
  - apply plain_app; [apply plain_text_str|]. apply plain_cons; [by apply Nat.leb_le|done].
  - destruct fs; [plain_list|]. apply plain_cons; [by apply Nat.leb_le|done].
Qed.

(** ** Packets *)
Definition utf8_packet (p : Packet) : Prop :=
  utf8_str (pk_Type p) /\ utf8_str (pk_ID p) /\ utf8_str (pk_ReplyTo p) /\ utf8_str (pk_Error p).
(** The packet that arrives: the payload is compacted. *)
Definition received (p : Packet) : Packet :=
  set_string FPayload (default "" (compact (pk_Payload p))) p.

Lemma str_empty_spec s : reflect (s = "") (str_empty s).
Proof. apply str_eqb_spec. Qed.
Lemma compact_empty : compact "" = None.
Proof. reflexivity. Qed.
Lemma compact_not_empty raw t : compact raw = Some t -> t <> "".
Proof.
  intros H ->. apply compact_token in H as (_ & v & f & H). specialize (H f [] (le_n f) eq_refl).
  by destruct f.
Qed.

(** The fields of a packet, with the values they are read as. *)
Definition omitted (s : string) : list json := if str_empty s then [] else [JStr s].
Lemma omitempty_good name s : utf8_str name -> utf8_str s ->
  Forall2 good_field (omitempty name s) (omitted s).
Proof.
  intros Hn Hs. unfold omitempty, omitted. destruct (str_empty s); [constructor|].
  constructor; [|constructor]. split; [done|]. by apply text_str_reads.
Qed.

Lemma plain_omitempty name s : Forall (fun f => plain f.2) (omitempty name s).
Proof.
  unfold omitempty. destruct (str_empty s); [constructor|].
  constructor; [apply plain_text_str|constructor].
Qed.

Ltac utf8_name := apply utf8_ascii, (bool_decide_unpack _); vm_compute; exact I.

Lemma packet_fields_good p payload :
  utf8_packet p -> match payload with None => True | Some t => token (bytes_of t) end ->
  exists vp, Forall2 good_field (packet_fields p payload)
    ([JStr (pk_Type p)] ++ omitted (pk_ID p) ++ omitted (pk_ReplyTo p) ++ omitted (pk_Error p) ++ vp)
    /\ length vp = match payload with None => 0 | Some _ => 1 end.
Proof.
  intros (H1 & H2 & H3 & H4) Hp.
  exists (match payload with None => [] | Some t => [default JNull (parse t)] end).
  split; [|by destruct payload].
  unfold packet_fields. repeat apply Forall2_app; try (apply omitempty_good; [utf8_name|done]).
  - constructor; [|constructor]. split; [utf8_name|by apply text_str_reads].
  - destruct payload as [t|]; [|constructor]. constructor; [|constructor].
    destruct Hp as (_ & v & Hv). split; [utf8_name|]. cbn [snd].
    pose proof (token_parse _ _ Hv) as Hq. rewrite of_bytes_of in Hq. by rewrite Hq.
Qed.

Lemma unmarshal_marshal p b : utf8_packet p -> MarshalPacket p = Ok b ->
  UnmarshalPacket (of_bytes b) = Ok (received p) /\ plain b.
Proof.
  intros Hu. unfold MarshalPacket, marshal_raw.
  assert (forall payload, match payload with None => True | Some t => token (bytes_of t) end ->
    default "" payload = default "" (compact (pk_Payload p)) ->
    UnmarshalPacket (of_bytes (object_text (packet_fields p payload))) = Ok (received p)
    /\ plain (object_text (packet_fields p payload))) as K.
  { intros payload Ht Hd. destruct (packet_fields_good p payload Hu Ht) as (vp & Hf & Hl). split.
    - unfold UnmarshalPacket. erewrite token_parse by (by apply object_reads).
      unfold received. rewrite <- Hd. clear Hu Ht Hd Hf. destruct p as [ty i r e y].
      unfold packet_fields, omitempty, omitted.
      cbn [pk_Type pk_ID pk_ReplyTo pk_Error pk_Payload].
      destruct (str_empty_spec i) as [->|_], (str_empty_spec r) as [->|_], (str_empty_spec e) as [->|_],
        payload as [t|], vp as [|w [|? ?]]; try discriminate Hl;
        cbn -[text_str field_of];
        repeat match goal with
        | |- context [field_of ?k] =>
            let f := eval vm_compute in (field_of k) in change (field_of k) with f;
            cbn -[text_str field_of]
        end; by rewrite ?of_bytes_of.
    - apply plain_object. unfold packet_fields.
      repeat apply Forall_app_2; try apply plain_omitempty.
      + constructor; [apply plain_text_str|constructor].
      + destruct payload; [|constructor]. constructor; [apply Ht|constructor]. }
  destruct (str_empty_spec (pk_Payload p)) as [E|_].
  - intros [= <-]. apply (K None); [done|]. by rewrite E.
  - destruct (compact (pk_Payload p)) as [t|] eqn:Ec; [|done]. intros [= <-].
    apply (K (Some t)); [|done]. by eapply compact_token.
Qed.

(** The object is a line of its own: nothing is trimmed from it. *)
Lemma object_trim fs : fs <> [] -> TrimSpace (of_bytes (object_text fs ++ [NL])) = of_bytes (object_text fs).
Proof.
  intros Hne. rewrite of_bytes_app. change (of_bytes [NL]) with nl_str. rewrite TrimSpace_nl.
  assert (exists m, object_text fs = LBRACE :: m ++ [RBRACE]) as [m ->]; [|by apply TrimSpace_solid].
  unfold object_text. assert (exists m, fields_text fs = m ++ [RBRACE]) as [m ->]; [|by exists m].
  induction fs as [|[k t] fs IH]; [done|]. cbn [fields_text]. destruct fs as [|f fs].
  - by exists (field_text k t).
  - destruct IH as [m ->]; [done|]. exists (field_text k t ++ COMMA :: m). by rewrite <- app_assoc.
Qed.

Lemma read_marshalled p b rest : utf8_packet p -> TrimSpace (pk_Type p) <> "" ->
  MarshalPacket p = Ok b ->
  ReadPacket (Some (b ++ NL :: rest)) = (Ok (received p), Some rest).
Proof.
  intros Hu Ht Hm. destruct (unmarshal_marshal p b Hu Hm) as [Hun Hp].
  unfold ReadPacket. rewrite cut_line_app by (by apply plain_no_nl).
  assert (exists pl, b = object_text (packet_fields p pl)) as [pl Hb].
  { unfold MarshalPacket, marshal_raw in Hm. repeat case_match; simplify_eq/=; eauto. }
  assert (TrimSpace (of_bytes b +:+ nl_str) = of_bytes b) as ->.
  { rewrite Hb. pose proof (object_trim (packet_fields p pl)) as E. rewrite of_bytes_app in E.
    by apply E. }
  destruct (str_empty_spec (of_bytes b)) as [E|_].
  { exfalso. rewrite Hb in E. discriminate E. }
  rewrite Hun. cbn [res_bind]. destruct (str_empty_spec (TrimSpace (pk_Type (received p)))) as [E|_]; [|done].
  exfalso. apply Ht. by destruct p.
Qed.

(** * Properties *)
Fixpoint write_all (w : sink) (ps : list Packet) : result unit * sink :=
  match ps with
  | [] => (Ok tt, w)
  | p :: ps' =>
      match WritePacket (Some w) p with
      | (Ok _, Some w') => write_all w' ps'
      | (Err e, Some w') => (Err e, w')
      | (r, None) => (r, w)
      end
  end.
Fixpoint read_n (n : nat) (r : in_stream) : result (list Packet) * in_stream :=
  match n with
  | O => (Ok [], r)
  | S n' =>
      match ReadPacket r with
      | (Err e, r') => (Err e, r')
      | (Ok p, r') =>
          match read_n n' r' with
          | (Ok ps, r2) => (Ok (p :: ps), r2)
          | (Err e, r2) => (Err e, r2)
          end
      end
  end.

Lemma write_ok w p w' : WritePacket (Some w) p = (Ok tt, Some w') ->
  TrimSpace (pk_Type p) <> "" /\
  exists b, MarshalPacket p = Ok b /\ sent w' = sent w ++ b ++ [NL].
Proof.
  unfold WritePacket. destruct (str_empty_spec (TrimSpace (pk_Type p))) as [|Ht]; [done|].
  destruct (MarshalPacket p) as [b|e]; [|done]. unfold write_flush. destruct (room w) as [n|].
  - destruct (Nat.leb_spec (length (b ++ [NL])) n); [|done]. intros [= <-]. split; [done|].
    exists b. split; [done|]. cbn [sent]. by rewrite take_ge by lia.
  - intros [= <-]. split; [done|]. by exists b.
Qed.

(** C11: What one side writes with [WritePacket] the other side reads with [ReadPacket]: packet by packet, in order, with every string field unchanged and the payload in its compact form, and whatever follows in the stream is left for the next read. *)
Theorem packets_arrive ps w w' rest :
  Forall utf8_packet ps -> write_all w ps = (Ok tt, w') ->
  exists text, sent w' = sent w ++ text
    /\ read_n (length ps) (Some (text ++ rest)) = (Ok (map received ps), Some rest).
Proof.
  intros H. revert w. induction H as [|p ps Hp H IH]; intros w; cbn [write_all].
  - intros [= <-]. exists []. split; [by rewrite app_nil_r|done].
  - destruct (WritePacket (Some w) p) as [[[]|e] [w1|]] eqn:E; try done;
      [|exfalso; revert E; unfold WritePacket; by repeat case_match]. intros Hw.
    destruct (write_ok _ _ _ E) as (Ht & b & Hb & Hs). destruct (IH _ Hw) as (text & Hs2 & Hr).
    exists ((b ++ [NL]) ++ text). split; [by rewrite Hs2, Hs, <- app_assoc|].
    cbn [length read_n map]. rewrite <- !app_assoc. cbn [app].
    rewrite (read_marshalled p b (text ++ rest) Hp Ht Hb). by rewrite Hr.
Qed.

(** A packet with a payload, and one without. *)
Definition sample_packets : list Packet :=
  [mkPacket PacketNodeCommand "n1" "" "" (of_bytes (map (fun a => if chr_eqb a "'"%char then DQ else a)
     (bytes_of "{ 'a' : [1, '<x>'] }")));
   NewError " no such node "].

Lemma packets_arrive_witness :
  exists w' text, write_all (mkSink [] None) sample_packets = (Ok tt, w')
    /\ sent w' = [] ++ text
    /\ read_n 2 (Some (text ++ bytes_of "more")) = (Ok (map received sample_packets), Some (bytes_of "more")).
Proof.
  assert (Forall utf8_packet sample_packets) as Hu.
  { repeat (apply Forall_cons; split); [..|by apply Forall_nil];
      repeat split; apply utf8_ascii, (bool_decide_unpack _); vm_compute; exact I. }
  assert (exists w', write_all (mkSink [] None) sample_packets = (Ok tt, w')) as [w' Hw].
  { eexists. vm_compute. reflexivity. }
  destruct (packets_arrive sample_packets (mkSink [] None) w' (bytes_of "more") Hu Hw) as (text & H1 & H2).
  exists w', text. split; [exact Hw|]. split; [exact H1|exact H2].
Defined.

(** X: a failing read leaves the stream at the start of the next line, and a writer that fails sends
    no further packet. *)
Lemma read_resyncs x rest : NL ∉ x -> (ReadPacket (Some (x ++ NL :: rest))).2 = Some rest.
Proof. intros H. cbn [ReadPacket]. by rewrite cut_line_app. Qed.
Lemma read_EOF l : NL ∉ l -> ReadPacket (Some l) = (Err EOF, Some []).
Proof.
  intros H. cbn [ReadPacket]. destruct (cut_line l) as [[x r]|] eqn:E; [|done].
  apply cut_line_Some in E as [-> _]. exfalso. apply H. rewrite elem_of_app, elem_of_cons. auto.
Qed.
