(* ===== verification/GoHandshake.v ===== *)
(** Identities, challenges and hello lines: [core/protocol/handshake.go], the
    authentication payloads of types.go, and [encoding/base64]'s [RawURLEncoding],
    which they all travel in.

    SHA-256 and Ed25519 are parameters of the sections; the random bytes of
    [GenerateChallenge] and [NewID] are an argument. *)
From stdpp Require Import base strings list.
From Stdlib Require Import Lia ZArith ZifyNat Ascii.
From S2P Require Import Prelude GoStrings GoJson GoTypes GoProtocol.
Local Open Scope res_scope.

(** * base64.RawURLEncoding *)
Definition b64_chr (n : nat) : ascii :=
  if n <? 26 then chr (65 + n)
  else if n <? 52 then chr (71 + n)
  else if n <? 62 then chr (n - 4)
  else if n =? 62 then chr 45
  else chr 95.
Definition b64_val (a : ascii) : option nat :=
  let n := byte_val a in
  if (65 <=? n) && (n <=? 90) then Some (n - 65)
  else if (97 <=? n) && (n <=? 122) then Some (n - 71)
  else if (48 <=? n) && (n <=? 57) then Some (n + 4)
  else if n =? 45 then Some 62
  else if n =? 95 then Some 63
  else None.

Fixpoint b64_encode (l : list ascii) : list ascii :=
  match l with
  | [] => []
  | [a] => let x := byte_val a in [b64_chr (x / 4); b64_chr (x mod 4 * 16)]
  | [a; b] =>
      let x := byte_val a in let y := byte_val b in
      [b64_chr (x / 4); b64_chr (x mod 4 * 16 + y / 16); b64_chr (y mod 16 * 4)]
  | a :: b :: c :: l' =>
      let x := byte_val a in let y := byte_val b in let z := byte_val c in
      b64_chr (x / 4) :: b64_chr (x mod 4 * 16 + y / 16) :: b64_chr (y mod 16 * 4 + z / 64)
        :: b64_chr (z mod 64) :: b64_encode l'
  end.
Definition EncodeToString (l : list ascii) : string := of_bytes (b64_encode l).

(** Line ends are skipped; the bits a last, incomplete group has left are ignored. *)
Fixpoint b64_values (l : list ascii) : option (list nat) :=
  match l with
  | [] => Some []
  | a :: l' =>
      if (byte_val a =? 10) || (byte_val a =? 13) then b64_values l'
      else match b64_val a, b64_values l' with
           | Some v, Some vs => Some (v :: vs)
           | _, _ => None
           end
  end.
Fixpoint b64_decode (vs : list nat) : option (list ascii) :=
  match vs with
  | [] => Some []
  | [_] => None
  | [p; q] => Some [chr (p * 4 + q / 16)]
  | [p; q; r] => Some [chr (p * 4 + q / 16); chr (q mod 16 * 16 + r / 4)]
  | p :: q :: r :: s :: vs' =>
      match b64_decode vs' with
      | Some l => Some (chr (p * 4 + q / 16) :: chr (q mod 16 * 16 + r / 4) :: chr (r mod 4 * 64 + s) :: l)
      | None => None
      end
  end.
Definition DecodeString (s : string) : result (list ascii) :=
  match b64_values (bytes_of s) with
  | None => Err "illegal base64 data"
  | Some vs => of_option "illegal base64 data" (b64_decode vs)
  end.

Definition NewID (random : list ascii) : string := EncodeToString (take 16 random).
Definition GenerateChallenge (random : list ascii) : string := EncodeToString (take 64 random).

(** * handshake.go *)
Definition HeaderMasterSlave : string := "CENTRALISD-MS/1".
Definition HeaderOrchestrator : string := "CENTRALISD-ORCH/1".
Definition PublicKeySize : nat := 32.

Section Crypto.
Context (sha256 : list ascii -> list ascii).
Context (ed_sign : list ascii -> list ascii -> list ascii).
Context (ed_verify : list ascii -> list ascii -> list ascii -> bool).

Definition IDFromPublicKey (pubKey : list ascii) : result string :=
  if negb (length pubKey =? PublicKeySize) then Err "invalid ed25519 public key length"
  else Ok (EncodeToString (sha256 pubKey)).

Definition VerifyIDForPublicKey (id : string) (pubKey : list ascii) : bool :=
  let id := TrimSpace id in
  if str_empty id then false else str_eqb id (EncodeToString (sha256 pubKey)).

Definition SignChallenge (privKey : list ascii) (challenge : string) : result string :=
  if length privKey =? 0 then Err "private key missing"
  else
    let challenge := TrimSpace challenge in
    if str_empty challenge then Err "challenge empty"
    else Ok (EncodeToString (ed_sign privKey (bytes_of challenge))).

Definition VerifyChallengeSignature (pubKey : list ascii) (challenge sigB64 : string) : bool :=
  if negb (length pubKey =? PublicKeySize) then false
  else match DecodeString (TrimSpace sigB64) with
       | Err _ => false
       | Ok sig => ed_verify pubKey (bytes_of challenge) sig
       end.
End Crypto.

Definition WriteHello (writer : option sink) (header : string) : result unit * option sink :=
  let header := TrimSpace header in
  if str_empty header then (Err "header empty", writer) else WriteLine writer header.

Definition ReadHello (reader : in_stream) (expected : string) : result unit * in_stream :=
  let expected := TrimSpace expected in
  if str_empty expected then (Err "expected header empty", reader)
  else
    match ReadLine reader with
    | (Err e, r) => (Err e, r)
    | (Ok line, r) => (if str_eqb line expected then Ok tt else Err "unexpected header", r)
    end.

(** * The authentication payloads: structs of strings *)
(** The text of a struct whose fields are strings: the name, the [omitempty] mark and
    the value of each. *)
Definition string_fields (fs : list (string * bool * string)) : list (string * list ascii) :=
  flat_map (fun '(name, omit, s) => if omit && str_empty s : bool then [] else [(name, text_str s)]) fs.
Definition struct_text (fs : list (string * bool * string)) : string :=
  of_bytes (object_text (string_fields fs)).

(** Decoding: the values of the named fields, in the order of the names. *)
Fixpoint set_named (names : list string) (k : string) (s : string) (acc : list string) : list string :=
  match names, acc with
  | n :: names', v :: acc' => if str_eqb n k then s :: acc' else v :: set_named names' k s acc'
  | _, _ => acc
  end.
Definition find_name (names : list string) (k : string) : option string :=
  if mem_str k names then Some k
  else List.find (fun n => str_eqb (fold_name n) (fold_name k)) names.
Definition decode_string_member (names : list string) (acc : list string * bool)
    (m : string * string * json) : list string * bool :=
  let '(vs, bad) := acc in
  let '(k, _, v) := m in
  match find_name names k with
  | None => (vs, bad)
  | Some n =>
      match v with
      | JStr s => (set_named names n s vs, bad)
      | JNull => (vs, bad)
      | _ => (vs, true)
      end
  end.
Definition decode_strings (names : list string) (v : json) : result (list string) :=
  let zero := map (fun _ => "") names in
  match v with
  | JNull => Ok zero
  | JObj ms =>
      let (vs, bad) := foldl (decode_string_member names) (zero, false) ms in
      if bad : bool then Err "json: cannot unmarshal into Go struct field" else Ok vs
  | _ => Err "json: cannot unmarshal into Go value"
  end.

Definition hello_fields (h : AuthHello) : list (string * bool * string) :=
  [("id", false, ah_ID h); ("pubkey", false, ah_PubKey h); ("role", false, ah_Role h);
   ("name", true, ah_Name h); ("cluster", true, ah_Cluster h); ("advertise", true, ah_Advertise h)].
Definition hello_names : list string := ["id"; "pubkey"; "role"; "name"; "cluster"; "advertise"].
Definition MarshalAuthHello (h : AuthHello) : result string := Ok (struct_text (hello_fields h)).
Definition UnmarshalAuthHello (v : json) : result AuthHello :=
  let? vs := decode_strings hello_names v in
  match vs with
  | [i; k; r; n; c; a] => Ok (mkAuthHello i k r n c a)
  | _ => Err "unreachable"
  end.

Definition MarshalAuthChallenge (c : AuthChallenge) : result string :=
  Ok (struct_text [("challenge", false, ac_Challenge c)]).
Definition UnmarshalAuthChallenge (v : json) : result AuthChallenge :=
  let? vs := decode_strings ["challenge"] v in Ok (mkAuthChallenge (nth 0 vs "")).
Definition MarshalAuthProof (p : AuthProof) : result string :=
  Ok (struct_text [("signature", false, ap_Signature p)]).
Definition UnmarshalAuthProof (v : json) : result AuthProof :=
  let? vs := decode_strings ["signature"] v in Ok (mkAuthProof (nth 0 vs "")).

(** * Lemmas *)
(** ** base64 *)
Lemma b64_val_chr n : n < 64 -> b64_val (b64_chr n) = Some n /\ solid (b64_chr n) = true.
Proof.
  intros H. do 64 (destruct n as [|n]; [by vm_compute|]). lia.
Qed.
Lemma solid_not_line_end a : solid a = true -> (byte_val a =? 10) || (byte_val a =? 13) = false.
Proof.
  unfold solid. intros [H%Nat.leb_le _]%andb_true_iff.
  apply orb_false_iff; split; apply Nat.eqb_neq; lia.
Qed.
Lemma b64_values_chr n l : n < 64 ->
  b64_values (b64_chr n :: l) = match b64_values l with Some vs => Some (n :: vs) | None => None end.
Proof.
  intros H. destruct (b64_val_chr n H) as [Hv Hs]. cbn [b64_values].
  by rewrite (solid_not_line_end _ Hs), Hv.
Qed.
Lemma byte_val_lt a : byte_val a < 256.
Proof. apply nat_ascii_bounded. Qed.
Lemma chr_of a n : n = byte_val a -> chr n = a.
Proof. intros ->. apply chr_byte_val. Qed.

(** Three at a time. *)
Lemma b64_ind (P : list ascii -> Prop) :
  P [] -> (forall a, P [a]) -> (forall a b, P [a; b]) ->
  (forall a b c l, P l -> P (a :: b :: c :: l)) -> forall l, P l.
Proof.
  intros H0 H1 H2 H3 l. remember (length l) as n eqn:En. revert l En.
  induction n as [n IH] using lt_wf_ind. intros [|a [|b [|c l]]] ->; auto.
  apply H3, (IH (length l)); [cbn; lia|done].
Qed.

Ltac Zify.zify_post_hook ::= Z.to_euclidean_division_equations.
Ltac bytes_bounded :=
  repeat match goal with
  | a : ascii |- _ =>
      lazymatch goal with
      | _ : byte_val a < 256 |- _ => fail
      | _ => pose proof (byte_val_lt a)
      end
  end.

Lemma b64_decode_encode l :
  exists vs, b64_values (b64_encode l) = Some vs /\ b64_decode vs = Some l.
Proof.
  induction l as [|a|a b|a b c l (vs & Hv & Hd)] using b64_ind; bytes_bounded; cbn [b64_encode].
  - by exists [].
  - eexists. rewrite !b64_values_chr by lia. split; [done|]. cbn [b64_decode].
    do 2 f_equal. apply chr_of. lia.
  - eexists. rewrite !b64_values_chr by lia. split; [done|]. cbn [b64_decode].
    do 2 f_equal; [|f_equal]; apply chr_of; lia.
  - eexists. rewrite !b64_values_chr, Hv by lia. split; [done|]. cbn [b64_decode]. rewrite Hd.
    do 2 f_equal; [|f_equal; [|f_equal]]; apply chr_of; lia.
Qed.
Lemma b64_solid l : Forall (fun a => solid a = true) (b64_encode l).
Proof.
  induction l as [|a|a b|a b c l IH] using b64_ind; bytes_bounded; cbn [b64_encode];
    repeat (constructor; [apply b64_val_chr; lia|]); done.
Qed.
Ltac Zify.zify_post_hook ::= idtac.

Lemma DecodeString_EncodeToString l : DecodeString (EncodeToString l) = Ok l.
Proof.
  unfold DecodeString, EncodeToString. rewrite bytes_of_of.
  destruct (b64_decode_encode l) as (vs & -> & Hd). cbn. by rewrite Hd.
Qed.
Lemma EncodeToString_inj l1 l2 : EncodeToString l1 = EncodeToString l2 -> l1 = l2.
Proof.
  intros H. pose proof (DecodeString_EncodeToString l1) as H1. rewrite H in H1.
  rewrite DecodeString_EncodeToString in H1. by injection H1.
Qed.
Lemma TrimSpace_b64 l : TrimSpace (EncodeToString l) = EncodeToString l.
Proof. apply TrimSpace_all_solid. unfold EncodeToString. rewrite bytes_of_of. apply b64_solid. Qed.
Lemma EncodeToString_empty l : EncodeToString l = "" -> l = [].
Proof. destruct l as [|a [|b [|c l]]]; [done|discriminate..]. Qed.
Lemma utf8_b64 l : utf8_str (EncodeToString l).
Proof.
  unfold utf8_str, EncodeToString. rewrite bytes_of_of. apply utf8_ascii.
  eapply Forall_impl; [apply b64_solid|]. cbn. unfold solid, ascii_byte.
  intros a [_ H%Nat.leb_le]%andb_true_iff. apply Nat.leb_le. lia.
Qed.

(** ** What is written is already compact *)
Lemma compact_high a l : ascii_byte a = false -> byte_val a <> 226 ->
  compact_from Inside (a :: l) = a :: compact_from Inside l.
Proof.
  intros Ha Hn. destruct (not_ascii_special a Ha) as (E1 & E2 & _).
  assert (html_chr a = false) as Hh.
  { unfold ascii_byte in Ha. apply Nat.ltb_ge in Ha. unfold html_chr.
    repeat (apply orb_false_iff; split); apply Nat.eqb_neq; lia. }
  assert (forall b c, line_sep a b c = false) as Hl.
  { intros b c. unfold line_sep. apply Nat.eqb_neq in Hn. by rewrite Hn. }
  cbn [compact_from next_place]. rewrite Hh, E1, E2. destruct l as [|b [|c l]]; try done. by rewrite Hl.
Qed.
Lemma cont_compact a l : cont a = true -> compact_from Inside (a :: l) = a :: compact_from Inside l.
Proof.
  intros H. apply compact_high; [by apply cont_high|]. unfold cont, in_range in H.
  apply andb_true_iff in H as [_ H%Nat.leb_le]. lia.
Qed.
Lemma compact_esc_ascii a x : ascii_byte a = true ->
  compact_from Inside (esc_ascii a ++ x) = esc_ascii a ++ compact_from Inside x.
Proof.
  destruct a as [[] [] [] [] [] [] [] []]; intros H; try discriminate H;
    match goal with |- context [esc_ascii ?a] =>
      let l := eval vm_compute in (esc_ascii a) in change (esc_ascii a) with l
    end; cbn [app]; rewrite !compact_ascii by done; reflexivity.
Qed.

Lemma compact_escape_text p x : p = esc_bad \/ (exists a b c, line_sep a b c = true /\ p = esc_line_sep c) ->
  compact_from Inside (p ++ x) = p ++ compact_from Inside x.
Proof.
  intros [->|(a & b & c & H & ->)].
  - let l := eval vm_compute in esc_bad in change esc_bad with l.
    cbn [app]. rewrite !compact_ascii by done. reflexivity.
  - assert (byte_val c = 168 \/ byte_val c = 169) as E.
    { byte_arith; auto. }
    destruct E as [E|E]; unfold esc_line_sep; rewrite E;
      match goal with |- context [bytes_of ?s ++ [hex_chr ?h]] =>
        let l := eval vm_compute in (bytes_of s ++ [hex_chr h]) in change (bytes_of s ++ [hex_chr h]) with l
      end; cbn [app]; rewrite !compact_ascii by done; reflexivity.
Qed.

(** The bytes of a well-formed character that is no line separator. *)
Lemma compact_rune3 a b c x : rune3 a b c = true -> line_sep a b c = false ->
  compact_from Inside (a :: b :: c :: x) = a :: b :: c :: compact_from Inside x.
Proof.
  intros Hr Hl. destruct (rune3_not_ascii _ _ _ Hr) as [Ha _].
  destruct (not_ascii_special a Ha) as (E1 & E2 & _).
  assert (html_chr a = false) as Hh.
  { unfold ascii_byte in Ha. apply Nat.ltb_ge in Ha. unfold html_chr.
    repeat (apply orb_false_iff; split); apply Nat.eqb_neq; lia. }
  apply rune3_cont in Hr as [Hb Hc]. rewrite <- (cont_compact c), <- (cont_compact b) by done.
  remember (b :: c :: x) as l eqn:El. cbn [compact_from next_place]. rewrite Hh, E1, E2. subst l. by rewrite Hl.
Qed.

Lemma compact_esc l x : compact_from Inside (esc l ++ x) = esc l ++ compact_from Inside x.
Proof.
  induction l as [|a l Ha IH|a l Ha He IH|a b l Hr IH|a b c l Hr IH|a b c d l Hr IH] using esc_step.
  - done.
  - cbn [esc]. rewrite Ha, <- !app_assoc, compact_esc_ascii by done. by rewrite IH.
  - rewrite He, <- !app_assoc, compact_escape_text by auto. by rewrite IH.
  - cbn [esc]. rewrite (rune2_not_ascii _ _ Hr), Hr. cbn [app].
    rewrite compact_high, cont_compact, IH; [done| |by eapply rune2_not_ascii|].
    + unfold rune2 in Hr. by apply andb_true_iff in Hr as [_ ?].
    + byte_arith. lia.
  - cbn [esc]. destruct (rune3_not_ascii _ _ _ Hr) as [Ha H2]. rewrite Ha, H2, Hr, <- !app_assoc.
    destruct (line_sep a b c) eqn:El.
    + rewrite compact_escape_text by eauto 10. by rewrite IH.
    + cbn [app]. rewrite compact_rune3 by done. by rewrite IH.
  - cbn [esc]. destruct (rune4_not_ascii _ _ _ _ Hr) as (Ha & H2 & H3). rewrite Ha, H2, H3, Hr.
    cbn [app]. destruct (rune4_cont _ _ _ _ Hr) as (Hb & Hc & Hd).
    rewrite compact_high, !cont_compact, IH; [done..|]. byte_arith; lia.
Qed.

Lemma compact_text_str s x :
  compact_from Outside (text_str s ++ x) = text_str s ++ compact_from Outside x.
Proof.
  unfold text_str. cbn [app]. rewrite compact_ascii by done. change (next_place Outside DQ) with Inside.
  rewrite <- !app_assoc, compact_esc. cbn [app]. by rewrite (compact_ascii Inside DQ).
Qed.

Lemma settles_fields fs : Forall (fun f => settles Outside Outside f.2) fs ->
  settles Outside Outside (fields_text fs).
Proof.
  intros H. induction H as [|[k t] fs Hs H IH]; cbn [fields_text snd] in *; intros x.
  { cbn [app]. by rewrite compact_punct. }
  unfold field_text. rewrite <- !app_assoc, compact_text_str. f_equal. cbn [app].
  rewrite compact_punct, Hs by done. do 2 f_equal.
  destruct fs as [|f fs]; cbn [app]; rewrite compact_punct by done; [done|]. by rewrite IH.
Qed.
Lemma object_compact fs vs : fs <> [] -> Forall2 good_field fs vs ->
  Forall (fun f => settles Outside Outside f.2) fs ->
  compact (of_bytes (object_text fs)) = Some (of_bytes (object_text fs)).
Proof.
  intros Hne Hg Hs. unfold compact. erewrite token_parse by (by apply object_reads).
  rewrite bytes_of_of. unfold object_text. rewrite compact_punct by done.
  specialize (settles_fields fs Hs []) as H. cbn [compact_from] in H. rewrite !app_nil_r in H. by rewrite H.
Qed.

Lemma string_fields_texts fs : Forall (fun f => settles Outside Outside f.2) (string_fields fs).
Proof.
  induction fs as [|[[n o] s] fs IH]; cbn; [constructor|]. destruct (o && str_empty s); [done|].
  constructor; [intros x; apply compact_text_str|done].
Qed.

(** The values that are read. *)
Definition string_values (fs : list (string * bool * string)) : list json :=
  flat_map (fun '(_, omit, s) => if omit && str_empty s : bool then [] else [JStr s]) fs.
Definition utf8_fields (fs : list (string * bool * string)) : Prop :=
  Forall (fun f => utf8_str f.1.1 /\ utf8_str f.2) fs.
Lemma string_fields_good fs : utf8_fields fs -> Forall2 good_field (string_fields fs) (string_values fs).
Proof.
  induction 1 as [|[[n o] s] fs [Hn Hs] H IH]; cbn; [constructor|].
  destruct (o && str_empty s); [done|]. constructor; [|done]. split; [done|]. by apply text_str_reads.
Qed.

Lemma struct_text_parse fs : utf8_fields fs -> string_fields fs <> [] ->
  parse (struct_text fs) = Some (JObj (zip_with member_of (string_fields fs) (string_values fs))).
Proof. intros Hu Hne. apply token_parse, object_reads; [done|]. by apply string_fields_good. Qed.

Lemma struct_text_compact fs : utf8_fields fs -> string_fields fs <> [] ->
  compact (struct_text fs) = Some (struct_text fs).
Proof.
  intros Hu Hne. apply (object_compact _ (string_values fs)); [done|by apply string_fields_good|].
  apply string_fields_texts.
Qed.

(** ** The payloads come back *)
Definition utf8_hello (h : AuthHello) : Prop :=
  utf8_str (ah_ID h) /\ utf8_str (ah_PubKey h) /\ utf8_str (ah_Role h)
  /\ utf8_str (ah_Name h) /\ utf8_str (ah_Cluster h) /\ utf8_str (ah_Advertise h).
Ltac utf8_list :=
  repeat first [apply Forall_nil; exact I | apply Forall_cons; split; [split; [utf8_name|assumption]|]].

Lemma hello_reads h : utf8_hello h ->
  exists v, parse (struct_text (hello_fields h)) = Some v /\ UnmarshalAuthHello v = Ok h.
Proof.
  intros (H1 & H2 & H3 & H4 & H5 & H6). rewrite struct_text_parse; [|by utf8_list|done].
  eexists. split; [done|]. destruct h as [i k r n c a]. unfold hello_fields, string_fields, string_values.
  cbn [ah_ID ah_PubKey ah_Role ah_Name ah_Cluster ah_Advertise flat_map andb app].
  destruct (str_empty_spec n) as [->|_], (str_empty_spec c) as [->|_], (str_empty_spec a) as [->|_];
    reflexivity.
Qed.
Lemma challenge_reads c : utf8_str c ->
  exists v, parse (struct_text [("challenge", false, c)]) = Some v
    /\ UnmarshalAuthChallenge v = Ok (mkAuthChallenge c).
Proof.
  intros H. rewrite struct_text_parse; [|by utf8_list|done]. eexists. split; [done|]. reflexivity.
Qed.
Lemma proof_reads s : utf8_str s ->
  exists v, parse (struct_text [("signature", false, s)]) = Some v
    /\ UnmarshalAuthProof v = Ok (mkAuthProof s).
Proof.
  intros H. rewrite struct_text_parse; [|by utf8_list|done]. eexists. split; [done|]. reflexivity.
Qed.

(** * Properties *)
Section Properties.
Context (sha256 : list ascii -> list ascii).
Context (ed_sign : list ascii -> list ascii -> list ascii).
Context (ed_verify : list ascii -> list ascii -> list ascii -> bool).

(** A digest is never empty; a signature made with a key verifies with its public key. *)
Definition digest_law : Prop := forall m, sha256 m <> [].
Definition key_pair (pub priv : list ascii) : Prop :=
  length pub = PublicKeySize /\ priv <> [] /\ forall m, ed_verify pub m (ed_sign priv m) = true.

Lemma VerifyID_spec id pub : digest_law ->
  VerifyIDForPublicKey sha256 id pub = true <-> TrimSpace id = EncodeToString (sha256 pub).
Proof.
  intros Hd. unfold VerifyIDForPublicKey. destruct (str_empty_spec (TrimSpace id)) as [E|_].
  - split; [done|]. rewrite E. intros H. symmetry in H. by apply EncodeToString_empty, Hd in H.
  - apply str_eqb_eq.
Qed.

Lemma VerifyID_of_key pub id : digest_law -> IDFromPublicKey sha256 pub = Ok id ->
  VerifyIDForPublicKey sha256 id pub = true.
Proof.
  intros Hd. unfold IDFromPublicKey. destruct (length pub =? PublicKeySize); [|done]. cbn.
  intros [= <-]. apply VerifyID_spec; [done|]. apply TrimSpace_b64.
Qed.

Lemma signature_accepted pub priv c s : key_pair pub priv ->
  SignChallenge ed_sign priv c = Ok s -> VerifyChallengeSignature ed_verify pub (TrimSpace c) s = true.
Proof.
  intros (Hl & _ & Hv). unfold SignChallenge, VerifyChallengeSignature.
  destruct (length priv =? 0); [done|]. destruct (str_empty (TrimSpace c)); [done|]. intros [= <-].
  rewrite Hl, Nat.eqb_refl. cbn [negb]. by rewrite TrimSpace_b64, DecodeString_EncodeToString.
Qed.
End Properties.

(** An identity stands for one digest: a public key is accepted for the identity of another key exactly when both keys have the same SHA-256 digest. *)
Theorem id_binds_key (sha256 : list ascii -> list ascii) pub pub' id :
  digest_law sha256 -> IDFromPublicKey sha256 pub = Ok id ->
  VerifyIDForPublicKey sha256 id pub' = true <-> sha256 pub' = sha256 pub.
Proof.
  intros Hd. unfold IDFromPublicKey. destruct (length pub =? PublicKeySize); [|done]. cbn.
  intros [= <-]. rewrite VerifyID_spec, TrimSpace_b64 by done. split.
  - intros H. by apply EncodeToString_inj in H.
  - by intros ->.
Qed.

(** A digest for examples: the length and the first byte. *)
Definition toy_digest (l : list ascii) : list ascii := [chr (length l); default NL (head l)].
Lemma toy_digest_law : digest_law toy_digest.
Proof. by intros m. Qed.
Definition toy_key : list ascii := repeat "k"%char 32.

Lemma id_binds_key_witness :
  VerifyIDForPublicKey toy_digest (EncodeToString (toy_digest toy_key)) (repeat "x"%char 32) = true
  <-> toy_digest (repeat "x"%char 32) = toy_digest toy_key.
Proof.
  apply (id_binds_key toy_digest toy_key); [exact toy_digest_law|]. vm_compute. reflexivity.
Defined.

(** base64 loses nothing: every byte string is read back from its encoding, which consists of visible characters only, so that no trimming and no JSON escaping on the way changes it. *)
Theorem base64_roundtrip l :
  DecodeString (EncodeToString l) = Ok l
  /\ TrimSpace (EncodeToString l) = EncodeToString l
  /\ length (b64_encode l) = length l + (length l + 2) / 3.
Proof.
  split; [apply DecodeString_EncodeToString|]. split; [apply TrimSpace_b64|].
  induction l as [|a|a b|a b c l IH] using b64_ind; [done..|]. cbn [b64_encode length]. rewrite IH.
  replace (S (S (S (length l))) + 2) with (length l + 2 + 1 * 3) by lia.
  rewrite Nat.div_add by done. lia.
Qed.
