(* ===== verification/GoRegistry.v ===== *)
(** The orchestrator's registry: [orchestrator/registry/registry.go] (the store of
    masters and its queries) and [allowed_clusters.go] (the persisted cluster list).

    The database behind gorm is third-party code: it is the class [ClusterDB], with
    its documented behaviour as [ClusterDBLaws] and an in-memory instance.  Times are
    nanoseconds; [time.Time.Sub] saturates at the limits of [time.Duration].  Go
    ranges over a map in any order: each query takes the order it meets the entries
    in as an argument, and the theorems hold for every enumeration of the map. *)
From stdpp Require Import base gmap strings list fin_maps sorting.
From Stdlib Require Import Lia ZArith.
From S2P Require Import Prelude GoTypes.

(** * The database of allowed clusters *)
Inductive db_find : Type := Found | RecordNotFound | DbError (msg : string).

Class ClusterDB (D : Type) : Type := {
  db_first_or_create : string -> D -> D * option string;
  db_list_asc : D -> result (list string);
  db_count : D -> result Z;
  db_first : string -> D -> db_find }.

(** What gorm and SQLite promise for a table with a unique index, as long as the
    database answers ([db_ok]); [db_rows] is the set of cluster ids it holds. *)
Class ClusterDBLaws (D : Type) `{ClusterDB D} : Type := {
  db_ok : D -> Prop;
  db_rows : D -> gset string;
  db_list_law d : db_ok d ->
    exists l, db_list_asc d = Ok l /\ StronglySorted String.le l /\ NoDup l
      /\ (forall c, c ∈ l <-> c ∈ db_rows d);
  db_count_law d : db_ok d -> db_count d = Ok (Z.of_nat (size (db_rows d)));
  db_first_law d c : db_ok d ->
    db_first c d = if bool_decide (c ∈ db_rows d) then Found else RecordNotFound;
  db_create_law d c : db_ok d ->
    db_ok (fst (db_first_or_create c d))
    /\ db_rows (fst (db_first_or_create c d)) = {[c]} ∪ db_rows d }.

(** * allowed_clusters.go *)
Record AllowedClusters (D : Type) := mkAllowedClusters { ac_db : option D }.
Arguments mkAllowedClusters {D} _.
Arguments ac_db {D} _.

Section Allowed.
Context {D : Type} `{ClusterDB D}.
(** The loop of [EnsureSeed] over the table: empty ids are skipped and an error of
    one insertion is dropped. *)
Fixpoint seed_db (clusters : list string) (d : D) : D :=
  match clusters with
  | [] => d
  | c :: cs => if str_empty c then seed_db cs d else seed_db cs (fst (db_first_or_create c d))
  end.
Definition EnsureSeed (a : option (AllowedClusters D)) (clusters : list string)
  : option (AllowedClusters D) :=
  match a with
  | Some (mkAllowedClusters (Some d)) => Some (mkAllowedClusters (Some (seed_db clusters d)))
  | _ => a
  end.
Definition List (a : option (AllowedClusters D)) : result (list string) :=
  match a with
  | Some (mkAllowedClusters (Some d)) => db_list_asc d
  | _ => Ok []
  end.
Definition IsAllowed (a : option (AllowedClusters D)) (clusterID : string) : result bool :=
  match a with
  | Some (mkAllowedClusters (Some d)) =>
      let empty_table := match db_count d with Ok n => (n =? 0)%Z | Err _ => false end in
      if empty_table then Ok true
      else if str_empty clusterID then Ok false
      else match db_first clusterID d with
           | Found => Ok true
           | RecordNotFound => Ok false
           | DbError m => Err m
           end
  | _ => Ok true
  end.
End Allowed.

(** * registry.go: the store *)
Record StoredMaster := mkStoredMaster { sm_Info : MasterInfo; sm_LastSeen : Z }.
#[export] Instance StoredMaster_eq_dec : EqDecision StoredMaster.
Proof. solve_decision. Defined.

Definition sm_ID (m : StoredMaster) : string := mi_ID (sm_Info m).
Definition sm_Cluster (m : StoredMaster) : string := mi_Cluster (sm_Info m).
Definition sm_Nodes (m : StoredMaster) : list NodeInfo := mi_Nodes (sm_Info m).

Record Store (D : Type) := mkStore {
  mastersByID : gmap string StoredMaster;
  st_ttl : Z;
  st_allowed : option (AllowedClusters D) }.
Arguments mkStore {D} _ _ _.
Arguments mastersByID {D} _.
Arguments st_ttl {D} _.
Arguments st_allowed {D} _.

Definition Second : Z := 1000000000.
Definition maxDuration : Z := 2 ^ 63 - 1.
Definition minDuration : Z := - 2 ^ 63.
(** [t.Sub(u)]: the difference, saturated at the limits of [time.Duration]. *)
Definition time_Sub (t u : Z) : Z := Z.max minDuration (Z.min maxDuration (t - u)).

Section Store.
Context {D : Type} `{ClusterDB D}.
Implicit Types (s : Store D) (ms : list (string * StoredMaster)).
Definition NewStore (ttl : Z) (allowed : option (AllowedClusters D)) : Store D :=
  let ttl := if (ttl <=? 0)%Z then (60 * Second)%Z else ttl in
  mkStore ∅ ttl allowed.
(** [UpsertMaster] at time [now]; the flag is its result. *)
Definition UpsertMaster (now : Z) (s : Store D) (mi : StoredMaster) : bool * Store D :=
  if str_empty (sm_ID mi) then (false, s)
  else
    let rejected :=
      match st_allowed s with
      | Some _ =>
          match IsAllowed (st_allowed s) (sm_Cluster mi) with
          | Err _ => true
          | Ok ok => negb ok
          end
      | None => false
      end in
    if rejected then (false, s)
    else
      let mi := mkStoredMaster (sm_Info mi) now in
      (true, mkStore (<[sm_ID mi := mi]> (mastersByID s)) (st_ttl s) (st_allowed s)).
(** The test [now.Sub(m.LastSeen) > s.ttl] of every query. *)
Definition expired (now : Z) (s : Store D) (m : StoredMaster) : bool :=
  (st_ttl s <? time_Sub now (sm_LastSeen m))%Z.
(** The loop of [ActiveClusters] over the entries, into a set. *)
Fixpoint live_clusters (now : Z) (s : Store D) ms (acc : gset string) : gset string :=
  match ms with
  | [] => acc
  | (_, m) :: ms =>
      if expired now s m then live_clusters now s ms acc
      else if str_empty (sm_Cluster m) then live_clusters now s ms acc
      else live_clusters now s ms ({[sm_Cluster m]} ∪ acc)
  end.
(** [order] is the order the loop over the set [clusters] appends in. *)
Definition ActiveClusters (now : Z) (s : Store D) ms (order : gset string -> list string)
  : list string :=
  let fallback := merge_sort String.le (order (live_clusters now s ms ∅)) in
  match st_allowed s with
  | Some _ => match List (st_allowed s) with Ok clusters => clusters | Err _ => fallback end
  | None => fallback
  end.
Fixpoint any_live (now : Z) (s : Store D) ms (clusterID : string) : bool :=
  match ms with
  | [] => false
  | (_, m) :: ms =>
      if expired now s m then any_live now s ms clusterID
      else if str_eqb (sm_Cluster m) clusterID then true
      else any_live now s ms clusterID
  end.
Definition IsKnownCluster (now : Z) (s : Store D) ms (clusterID : string) : bool :=
  if str_empty clusterID then false
  else match st_allowed s with
       | Some _ =>
           match IsAllowed (st_allowed s) clusterID with
           | Ok ok => ok
           | Err _ => any_live now s ms clusterID
           end
       | None => any_live now s ms clusterID
       end.
Fixpoint any_of_cluster (now : Z) (s : Store D) ms (clusterID : string) : bool :=
  match ms with
  | [] => false
  | (_, m) :: ms =>
      if negb (str_eqb (sm_Cluster m) clusterID) then any_of_cluster now s ms clusterID
      else if expired now s m then any_of_cluster now s ms clusterID
      else true
  end.
Definition IsClusterOnline (now : Z) (s : Store D) ms (clusterID : string) : bool :=
  if str_empty clusterID then false else any_of_cluster now s ms clusterID.
Fixpoint collect_nodes (now : Z) (s : Store D) ms (clusterID : string)
  (out : list NodeInfo) : list NodeInfo :=
  match ms with
  | [] => out
  | (_, m) :: ms =>
      if negb (str_eqb (sm_Cluster m) clusterID) then collect_nodes now s ms clusterID out
      else if expired now s m then collect_nodes now s ms clusterID out
      else collect_nodes now s ms clusterID (out ++ sm_Nodes m)
  end.
Definition NodesForCluster (now : Z) (s : Store D) ms (clusterID : string) : list NodeInfo :=
  if str_empty clusterID then [] else collect_nodes now s ms clusterID [].
Fixpoint collect_masters (now : Z) (s : Store D) ms (clusterID : string)
  (out : list StoredMaster) : list StoredMaster :=
  match ms with
  | [] => out
  | (_, m) :: ms =>
      if negb (str_eqb (sm_Cluster m) clusterID) then collect_masters now s ms clusterID out
      else if expired now s m then collect_masters now s ms clusterID out
      else collect_masters now s ms clusterID (out ++ [m])
  end.
Definition MastersForCluster (now : Z) (s : Store D) ms (clusterID : string)
  : list StoredMaster :=
  if str_empty clusterID then [] else collect_masters now s ms clusterID [].
End Store.

Definition MasterHasNode (master : StoredMaster) (nodeID : string) : bool :=
  if str_empty nodeID then false
  else existsb (fun node => str_eqb (ni_ID node) nodeID) (sm_Nodes master).

(** * Closed forms of the loops

    Every query is a filter of the entries by "is live" and by the cluster. *)
Section Queries.
Context {D : Type} `{ClusterDB D}.
Implicit Types (s : Store D) (ms : list (string * StoredMaster)).
Definition live (now : Z) s (m : StoredMaster) : Prop := expired now s m = false.
#[export] Instance live_dec now s m : Decision (live now s m).
Proof. unfold live. apply _. Defined.
(** An entry that a query about cluster [c] may use. *)
Definition serves (now : Z) s (c : string) (e : string * StoredMaster) : Prop :=
  live now s (snd e) /\ sm_Cluster (snd e) = c.
#[export] Instance serves_dec now s c e : Decision (serves now s c e).
Proof. unfold serves. apply _. Defined.
Lemma collect_masters_filter now s ms c out :
  collect_masters now s ms c out = out ++ (filter (serves now s c) ms).*2.
Proof.
  revert out. induction ms as [|[id m] ms IH]; intros out; cbn -[filter]; [by rewrite app_nil_r|].
  rewrite filter_cons. destruct (str_eqb_spec (sm_Cluster m) c) as [Hc|Hc]; cbn -[filter].
  - destruct (expired now s m) eqn:E.
    + rewrite decide_False by (unfold serves, live; cbn; rewrite E; naive_solver). apply IH.
    + rewrite decide_True by (by unfold serves, live). rewrite IH. cbn -[filter].
      by rewrite <- app_assoc.
  - rewrite decide_False by (unfold serves; naive_solver). apply IH.
Qed.
Lemma collect_nodes_masters now s ms c out :
  collect_nodes now s ms c out = out ++ concat (map sm_Nodes (collect_masters now s ms c [])).
Proof.
  rewrite collect_masters_filter. cbn -[filter].
  revert out. induction ms as [|[id m] ms IH]; intros out; cbn -[filter]; [by rewrite app_nil_r|].
  rewrite filter_cons. destruct (str_eqb_spec (sm_Cluster m) c) as [Hc|Hc]; cbn -[filter].
  - destruct (expired now s m) eqn:E.
    + rewrite decide_False by (unfold serves, live; cbn; rewrite E; naive_solver). apply IH.
    + rewrite decide_True by (by unfold serves, live). rewrite IH. cbn -[filter].
      by rewrite <- app_assoc.
  - rewrite decide_False by (unfold serves; naive_solver). apply IH.
Qed.
Lemma any_of_cluster_masters now s ms c :
  any_of_cluster now s ms c = negb (bool_decide (collect_masters now s ms c [] = [])).
Proof.
  rewrite collect_masters_filter. cbn -[filter].
  induction ms as [|[id m] ms IH]; cbn -[filter]; [done|].
  rewrite filter_cons. destruct (str_eqb_spec (sm_Cluster m) c) as [Hc|Hc]; cbn -[filter].
  - destruct (expired now s m) eqn:E.
    + by rewrite decide_False by (unfold serves, live; cbn; rewrite E; naive_solver).
    + by rewrite decide_True by (by unfold serves, live).
  - by rewrite decide_False by (unfold serves; naive_solver).
Qed.
Lemma any_live_of_cluster now s ms c : any_live now s ms c = any_of_cluster now s ms c.
Proof.
  induction ms as [|[id m] ms IH]; cbn; [done|].
  destruct (expired now s m), (str_eqb (sm_Cluster m) c); cbn; done.
Qed.
Lemma live_clusters_elem now s ms acc c :
  c ∈ live_clusters now s ms acc <->
  c ∈ acc \/ c <> "" /\ exists e, e ∈ ms /\ serves now s c e.
Proof.
  revert acc. induction ms as [|[id m] ms IH]; intros acc; cbn.
  { split; [by left|]. intros [?|(_ & e & []%elem_of_nil & _)]. done. }
  unfold str_empty. destruct (expired now s m) eqn:E.
  - rewrite IH. setoid_rewrite elem_of_cons. unfold serves, live. naive_solver congruence.
  - destruct (str_eqb_spec (sm_Cluster m) "") as [Hc|Hc]; rewrite IH;
      setoid_rewrite elem_of_cons; rewrite ?elem_of_union, ?elem_of_singleton;
      unfold serves, live; split.
    + naive_solver.
    + intros [?|(Hne & e & [->|?] & ? & ?)]; [by left| |right; eauto]. cbn in *. congruence.
    + intros [[->|?]|(? & e & ? & ?)]; [right|by left|right; eauto].
      split; [done|]. exists (id, m). auto.
    + intros [?|(Hne & e & [->|?] & ? & ?)]; [auto|cbn in *; auto|right; eauto].
Qed.
Lemma elem_of_MastersForCluster now s ms c m :
  m ∈ MastersForCluster now s ms c <->
  c <> "" /\ exists id, (id, m) ∈ ms /\ live now s m /\ sm_Cluster m = c.
Proof.
  unfold MastersForCluster, str_empty. destruct (str_eqb_spec c "") as [->|Hc].
  { split; [by intros ?%elem_of_nil|naive_solver]. }
  rewrite collect_masters_filter. cbn. rewrite list_elem_of_fmap.
  setoid_rewrite list_elem_of_filter. unfold serves. split.
  - intros ([id m'] & -> & [[? ?] ?]). cbn in *. eauto.
  - intros (_ & id & ? & ? & ?). exists (id, m). auto.
Qed.
End Queries.

(** * The queries show exactly the live masters *)
Section QueryTheorems.
Context {D : Type} `{ClusterDB D}.
Implicit Types (s : Store D) (ms : list (string * StoredMaster)).
(** [MastersForCluster] returns exactly the masters of the map that are stored
    for the cluster and were seen within the TTL, whatever the order of the map. *)
Theorem MastersForCluster_spec now s ms c m :
  enumerates ms (mastersByID s) ->
  m ∈ MastersForCluster now s ms c <->
  c <> "" /\ sm_Cluster m = c /\ (time_Sub now (sm_LastSeen m) <= st_ttl s)%Z
  /\ exists id, mastersByID s !! id = Some m.
Proof.
  intros Hp. rewrite elem_of_MastersForCluster.
  setoid_rewrite (elem_of_enumeration _ _ _ _ Hp).
  unfold live, expired. setoid_rewrite Z.ltb_ge. naive_solver.
Qed.
(** The three views agree: a cluster is online exactly when it has a master, and
    the nodes shown are those of its masters, in order. *)
Theorem cluster_views_agree now s ms c :
  IsClusterOnline now s ms c = negb (bool_decide (MastersForCluster now s ms c = []))
  /\ NodesForCluster now s ms c = concat (map sm_Nodes (MastersForCluster now s ms c)).
Proof.
  unfold IsClusterOnline, NodesForCluster, MastersForCluster. destruct (str_empty c); [done|].
  split; [apply any_of_cluster_masters|by rewrite collect_nodes_masters].
Qed.
(** Without a cluster table, the cluster list is the sorted list, without
    repetition, of the named clusters of live masters; it depends neither on the
    order of the map nor on the order of the set, and [IsKnownCluster] agrees. *)
Theorem ActiveClusters_fallback now s ms order :
  enumerates ms (mastersByID s) -> (forall X, order X ≡ₚ elements X) ->
  st_allowed s = None ->
  let l := ActiveClusters now s ms order in
  StronglySorted String.le l /\ NoDup l
  /\ forall c, c ∈ l <-> IsKnownCluster now s ms c = true.
Proof.
  intros Hp Ho Ha l. subst l. unfold ActiveClusters, IsKnownCluster. rewrite Ha.
  split_and!.
  - apply Sorted_StronglySorted; [apply _|]. apply Sorted_merge_sort. apply _.
  - rewrite merge_sort_Permutation, Ho. apply NoDup_elements.
  - intros c. rewrite merge_sort_Permutation, Ho, elem_of_elements, live_clusters_elem.
    unfold str_empty. rewrite any_live_of_cluster, any_of_cluster_masters.
    destruct (str_eqb_spec c "") as [->|Hc]; [set_solver|].
    rewrite collect_masters_filter. cbn -[filter].
    rewrite negb_true_iff, bool_decide_eq_false. split.
    + intros [?|(_ & e & He & Hs)]; [set_solver|]. intros Hnil%fmap_nil_inv.
      eapply (not_elem_of_nil e). rewrite <- Hnil. by apply list_elem_of_filter.
    + intros Hne. right. split; [done|].
      destruct (filter _ ms) as [|e l] eqn:E; [done|]. exists e.
      assert (e ∈ filter (serves now s c) ms) as [? ?]%list_elem_of_filter
        by (rewrite E; left). done.
Qed.
End QueryTheorems.

(** * Updates *)
Section Updates.
Context {D : Type} `{ClusterDB D}.
Implicit Types (s : Store D) (mi : StoredMaster).
(** Whether the store would take this update; the table of clusters is never changed
    by an update, so the answer does not depend on the history. *)
Definition accepts (a : option (AllowedClusters D)) mi : bool :=
  negb (str_empty (sm_ID mi))
  && match a with
     | Some _ => match IsAllowed a (sm_Cluster mi) with Ok ok => ok | Err _ => false end
     | None => true
     end.
Lemma UpsertMaster_accepts now s mi :
  UpsertMaster now s mi =
  if accepts (st_allowed s) mi then
    (true, mkStore (<[sm_ID mi := mkStoredMaster (sm_Info mi) now]> (mastersByID s))
             (st_ttl s) (st_allowed s))
  else (false, s).
Proof.
  unfold UpsertMaster, accepts. destruct (str_empty (sm_ID mi)); cbn; [done|].
  destruct (st_allowed s) as [a|]; [|done].
  destruct (IsAllowed (Some a) (sm_Cluster mi)) as [[]|]; done.
Qed.
(** The store after a sequence of updates, each with its time. *)
Fixpoint run_updates (s : Store D) (us : list (Z * StoredMaster)) : Store D :=
  match us with
  | [] => s
  | (t, mi) :: us => run_updates (snd (UpsertMaster t s mi)) us
  end.
(** The abstract registry: the last accepted update of an id in the log. *)
Fixpoint last_update (a : option (AllowedClusters D)) (us : list (Z * StoredMaster))
  (id : string) : option StoredMaster :=
  match us with
  | [] => None
  | (t, mi) :: us =>
      match last_update a us id with
      | Some m => Some m
      | None => if accepts a mi && str_eqb (sm_ID mi) id
                then Some (mkStoredMaster (sm_Info mi) t) else None
      end
  end.
Lemma run_updates_const s us :
  st_allowed (run_updates s us) = st_allowed s /\ st_ttl (run_updates s us) = st_ttl s.
Proof.
  revert s. induction us as [|[t mi] us IH]; intros s; cbn; [done|].
  rewrite UpsertMaster_accepts. destruct (accepts _ _); cbn; [|apply IH].
  match goal with |- context [run_updates ?s' us] => destruct (IH s') as [-> ->] end. done.
Qed.
Lemma run_updates_lookup s us id :
  mastersByID (run_updates s us) !! id =
  match last_update (st_allowed s) us id with Some m => Some m | None => mastersByID s !! id end.
Proof.
  revert s. induction us as [|[t mi] us IH]; intros s; cbn; [done|].
  rewrite IH, UpsertMaster_accepts. destruct (accepts (st_allowed s) mi); cbn.
  - destruct (last_update _ us id); [done|].
    destruct (str_eqb_spec (sm_ID mi) id) as [<-|Hne]; [by rewrite lookup_insert_eq|].
    by rewrite lookup_insert_ne.
  - by destruct (last_update _ us id).
Qed.
Lemma run_updates_new ttl a us id :
  mastersByID (run_updates (NewStore ttl a) us) !! id = last_update a us id.
Proof.
  rewrite run_updates_lookup. cbn. destruct (last_update a us id); [done|]. apply lookup_empty.
Qed.

(** C35: refinement: after any sequence of updates the store holds, for each id, the
    last update the policy accepted, stamped with its time, and nothing else. *)
Theorem store_refines_log ttl a us id :
  mastersByID (run_updates (NewStore ttl a) us) !! id = last_update a us id.
Proof. apply run_updates_new. Qed.

Lemma last_update_sound a us id m :
  last_update a us id = Some m -> accepts a m = true /\ sm_ID m = id.
Proof.
  induction us as [|[t mi] us IH]; cbn; [done|]. destruct (last_update a us id); [naive_solver|].
  destruct (accepts a mi) eqn:E; cbn; [|done].
  destruct (str_eqb_spec (sm_ID mi) id); [|done]. intros [= <-]. done.
Qed.
(** Every master a reachable store shows was admitted: its key is its id, the id
    is not empty, and the cluster table, when there is one, allows its cluster. *)
Theorem stored_masters_admitted ttl a us id m :
  mastersByID (run_updates (NewStore ttl a) us) !! id = Some m ->
  sm_ID m = id /\ id <> "" /\ (a <> None -> IsAllowed a (sm_Cluster m) = Ok true).
Proof.
  rewrite run_updates_new. intros [Ha <-]%last_update_sound. unfold accepts in Ha.
  apply andb_true_iff in Ha as [Hid Ha]. split_and!; [done| |].
  - intros E. unfold str_empty in Hid. by rewrite E in Hid.
  - intros _. destruct a as [a|]; [|done].
    by destruct (IsAllowed (Some a) (sm_Cluster m)) as [[]|].
Qed.
(** C37: a master is shown for its cluster exactly while its last accepted update is
    no older than the TTL: a later update renews it, silence expires it. *)
Theorem visible_while_fresh ttl a us ms now c m :
  let s := run_updates (NewStore ttl a) us in
  enumerates ms (mastersByID s) ->
  m ∈ MastersForCluster now s ms c <->
  c <> "" /\ sm_Cluster m = c
  /\ (time_Sub now (sm_LastSeen m) <= (if (ttl <=? 0)%Z then 60 * Second else ttl))%Z
  /\ last_update a us (sm_ID m) = Some m.
Proof.
  intros s Hp. rewrite elem_of_MastersForCluster.
  setoid_rewrite (elem_of_enumeration _ _ _ _ Hp). unfold live, expired.
  setoid_rewrite Z.ltb_ge. subst s. rewrite (proj2 (run_updates_const _ us)).
  setoid_rewrite run_updates_new. cbn. split.
  - intros (? & id & Hl & ? & ?). destruct (last_update_sound _ _ _ _ Hl) as [_ <-]. done.
  - intros (? & ? & ? & ?). eauto.
Qed.
End Updates.

(** * The cluster table *)
Section AllowedTheorems.
Context {D : Type} `{ClusterDBLaws D}.
Implicit Types (d : D).
Lemma seed_db_rows clusters d :
  db_ok d ->
  db_ok (seed_db clusters d)
  /\ db_rows (seed_db clusters d) = list_to_set (filter (fun c => c <> "") clusters) ∪ db_rows d.
Proof.
  revert d. induction clusters as [|c cs IH]; intros d Hd; cbn -[filter].
  { split; [done|]. set_solver. }
  unfold str_empty. rewrite filter_cons. destruct (str_eqb_spec c "") as [->|Hc].
  - rewrite decide_False by naive_solver. by apply IH.
  - rewrite decide_True by done. destruct (db_create_law d c Hd) as [Hok Hr].
    destruct (IH _ Hok) as [? ->]. split; [done|]. rewrite Hr. set_solver.
Qed.
Lemma IsAllowed_rows d c :
  db_ok d ->
  IsAllowed (Some (mkAllowedClusters (Some d))) c =
  Ok (bool_decide (db_rows d = ∅) || bool_decide (c <> "" /\ c ∈ db_rows d)).
Proof.
  intros Hd. unfold IsAllowed. rewrite (db_count_law d Hd), (db_first_law d c Hd).
  unfold str_empty. destruct (decide (db_rows d = ∅)) as [E|E].
  - rewrite E, size_empty. by rewrite (bool_decide_eq_true_2 (∅ = ∅)).
  - rewrite (bool_decide_eq_false_2 _ E).
    destruct (Z.eqb_spec (Z.of_nat (size (db_rows d))) 0) as [Hz|_].
    + destruct E. apply leibniz_equiv, size_empty_iff. lia.
    + cbn. destruct (str_eqb_spec c "") as [->|Hc].
      * by rewrite bool_decide_eq_false_2 by naive_solver.
      * repeat case_bool_decide; naive_solver.
Qed.
(** With a table that answers, seeding and then updating admits exactly the
    masters whose cluster is in the table or among the seeds; when both are empty
    every cluster is admitted.  In particular a cluster that an earlier run put in
    the table stays allowed after it left the configuration. *)
Theorem seeded_policy d clusters now (s : Store D) mi :
  db_ok d -> sm_ID mi <> "" ->
  st_allowed s = EnsureSeed (Some (mkAllowedClusters (Some d))) clusters ->
  fst (UpsertMaster now s mi) = true <->
  (db_rows d = ∅ /\ Forall (fun c => c = "") clusters)
  \/ (sm_Cluster mi <> "" /\ (sm_Cluster mi ∈ clusters \/ sm_Cluster mi ∈ db_rows d)).
Proof.
  intros Hd Hid Hs. rewrite UpsertMaster_accepts, Hs. unfold accepts.
  unfold EnsureSeed. destruct (seed_db_rows clusters d Hd) as [Hok Hr].
  rewrite (IsAllowed_rows _ _ Hok), Hr. unfold str_empty.
  rewrite (proj2 (str_eqb_neq _ _) Hid). cbn -[filter].
  set (F := list_to_set (filter _ clusters) : gset string).
  assert (forall c, c ∈ F <-> c <> "" /\ c ∈ clusters) as HF.
  { intros c. unfold F. by rewrite elem_of_list_to_set, list_elem_of_filter. }
  assert (F ∪ db_rows d = ∅ <-> db_rows d = ∅ /\ Forall (fun c => c = "") clusters) as HE.
  { rewrite Forall_forall. split.
    - intros E. split; [set_solver|]. intros c Hc.
      destruct (decide (c = "")); [done|]. assert (c ∈ F) by (by apply HF). set_solver.
    - intros [-> Ha]. apply set_eq. intros c. rewrite elem_of_union, HF. naive_solver. }
  case_bool_decide as E1; [apply HE in E1; naive_solver|].
  case_bool_decide as E2; cbn.
  - rewrite elem_of_union, HF in E2. naive_solver.
  - rewrite elem_of_union, HF in E2. rewrite HE in E1. naive_solver.
Qed.
End AllowedTheorems.

(** * An in-memory table, the instance the examples use *)
Module MemDB.
#[export] Instance mem_db : ClusterDB (gset string) := {
  db_first_or_create c d := ({[c]} ∪ d, None);
  db_list_asc d := Ok (merge_sort String.le (elements d));
  db_count d := Ok (Z.of_nat (size d));
  db_first c d := if bool_decide (c ∈ d) then Found else RecordNotFound }.
#[export] Instance mem_db_laws : ClusterDBLaws (gset string).
Proof.
  refine {| db_ok := fun _ => True; db_rows := fun d => d |}; cbn; try done.
  intros d _. eexists. split_and!; [done| | |].
  - apply Sorted_StronglySorted; [apply _|]. apply Sorted_merge_sort. apply _.
  - rewrite merge_sort_Permutation. apply NoDup_elements.
  - intros c. by rewrite merge_sort_Permutation, elem_of_elements.
Defined.
End MemDB.

(** * Examples *)
Section Examples.
Import MemDB.

Definition ex_info (id c : string) : MasterInfo :=
  mkMasterInfo id "m" c "10.0.0.1:7000" "" [mkNodeInfo "n1" "node" "10.0.0.2"].
Definition ex_master (id c : string) (t : Z) : StoredMaster := mkStoredMaster (ex_info id c) t.
(** A registry without a cluster table that saw two masters, and its log. *)
Definition ex_log : list (Z * StoredMaster) :=
  [(5%Z, ex_master "a" "east" 0); (70 * Second, ex_master "b" "west" 0)%Z].
Definition ex_store : Store (gset string) := run_updates (NewStore 0 None) ex_log.
Definition ex_order : list (string * StoredMaster) := map_to_list (mastersByID ex_store).

Lemma MastersForCluster_spec_witness :
  ex_master "b" "west" (70 * Second) ∈ MastersForCluster (80 * Second) ex_store ex_order "west"
  /\ ex_master "a" "east" 5 ∉ MastersForCluster (80 * Second) ex_store ex_order "east".
Proof.
  pose proof (enumerates_map_to_list (mastersByID ex_store)) as H. split.
  - apply (MastersForCluster_spec _ _ _ _ _ H). split_and!; [discriminate|reflexivity|by_decide|].
    exists "b". vm_compute. reflexivity.
  - rewrite (MastersForCluster_spec _ _ _ _ _ H). intros (_ & _ & Ht & _).
    revert Ht. vm_compute. intros Ht. by apply Ht.
Defined.

Lemma ActiveClusters_fallback_witness :
  IsKnownCluster 20 ex_store ex_order "east" = true
  /\ "east" ∈ ActiveClusters 20 ex_store ex_order elements.
Proof.
  assert (IsKnownCluster 20 ex_store ex_order "east" = true) as Hk by (vm_compute; reflexivity).
  split; [exact Hk|].
  apply (ActiveClusters_fallback 20 ex_store ex_order elements
    (enumerates_map_to_list _) (fun X => reflexivity _) eq_refl). exact Hk.
Defined.

Lemma stored_masters_admitted_witness :
  sm_ID (ex_master "b" "west" (70 * Second)) = "b".
Proof.
  apply (stored_masters_admitted (D := gset string) 0 None ex_log "b").
  vm_compute. reflexivity.
Defined.

Lemma visible_while_fresh_witness :
  ex_master "b" "west" (70 * Second) ∈ MastersForCluster (80 * Second) ex_store ex_order "west".
Proof.
  apply (visible_while_fresh (D := gset string) 0 None ex_log ex_order _ _ _
    (enumerates_map_to_list (mastersByID ex_store))).
  split_and!; [discriminate|reflexivity|by_decide|vm_compute; reflexivity].
Defined.

(** A cluster left over from an earlier run stays allowed. *)
Lemma seeded_policy_witness :
  fst (UpsertMaster 7 (NewStore 0 (EnsureSeed (Some (mkAllowedClusters (Some ({["old"]} : gset string))))
    ["new"])) (ex_master "a" "old" 0)) = true.
Proof.
  apply (seeded_policy ({["old"]} : gset string) ["new"]);
    [exact I|discriminate|reflexivity|].
  right. split; [discriminate|]. right. by_decide.
Defined.
End Examples.
