(* ===== verification/GoServer.v ===== *)
(** The two handshakes and the registry connection: [master/server.go]
    ([handleConnection] up to the registration of the node), the handshake of
    [slave/slave.go] ([Connect]), [orchestrator/tcp/server.go] ([handleConn]) with
    [orchestrator/registry/auth.go].

    A connection is what is still to be read and what has been written ([conn]); a
    handler is a computation in the monad [M] that ends, with [None], where the code
    returns.  Deadlines and log lines are not modelled.  SHA-256 and Ed25519 are
    parameters, the challenge is an argument. *)
From stdpp Require Import base gmap strings list.
From Stdlib Require Import Lia ZArith Ascii.
From S2P Require Import Prelude GoStrings GoJson GoTypes GoProtocol GoHandshake GoRegistry.
Local Open Scope res_scope.

(** * Connections *)
Record conn := mkConn { c_in : in_stream; c_out : sink }.
Definition M (A : Type) : Type := conn -> option A * conn.
Definition ret {A} (a : A) : M A := fun c => (Some a, c).
Definition stop {A} : M A := fun c => (None, c).
Definition bind {A B} (m : M A) (k : A -> M B) : M B := fun c =>
  match m c with (Some a, c') => k a c' | (None, c') => (None, c') end.
Declare Scope conn_scope.
Delimit Scope conn_scope with conn.
Notation "'let!' x ':=' m 'in' k" := (bind m (fun x => k))
  (at level 10, x pattern, m at level 100, k at level 200) : conn_scope.
Local Open Scope conn_scope.

(** [write]: a use of the writer, which is not nil. *)
Definition on_writer (write : option sink -> result unit * option sink) : M (result unit) := fun c =>
  let (e, w) := write (Some (c_out c)) in (Some e, mkConn (c_in c) (default (c_out c) w)).
Definition on_reader {A} (read : in_stream -> result A * in_stream) : M (result A) := fun c =>
  let (e, r) := read (c_in c) in (Some e, mkConn r (c_out c)).
Definition write_packet (p : Packet) : M (result unit) := on_writer (fun w => WritePacket w p).
Definition read_packet : M (result Packet) := on_reader ReadPacket.

(** [_ = protocol.WritePacket(writer, protocol.NewError(msg)); return] *)
Definition reject {A} (msg : string) : M A :=
  let! _ := write_packet (NewError msg) in stop.
(** An error whose only consequence is that the handler returns. *)
Definition orelse_stop {A} (r : result A) : M A :=
  match r with Ok a => ret a | Err _ => stop end.
Definition orelse_reject {A} (r : result A) (msg : string) : M A :=
  match r with Ok a => ret a | Err _ => reject msg end.
Definition require (b : bool) (msg : string) : M unit := if b then ret tt else reject msg.

Section Crypto.
Context (sha256 : list ascii -> list ascii).
Context (ed_sign : list ascii -> list ascii -> list ascii).
Context (ed_verify : list ascii -> list ascii -> list ascii -> bool).

(** * master/server.go *)
Definition handleConnection (challenge : string) (allowedNodes : gset string) : M AuthHello :=
  let! h := on_reader (fun r => ReadHello r HeaderMasterSlave) in
  let! _ := orelse_reject h "invalid hello" in
  let! r := read_packet in
  let! authPacket := orelse_stop r in
  let! _ := require (str_eqb (pk_Type authPacket) PacketAuthHello) "auth wrong type" in
  let! authHello := orelse_reject (DecodePayload UnmarshalAuthHello authPacket) "auth payload invalid" in
  let! _ := require (str_eqb (ah_Role authHello) "slave") "auth wrong role" in
  let! pubKeyBytes := orelse_reject (DecodeString (ah_PubKey authHello)) "invalid pubkey" in
  let! _ := require (VerifyIDForPublicKey sha256 (ah_ID authHello) pubKeyBytes) "id mismatch" in
  let! _ := require (bool_decide (allowedNodes = ∅) || bool_decide (ah_ID authHello ∈ allowedNodes))
              "node not allowed" in
  let challengePacket := NewPacket MarshalAuthChallenge PacketAuthChallenge (Some (mkAuthChallenge challenge)) in
  let! e := write_packet (match challengePacket with Ok p => p | Err _ => zero_packet end) in
  let! _ := orelse_stop e in
  let! r := read_packet in
  let! proofPacket := orelse_stop r in
  let! _ := require (str_eqb (pk_Type proofPacket) PacketAuthProof) "auth proof wrong type" in
  let! proof := orelse_reject (DecodePayload UnmarshalAuthProof proofPacket) "auth proof invalid" in
  let! _ := require (VerifyChallengeSignature ed_verify pubKeyBytes challenge (ap_Signature proof))
              "auth failed" in
  let! _ := write_packet (mkPacket PacketAuthOK "" "" "" "") in
  ret authHello.

(** * slave/slave.go: the handshake of [Connect] *)
Definition Connect (pubKey privKey : list ascii) : M unit :=
  let! e := on_writer (fun w => WriteHello w HeaderMasterSlave) in
  let! _ := orelse_stop e in
  let! clientID := orelse_stop (IDFromPublicKey sha256 pubKey) in
  let authHello := mkAuthHello clientID (EncodeToString pubKey) "slave" "" "" "" in
  let! packet := orelse_stop (NewPacket MarshalAuthHello PacketAuthHello (Some authHello)) in
  let! e := write_packet packet in
  let! _ := orelse_stop e in
  let! r := read_packet in
  let! challengePacket := orelse_stop r in
  if str_eqb (pk_Type challengePacket) PacketError then stop
  else if negb (str_eqb (pk_Type challengePacket) PacketAuthChallenge) then stop
  else
    let! payload := orelse_stop (DecodePayload UnmarshalAuthChallenge challengePacket) in
    let! sigStr := orelse_stop (SignChallenge ed_sign privKey (ac_Challenge payload)) in
    let! proofPacket := orelse_stop (NewPacket MarshalAuthProof PacketAuthProof (Some (mkAuthProof sigStr))) in
    let! e := write_packet proofPacket in
    let! _ := orelse_stop e in
    let! r := read_packet in
    let! respPacket := orelse_stop r in
    if negb (str_eqb (pk_Type respPacket) PacketAuthOK) then stop else ret tt.

(** * registry/auth.go *)
Definition VerifyMasterAuth (challenge : string) (master : MasterInfo) (sigB64 : string) : bool :=
  match DecodeString (mi_PubKey master) with
  | Err _ => false
  | Ok pubKeyBytes =>
      if negb (length pubKeyBytes =? PublicKeySize) then false
      else if negb (VerifyIDForPublicKey sha256 (mi_ID master) pubKeyBytes) then false
      else VerifyChallengeSignature ed_verify pubKeyBytes challenge sigB64
  end.

(** * orchestrator/tcp/server.go *)
(** [mustJSON] drops the error; the text is then empty and the line is not written. *)
Definition mustJSON (p : Packet) : string :=
  match MarshalPacket p with Ok b => of_bytes b | Err _ => "" end.
Definition write_json (p : Packet) : M (result unit) := on_writer (fun w => WriteLine w (mustJSON p)).
Definition refuse {A} (msg : string) : M A :=
  let! _ := write_json (NewError msg) in stop.
Definition orelse_refuse {A} (r : result A) (msg : string) : M A :=
  match r with Ok a => ret a | Err _ => refuse msg end.
Definition demand (b : bool) (msg : string) : M unit := if b then ret tt else refuse msg.

(** [handleConn] up to [registerMasterConn]: the pinned identity and cluster. *)
Definition authenticate (challenge : string) (masterWhitelist : gmap string (gset string))
  : M (string * string) :=
  let! h := on_reader (fun r => ReadHello r HeaderOrchestrator) in
  let! _ := orelse_refuse h "invalid hello" in
  let! challengePacket := orelse_refuse
      (NewPacket MarshalAuthChallenge PacketAuthChallenge (Some (mkAuthChallenge challenge)))
      "challenge error" in
  let! _ := write_json challengePacket in
  let! r := read_packet in
  let! authPacket := orelse_stop r in
  let! _ := demand (str_eqb (pk_Type authPacket) PacketAuthHello) "auth wrong type" in
  let! authHello := orelse_refuse (DecodePayload UnmarshalAuthHello authPacket) "auth payload invalid" in
  let! _ := demand (str_eqb (ah_Role authHello) "master") "auth wrong role" in
  let! r := read_packet in
  let! proofPacket := orelse_stop r in
  let! _ := demand (str_eqb (pk_Type proofPacket) PacketAuthProof) "auth proof wrong type" in
  let! proof := orelse_refuse (DecodePayload UnmarshalAuthProof proofPacket) "auth proof invalid" in
  let masterInfo := mkMasterInfo (ah_ID authHello) (ah_Name authHello) (ah_Cluster authHello)
                      (ah_Advertise authHello) (ah_PubKey authHello) [] in
  let! _ := demand (VerifyMasterAuth challenge masterInfo (ap_Signature proof)) "auth verify failed" in
  let! _ :=
    if decide (masterWhitelist = ∅) then ret tt
    else match masterWhitelist !! ah_Cluster authHello with
         | None => refuse "cluster not allowed"
         | Some clusterSet =>
             demand (bool_decide (ah_ID authHello ∈ clusterSet)) "master not allowed"
         end in
  let! _ := write_json (mkPacket PacketAuthOK "" "" "" "") in
  ret (ah_ID authHello, ah_Cluster authHello).
End Crypto.

(** ** The packets of an authenticated master *)
Section Registry.
Context {D : Type} `{ClusterDB D}.
(** [json.Unmarshal] into a [protocol.MasterInfo]. *)
Context (UnmarshalMasterInfo : json -> result MasterInfo).

(** The store and the ids of the requests that wait for a reply on this connection. *)
Record orch_state := mkOrch { o_store : Store D; o_pend : gset string }.

(** [resolveReply]: [None] when the packet is no awaited reply. *)
Definition resolveReply (p : Packet) (pend : gset string) : option (gset string) :=
  if str_empty (pk_ReplyTo p) then None
  else if decide (pk_ReplyTo p ∈ pend) then Some (pend ∖ {[pk_ReplyTo p]}) else None.

(** One turn of the loop, at time [now]: the new state and the packet that is
    written back, if any. *)
Definition orch_turn (id cluster : string) (now : Z) (p : Packet) (s : orch_state)
  : orch_state * option Packet :=
  match resolveReply p (o_pend s) with
  | Some pend => (mkOrch (o_store s) pend, None)
  | None =>
      if str_eqb (pk_Type p) PacketMasterRegister || str_eqb (pk_Type p) PacketMasterHeartbeat then
        match DecodePayload UnmarshalMasterInfo p with
        | Err _ => (s, Some (NewError "payload invalid"))
        | Ok mi =>
            if str_empty (mi_ID mi) then (s, Some (NewError "master id missing"))
            else if negb (str_eqb (mi_ID mi) id) then (s, Some (NewError "master id changed"))
            else if negb (str_eqb (mi_Cluster mi) cluster) then (s, Some (NewError "cluster changed"))
            else
              let (ok, store) := UpsertMaster now (o_store s) (mkStoredMaster mi 0) in
              (mkOrch store (o_pend s),
               Some (if ok : bool then mkPacket PacketAuthOK "" "" "" "" else NewError "update rejected"))
        end
      else (s, Some (NewError "unknown message type"))
  end.

Definition orch_packets (id cluster : string) (ps : list (Z * Packet)) (s : orch_state) : orch_state :=
  foldl (fun s tp => fst (orch_turn id cluster tp.1 tp.2 s)) s ps.
End Registry.

(** * Lemmas *)
(** ** A handler that reached its end passed every test on the way *)
Lemma bind_Some {A B} (m : M A) (k : A -> M B) c b c' :
  bind m k c = (Some b, c') <-> exists a c1, m c = (Some a, c1) /\ k a c1 = (Some b, c').
Proof.
  unfold bind. destruct (m c) as [[a|] c1]; split.
  - intros H. by exists a, c1.
  - by intros (? & ? & [= <- <-] & H).
  - done.
  - by intros (? & ? & ? & ?).
Qed.
Lemma reject_not_Some {A} msg c (a : A) c' : reject msg c = (Some a, c') -> False.
Proof. intros (? & ? & _ & H)%bind_Some. discriminate H. Qed.
Lemma refuse_not_Some {A} msg c (a : A) c' : refuse msg c = (Some a, c') -> False.
Proof. intros (? & ? & _ & H)%bind_Some. discriminate H. Qed.
Lemma require_Some b msg c c' a : require b msg c = (Some a, c') -> b = true /\ c' = c.
Proof. destruct b; cbn; [by intros [= _ <-]|]. by intros []%reject_not_Some. Qed.
Lemma demand_Some b msg c c' a : demand b msg c = (Some a, c') -> b = true /\ c' = c.
Proof. destruct b; cbn; [by intros [= _ <-]|]. by intros []%refuse_not_Some. Qed.
Lemma orelse_stop_Some {A} (r : result A) c a c' : orelse_stop r c = (Some a, c') -> r = Ok a /\ c' = c.
Proof. destruct r; cbn; [by intros [= <- <-]|discriminate]. Qed.
Lemma orelse_reject_Some {A} (r : result A) msg c a c' :
  orelse_reject r msg c = (Some a, c') -> r = Ok a /\ c' = c.
Proof. destruct r; cbn; [by intros [= <- <-]|]. by intros []%reject_not_Some. Qed.
Lemma orelse_refuse_Some {A} (r : result A) msg c a c' :
  orelse_refuse r msg c = (Some a, c') -> r = Ok a /\ c' = c.
Proof. destruct r; cbn; [by intros [= <- <-]|]. by intros []%refuse_not_Some. Qed.

(** Takes a handler's run apart. *)
Ltac run_inv :=
  repeat match goal with
  | H : bind _ _ _ = (Some _, _) |- _ => apply bind_Some in H as (? & ? & ? & ?)
  | H : require _ _ _ = (Some _, _) |- _ => apply require_Some in H as [? ?]
  | H : demand _ _ _ = (Some _, _) |- _ => apply demand_Some in H as [? ?]
  | H : orelse_stop _ _ = (Some _, _) |- _ => apply orelse_stop_Some in H as [? ?]
  | H : orelse_reject _ _ _ = (Some _, _) |- _ => apply orelse_reject_Some in H as [? ?]
  | H : orelse_refuse _ _ _ = (Some _, _) |- _ => apply orelse_refuse_Some in H as [? ?]
  | H : reject _ _ = (Some _, _) |- _ => by apply reject_not_Some in H
  | H : refuse _ _ = (Some _, _) |- _ => by apply refuse_not_Some in H
  | H : ret _ _ = (Some _, _) |- _ => injection H as ? ?
  end.

(** What a verified signature says. *)
Lemma VerifyChallenge_inv ed_verify pub ch sig :
  VerifyChallengeSignature ed_verify pub ch sig = true ->
  length pub = PublicKeySize /\ exists s, DecodeString (TrimSpace sig) = Ok s /\ ed_verify pub (bytes_of ch) s = true.
Proof.
  unfold VerifyChallengeSignature. destruct (Nat.eqb_spec (length pub) PublicKeySize); [|done]. cbn [negb].
  destruct (DecodeString (TrimSpace sig)) as [s|]; [|done]. eauto.
Qed.

(** ** Sending and receiving *)
Definition packet_text (p : Packet) : list ascii :=
  match MarshalPacket p with Ok b => b ++ [NL] | Err _ => [] end.
(** Packets that arrive as they are: a payload is in compact form. *)
Definition sendable (p : Packet) : Prop :=
  utf8_packet p /\ TrimSpace (pk_Type p) <> ""
  /\ (pk_Payload p = "" \/ compact (pk_Payload p) = Some (pk_Payload p)).

Lemma sendable_marshal p : sendable p -> received p = p /\ exists b, MarshalPacket p = Ok b.
Proof.
  intros (_ & _ & H). destruct p as [t i r e y]. unfold received, MarshalPacket, marshal_raw.
  cbn [pk_Payload] in *. destruct H as [->|H]; [split; [done|by eexists]|]. rewrite H. split; [done|].
  destruct (str_empty y); by eexists.
Qed.
Lemma read_step p rest w : sendable p ->
  read_packet (mkConn (Some (packet_text p ++ rest)) w) = (Some (Ok p), mkConn (Some rest) w).
Proof.
  intros Hs. destruct (sendable_marshal p Hs) as [Hr [b Hb]]. destruct Hs as (Hu & Ht & _).
  unfold read_packet, on_reader, packet_text. cbn [c_in c_out]. rewrite Hb, <- app_assoc. cbn [app].
  by rewrite (read_marshalled p b rest Hu Ht Hb), Hr.
Qed.
Lemma write_step p i s : sendable p ->
  write_packet p (mkConn i (mkSink s None)) = (Some (Ok tt), mkConn i (mkSink (s ++ packet_text p) None)).
Proof.
  intros Hs. destruct (sendable_marshal p Hs) as [_ [b Hb]]. destruct Hs as (_ & Ht & _).
  unfold write_packet, on_writer, WritePacket, packet_text. cbn [c_in c_out].
  destruct (str_empty_spec (TrimSpace (pk_Type p))) as [|_]; [done|]. rewrite Hb. reflexivity.
Qed.

Lemma payload_decodes {A} (decode : json -> result A) ty t v a :
  parse t = Some v -> decode v = Ok a -> DecodePayload decode (mkPacket ty "" "" "" t) = Ok a.
Proof.
  intros Hp Hd. unfold DecodePayload. cbn [pk_Payload]. destruct (str_empty_spec t) as [->|_]; [done|].
  by rewrite Hp.
Qed.

(** A packet around a struct of strings. *)
Definition struct_packet (ty : string) (fs : list (string * bool * string)) : Packet :=
  mkPacket ty "" "" "" (struct_text fs).
Lemma struct_sendable ty fs : utf8_str ty -> TrimSpace ty <> "" -> utf8_fields fs ->
  string_fields fs <> [] -> sendable (struct_packet ty fs).
Proof.
  intros Ht Hne Hu Hf. split; [repeat split; cbn; try done; constructor|]. split; [done|]. right.
  by apply struct_text_compact.
Qed.

(** ** The hello line *)
Lemma hello_read header rest w :
  TrimSpace header = header -> header <> "" -> NL ∉ bytes_of header ->
  on_reader (fun r => ReadHello r header) (mkConn (Some (bytes_of header ++ NL :: rest)) w)
  = (Some (Ok tt), mkConn (Some rest) w).
Proof.
  intros Ht Hne Hn. unfold on_reader, ReadHello, ReadLine. cbn [c_in c_out]. rewrite Ht.
  destruct (str_empty_spec header) as [|_]; [done|]. rewrite cut_line_app by done.
  rewrite TrimSpace_nl, of_bytes_of, Ht. destruct (str_empty_spec header) as [|_]; [done|].
  by rewrite str_eqb_refl.
Qed.
Lemma hello_write header i s : TrimSpace header = header -> header <> "" ->
  on_writer (fun w => WriteHello w header) (mkConn i (mkSink s None))
  = (Some (Ok tt), mkConn i (mkSink (s ++ bytes_of header ++ [NL]) None)).
Proof.
  intros Ht Hne. unfold on_writer, WriteHello, WriteLine. cbn [c_in c_out]. rewrite Ht.
  destruct (str_empty_spec header) as [|_]; [done|]. rewrite Ht.
  destruct (str_empty_spec header) as [|_]; [done|]. cbn [write_flush room].
  by rewrite bytes_of_app.
Qed.

Lemma bind_step {A B} (m : M A) (k : A -> M B) c a c1 : m c = (Some a, c1) -> bind m k c = k a c1.
Proof. unfold bind. by intros ->. Qed.
Lemma bind_ret {A B} (a : A) (k : A -> M B) c : bind (ret a) k c = k a c.
Proof. reflexivity. Qed.
Lemma GenerateChallenge_nonempty random : random <> [] -> GenerateChallenge random <> "".
Proof. intros H E. apply EncodeToString_empty in E. by destruct random. Qed.

(** The signature of a challenge that was just made. *)
Lemma challenge_signed ed_sign ed_verify pub priv random : key_pair ed_sign ed_verify pub priv -> random <> [] ->
  let ch := GenerateChallenge random in
  let sig := EncodeToString (ed_sign priv (bytes_of ch)) in
  utf8_str ch /\ utf8_str sig /\ SignChallenge ed_sign priv ch = Ok sig
  /\ VerifyChallengeSignature ed_verify pub ch sig = true.
Proof.
  intros Hk Hr ch sig. assert (TrimSpace ch = ch) as Htrim by apply TrimSpace_b64.
  assert (SignChallenge ed_sign priv ch = Ok sig) as Hsign.
  { unfold SignChallenge. rewrite Htrim. destruct Hk as (_ & Hp & _).
    destruct (Nat.eqb_spec (length priv) 0) as [E|_]; [by destruct priv|].
    destruct (str_empty_spec ch) as [E|_]; [by apply GenerateChallenge_nonempty in E|done]. }
  split; [apply utf8_b64|]. split; [apply utf8_b64|]. split; [done|].
  rewrite <- Htrim at 1. by eapply signature_accepted.
Qed.

(** The packets of the handshake. *)
Definition hello_packet (h : AuthHello) : Packet := struct_packet PacketAuthHello (hello_fields h).
Definition challenge_packet (c : string) : Packet :=
  struct_packet PacketAuthChallenge [("challenge", false, c)].
Definition proof_packet (s : string) : Packet := struct_packet PacketAuthProof [("signature", false, s)].
Definition ok_packet : Packet := mkPacket PacketAuthOK "" "" "" "".

Lemma hello_sendable h : utf8_hello h -> sendable (hello_packet h).
Proof.
  intros (H1 & H2 & H3 & H4 & H5 & H6). apply struct_sendable; [utf8_name|done|by utf8_list|done].
Qed.
Lemma challenge_sendable c : utf8_str c -> sendable (challenge_packet c).
Proof. intros H. apply struct_sendable; [utf8_name|done|by utf8_list|done]. Qed.
Lemma proof_sendable c : utf8_str c -> sendable (proof_packet c).
Proof. intros H. apply struct_sendable; [utf8_name|done|by utf8_list|done]. Qed.
Lemma ok_sendable : sendable ok_packet.
Proof. split; [repeat split; utf8_name|split; [done|by left]]. Qed.
Lemma hello_payload h : utf8_hello h -> DecodePayload UnmarshalAuthHello (hello_packet h) = Ok h.
Proof. intros H. destruct (hello_reads h H) as (v & Hp & Hd). by eapply payload_decodes. Qed.
Lemma challenge_payload c : utf8_str c ->
  DecodePayload UnmarshalAuthChallenge (challenge_packet c) = Ok (mkAuthChallenge c).
Proof. intros H. destruct (challenge_reads c H) as (v & Hp & Hd). by eapply payload_decodes. Qed.
Lemma proof_payload c : utf8_str c -> DecodePayload UnmarshalAuthProof (proof_packet c) = Ok (mkAuthProof c).
Proof. intros H. destruct (proof_reads c H) as (v & Hp & Hd). by eapply payload_decodes. Qed.

(** * Properties *)
(** The hello a slave sends. *)
Definition slave_hello (sha256 : list ascii -> list ascii) (pub : list ascii) : AuthHello :=
  mkAuthHello (EncodeToString (sha256 pub)) (EncodeToString pub) "slave" "" "" "".
Lemma slave_hello_utf8 sha256 pub : utf8_hello (slave_hello sha256 pub).
Proof. repeat split; cbn; try apply utf8_b64; utf8_name. Qed.

(** C1: The two sides of the handshake fit together: a slave that holds its key pair, and whose identity the master allows, is registered under the digest of its public key, and both sides reach the end of the handshake having read exactly what the other wrote. *)
Theorem honest_slave_admitted sha256 ed_sign ed_verify pub priv random allowed :
  digest_law sha256 -> key_pair ed_sign ed_verify pub priv -> random <> [] ->
  allowed = ∅ \/ EncodeToString (sha256 pub) ∈ allowed ->
  exists up down, forall more more',
    handleConnection sha256 ed_verify (GenerateChallenge random) allowed
      (mkConn (Some (up ++ more)) (mkSink [] None))
    = (Some (slave_hello sha256 pub), mkConn (Some more) (mkSink down None))
    /\ Connect sha256 ed_sign pub priv (mkConn (Some (down ++ more')) (mkSink [] None))
    = (Some tt, mkConn (Some more') (mkSink up None)).
Proof.
  intros Hd Hk Hr Ha. destruct (challenge_signed _ _ _ _ _ Hk Hr) as (Hch & Hsig & Hsign & Hver).
  set (ch := GenerateChallenge random) in *. set (sig := EncodeToString (ed_sign priv (bytes_of ch))) in *.
  pose proof (slave_hello_utf8 sha256 pub) as Hh.
  assert (IDFromPublicKey sha256 pub = Ok (EncodeToString (sha256 pub))) as Hid.
  { unfold IDFromPublicKey. destruct Hk as (-> & _). by rewrite Nat.eqb_refl. }
  exists (bytes_of HeaderMasterSlave ++ NL :: packet_text (hello_packet (slave_hello sha256 pub))
          ++ packet_text (proof_packet sig)),
    (packet_text (challenge_packet ch) ++ packet_text ok_packet).
  intros more more'. rewrite <- !app_assoc. cbn [app]. rewrite <- !app_assoc. split.
  - unfold handleConnection.
    erewrite bind_step by (apply hello_read; [done|done|by_decide]).
    cbn [orelse_reject]. rewrite bind_ret.
    erewrite bind_step by (apply read_step, hello_sendable, Hh). cbn [orelse_stop]. rewrite !bind_ret.
    change (str_eqb (pk_Type (hello_packet _)) PacketAuthHello) with true. cbn [require]. rewrite bind_ret.
    rewrite hello_payload by done. cbn [orelse_reject]. rewrite bind_ret.
    cbn [ah_Role ah_PubKey ah_ID slave_hello]. change (str_eqb "slave" "slave") with true.
    cbn [require]. rewrite bind_ret, DecodeString_EncodeToString. cbn [orelse_reject]. rewrite bind_ret.
    rewrite (VerifyID_of_key _ _ _ Hd Hid). cbn [require]. rewrite bind_ret.
    assert (bool_decide (allowed = ∅) || bool_decide (EncodeToString (sha256 pub) ∈ allowed) = true) as ->.
    { apply orb_true_iff. destruct Ha; [left|right]; by apply bool_decide_eq_true. }
    cbn [require]. rewrite bind_ret.
    change (NewPacket MarshalAuthChallenge PacketAuthChallenge (Some (mkAuthChallenge ch)))
      with (Ok (challenge_packet ch)).
    erewrite bind_step by (by apply write_step, challenge_sendable). cbn [orelse_stop]. rewrite bind_ret.
    erewrite bind_step by (by apply read_step, proof_sendable). cbn [orelse_stop]. rewrite bind_ret.
    change (str_eqb (pk_Type (proof_packet _)) PacketAuthProof) with true. cbn [require]. rewrite bind_ret.
    rewrite proof_payload by done. cbn [orelse_reject]. rewrite bind_ret. cbn [ap_Signature].
    rewrite Hver. cbn [require]. rewrite bind_ret.
    erewrite bind_step by (apply write_step, ok_sendable). reflexivity.
  - unfold Connect.
    erewrite bind_step by (by apply hello_write). cbn [orelse_stop]. rewrite bind_ret, Hid.
    cbn [orelse_stop]. rewrite bind_ret.
    change (NewPacket MarshalAuthHello PacketAuthHello
      (Some (mkAuthHello (EncodeToString (sha256 pub)) (EncodeToString pub) "slave" "" "" "")))
      with (Ok (hello_packet (slave_hello sha256 pub))).
    cbn [orelse_stop]. rewrite bind_ret.
    erewrite bind_step by (apply write_step, hello_sendable, Hh). cbn [orelse_stop]. rewrite bind_ret.
    erewrite bind_step by (by apply read_step, challenge_sendable). cbn [orelse_stop]. rewrite bind_ret.
    change (str_eqb (pk_Type (challenge_packet ch)) PacketError) with false.
    change (str_eqb (pk_Type (challenge_packet ch)) PacketAuthChallenge) with true. cbn [negb].
    rewrite challenge_payload by done. cbn [orelse_stop]. rewrite bind_ret. cbn [ac_Challenge].
    rewrite Hsign. cbn [orelse_stop]. rewrite bind_ret.
    change (NewPacket MarshalAuthProof PacketAuthProof (Some (mkAuthProof sig))) with (Ok (proof_packet sig)).
    cbn [orelse_stop]. rewrite bind_ret.
    erewrite bind_step by (by apply write_step, proof_sendable). cbn [orelse_stop]. rewrite bind_ret.
    erewrite bind_step by (apply read_step, ok_sendable). cbn [orelse_stop]. rewrite bind_ret.
    change (str_eqb (pk_Type ok_packet) PacketAuthOK) with true. cbn [negb ret].
    by do 3 f_equal.
Qed.

(** A toy signature scheme for examples: the key followed by the message. *)
Definition toy_sign (priv m : list ascii) : list ascii := priv ++ m.
Definition toy_verify (pub m sig : list ascii) : bool := bool_decide (sig = pub ++ m).
Lemma toy_key_pair : key_pair toy_sign toy_verify toy_key toy_key.
Proof. split; [done|]. split; [done|]. intros m. by apply bool_decide_eq_true. Qed.
Definition toy_random : list ascii := repeat "r"%char 64.
Definition toy_id : string := EncodeToString (toy_digest toy_key).

Lemma honest_slave_admitted_witness :
  exists up down, forall more more',
    handleConnection toy_digest toy_verify (GenerateChallenge toy_random) {[ toy_id ]}
      (mkConn (Some (up ++ more)) (mkSink [] None))
    = (Some (slave_hello toy_digest toy_key), mkConn (Some more) (mkSink down None))
    /\ Connect toy_digest toy_sign toy_key toy_key (mkConn (Some (down ++ more')) (mkSink [] None))
    = (Some tt, mkConn (Some more') (mkSink up None)).
Proof.
  apply (honest_slave_admitted toy_digest toy_sign toy_verify toy_key toy_key toy_random {[ toy_id ]}).
  - exact toy_digest_law.
  - exact toy_key_pair.
  - discriminate.
  - right. apply (elem_of_singleton_2 (C := gset string)). reflexivity.
Defined.

(** C34: A master registers a node only for a client that presented a public key with the digest of the identity it claims, signed the challenge of this connection with it, and, where a list of nodes is configured, is on that list. *)
Theorem admitted_node_proved sha256 ed_verify challenge allowed c h c' :
  digest_law sha256 ->
  handleConnection sha256 ed_verify challenge allowed c = (Some h, c') ->
  exists pub sig,
    DecodeString (ah_PubKey h) = Ok pub /\ length pub = PublicKeySize
    /\ TrimSpace (ah_ID h) = EncodeToString (sha256 pub)
    /\ ed_verify pub (bytes_of challenge) sig = true
    /\ ah_Role h = "slave" /\ (allowed = ∅ \/ ah_ID h ∈ allowed).
Proof.
  intros Hd H. unfold handleConnection in H. run_inv. subst.
  repeat match goal with
  | E : str_eqb _ _ = true |- _ => apply str_eqb_eq in E
  | E : VerifyIDForPublicKey _ _ _ = true |- _ => apply VerifyID_spec in E; [|done]
  | E : VerifyChallengeSignature _ _ _ _ = true |- _ => apply VerifyChallenge_inv in E as (? & ? & ? & ?)
  | E : _ || _ = true |- _ => apply orb_true_iff in E
  end.
  eexists _, _. split_and!; [eassumption..|].
  match goal with E : _ \/ _ |- _ => destruct E as [E|E]; apply bool_decide_eq_true in E; auto end.
Qed.

(** C28: The orchestrator admits a master only after it proved the key behind its identity with the challenge of this connection; with a whitelist, the identity is listed for the very cluster that is pinned to the connection. *)
Theorem admitted_master_proved sha256 ed_verify challenge whitelist c id cluster c' :
  digest_law sha256 ->
  authenticate sha256 ed_verify challenge whitelist c = (Some (id, cluster), c') ->
  (exists pub sig,
    length pub = PublicKeySize /\ TrimSpace id = EncodeToString (sha256 pub)
    /\ ed_verify pub (bytes_of challenge) sig = true)
  /\ (whitelist = ∅ \/ exists ids, whitelist !! cluster = Some ids /\ id ∈ ids).
Proof.
  intros Hd H. unfold authenticate in H. run_inv. subst.
  match goal with E : VerifyMasterAuth _ _ _ _ _ = true |- _ => unfold VerifyMasterAuth in E; rename E into Hv end.
  cbn [mi_PubKey mi_ID] in Hv. destruct (DecodeString _) as [pub|]; [|done].
  destruct (length pub =? PublicKeySize); [|done]. cbn [negb] in Hv.
  destruct (VerifyIDForPublicKey _ _ _) eqn:Hi; [|done]. cbn [negb] in Hv.
  apply VerifyID_spec in Hi; [|done]. apply VerifyChallenge_inv in Hv as (Hl & sig & _ & Hv).
  split; [by exists pub, sig|].
  match goal with E : (if decide _ then _ else _) _ = _ |- _ => rename E into Hw end.
  destruct (decide (whitelist = ∅)) as [?|_]; [by left|right].
  destruct (whitelist !! _) as [ids|] eqn:El; [|by apply refuse_not_Some in Hw].
  run_inv. subst.
  match goal with E : bool_decide _ = true |- _ => apply bool_decide_eq_true in E end. eauto.
Qed.

(** ** Concrete runs *)
Definition toy_signature : string :=
  EncodeToString (toy_sign toy_key (bytes_of (GenerateChallenge toy_random))).
Definition toy_input (header : string) (h : AuthHello) : list ascii :=
  bytes_of header ++ NL :: packet_text (hello_packet h) ++ packet_text (proof_packet toy_signature).
Definition toy_start (header : string) (h : AuthHello) : conn :=
  mkConn (Some (toy_input header h)) (mkSink [] None).
Definition toy_master (id : string) : AuthHello :=
  mkAuthHello id (EncodeToString toy_key) "master" "m" "c1" "".
Definition toy_run (id : string) : option AuthHello * conn :=
  handleConnection toy_digest toy_verify (GenerateChallenge toy_random) ∅
    (toy_start HeaderMasterSlave (mkAuthHello id (EncodeToString toy_key) "slave" "" "" "")).
Definition toy_admission (id : string) (whitelist : gmap string (gset string))
  : option (string * string) * conn :=
  authenticate toy_digest toy_verify (GenerateChallenge toy_random) whitelist
    (toy_start HeaderOrchestrator (toy_master id)).

Lemma admitted_node_proved_witness :
  exists h c', toy_run toy_id = (Some h, c') /\ exists pub sig,
    DecodeString (ah_PubKey h) = Ok pub /\ length pub = PublicKeySize
    /\ TrimSpace (ah_ID h) = EncodeToString (toy_digest pub)
    /\ toy_verify pub (bytes_of (GenerateChallenge toy_random)) sig = true
    /\ ah_Role h = "slave" /\ ((∅ : gset string) = ∅ \/ ah_ID h ∈ (∅ : gset string)).
Proof.
  eexists _, _. split; [vm_compute; reflexivity|].
  eapply (admitted_node_proved toy_digest toy_verify (GenerateChallenge toy_random) ∅
    (toy_start HeaderMasterSlave (slave_hello toy_digest toy_key))); [exact toy_digest_law|].
  vm_compute. reflexivity.
Defined.

Lemma admitted_master_proved_witness :
  exists id cluster c', toy_admission toy_id {[ "c1" := {[ toy_id ]} ]} = (Some (id, cluster), c') /\
    (exists pub sig, length pub = PublicKeySize /\ TrimSpace id = EncodeToString (toy_digest pub)
      /\ toy_verify pub (bytes_of (GenerateChallenge toy_random)) sig = true)
    /\ (({[ "c1" := {[ toy_id ]} ]} : gmap string (gset string)) = ∅ \/
        exists ids, ({[ "c1" := {[ toy_id ]} ]} : gmap string (gset string)) !! cluster = Some ids /\ id ∈ ids).
Proof.
  eexists _, _, _. split; [vm_compute; reflexivity|].
  eapply (admitted_master_proved toy_digest toy_verify (GenerateChallenge toy_random) _
    (toy_start HeaderOrchestrator (toy_master toy_id))); [exact toy_digest_law|].
  vm_compute. reflexivity.
Defined.

(** The identity that is registered is the one the client sent, not the trimmed one
    that was checked: a key holder can appear under further names. *)
Lemma padded_identity :
  (toy_run toy_id).1 = Some (slave_hello toy_digest toy_key)
  /\ option_map ah_ID (toy_run (" " +:+ toy_id)).1 = Some (" " +:+ toy_id)
  /\ (toy_admission (" " +:+ toy_id) ∅).1 = Some (" " +:+ toy_id, "c1").
Proof. by vm_compute. Qed.

(** ** The loop of the orchestrator *)
Section Loop.
Context {D : Type} `{ClusterDB D}.
Context (UnmarshalMasterInfo : json -> result MasterInfo).

Lemma orch_turn_store id cluster now p (s : orch_state) :
  let s' := fst (orch_turn UnmarshalMasterInfo id cluster now p s) in
  mastersByID (o_store s') = mastersByID (o_store s)
  \/ exists mi, mi_ID mi = id /\ mi_Cluster mi = cluster
     /\ mastersByID (o_store s') = <[id := mkStoredMaster mi now]> (mastersByID (o_store s)).
Proof.
  unfold orch_turn. destruct (resolveReply p (o_pend s)); [by left|].
  destruct (_ || _); [|by left]. destruct (DecodePayload _ p) as [mi|]; [|by left].
  destruct (str_empty (mi_ID mi)); [by left|].
  destruct (str_eqb_spec (mi_ID mi) id) as [Hi|]; [|by left].
  destruct (str_eqb_spec (mi_Cluster mi) cluster) as [Hc|]; [|by left]. cbn [negb].
  rewrite UpsertMaster_accepts. destruct (accepts _ _); [right|by left].
  exists mi. split; [done|]. split; [done|]. cbn. by rewrite <- Hi.
Qed.

(** C15: Whatever an authenticated master sends, and in whatever order, its connection changes no record but its own, and that record keeps the identity and the cluster it was admitted with. *)
Theorem connection_owns_its_record id cluster ps (s : orch_state) :
  let s' := orch_packets UnmarshalMasterInfo id cluster ps s in
  (forall id', id' <> id -> mastersByID (o_store s') !! id' = mastersByID (o_store s) !! id')
  /\ (mastersByID (o_store s') !! id = mastersByID (o_store s) !! id
      \/ exists m, mastersByID (o_store s') !! id = Some m /\ sm_ID m = id /\ sm_Cluster m = cluster).
Proof.
  unfold orch_packets. revert s. induction ps as [|[now p] ps IH]; intros s; cbn [foldl]; [by auto|].
  destruct (IH (fst (orch_turn UnmarshalMasterInfo id cluster now p s))) as [I1 I2].
  pose proof (orch_turn_store id cluster now p s) as Ht. cbn zeta in Ht, I1, I2 |- *. split.
  - intros id' Hne. rewrite I1 by done. destruct Ht as [->|(mi & _ & _ & ->)]; [done|].
    by rewrite lookup_insert_ne.
  - destruct I2 as [I2|I2]; [|by right]. cbn [fst snd] in I2 |- *. rewrite I2.
    destruct Ht as [->|(mi & Hi & Hc & ->)]; [by left|right].
    exists (mkStoredMaster mi now). by rewrite lookup_insert_eq.
Qed.

(** A reply is delivered once. *)
Lemma resolveReply_once p pend pend' :
  resolveReply p pend = Some pend' -> resolveReply p pend' = None /\ pend' ⊂ pend.
Proof.
  unfold resolveReply. destruct (str_empty (pk_ReplyTo p)); [done|].
  destruct (decide (pk_ReplyTo p ∈ pend)) as [Hin|]; [|done]. intros [= <-].
  rewrite decide_False by set_solver. split; [done|set_solver].
Qed.
End Loop.
