(* ===== verification/GoStruct.v ===== *)
(** [encoding/json] on Go values: a [codec] says for a type how it is written, how it is
    read into the value that was there, and what [omitempty] leaves out.  There is one for
    strings, [json.RawMessage], booleans, integers, pointers, slices, maps of strings, and
    for structs from the list of their tagged fields: [WireStruct] is what a wire type of
    core/protocol/types.go gives.  [Lawful] is what a codec promises to its users.

    A nil [json.RawMessage] is the empty text; one that is empty but not nil, which
    [Marshal] refuses where the field is not [omitempty], is not told apart from it, and
    neither is a nil slice from an empty one, which is what is written here. *)
From stdpp Require Import base gmap strings list sorting.
From Stdlib Require Import Lia ZArith Ascii.
From S2P Require Import Prelude GoStrings GoJson GoTypes GoProtocol GoHandshake.
Local Open Scope res_scope.

(** * Codecs *)
Record codec (T : Type) := mkCodec {
  c_zero : T;
  c_empty : T -> bool;
  c_text : T -> result (list ascii);
  c_read : string -> json -> T -> T * bool }.
Arguments mkCodec {T}.
Arguments c_zero {T}.
Arguments c_empty {T}.
Arguments c_text {T}.
Arguments c_read {T}.
(** [c_read c raw v old]: [raw] is the text of [v]; the result is the new value, and
    whether something in [v] had the wrong type. *)

Definition cstr : codec string := {|
  c_zero := ""; c_empty := str_empty; c_text s := Ok (text_str s);
  c_read _ v old := match v with JStr s => (s, false) | JNull => (old, false) | _ => (old, true) end |}.
Definition craw : codec RawMessage := {|
  c_zero := ""; c_empty := str_empty;
  c_text raw := let? t := marshal_raw raw in Ok (bytes_of (default "null" t));
  c_read raw _ _ := (raw, false) |}.
Definition cbool : codec bool := {|
  c_zero := false; c_empty := negb; c_text b := Ok (bytes_of (if b then "true" else "false"));
  c_read _ v old := match v with JBool b => (b, false) | JNull => (old, false) | _ => (old, true) end |}.
(** [strconv.ParseUint] and [strconv.ParseInt] in base 10, with the width of the type. *)
Definition ParseUint (bits : Z) (s : string) : option Z :=
  match parse_nat s with
  | Some n => if (n <? 2 ^ bits)%Z then Some n else None
  | None => None
  end.
Definition ParseInt (bits : Z) (s : string) : option Z :=
  let (neg, digits) := match s with
    | String a s' => if chr_eqb a "-"%char then (true, s') else if chr_eqb a "+"%char then (false, s') else (false, s)
    | EmptyString => (false, s)
    end in
  match parse_nat digits with
  | Some n =>
      if neg : bool then if (n <=? 2 ^ (bits - 1))%Z then Some (- n)%Z else None
      else if (n <? 2 ^ (bits - 1))%Z then Some n else None
  | None => None
  end.
Definition cnum (print : Z -> string) (parse : string -> option Z) : codec Z := {|
  c_zero := 0%Z; c_empty n := (n =? 0)%Z; c_text n := Ok (bytes_of (print n));
  c_read _ v old := match v with
    | JNum lit => match parse lit with Some n => (n, false) | None => (old, true) end
    | JNull => (old, false)
    | _ => (old, true)
    end |}.
Definition cuint (bits : Z) : codec Z := cnum print_nat (ParseUint bits).
Definition cint (bits : Z) : codec Z := cnum print_int (ParseInt bits).
(** A pointer. *)
Definition cptr {T} (c : codec T) : codec (option T) := {|
  c_zero := None; c_empty o := match o with None => true | Some _ => false end;
  c_text o := match o with None => Ok (bytes_of "null") | Some v => c_text c v end;
  c_read raw v old := match v with
    | JNull => (None, false)
    | _ => let (x, bad) := c_read c raw v (default (c_zero c) old) in (Some x, bad)
    end |}.

Fixpoint res_map {A B} (f : A -> result B) (l : list A) : result (list B) :=
  match l with
  | [] => Ok []
  | a :: l' => let? b := f a in let? bs := res_map f l' in Ok (b :: bs)
  end.
Fixpoint items_text (ts : list (list ascii)) : list ascii :=
  match ts with
  | [] => [RBRACK]
  | t :: ts' => t ++ match ts' with [] => [RBRACK] | _ => COMMA :: items_text ts' end
  end.
Definition array_text (ts : list (list ascii)) : list ascii := LBRACK :: items_text ts.
(** The elements are read into fresh values; no slice of [json.RawMessage] is read. *)
Definition cslice {T} (c : codec T) : codec (list T) := {|
  c_zero := []; c_empty l := match l with [] => true | _ => false end;
  c_text l := let? ts := res_map (c_text c) l in Ok (array_text ts);
  c_read _ v old := match v with
    | JArr vs =>
        let rs := map (fun v => c_read c "" v (c_zero c)) vs in
        (map fst rs, existsb snd rs)
    | JNull => ([], false)
    | _ => (old, true)
    end |}.
(** [map[string]string], written with its keys in order. *)
Definition cmap : codec (gmap string string) := {|
  c_zero := ∅; c_empty m := bool_decide (m = ∅);
  c_text m := Ok (object_text (map (fun e => (e.1, text_str e.2))
    (merge_sort (fun a b => String.le a.1 b.1) (map_to_list m))));
  c_read _ v old := match v with
    | JObj ms => foldl (fun acc '(k, _, v) =>
        match v with
        | JStr s => (<[k := s]> acc.1, acc.2)
        | JNull => (<[k := ""]> acc.1, acc.2)
        | _ => (acc.1, true)
        end) (old, false) ms
    | JNull => (∅, false)
    | _ => (old, true)
    end |}.

(** * Structs *)
(** The tagged fields, in their order; a struct is a tuple. *)
Inductive fields : Type -> Type :=
  | fnil : fields unit
  | fcons {T R : Type} (name : string) (omit : bool) (c : codec T) (fs : fields R) : fields (T * R).
Fixpoint names {R} (fs : fields R) : list string :=
  match fs with fnil => [] | fcons n _ _ fs' => n :: names fs' end.
Fixpoint zeros {R} (fs : fields R) : R :=
  match fs in fields R return R with
  | fnil => tt
  | fcons _ _ c fs' => (c_zero c, zeros fs')
  end.
Fixpoint struct_fields {R} (fs : fields R) : R -> result (list (string * list ascii)) :=
  match fs in fields R return R -> _ with
  | fnil => fun _ => Ok []
  | fcons n omit c fs' => fun '(v, r) =>
      if omit && c_empty c v then struct_fields fs' r
      else
        let? t := c_text c v in
        let? l := struct_fields fs' r in
        Ok ((n, t) :: l)
  end.
Fixpoint set_field {R} (fs : fields R) (n raw : string) (v : json) : R -> R * bool :=
  match fs in fields R return R -> R * bool with
  | fnil => fun r => (r, false)
  | fcons n' _ c fs' => fun '(x, r) =>
      if str_eqb n' n then let (y, bad) := c_read c raw v x in ((y, r), bad)
      else let (r', bad) := set_field fs' n raw v r in ((x, r'), bad)
  end.
Definition set_member {R} (fs : fields R) (acc : R * bool) (m : string * string * json) : R * bool :=
  let '(r, bad) := acc in
  let '(k, raw, v) := m in
  match find_name (names fs) k with
  | None => (r, bad)
  | Some n => let (r', b) := set_field fs n raw v r in (r', bad || b)
  end.

Class WireStruct (A : Type) := {
  ws_tuple : Type;
  ws_fields : fields ws_tuple;
  ws_to : A -> ws_tuple;
  ws_of : ws_tuple -> A }.
Definition wire (A : Type) `{WireStruct A} : codec A := {|
  c_zero := ws_of (zeros ws_fields); c_empty _ := false;
  c_text a := let? l := struct_fields ws_fields (ws_to a) in Ok (object_text l);
  c_read _ v old := match v with
    | JObj ms => let (r, bad) := foldl (set_member ws_fields) (ws_to old, false) ms in (ws_of r, bad)
    | JNull => (old, false)
    | _ => (old, true)
    end |}.

(** * [json.Marshal] and [json.Unmarshal] *)
Definition MarshalAs {T} (c : codec T) (v : T) : result string :=
  let? t := c_text c v in Ok (of_bytes t).
Definition UnmarshalAs {T} (c : codec T) (v : json) : result T :=
  let (x, bad) := c_read c "" v (c_zero c) in
  if bad : bool then Err "json: cannot unmarshal into Go value" else Ok x.
Definition UnmarshalText {T} (c : codec T) (text : string) : result T :=
  match parse text with None => Err "invalid JSON" | Some v => UnmarshalAs c v end.
Definition Marshal {A} `{WireStruct A} (a : A) : result string := MarshalAs (wire A) a.
Definition Unmarshal {A} `{WireStruct A} (v : json) : result A := UnmarshalAs (wire A) v.

(** * What is written is read *)
(** ** Numbers *)
Lemma print_nat_digits n : Forall (fun a => is_digit a = true) (bytes_of (print_nat n)).
Proof.
  unfold print_nat. generalize (S (Z.to_nat (Z.log2 n))) as f. intros f. revert n.
  assert (forall d, (0 <= d < 10)%Z -> is_digit (digit_chr d) = true) as Hd.
  { apply (digit_check (fun d => is_digit (digit_chr d) = true)). by vm_compute. }
  induction f as [|f IH]; intros n; cbn -[Z.modulo Z.div digit_chr]; [constructor|].
  assert (is_digit (digit_chr (n mod 10)) = true) as Hm by (apply Hd, Z.mod_pos_bound; lia).
  destruct (n <? 10)%Z; [by repeat constructor|]. rewrite dec_digits_app, bytes_of_app.
  apply Forall_app. split; [|by repeat constructor]. apply IH.
Qed.
Lemma dec_digits_head f n : (0 < n < 2 ^ Z.of_nat f)%Z ->
  exists a s, dec_digits f n "" = String a s /\ byte_val a <> 48.
Proof.
  revert n. induction f as [|f IH]; intros n Hn; [cbn in Hn; lia|].
  cbn -[Z.modulo Z.div digit_chr]. destruct (Z.ltb_spec n 10) as [Hl|Hl].
  - eexists _, _. split; [done|]. rewrite Z.mod_small by lia.
    revert n Hn Hl. assert (forall n, (0 <= n < 10)%Z -> n = 0%Z \/ byte_val (digit_chr n) <> 48) as K.
    { apply (digit_check (fun n => n = 0%Z \/ byte_val (digit_chr n) <> 48)). by vm_compute. }
    intros n Hn Hl. destruct (K n); [lia..|done].
  - rewrite dec_digits_app. destruct (IH (n / 10)%Z) as (a & s & -> & Ha); [|by eexists _, _].
    split; [apply Z.div_str_pos; lia|]. apply Z.div_lt_upper_bound; [lia|].
    rewrite Nat2Z.inj_succ, Z.pow_succ_r in Hn by lia. lia.
Qed.
Lemma span_all p l : Forall (fun a => p a = true) l -> span p l = (l, []).
Proof. induction 1 as [|a l Ha H IH]; cbn; [done|]. by rewrite Ha, IH. Qed.

(** The digits of a number: no zero in front of others. *)
Lemma print_nat_head n : exists a l, bytes_of (print_nat n) = a :: l /\ (byte_val a <> 48 \/ l = []).
Proof.
  destruct (Z_le_gt_dec n 0) as [Hn|].
  { assert (print_nat n = String (digit_chr (n mod 10)) "") as ->.
    { unfold print_nat. rewrite Z.log2_nonpos by done. cbn -[Z.modulo Z.div digit_chr].
      by destruct (Z.ltb_spec n 10); [|lia]. }
    eexists _, _. by split; [|right]. }
  destruct (dec_digits_head _ n ltac:(split; [lia|apply (print_nat_fuel n); lia])) as (a & s & E & Ha).
  exists a, (bytes_of s). split; [|by left]. unfold print_nat. by rewrite E.
Qed.
(** A number with an optional sign is one token and is read as it stands. *)
Lemma digits_reads sign n : sign = [] \/ sign = ["-"%char] ->
  reads value ends_number (sign ++ bytes_of (print_nat n)) (JNum (of_bytes (sign ++ bytes_of (print_nat n))))
  /\ clean (sign ++ bytes_of (print_nat n)).
Proof.
  intros Hs. pose proof (print_nat_digits n) as Hd. destruct (print_nat_head n) as (a & l & E & Ha). rewrite E in *.
  assert (Forall (fun b => num_char b = true) (sign ++ a :: l)) as Hnum.
  { apply Forall_app_2; [by destruct Hs as [-> | ->]; repeat constructor|].
    eapply Forall_impl; [exact Hd|]. intros b Hb. unfold num_char. unfold is_digit in Hb. by rewrite Hb. }
  assert (is_digit a = true) as Hda by (by apply Forall_inv in Hd).
  assert (valid_num (sign ++ a :: l) = true) as Hv.
  { assert (byte_val a =? 45 = false) as E45.
    { apply Nat.eqb_neq. intros E45. unfold is_digit, in_range in Hda. by rewrite E45 in Hda. }
    assert (valid_num (sign ++ a :: l) =
      match span is_digit (a :: l) with
      | ([], _) => false
      | (z :: ds, l2) => (negb (byte_val z =? 48) || bool_decide (ds = [])) && num_frac l2
      end) as ->.
    { destruct Hs as [-> | ->]; unfold valid_num; cbn [app]; [by rewrite E45|reflexivity]. }
    rewrite (span_all is_digit) by done. cbn [num_frac]. rewrite andb_true_r.
    destruct Ha as [Ha| ->]; [apply Nat.eqb_neq in Ha; by rewrite Ha|]. by rewrite orb_true_r. }
  split.
  - destruct Hs as [-> | ->]; cbn [app] in *; eapply number_reads; [| | |by apply span_all|done| | | |by apply span_all|done];
      first [reflexivity|destruct a as [[] [] [] [] [] [] [] []]; try discriminate Hda; reflexivity].
  - assert (forallb word_chr (sign ++ a :: l) = true) as Hw.
    { apply forallb_forall. intros b Hb%list_elem_of_In. rewrite Forall_forall in Hnum. by apply num_word, Hnum. }
    split; [by apply (compact_word _ [])|]. intros x. by apply compact_word.
Qed.
Lemma print_nat_reads n :
  reads value ends_number (bytes_of (print_nat n)) (JNum (print_nat n)) /\ clean (bytes_of (print_nat n)).
Proof. destruct (digits_reads [] n (or_introl eq_refl)) as [Hr Hc]. cbn [app] in *. by rewrite of_bytes_of in Hr. Qed.
Lemma print_int_reads n :
  reads value ends_number (bytes_of (print_int n)) (JNum (print_int n)) /\ clean (bytes_of (print_int n)).
Proof.
  unfold print_int. destruct (n <? 0)%Z; [|apply print_nat_reads].
  destruct (digits_reads ["-"%char] (- n) (or_intror eq_refl)) as [Hr Hc].
  change (["-"%char] ++ bytes_of (print_nat (- n))) with (bytes_of (String (chr 45) (print_nat (- n)))) in *.
  by rewrite of_bytes_of in Hr.
Qed.
Lemma ParseUint_print bits n : (0 <= n < 2 ^ bits)%Z -> ParseUint bits (print_nat n) = Some n.
Proof.
  intros Hn. unfold ParseUint. rewrite parse_print_nat by lia. by destruct (Z.ltb_spec n (2 ^ bits)); [|lia].
Qed.
Lemma ParseInt_print bits n : (- 2 ^ (bits - 1) <= n < 2 ^ (bits - 1))%Z -> ParseInt bits (print_int n) = Some n.
Proof.
  intros Hn. unfold ParseInt, print_int. destruct (Z.ltb_spec n 0) as [Hneg|Hpos].
  - change (chr_eqb (chr 45) "-"%char) with true. cbv iota beta. rewrite parse_print_nat by lia.
    destruct (Z.leb_spec (- n) (2 ^ (bits - 1))); [|lia]. f_equal. lia.
  - assert (exists a s, print_nat n = String a s /\ is_digit a = true) as (a & s & E & Ha).
    { destruct (print_nat_head n) as (a & l & E & _). pose proof (print_nat_digits n) as Hd. rewrite E in Hd.
      apply (f_equal of_bytes) in E. rewrite of_bytes_of in E. exists a, (of_bytes l). split; [exact E|].
      by apply Forall_inv in Hd. }
    rewrite E. assert (chr_eqb a "-"%char = false /\ chr_eqb a "+"%char = false) as [-> ->].
    { destruct a as [[] [] [] [] [] [] [] []]; try discriminate Ha; split; reflexivity. }
    cbv iota beta. rewrite <- E, parse_print_nat by lia. by destruct (Z.ltb_spec n (2 ^ (bits - 1))); [|lia].
Qed.

(** ** What is written can always be sent on *)
(** Every string, well-formed or not, is written as one token. *)
Lemma scan_esc l x : scan (esc l ++ DQ :: x) = Some x.
Proof.
  assert (forall y, scan (esc_bad ++ y) = scan y) as Hbad by reflexivity.
  induction l as [|a l Ha IH|a l Ha He IH|a b l Hr IH|a b c l Hr IH|a b c d l Hr IH] using esc_step.
  - done.
  - cbn [esc]. rewrite Ha, <- app_assoc.
    assert (forall y, scan (esc_ascii a ++ y) = scan y) as ->; [|done].
    intros y. destruct a as [[] [] [] [] [] [] [] []]; try discriminate Ha; reflexivity.
  - by rewrite He, <- app_assoc, Hbad.
  - cbn [esc]. rewrite (rune2_not_ascii _ _ Hr), Hr. cbn [app].
    pose proof (rune2_not_ascii _ _ Hr). apply andb_true_iff in Hr as [_ Hb%cont_high].
    by rewrite !scan_high.
  - cbn [esc]. destruct (rune3_not_ascii _ _ _ Hr) as [Ha ->]. rewrite Ha, Hr, <- app_assoc.
    destruct (line_sep a b c) eqn:El; [by rewrite (scan_line_sep a b c)|].
    apply rune3_cont in Hr as [Hb%cont_high Hc%cont_high]. cbn [app]. by rewrite !scan_high.
  - cbn [esc]. destruct (rune4_not_ascii _ _ _ _ Hr) as (Ha & -> & ->). rewrite Ha, Hr.
    apply rune4_cont in Hr as (Hb%cont_high & Hc%cont_high & Hd%cont_high). cbn [app]. by rewrite !scan_high.
Qed.
Lemma text_str_clean s : clean (text_str s).
Proof. split; [apply plain_text_str|]. intros x. apply compact_text_str. Qed.
Lemma any_key k : exists s, forall y, unq ((esc (bytes_of k) ++ [DQ]) ++ y) = Some (s, y).
Proof.
  apply string_reads; [apply plain_app; [apply plain_esc|plain_list]|].
  intros x. rewrite <- app_assoc. apply scan_esc.
Qed.
Lemma text_str_token s : token (text_str s).
Proof.
  split; [apply text_str_clean|]. destruct (any_key s) as [s' Hs]. exists (JStr (of_bytes s')).
  apply (reads_value _ _ 1). intros x _. unfold text_str. cbn [app]. rewrite value_S. punct. by rewrite Hs.
Qed.

Lemma fields_token l : l <> [] -> Forall (fun f => token f.2) l -> members_token (fields_text l).
Proof.
  intros Hne H. induction H as [|[k t] l [Hc [v Hv]] H IH]; [done|]. cbn [fields_text snd] in *.
  destruct (any_key k) as [s Hk].
  assert (clean (field_text k t)) as Hf.
  { apply clean_app; [apply text_str_clean|]. by apply clean_cons. }
  rewrite field_text_member in *. destruct l as [|f l].
  - split; [apply clean_app; [done|]; apply clean_cons; [done|apply clean_nil]|]. eexists. by eapply members_one.
  - destruct IH as [Hc2 [ms Hms]]; [done|].
    split; [apply clean_app; [done|]; by apply clean_cons|]. eexists. by eapply members_more.
Qed.
Lemma object_text_token l : Forall (fun f => token f.2) l -> token (object_text l).
Proof.
  intros H. destruct l as [|f l]; [|by apply object_token, fields_token].
  split; [do 2 (apply clean_cons; [done|]); apply clean_nil|]. exists (JObj []). by apply (reads_value _ _ 1).
Qed.

Lemma items_text_token ts : ts <> [] -> Forall token ts -> items_token (items_text ts).
Proof.
  intros Hne H. induction H as [|t ts [Hc [v Hv]] H IH]; [done|]. cbn [items_text].
  destruct ts as [|t2 ts]; [by eapply items_one|]. eapply items_more; [done..|]. by apply IH.
Qed.
Lemma array_text_token ts : Forall token ts -> token (array_text ts).
Proof.
  intros H. destruct ts as [|t ts]; [|by apply array_token, items_text_token].
  by apply (compact_token "[]" "[]").
Qed.
Lemma word_text_token s : compact s = Some s -> token (bytes_of s).
Proof. apply compact_token. Qed.

(** ** What a codec promises *)
(** [good] values are written as one clean token, which is read, into a fresh value, as
    [arr] of the value. *)
Class Lawful {T} (c : codec T) := {
  good : T -> Prop;
  arr : T -> T;
  lawful_reads v : good v -> exists t j, c_text c v = Ok t /\ reads value ends_number t j /\ clean t
    /\ c_read c (of_bytes t) j (c_zero c) = (arr v, false) }.
Arguments good {T} c {_} v.
Arguments arr {T} c {_} v.
(** Any value is written, and as a token. *)
Class Total {T} (c : codec T) := total v : exists t, c_text c v = Ok t /\ token t.
(** The text of the value does not matter, only what it says. *)
Class Blind {T} (c : codec T) := blind raw raw' v old : c_read c raw v old = c_read c raw' v old.

#[export] Program Instance cstr_lawful : Lawful cstr := {| good := utf8_str; arr s := s |}.
Next Obligation.
  intros s Hs. exists (text_str s), (JStr s). split; [done|]. split; [by apply text_str_reads|].
  split; [apply text_str_clean|done].
Qed.
#[export] Instance cstr_total : Total cstr.
Proof. intros s. eexists. split; [done|]. apply text_str_token. Qed.

(** A raw text that is valid or empty; it is compacted, and [null] stands for a nil one. *)
Definition raw_ok (raw : string) : Prop := raw = "" \/ is_Some (compact raw).
#[export] Program Instance craw_lawful : Lawful craw :=
  {| good := raw_ok; arr raw := default "null" (compact raw) |}.
Next Obligation.
  intros raw [->|[t Ht]]; cbn [c_text craw]; unfold marshal_raw.
  - exists (bytes_of "null"), JNull. split; [done|]. split; [apply keyword_reads; auto|]. split; [|done].
    by apply (word_text_token "null").
  - assert (raw <> "") as Hne by (by intros ->). destruct (str_empty_spec raw) as [E|_]; [done|].
    rewrite Ht. destruct (compact_token _ _ Ht) as [Hc [j Hj]]. exists (bytes_of t), j.
    split; [done|]. split; [done|]. split; [done|]. cbn. by rewrite of_bytes_of.
Qed.

#[export] Program Instance cbool_lawful : Lawful cbool := {| good _ := True; arr b := b |}.
Next Obligation.
  intros b _. exists (bytes_of (if b then "true" else "false")), (JBool b). split; [done|].
  split; [apply keyword_reads; destruct b; auto|]. split; [|done].
  destruct b; [by apply (word_text_token "true")|by apply (word_text_token "false")].
Qed.
#[export] Instance cbool_total : Total cbool.
Proof. intros b. eexists. split; [done|]. destruct b; by apply word_text_token. Qed.

#[export] Program Instance cuint_lawful bits : Lawful (cuint bits) :=
  {| good n := (0 <= n < 2 ^ bits)%Z; arr n := n |}.
Next Obligation.
  intros bits n Hn. exists (bytes_of (print_nat n)), (JNum (print_nat n)). destruct (print_nat_reads n) as [Hr Hc].
  split; [done|]. split; [done|]. split; [done|]. cbn [c_read cuint cnum]. by rewrite ParseUint_print.
Qed.
#[export] Instance cuint_total bits : Total (cuint bits).
Proof. intros n. eexists. split; [done|]. destruct (print_nat_reads n). by split; [|eexists]. Qed.
#[export] Program Instance cint_lawful bits : Lawful (cint bits) :=
  {| good n := (- 2 ^ (bits - 1) <= n < 2 ^ (bits - 1))%Z; arr n := n |}.
Next Obligation.
  intros bits n Hn. exists (bytes_of (print_int n)), (JNum (print_int n)). destruct (print_int_reads n) as [Hr Hc].
  split; [done|]. split; [done|]. split; [done|]. cbn [c_read cint cnum]. by rewrite ParseInt_print.
Qed.
#[export] Instance cint_total bits : Total (cint bits).
Proof. intros n. eexists. split; [done|]. destruct (print_int_reads n). by split; [|eexists]. Qed.

(** A pointer to a number, which is never written as [null]. *)
#[export] Program Instance cptr_int_lawful bits : Lawful (cptr (cint bits)) :=
  {| good o := match o with None => True | Some n => good (cint bits) n end; arr o := o |}.
Next Obligation.
  intros bits [n|] Hn.
  - exists (bytes_of (print_int n)), (JNum (print_int n)). destruct (print_int_reads n) as [Hr Hc].
    split; [done|]. split; [done|]. split; [done|]. cbn [c_read cptr cint cnum]. by rewrite ParseInt_print.
  - exists (bytes_of "null"), JNull. split; [done|]. split; [apply keyword_reads; auto|]. split; [|done].
    by apply (word_text_token "null").
Qed.
#[export] Instance cstr_blind : Blind cstr.
Proof. done. Qed.
#[export] Instance cnum_blind print parse : Blind (cnum print parse).
Proof. done. Qed.

(** ** Slices *)
Lemma items_reads ts vs : ts <> [] -> Forall2 (fun t v => clean t /\ reads value ends_number t v) ts vs ->
  reads items any_text (items_text ts) vs.
Proof.
  intros Hne H. induction H as [|t v ts vs [Hc Hr] H IH]; [done|]. cbn [items_text].
  destruct H as [|t2 v2 ts vs H2 H].
  - destruct Hr as [f Hr]. exists (S f). intros f' x Hf _. destruct f' as [|f']; [lia|].
    rewrite <- app_assoc. cbn [app]. rewrite items_S.
    erewrite value_skip by (apply (Hr f); done). rewrite Hr by (lia || done). by punct.
  - destruct Hr as [f Hr], IH as [f2 IH]; [done|]. exists (S (f + f2)). intros f' x Hf _.
    destruct f' as [|f']; [lia|]. rewrite <- app_assoc. cbn [app]. rewrite items_S.
    erewrite value_skip by (apply (Hr f); done). rewrite Hr by (lia || done).
    punct. by rewrite IH by (lia || done).
Qed.
Lemma array_reads ts vs : Forall2 (fun t v => clean t /\ reads value ends_number t v) ts vs ->
  reads value ends_number (array_text ts) (JArr vs).
Proof.
  intros H. destruct H as [|t v ts vs H1 H]; [by apply (reads_value _ _ 1)|].
  destruct (items_reads (t :: ts) (v :: vs)) as [f Hf]; [done|by constructor|].
  apply (reads_value _ _ (S f)). intros x _. unfold array_text. cbn [app]. rewrite value_S. punct.
  pose proof (Hf f x (le_n f) eq_refl) as Hi. rewrite <- items_skip in Hi.
  destruct f as [|f]; [done|]. rewrite items_S, skip_ws_idem in Hi.
  destruct (skip_ws (items_text (t :: ts) ++ x)) as [|b r] eqn:E; [by destruct f|].
  assert (chr_eqb b RBRACK = false) as ->.
  { destruct (value f (b :: r)) as [z|] eqn:Ev; [|done].
    by destruct (value_no_close _ _ _ Ev) as (? & ? & [= -> ->] & ?). }
  rewrite <- E, items_skip. by rewrite (Hf (S f) x).
Qed.
#[export] Program Instance cslice_lawful {T} (c : codec T) `{Lawful T c} `{Blind T c} : Lawful (cslice c) :=
  {| good l := Forall (good c) l; arr l := map (arr c) l |}.
Next Obligation.
  intros T c Hl Hb l Hg.
  assert (exists ts vs, res_map (c_text c) l = Ok ts
    /\ Forall2 (fun t v => clean t /\ reads value ends_number t v) ts vs
    /\ map (fun v => c_read c "" v (c_zero c)) vs = map (fun x => (arr c x, false)) l) as (ts & vs & Ht & H2 & Hm).
  { induction Hg as [|x l Hx Hg (ts & vs & Ht & H2 & Hm)]; [by exists [], []; repeat constructor|].
    destruct (lawful_reads x Hx) as (t & j & Htx & Hr & Hc & Hrd). exists (t :: ts), (j :: vs).
    cbn [res_map map]. rewrite Htx, Ht. cbn [res_bind]. split; [done|]. split; [by constructor|].
    by rewrite Hm, (blind "" (of_bytes t)), Hrd. }
  exists (array_text ts), (JArr vs). cbn [c_text cslice]. rewrite Ht. split; [done|].
  split; [by apply array_reads|]. split.
  - apply array_text_token. clear Hm Ht. induction H2 as [|t v ts vs [] ? IH]; constructor; [|done]. by split; [|exists v].
  - cbn [c_read cslice]. rewrite Hm. f_equal; [by rewrite map_map|]. clear. by induction l.
Qed.
Lemma res_map_ok {A B} (f : A -> result B) (P : B -> Prop) l :
  (forall a, exists b, f a = Ok b /\ P b) -> exists bs, res_map f l = Ok bs /\ Forall P bs.
Proof.
  intros H. induction l as [|a l (bs & IH & HP)]; [by exists []|]. destruct (H a) as (b & Hb & Pb).
  exists (b :: bs). cbn [res_map]. rewrite Hb, IH. split; [done|by constructor].
Qed.
#[export] Instance cslice_total {T} (c : codec T) `{Total T c} : Total (cslice c).
Proof.
  intros l. destruct (res_map_ok (c_text c) token l (total (c := c))) as (ts & Ht & Hts).
  exists (array_text ts). cbn [c_text cslice]. rewrite Ht. split; [done|]. by apply array_text_token.
Qed.
#[export] Instance cslice_blind {T} (c : codec T) : Blind (cslice c).
Proof. done. Qed.

(** ** Structs *)
Class LawfulFields {R} (fs : fields R) := {
  goods : R -> Prop;
  arrs : R -> R;
  fields_read r : goods r -> NoDup (names fs) -> Forall utf8_str (names fs) ->
    exists l js, struct_fields fs r = Ok l /\ Forall2 good_field l js /\ Forall (fun f => clean f.2) l
      /\ Forall (fun f => f.1 ∈ names fs) l
      /\ foldl (set_member fs) (zeros fs, false) (zip_with member_of l js) = (arrs r, false) }.
Arguments goods {R} fs {_} r.
Arguments arrs {R} fs {_} r.

Lemma find_name_exact ns n : n ∈ ns -> find_name ns n = Some n.
Proof. intros H%mem_str_elem. unfold find_name. by rewrite H. Qed.
Lemma set_member_front {T R} n o (c : codec T) (fs : fields R) x r bad raw v :
  set_member (fcons n o c fs) ((x, r), bad) (n, raw, v) =
  let (y, b) := c_read c raw v x in ((y, r), bad || b).
Proof.
  cbn [set_member names]. rewrite find_name_exact by (by left). cbn [set_field]. rewrite str_eqb_refl.
  by destruct (c_read c raw v x).
Qed.
(** Members of later fields leave the first one alone. *)
Lemma set_members_skip {T R} n o (c : codec T) (fs : fields R) x ms : n ∉ names fs ->
  Forall (fun m : string * string * json => m.1.1 ∈ names fs) ms -> forall r bad,
  foldl (set_member (fcons n o c fs)) ((x, r), bad) ms =
  let (r', b) := foldl (set_member fs) (r, bad) ms in ((x, r'), b).
Proof.
  intros Hn H. induction H as [|[[k raw] v] ms Hk H IH]; intros r bad; [done|]. cbn [foldl fst] in *.
  assert (set_member (fcons n o c fs) ((x, r), bad) (k, raw, v) =
    let (r', b) := set_member fs (r, bad) (k, raw, v) in ((x, r'), b)) as ->.
  { cbn [set_member names]. rewrite !find_name_exact by (done || by right).
    cbn [set_field]. destruct (str_eqb_spec n k) as [->|_]; [done|]. by destruct (set_field fs k raw v r). }
  destruct (set_member fs (r, bad) (k, raw, v)) as [r1 b1]. by rewrite IH.
Qed.

#[export] Program Instance fnil_lawful : LawfulFields fnil := {| goods _ := True; arrs r := r |}.
Next Obligation. intros [] _ _ _. exists [], []. cbn. repeat split; constructor. Qed.
#[export] Program Instance fcons_lawful {T R} n o (c : codec T) (fs : fields R) `{Lawful T c} `{LawfulFields R fs} :
  LawfulFields (fcons n o c fs) := {|
    goods '(v, r) := good c v /\ goods fs r;
    arrs '(v, r) := (if o && c_empty c v then c_zero c else arr c v, arrs fs r) |}.
Next Obligation.
  intros T R n o c fs Hl Hf [v r] [Hv Hr] Hnd Hu. cbn [names] in *.
  apply NoDup_cons in Hnd as [Hn Hnd]. apply Forall_cons in Hu as [Hun Hu].
  destruct (fields_read r Hr Hnd Hu) as (l & js & Hs & Hg & Hc & Hin & Hfold). cbn [struct_fields zeros].
  assert (Forall (fun m : string * string * json => m.1.1 ∈ names fs) (zip_with member_of l js)) as Hms.
  { clear -Hin. revert js. induction Hin as [|f l Hf H IH]; intros [|j js]; cbn [zip_with]; constructor; [done|apply IH]. }
  destruct (o && c_empty c v).
  - exists l, js. split; [done|]. split; [done|]. split; [done|].
    split; [eapply Forall_impl; [exact Hin|]; intros f Hf'; by right|].
    rewrite set_members_skip by done. by rewrite Hfold.
  - destruct (lawful_reads v Hv) as (t & j & Ht & Hrd & Hct & Hrr). exists ((n, t) :: l), (j :: js).
    rewrite Ht, Hs. split; [done|]. split; [by constructor|]. split; [by constructor|].
    split; [constructor; [by left|]; eapply Forall_impl; [exact Hin|]; intros f Hf'; by right|].
    change (zip_with member_of ((n, t) :: l) (j :: js)) with ((n, of_bytes t, j) :: zip_with member_of l js).
    cbn [foldl]. rewrite set_member_front, Hrr. cbn [orb].
    rewrite set_members_skip by done. by rewrite Hfold.
Qed.

Class WireLaws (A : Type) `{WireStruct A} := {
  ws_names : NoDup (names ws_fields);
  ws_utf8 : Forall utf8_str (names ws_fields);
  ws_iso t : ws_to (ws_of t) = t;
  ws_iso' a : ws_of (ws_to a) = a }.

Lemma object_reads_all fs vs : Forall2 good_field fs vs ->
  reads value ends_number (object_text fs) (JObj (zip_with member_of fs vs)).
Proof.
  intros H. destruct fs as [|f fs]; [|by apply object_reads]. inversion H; subst.
  by apply (reads_value _ _ 1).
Qed.
Lemma good_fields_token fs vs : Forall2 good_field fs vs -> Forall (fun f => clean f.2) fs ->
  token (object_text fs).
Proof.
  intros Hg Hc. apply object_text_token. induction Hg as [|f v fs vs [_ Hr] Hg IH]; [constructor|].
  apply Forall_cons in Hc as [Hc1 Hc]. constructor; [by split; [|exists v]|by apply IH].
Qed.
#[export] Program Instance wire_lawful (A : Type) `{WireLaws A} `{!LawfulFields (ws_fields (A := A))} : Lawful (wire A) := {|
  good a := goods ws_fields (ws_to a);
  arr a := ws_of (arrs ws_fields (ws_to a)) |}.
Next Obligation.
  intros A Hws Hwl Hlf a Ha. destruct (fields_read _ Ha ws_names ws_utf8) as (l & js & Hs & Hg & Hc & _ & Hfold).
  exists (object_text l), (JObj (zip_with member_of l js)). cbn [c_text c_read c_zero wire]. rewrite Hs.
  split; [done|]. split; [by apply object_reads_all|]. split; [by apply (good_fields_token l js)|].
  by rewrite ws_iso, Hfold.
Qed.
#[export] Instance wire_blind (A : Type) `{WireStruct A} : Blind (wire A).
Proof. done. Qed.

(** Values without raw texts come back as they are. *)
Class Exact {T} (c : codec T) `{Lawful T c} := {
  arr_id v : arr c v = v;
  empty_zero v : c_empty c v = true -> v = c_zero c }.
#[export] Instance cstr_exact : Exact cstr.
Proof. split; [done|]. intros s Hs. by apply str_eqb_eq. Qed.
#[export] Instance cbool_exact : Exact cbool.
Proof. split; [done|]. by intros []. Qed.
#[export] Instance cuint_exact bits : Exact (cuint bits).
Proof. split; [done|]. intros n Hn. by apply Z.eqb_eq. Qed.
#[export] Instance cint_exact bits : Exact (cint bits).
Proof. split; [done|]. intros n Hn. by apply Z.eqb_eq. Qed.
#[export] Instance cptr_int_exact bits : Exact (cptr (cint bits)).
Proof. split; [done|]. by intros []. Qed.
#[export] Instance cslice_exact {T} (c : codec T) `{Exact T c} `{!Blind c} : Exact (cslice c).
Proof.
  split; [|by intros []]. intros l. cbn [arr cslice_lawful]. induction l as [|x l IH]; [done|]. cbn [map].
  by rewrite arr_id, IH.
Qed.
Class ExactFields {R} (fs : fields R) `{LawfulFields R fs} := arrs_id r : arrs fs r = r.
#[export] Instance fnil_exact : ExactFields fnil.
Proof. done. Qed.
#[export] Instance fcons_exact {T R} n o (c : codec T) (fs : fields R) `{Exact T c} `{ExactFields R fs} :
  ExactFields (fcons n o c fs).
Proof.
  intros [v r]. cbn [arrs fcons_lawful]. rewrite arrs_id, arr_id. f_equal.
  destruct o; cbn [andb]; [|done]. destruct (c_empty c v) eqn:E; [|done]. by rewrite (empty_zero v E).
Qed.
#[export] Instance wire_exact (A : Type) `{WireLaws A} `{!LawfulFields (ws_fields (A := A))}
  `{!ExactFields (ws_fields (A := A))} : Exact (wire A).
Proof. split; [|done]. intros a. cbn [arr wire_lawful]. rewrite arrs_id. apply ws_iso'. Qed.

Class TotalFields {R} (fs : fields R) := total_fields r :
  exists l, struct_fields fs r = Ok l /\ Forall (fun f => token f.2) l.
#[export] Instance fnil_total : TotalFields fnil.
Proof. intros []. by exists []. Qed.
#[export] Instance fcons_total {T R} n o (c : codec T) (fs : fields R) `{Total T c} `{TotalFields R fs} :
  TotalFields (fcons n o c fs).
Proof.
  intros [v r]. cbn [struct_fields]. destruct (total_fields r) as (l & Hl & Ht).
  destruct (o && c_empty c v); [by exists l|]. destruct (total v) as (t & Hv & Htv). rewrite Hv, Hl.
  eexists. split; [reflexivity|]. by constructor.
Qed.
#[export] Instance wire_total (A : Type) `{WireStruct A} `{!TotalFields (ws_fields (A := A))} : Total (wire A).
Proof.
  intros a. cbn [c_text wire]. destruct (total_fields (ws_to a)) as (l & -> & Ht).
  eexists. split; [reflexivity|]. by apply object_text_token.
Qed.

(** ** Whatever is written is a token *)
Class Settled {T} (c : codec T) := settled v t : c_text c v = Ok t -> token t.
#[export] Instance total_settled {T} (c : codec T) `{Total T c} : Settled c.
Proof. intros v t Ht. destruct (total v) as (t' & Ht' & Htok). congruence. Qed.
#[export] Instance craw_settled : Settled craw.
Proof.
  intros raw t. cbn [c_text craw]. unfold marshal_raw. destruct (str_empty raw); [|].
  - intros [= <-]. by apply (word_text_token "null").
  - destruct (compact raw) as [c|] eqn:E; [|done]. intros [= <-]. by eapply compact_token.
Qed.
Class SettledFields {R} (fs : fields R) := settled_fields r l :
  struct_fields fs r = Ok l -> Forall (fun f => token f.2) l.
#[export] Instance fnil_settled : SettledFields fnil.
Proof. by intros [] l [= <-]. Qed.
#[export] Instance fcons_settled {T R} n o (c : codec T) (fs : fields R) `{Settled T c} `{SettledFields R fs} :
  SettledFields (fcons n o c fs).
Proof.
  intros [v r] l. cbn [struct_fields]. destruct (o && c_empty c v); [by apply settled_fields|].
  destruct (c_text c v) as [t|] eqn:Et; [|done]. destruct (struct_fields fs r) as [l'|] eqn:El; [|done].
  intros [= <-]. constructor; [by apply (settled v)|by apply (settled_fields r)].
Qed.
#[export] Instance wire_settled (A : Type) `{WireStruct A} `{!SettledFields (ws_fields (A := A))} : Settled (wire A).
Proof.
  intros a t. cbn [c_text wire]. destruct (struct_fields _ _) as [l|] eqn:E; [|done]. intros [= <-].
  by eapply object_text_token, settled_fields.
Qed.
Lemma marshal_settled {T} (c : codec T) `{Settled T c} v t : MarshalAs c v = Ok t -> compact t = Some t.
Proof.
  unfold MarshalAs. destruct (c_text c v) as [l|] eqn:E; [|done]. intros [= <-].
  by eapply token_settled, settled.
Qed.

(** ** Texts and payloads *)
Lemma marshal_lawful {T} (c : codec T) `{Lawful T c} v : good c v ->
  exists t, MarshalAs c v = Ok t /\ compact t = Some t /\ t <> ""
    /\ exists j, parse t = Some j /\ forall (Hb : Blind c), UnmarshalAs c j = Ok (arr c v).
Proof.
  intros Hv. destruct (lawful_reads v Hv) as (t & j & Ht & Hr & Hc & Hrd). exists (of_bytes t).
  unfold MarshalAs. rewrite Ht. split; [done|].
  assert (compact (of_bytes t) = Some (of_bytes t)) as Hct by (apply token_settled; split; [done|by exists j]).
  split; [done|]. split; [by eapply compact_not_empty|]. exists j. split; [by apply token_parse|].
  intros Hb. unfold UnmarshalAs. by rewrite (blind "" (of_bytes t)), Hrd.
Qed.
Lemma payload_arrives {T} (c : codec T) `{Lawful T c} `{Blind T c} v : good c v ->
  exists t, MarshalAs c v = Ok t /\ compact t = Some t /\ t <> ""
    /\ forall p, pk_Payload p = t -> DecodePayload (UnmarshalAs c) p = Ok (arr c v).
Proof.
  intros Hv. destruct (marshal_lawful c v Hv) as (t & Ht & Hc & Hne & j & Hp & Hu). exists t.
  split; [done|]. split; [done|]. split; [done|]. intros p Hpp. unfold DecodePayload. rewrite Hpp.
  destruct (str_empty_spec t) as [|_]; [done|]. rewrite Hp. by apply Hu.
Qed.
(** Written and read again, directly. *)
Lemma text_roundtrip {T} (c : codec T) `{Lawful T c} `{Blind T c} v t : good c v -> MarshalAs c v = Ok t ->
  UnmarshalText c t = Ok (arr c v).
Proof.
  intros Hv Ht. destruct (marshal_lawful c v Hv) as (t' & Ht' & _ & _ & j & Hp & Hu).
  rewrite Ht in Ht'. injection Ht' as <-. unfold UnmarshalText. rewrite Hp. by apply Hu.
Qed.
