(* ===== verification/GoWire.v ===== *)
(** The JSON of the wire types of [core/protocol/types.go]: one [WireStruct] for each
    struct, from its tags, and what a value of it has become on the other side. *)
From stdpp Require Import base gmap strings list.
From Stdlib Require Import Lia ZArith Ascii.
From S2P Require Import Prelude GoStrings GoJson GoTypes GoProtocol GoHandshake GoStruct.
Local Open Scope res_scope.

(** The names of the fields are different and plain, and a struct is its tuple. *)
Ltac wire_laws :=
  split;
  [by_decide
  |cbn [names ws_fields]; repeat (apply Forall_cons; split; [utf8_name|]); apply Forall_nil; exact I
  |intros t; hnf in t; repeat match goal with x : _ * _ |- _ => destruct x | u : unit |- _ => destruct u end;
   reflexivity
  |by intros []].

Definition OrchestratorCommand_wire : WireStruct OrchestratorCommand := {|
  ws_fields :=
    fcons "node_id" false cstr (fcons "command" false craw fnil);
  ws_to a := (oc_NodeID a, (oc_Command a, tt));
  ws_of := fun '(x0, (x1, _)) => mkOrchestratorCommand x0 x1 |}.
#[export] Existing Instance OrchestratorCommand_wire.
#[export] Instance OrchestratorCommand_laws : WireLaws OrchestratorCommand.
Proof. wire_laws. Qed.
Definition CommandReply_wire : WireStruct CommandReply := {|
  ws_fields :=
    fcons "node_id" true cstr (fcons "status" false cstr (fcons "message" true cstr (
    fcons "output" true craw fnil)));
  ws_to a := (cr_NodeID a, (cr_Status a, (cr_Message a, (cr_Output a, tt))));
  ws_of := fun '(x0, (x1, (x2, (x3, _)))) => mkCommandReply x0 x1 x2 x3 |}.
#[export] Existing Instance CommandReply_wire.
#[export] Instance CommandReply_laws : WireLaws CommandReply.
Proof. wire_laws. Qed.
Definition NodeCommand_wire : WireStruct NodeCommand := {|
  ws_fields :=
    fcons "action" false cstr (fcons "params" true craw fnil);
  ws_to a := (nc_Action a, (nc_Params a, tt));
  ws_of := fun '(x0, (x1, _)) => mkNodeCommand x0 x1 |}.
#[export] Existing Instance NodeCommand_wire.
#[export] Instance NodeCommand_laws : WireLaws NodeCommand.
Proof. wire_laws. Qed.
Definition VMDomain_wire : WireStruct VMDomain := {|
  ws_fields :=
    fcons "id" false (cuint 32) (fcons "uuid" false cstr (fcons "name" false cstr (
    fcons "active" false cbool (fcons "persistent" true cbool (fcons "autostart" true cbool (
    fcons "state" true cstr (fcons "max_mem_mb" true (cuint 64) (
    fcons "memory_mb" true (cuint 64) (fcons "vcpus" true (cuint 64) (
    fcons "iso_path" true cstr fnil))))))))));
  ws_to a := (vd_ID a, (vd_UUID a, (vd_Name a, (vd_Active a, (vd_Persistent a, (vd_Autostart a,
    (vd_State a, (vd_MaxMemMB a, (vd_MemoryMB a, (vd_VCPUs a, (vd_ISOPath a, tt)))))))))));
  ws_of := fun '(x0, (x1, (x2, (x3, (x4, (x5, (x6, (x7, (x8, (x9, (x10, _))))))))))) => mkVMDomain x0 x1 x2 x3 x4 x5 x6 x7 x8 x9 x10 |}.
#[export] Existing Instance VMDomain_wire.
#[export] Instance VMDomain_laws : WireLaws VMDomain.
Proof. wire_laws. Qed.
Definition VMListNode_wire : WireStruct VMListNode := {|
  ws_fields :=
    fcons "node_id" false cstr (fcons "domains" true (cslice (wire VMDomain)) (
    fcons "error" true cstr fnil));
  ws_to a := (vn_NodeID a, (vn_Domains a, (vn_Error a, tt)));
  ws_of := fun '(x0, (x1, (x2, _))) => mkVMListNode x0 x1 x2 |}.
#[export] Existing Instance VMListNode_wire.
#[export] Instance VMListNode_laws : WireLaws VMListNode.
Proof. wire_laws. Qed.
Definition VMListAggregate_wire : WireStruct VMListAggregate := {|
  ws_fields :=
    fcons "nodes" false (cslice (wire VMListNode)) fnil;
  ws_to a := (va_Nodes a, tt);
  ws_of := fun '(x0, _) => mkVMListAggregate x0 |}.
#[export] Existing Instance VMListAggregate_wire.
#[export] Instance VMListAggregate_laws : WireLaws VMListAggregate.
Proof. wire_laws. Qed.
Definition NodeInfo_wire : WireStruct NodeInfo := {|
  ws_fields :=
    fcons "id" false cstr (fcons "name" false cstr (fcons "ip" false cstr fnil));
  ws_to a := (ni_ID a, (ni_Name a, (ni_IP a, tt)));
  ws_of := fun '(x0, (x1, (x2, _))) => mkNodeInfo x0 x1 x2 |}.
#[export] Existing Instance NodeInfo_wire.
#[export] Instance NodeInfo_laws : WireLaws NodeInfo.
Proof. wire_laws. Qed.
Definition MasterInfo_wire : WireStruct MasterInfo := {|
  ws_fields :=
    fcons "id" false cstr (fcons "name" false cstr (fcons "cluster" false cstr (
    fcons "advertise" false cstr (fcons "pubKey" false cstr (
    fcons "nodes" false (cslice (wire NodeInfo)) fnil)))));
  ws_to a := (mi_ID a, (mi_Name a, (mi_Cluster a, (mi_Advertise a, (mi_PubKey a, (mi_Nodes a, tt))))));
  ws_of := fun '(x0, (x1, (x2, (x3, (x4, (x5, _)))))) => mkMasterInfo x0 x1 x2 x3 x4 x5 |}.
#[export] Existing Instance MasterInfo_wire.
#[export] Instance MasterInfo_laws : WireLaws MasterInfo.
Proof. wire_laws. Qed.
Definition LibvirtStorageVolume_wire : WireStruct LibvirtStorageVolume := {|
  ws_fields :=
    fcons "name" false cstr (fcons "key" true cstr (fcons "path" true cstr (
    fcons "format" true cstr (fcons "capacity" true (cuint 64) (
    fcons "allocation" true (cuint 64) fnil)))));
  ws_to a := (lv_Name a, (lv_Key a, (lv_Path a, (lv_Format a, (lv_Capacity a, (lv_Allocation a, tt))))));
  ws_of := fun '(x0, (x1, (x2, (x3, (x4, (x5, _)))))) => mkLibvirtStorageVolume x0 x1 x2 x3 x4 x5 |}.
#[export] Existing Instance LibvirtStorageVolume_wire.
#[export] Instance LibvirtStorageVolume_laws : WireLaws LibvirtStorageVolume.
Proof. wire_laws. Qed.
Definition LibvirtStoragePool_wire : WireStruct LibvirtStoragePool := {|
  ws_fields :=
    fcons "name" false cstr (fcons "uuid" true cstr (fcons "active" true cbool (
    fcons "persistent" true cbool (fcons "autostart" true cbool (
    fcons "capacity" true (cuint 64) (fcons "allocation" true (cuint 64) (
    fcons "available" true (cuint 64) (
    fcons "volumes" true (cslice (wire LibvirtStorageVolume)) fnil))))))));
  ws_to a := (lp_Name a, (lp_UUID a, (lp_Active a, (lp_Persistent a, (lp_Autostart a, (lp_Capacity a,
    (lp_Allocation a, (lp_Available a, (lp_Volumes a, tt)))))))));
  ws_of := fun '(x0, (x1, (x2, (x3, (x4, (x5, (x6, (x7, (x8, _))))))))) => mkLibvirtStoragePool x0 x1 x2 x3 x4 x5 x6 x7 x8 |}.
#[export] Existing Instance LibvirtStoragePool_wire.
#[export] Instance LibvirtStoragePool_laws : WireLaws LibvirtStoragePool.
Proof. wire_laws. Qed.
Definition LibvirtNetwork_wire : WireStruct LibvirtNetwork := {|
  ws_fields :=
    fcons "name" false cstr (fcons "uuid" true cstr (fcons "active" true cbool (
    fcons "persistent" true cbool (fcons "autostart" true cbool fnil))));
  ws_to a := (ln_Name a, (ln_UUID a, (ln_Active a, (ln_Persistent a, (ln_Autostart a, tt)))));
  ws_of := fun '(x0, (x1, (x2, (x3, (x4, _))))) => mkLibvirtNetwork x0 x1 x2 x3 x4 |}.
#[export] Existing Instance LibvirtNetwork_wire.
#[export] Instance LibvirtNetwork_laws : WireLaws LibvirtNetwork.
Proof. wire_laws. Qed.
Definition LibvirtVMActionParams_wire : WireStruct LibvirtVMActionParams := {|
  ws_fields :=
    fcons "name" false cstr fnil;
  ws_to a := (vp_Name a, tt);
  ws_of := fun '(x0, _) => mkLibvirtVMActionParams x0 |}.
#[export] Existing Instance LibvirtVMActionParams_wire.
#[export] Instance LibvirtVMActionParams_laws : WireLaws LibvirtVMActionParams.
Proof. wire_laws. Qed.
Definition LibvirtVMCreateParams_wire : WireStruct LibvirtVMCreateParams := {|
  ws_fields :=
    fcons "name" false cstr (fcons "memory_mb" false (cuint 64) (fcons "vcpus" false (cuint 64) (
    fcons "disk_pool" false cstr (fcons "disk_name" true cstr (
    fcons "disk_size_gb" false (cuint 64) (fcons "network" true cstr (fcons "iso_path" true cstr (
    fcons "autostart" true cbool (fcons "start" true cbool fnil)))))))));
  ws_to a := (vc_Name a, (vc_MemoryMB a, (vc_VCPUs a, (vc_DiskPool a, (vc_DiskName a, (vc_DiskSizeGB a,
    (vc_Network a, (vc_ISOPath a, (vc_Autostart a, (vc_Start a, tt))))))))));
  ws_of := fun '(x0, (x1, (x2, (x3, (x4, (x5, (x6, (x7, (x8, (x9, _)))))))))) => mkLibvirtVMCreateParams x0 x1 x2 x3 x4 x5 x6 x7 x8 x9 |}.
#[export] Existing Instance LibvirtVMCreateParams_wire.
#[export] Instance LibvirtVMCreateParams_laws : WireLaws LibvirtVMCreateParams.
Proof. wire_laws. Qed.
Definition LibvirtVMCreateResult_wire : WireStruct LibvirtVMCreateResult := {|
  ws_fields :=
    fcons "name" false cstr (fcons "uuid" true cstr (fcons "disk_volume" true cstr (
    fcons "disk_path" true cstr fnil)));
  ws_to a := (vr_Name a, (vr_UUID a, (vr_DiskVolume a, (vr_DiskPath a, tt))));
  ws_of := fun '(x0, (x1, (x2, (x3, _)))) => mkLibvirtVMCreateResult x0 x1 x2 x3 |}.
#[export] Existing Instance LibvirtVMCreateResult_wire.
#[export] Instance LibvirtVMCreateResult_laws : WireLaws LibvirtVMCreateResult.
Proof. wire_laws. Qed.
Definition LibvirtVMSetAutostartParams_wire : WireStruct LibvirtVMSetAutostartParams := {|
  ws_fields :=
    fcons "name" false cstr (fcons "enabled" false cbool fnil);
  ws_to a := (vs_Name a, (vs_Enabled a, tt));
  ws_of := fun '(x0, (x1, _)) => mkLibvirtVMSetAutostartParams x0 x1 |}.
#[export] Existing Instance LibvirtVMSetAutostartParams_wire.
#[export] Instance LibvirtVMSetAutostartParams_laws : WireLaws LibvirtVMSetAutostartParams.
Proof. wire_laws. Qed.
Definition LibvirtVMAttachISOParams_wire : WireStruct LibvirtVMAttachISOParams := {|
  ws_fields :=
    fcons "name" false cstr (fcons "iso_path" false cstr fnil);
  ws_to a := (vi_Name a, (vi_ISOPath a, tt));
  ws_of := fun '(x0, (x1, _)) => mkLibvirtVMAttachISOParams x0 x1 |}.
#[export] Existing Instance LibvirtVMAttachISOParams_wire.
#[export] Instance LibvirtVMAttachISOParams_laws : WireLaws LibvirtVMAttachISOParams.
Proof. wire_laws. Qed.
Definition LibvirtVMDeleteParams_wire : WireStruct LibvirtVMDeleteParams := {|
  ws_fields :=
    fcons "name" false cstr (fcons "force_stop" true cbool (
    fcons "remove_volumes" true cbool fnil));
  ws_to a := (vx_Name a, (vx_ForceStop a, (vx_RemoveVolumes a, tt)));
  ws_of := fun '(x0, (x1, (x2, _))) => mkLibvirtVMDeleteParams x0 x1 x2 |}.
#[export] Existing Instance LibvirtVMDeleteParams_wire.
#[export] Instance LibvirtVMDeleteParams_laws : WireLaws LibvirtVMDeleteParams.
Proof. wire_laws. Qed.
Definition DockerContainer_wire : WireStruct DockerContainer := {|
  ws_fields :=
    fcons "id" false cstr (fcons "image" false cstr (fcons "names" true (cslice cstr) (
    fcons "state" true cstr (fcons "status" true cstr (fcons "created" true (cint 64) fnil)))));
  ws_to a := (dc_ID a, (dc_Image a, (dc_Names a, (dc_State a, (dc_Status a, (dc_Created a, tt))))));
  ws_of := fun '(x0, (x1, (x2, (x3, (x4, (x5, _)))))) => mkDockerContainer x0 x1 x2 x3 x4 x5 |}.
#[export] Existing Instance DockerContainer_wire.
#[export] Instance DockerContainer_laws : WireLaws DockerContainer.
Proof. wire_laws. Qed.
Definition DockerImage_wire : WireStruct DockerImage := {|
  ws_fields :=
    fcons "id" false cstr (fcons "repo_tags" true (cslice cstr) (fcons "size" true (cint 64) (
    fcons "created" true (cint 64) (fcons "labels" true cmap fnil))));
  ws_to a := (di_ID a, (di_RepoTags a, (di_Size a, (di_Created a, (di_Labels a, tt)))));
  ws_of := fun '(x0, (x1, (x2, (x3, (x4, _))))) => mkDockerImage x0 x1 x2 x3 x4 |}.
#[export] Existing Instance DockerImage_wire.
#[export] Instance DockerImage_laws : WireLaws DockerImage.
Proof. wire_laws. Qed.
Definition DockerImagePullParams_wire : WireStruct DockerImagePullParams := {|
  ws_fields :=
    fcons "image" false cstr fnil;
  ws_to a := (dp_Image a, tt);
  ws_of := fun '(x0, _) => mkDockerImagePullParams x0 |}.
#[export] Existing Instance DockerImagePullParams_wire.
#[export] Instance DockerImagePullParams_laws : WireLaws DockerImagePullParams.
Proof. wire_laws. Qed.
Definition DockerImageRemoveParams_wire : WireStruct DockerImageRemoveParams := {|
  ws_fields :=
    fcons "image" false cstr (fcons "force" true cbool (fcons "prune_children" true cbool fnil));
  ws_to a := (dr_Image a, (dr_Force a, (dr_PruneChildren a, tt)));
  ws_of := fun '(x0, (x1, (x2, _))) => mkDockerImageRemoveParams x0 x1 x2 |}.
#[export] Existing Instance DockerImageRemoveParams_wire.
#[export] Instance DockerImageRemoveParams_laws : WireLaws DockerImageRemoveParams.
Proof. wire_laws. Qed.
Definition DockerImageRemoveResult_wire : WireStruct DockerImageRemoveResult := {|
  ws_fields :=
    fcons "deleted" true (cslice cstr) (fcons "untagged" true (cslice cstr) fnil);
  ws_to a := (dd_Deleted a, (dd_Untagged a, tt));
  ws_of := fun '(x0, (x1, _)) => mkDockerImageRemoveResult x0 x1 |}.
#[export] Existing Instance DockerImageRemoveResult_wire.
#[export] Instance DockerImageRemoveResult_laws : WireLaws DockerImageRemoveResult.
Proof. wire_laws. Qed.
Definition DockerContainerCreateParams_wire : WireStruct DockerContainerCreateParams := {|
  ws_fields :=
    fcons "image" false cstr (fcons "name" true cstr (fcons "command" true cstr (
    fcons "entrypoint" true cstr (fcons "working_dir" true cstr (fcons "env" true (cslice cstr) (
    fcons "ports" true (cslice cstr) (fcons "publish_all" true cbool (
    fcons "auto_remove" true cbool (fcons "restart_policy" true cstr (
    fcons "start" true cbool fnil))))))))));
  ws_to a := (cc_Image a, (cc_Name a, (cc_Command a, (cc_Entrypoint a, (cc_WorkingDir a, (cc_Env a,
    (cc_Ports a, (cc_PublishAll a, (cc_AutoRemove a, (cc_RestartPolicy a, (cc_Start a,
    tt)))))))))));
  ws_of := fun '(x0, (x1, (x2, (x3, (x4, (x5, (x6, (x7, (x8, (x9, (x10, _))))))))))) => mkDockerContainerCreateParams x0 x1 x2 x3 x4 x5 x6 x7 x8 x9 x10 |}.
#[export] Existing Instance DockerContainerCreateParams_wire.
#[export] Instance DockerContainerCreateParams_laws : WireLaws DockerContainerCreateParams.
Proof. wire_laws. Qed.
Definition DockerContainerCreateResult_wire : WireStruct DockerContainerCreateResult := {|
  ws_fields :=
    fcons "id" false cstr (fcons "warnings" true (cslice cstr) fnil);
  ws_to a := (ce_ID a, (ce_Warnings a, tt));
  ws_of := fun '(x0, (x1, _)) => mkDockerContainerCreateResult x0 x1 |}.
#[export] Existing Instance DockerContainerCreateResult_wire.
#[export] Instance DockerContainerCreateResult_laws : WireLaws DockerContainerCreateResult.
Proof. wire_laws. Qed.
Definition DockerContainerStartParams_wire : WireStruct DockerContainerStartParams := {|
  ws_fields :=
    fcons "id" false cstr fnil;
  ws_to a := (cs_ID a, tt);
  ws_of := fun '(x0, _) => mkDockerContainerStartParams x0 |}.
#[export] Existing Instance DockerContainerStartParams_wire.
#[export] Instance DockerContainerStartParams_laws : WireLaws DockerContainerStartParams.
Proof. wire_laws. Qed.
Definition DockerContainerStopParams_wire : WireStruct DockerContainerStopParams := {|
  ws_fields :=
    fcons "id" false cstr (fcons "timeout_seconds" true (cptr (cint 64)) fnil);
  ws_to a := (ct_ID a, (ct_TimeoutSeconds a, tt));
  ws_of := fun '(x0, (x1, _)) => mkDockerContainerStopParams x0 x1 |}.
#[export] Existing Instance DockerContainerStopParams_wire.
#[export] Instance DockerContainerStopParams_laws : WireLaws DockerContainerStopParams.
Proof. wire_laws. Qed.
Definition DockerContainerRestartParams_wire : WireStruct DockerContainerRestartParams := {|
  ws_fields :=
    fcons "id" false cstr (fcons "timeout_seconds" true (cptr (cint 64)) fnil);
  ws_to a := (cx_ID a, (cx_TimeoutSeconds a, tt));
  ws_of := fun '(x0, (x1, _)) => mkDockerContainerRestartParams x0 x1 |}.
#[export] Existing Instance DockerContainerRestartParams_wire.
#[export] Instance DockerContainerRestartParams_laws : WireLaws DockerContainerRestartParams.
Proof. wire_laws. Qed.
Definition DockerContainerRemoveParams_wire : WireStruct DockerContainerRemoveParams := {|
  ws_fields :=
    fcons "id" false cstr (fcons "force" true cbool (fcons "remove_volumes" true cbool fnil));
  ws_to a := (cm_ID a, (cm_Force a, (cm_RemoveVolumes a, tt)));
  ws_of := fun '(x0, (x1, (x2, _))) => mkDockerContainerRemoveParams x0 x1 x2 |}.
#[export] Existing Instance DockerContainerRemoveParams_wire.
#[export] Instance DockerContainerRemoveParams_laws : WireLaws DockerContainerRemoveParams.
Proof. wire_laws. Qed.

(** * What arrives *)
(** A raw text on the other side: compacted, and [null] for nil where it is not left out. *)
Definition relay_raw (omit : bool) (raw : string) : string :=
  if omit && str_empty raw then "" else default "null" (compact raw).
(** A raw text that is valid or empty changes only on its first way. *)
Lemma relay_raw_idem raw : raw_ok raw -> relay_raw true (relay_raw true raw) = relay_raw true raw
  /\ raw_ok (relay_raw true raw).
Proof.
  unfold relay_raw. intros [->|[t Ht]]; [by split; [|left]|].
  destruct (str_empty_spec raw) as [->|_]; [done|]. cbn [andb]. rewrite Ht.
  change (default "null" (Some t)) with t. cbn [andb]. pose proof (compact_idem _ _ Ht) as Hi.
  destruct (str_empty_spec t) as [->|_]; [by split; [|left]|]. cbn [andb]. rewrite Hi. split; [done|]. right. by exists t.
Qed.
(** An empty string that is left out is empty on the other side. *)
Lemma omitted_empty s : (if str_empty s then "" else s) = s.
Proof. by destruct (str_empty_spec s) as [->|_]. Qed.
Lemma arr_OrchestratorCommand n c :
  arr (wire OrchestratorCommand) (mkOrchestratorCommand n c) = mkOrchestratorCommand n (relay_raw false c).
Proof. reflexivity. Qed.
Lemma arr_CommandReply n s m o :
  arr (wire CommandReply) (mkCommandReply n s m o) = mkCommandReply n s m (relay_raw true o).
Proof. cbn. by rewrite !omitted_empty. Qed.
Lemma arr_NodeCommand a p : arr (wire NodeCommand) (mkNodeCommand a p) = mkNodeCommand a (relay_raw true p).
Proof. reflexivity. Qed.
