(* ===== verification/GoRaw.v ===== *)
(** Raw texts that a decoder keeps: the text of a member of an object, which
    [encoding/json] stores in a [json.RawMessage], is valid JSON by itself, so that a message
    which was decoded can always be encoded again. *)
From stdpp Require Import base strings list.
From Stdlib Require Import Lia ZArith Ascii.
From S2P Require Import Prelude GoStrings GoJson GoTypes GoProtocol GoHandshake GoStruct GoWire.

(** * The part of a text that was read can be read alone *)
Lemma ws_split l : exists w, l = w ++ skip_ws l /\ forall y, skip_ws (w ++ y) = skip_ws y.
Proof.
  induction l as [|a l (w & E & Hw)]; [by exists []|]. cbn [skip_ws]. destruct (ws a) eqn:Ea.
  - exists (a :: w). cbn [app skip_ws]. rewrite Ea, <- E. done.
  - by exists [].
Qed.
Lemma skip_ws_head l b r : skip_ws l = b :: r -> forall y, skip_ws (b :: y) = b :: y.
Proof.
  induction l as [|a l IH]; [done|]. cbn [skip_ws]. destruct (ws a) eqn:Ea; [done|].
  intros [= -> ->] y. cbn. by rewrite Ea.
Qed.

Lemma scan_prefix l r : scan l = Some r -> exists t, l = t ++ r /\ forall y, scan (t ++ y) = Some y.
Proof.
  remember (length l) as n eqn:En. revert l En. induction n as [n IH] using lt_wf_ind. intros l ->.
  assert (forall p l', l = p ++ l' -> p <> [] -> (forall y, scan (p ++ y) = scan y) -> scan l' = Some r ->
    exists t, l = t ++ r /\ forall y, scan (t ++ y) = Some y) as K.
  { intros p l' -> Hp Hs Hl. destruct (IH (length l')) with (l := l') as (t & -> & Ht); [|done..|].
    - rewrite length_app. destruct p; [done|cbn; lia].
    - exists (p ++ t). rewrite app_assoc. split; [done|]. intros y. by rewrite <- app_assoc, Hs. }
  destruct l as [|a l]; [done|]. cbn [scan]. destruct (chr_eqb a DQ) eqn:E1.
  { intros [= ->]. exists [a]. split; [done|]. intros y. cbn. by rewrite E1. }
  destruct (chr_eqb a BSL) eqn:E2.
  - destruct l as [|e l]; [done|]. destruct (chr_eqb e "u"%char) eqn:E3.
    + destruct l as [|h1 [|h2 [|h3 [|h4 l]]]]; try done. destruct (u4 h1 h2 h3 h4) eqn:E4; [|done].
      apply (K [a; e; h1; h2; h3; h4]); [done..|]. intros y. cbn [app scan]. by rewrite E1, E2, E3, E4.
    + destruct (simple_esc e) eqn:E4; [|done]. apply (K [a; e]); [done..|]. intros y. cbn [app scan]. by rewrite E1, E2, E3, E4.
  - destruct (byte_val a <? 32) eqn:E3; [done|]. apply (K [a]); [done..|]. intros y. cbn [app scan]. by rewrite E1, E2, E3.
Qed.
Lemma unq_prefix l s r : unq l = Some (s, r) -> exists t s', l = t ++ r /\ forall y, unq (t ++ y) = Some (s', y).
Proof.
  intros E. pose proof (unq_scan l) as Hs. rewrite E in Hs. destruct (scan_prefix _ _ Hs) as (t & -> & Ht).
  exists t. destruct (unq t) as [[s' r']|] eqn:Et.
  - exists s'. split; [done|]. intros y. pose proof (unq_scan t) as H1. rewrite Et in H1.
    specialize (Ht []). rewrite app_nil_r in Ht. rewrite H1 in Ht. injection Ht as ->. exact (unq_app y _ _ _ Et).
  - exfalso. pose proof (unq_scan t) as H1. rewrite Et in H1. specialize (Ht []). rewrite app_nil_r in Ht. congruence.
Qed.

Definition readable {A} (rd : nat -> list ascii -> option (A * list ascii)) (ok : list ascii -> bool)
    (l r : list ascii) : Prop :=
  exists t v, l = t ++ r /\ reads rd ok t v.
Lemma value_nonempty t v : reads value ends_number t v -> exists b t', t = b :: t' /\ forall y, skip_ws (b :: y) = b :: y.
Proof.
  intros [f H]. specialize (H f [] (le_n f) eq_refl). destruct t as [|b t]; [by destruct f|].
  exists b, t. split; [done|]. pose proof (value_skip _ _ _ H) as Hs. by apply (skip_ws_head _ _ _ Hs).
Qed.
(** A value behind white space. *)
Lemma ws_value l t v r : skip_ws l = t ++ r -> reads value ends_number t v ->
  exists w, l = (w ++ t) ++ r /\ forall y, skip_ws ((w ++ t) ++ y) = t ++ y.
Proof.
  intros E Hr. destruct (ws_split l) as (w & El & Hw). exists w. rewrite <- !app_assoc, <- E. split; [done|].
  intros y. rewrite <- app_assoc, Hw. destruct (value_nonempty _ _ Hr) as (b & t' & -> & Hb). apply Hb.
Qed.
(** A character behind white space. *)
Lemma ws_char l a r : skip_ws l = a :: r -> exists w, l = (w ++ [a]) ++ r /\ forall y, skip_ws ((w ++ [a]) ++ y) = a :: y.
Proof.
  intros E. destruct (ws_split l) as (w & El & Hw). exists w. rewrite <- app_assoc. cbn [app]. rewrite <- E. split; [done|].
  intros y. rewrite <- app_assoc. cbn [app]. rewrite Hw. by apply (skip_ws_head _ _ _ E).
Qed.
Lemma ws_ends_number l c y : skip_ws l = c :: y -> num_char c = false -> ends_number l = true.
Proof.
  destruct l as [|a l]; [done|]. cbn [skip_ws ends_number]. destruct (ws a) eqn:Ea.
  - intros _ _. revert Ea. by destruct a as [[] [] [] [] [] [] [] []].
  - by intros [= -> ->] ->.
Qed.
Lemma value_readable f :
  (forall l v r, value f l = Some (v, r) -> readable value ends_number l r)
  /\ (forall l vs r, items f l = Some (vs, r) -> readable items any_text l r)
  /\ (forall l ms r, members f l = Some (ms, r) -> readable members any_text l r).
Proof.
  induction f as [|f (IHv & IHi & IHm)]; [by split_and!|]. split_and!.
  - intros [|a l] v r; [done|]. rewrite value_S. destruct (chr_eqb a DQ) eqn:E1.
    { destruct (unq l) as [[s r1]|] eqn:E; [|done]. intros [= <- <-]. destruct (unq_prefix _ _ _ E) as (t & s' & -> & Ht).
      exists (a :: t), (JStr (of_bytes s')). split; [done|]. apply (reads_value _ _ 1). intros x _.
      cbn [app]. by rewrite value_S, E1, Ht. }
    destruct (chr_eqb a LBRACE) eqn:E2.
    { destruct (skip_ws l) as [|b r1] eqn:E; [done|]. destruct (chr_eqb b RBRACE) eqn:Eb.
      - intros [= <- <-]. destruct (ws_char _ _ _ E) as (w & -> & Hw). exists (a :: w ++ [b]), (JObj []). split; [done|].
        apply (reads_value _ _ 1). intros x _. cbn [app]. by rewrite value_S, E1, E2, Hw, Eb.
      - destruct (members f (b :: r1)) as [[ms r2]|] eqn:Em; [|done]. intros [= <- <-].
        pose proof (proj2 (proj2 (consumes f)) _ _ _ Em) as Hlen.
        destruct (IHm _ _ _ Em) as ([|b' t] & ms' & Et & [f' Ht]); [cbn in Et; subst; cbn in Hlen; lia|]. injection Et as <- ->.
        destruct (ws_char _ _ _ E) as (w & -> & Hw). exists (a :: (w ++ [b]) ++ t), (JObj ms'). split; [cbn [app]; by rewrite <- !app_assoc|].
        apply (reads_value _ _ (S f')). intros x _. cbn [app]. rewrite <- app_assoc, value_S, E1, E2, Hw, Eb.
        change (b :: t ++ x) with ((b :: t) ++ x). by rewrite Ht. }
    destruct (chr_eqb a LBRACK) eqn:E3.
    { destruct (skip_ws l) as [|b r1] eqn:E; [done|]. destruct (chr_eqb b RBRACK) eqn:Eb.
      - intros [= <- <-]. destruct (ws_char _ _ _ E) as (w & -> & Hw). exists (a :: w ++ [b]), (JArr []). split; [done|].
        apply (reads_value _ _ 1). intros x _. cbn [app]. by rewrite value_S, E1, E2, E3, Hw, Eb.
      - destruct (items f (b :: r1)) as [[vs r2]|] eqn:Em; [|done]. intros [= <- <-].
        pose proof (proj1 (proj2 (consumes f)) _ _ _ Em) as Hlen.
        destruct (IHi _ _ _ Em) as ([|b' t] & vs' & Et & [f' Ht]); [cbn in Et; subst; cbn in Hlen; lia|]. injection Et as <- ->.
        destruct (ws_char _ _ _ E) as (w & -> & Hw). exists (a :: (w ++ [b]) ++ t), (JArr vs'). split; [cbn [app]; by rewrite <- !app_assoc|].
        apply (reads_value _ _ (S f')). intros x _. cbn [app]. rewrite <- app_assoc, value_S, E1, E2, E3, Hw, Eb.
        change (b :: t ++ x) with ((b :: t) ++ x). by rewrite Ht. }
    destruct (strip (bytes_of "true") (a :: l)) as [r1|] eqn:Et.
    { intros [= <- <-]. apply strip_Some in Et. exists (bytes_of "true"), (JBool true). split; [exact Et|apply keyword_reads; auto]. }
    destruct (strip (bytes_of "false") (a :: l)) as [r1|] eqn:Ef.
    { intros [= <- <-]. apply strip_Some in Ef. exists (bytes_of "false"), (JBool false). split; [exact Ef|apply keyword_reads; auto]. }
    destruct (strip (bytes_of "null") (a :: l)) as [r1|] eqn:En.
    { intros [= <- <-]. apply strip_Some in En. exists (bytes_of "null"), JNull. split; [exact En|apply keyword_reads; auto]. }
    destruct (span num_char (a :: l)) as [n r1] eqn:Es. destruct (valid_num n) eqn:Ev; [|done]. intros [= <- <-].
    exists n, (JNum (of_bytes n)). split; [by apply span_word|by eapply number_reads].
  - intros l vs r. rewrite items_S. destruct (value f (skip_ws l)) as [[v r1]|] eqn:Ew; [|done].
    destruct (IHv _ _ _ Ew) as (t & v' & Et & Ht). destruct (ws_value _ _ _ _ Et Ht) as (w & -> & Hw).
    destruct (skip_ws r1) as [|c r2] eqn:E1; [done|]. destruct (ws_char _ _ _ E1) as (w2 & -> & Hw2).
    destruct Ht as [fv Ht]. destruct (chr_eqb c COMMA) eqn:Ec.
    + destruct (items f r2) as [[vs2 r3]|] eqn:E2; [|done]. intros [= <- <-].
      destruct (IHi _ _ _ E2) as (t2 & vs' & -> & [f2 Ht2]). exists ((w ++ t) ++ (w2 ++ [c]) ++ t2), (v' :: vs').
      split; [by rewrite <- !app_assoc|]. exists (S (fv + f2)). intros [|f'] x Hf _; [lia|].
      rewrite items_S, <- !app_assoc, (app_assoc w), Hw, Ht, (app_assoc w2), Hw2, Ec, Ht2; [done|lia|done|lia|].
      rewrite (app_assoc w2). apply (ws_ends_number _ c (t2 ++ x)); [apply Hw2|]. by apply chr_eqb_eq in Ec as ->.
    + destruct (chr_eqb c RBRACK) eqn:Ec'; [|done]. intros [= <- <-]. exists ((w ++ t) ++ (w2 ++ [c])), [v'].
      split; [by rewrite <- !app_assoc|]. exists (S fv). intros [|f'] x Hf _; [lia|].
      rewrite items_S, <- !app_assoc, (app_assoc w), Hw, Ht, (app_assoc w2), Hw2, Ec, Ec'; [done|lia|].
      rewrite (app_assoc w2). apply (ws_ends_number _ c x); [apply Hw2|]. by apply chr_eqb_eq in Ec' as ->.
  - intros l ms r. rewrite members_S. destruct (skip_ws l) as [|q l1] eqn:El; [done|].
    destruct (ws_char _ _ _ El) as (w0 & -> & Hw0). destruct (chr_eqb q DQ) eqn:Eq; [|done].
    destruct (unq l1) as [[k r0]|] eqn:E; [|done]. destruct (unq_prefix _ _ _ E) as (tk & k' & -> & Htk).
    destruct (skip_ws r0) as [|c r1] eqn:E0; [done|]. destruct (ws_char _ _ _ E0) as (w1 & -> & Hw1).
    destruct (chr_eqb c COLON) eqn:Ec; [|done]. cbv zeta.
    destruct (value f (skip_ws r1)) as [[v r2]|] eqn:Ew; [|done].
    destruct (IHv _ _ _ Ew) as (t & v' & Et & Ht). destruct (ws_value _ _ _ _ Et Ht) as (w & -> & Hw).
    destruct (skip_ws r2) as [|d r3] eqn:E3; [done|]. destruct (ws_char _ _ _ E3) as (w2 & -> & Hw2).
    destruct Ht as [fv Ht]. set (head := (w0 ++ [q]) ++ tk ++ (w1 ++ [c]) ++ (w ++ t) ++ (w2 ++ [d])).
    assert (forall f' y, fv <= f' -> num_char d = false -> members (S f') (head ++ y) =
      let m := (of_bytes k', consumed (t ++ (w2 ++ [d]) ++ y) ((w2 ++ [d]) ++ y), v') in
      if chr_eqb d COMMA then match members f' y with Some (ms, r4) => Some (m :: ms, r4) | None => None end
      else if chr_eqb d RBRACE then Some ([m], y) else None) as Hhead.
    { intros f' y Hf Hd. unfold head. rewrite members_S. rewrite <- (app_assoc (w0 ++ [q])), Hw0, Eq, <- (app_assoc tk), Htk.
      rewrite <- (app_assoc (w1 ++ [c])), Hw1, Ec. cbv zeta. rewrite <- (app_assoc (w ++ t)), Hw, Ht, Hw2; [done|done|].
      by apply (ws_ends_number _ d y). }
    destruct (chr_eqb d COMMA) eqn:Ed.
    + destruct (members f r3) as [[ms2 r4]|] eqn:E4; [|done]. intros [= <- <-].
      destruct (IHm _ _ _ E4) as (t2 & ms' & -> & [f2 Ht2]). eexists (head ++ t2), _.
      split; [unfold head; by rewrite <- !app_assoc|]. exists (S (fv + f2)). intros [|f'] x Hf _; [lia|].
      rewrite <- app_assoc, Hhead, Ht2; [|lia|done|lia|by apply chr_eqb_eq in Ed as ->].
      cbv zeta. rewrite !consumed_all. reflexivity.
    + destruct (chr_eqb d RBRACE) eqn:Ed'; [|done]. intros [= <- <-]. eexists head, _.
      split; [unfold head; by rewrite <- !app_assoc|]. exists (S fv). intros [|f'] x Hf _; [lia|].
      rewrite Hhead; [|lia|by apply chr_eqb_eq in Ed' as ->]. cbv zeta. rewrite consumed_all. reflexivity.
Qed.

(** * The texts of members are valid *)
Definition valid_raws (v : json) : Prop :=
  match v with JObj ms => Forall (fun m : string * string * json => is_Some (compact m.1.2)) ms | _ => True end.
Lemma consumed_valid f l v r : value f l = Some (v, r) -> is_Some (compact (consumed l r)).
Proof.
  intros E. destruct (proj1 (value_readable f) _ _ _ E) as (t & v' & -> & Ht). rewrite consumed_all.
  unfold compact. rewrite (token_parse _ _ Ht). by eexists.
Qed.
Lemma members_valid f : forall l ms r, members f l = Some (ms, r) -> valid_raws (JObj ms).
Proof.
  induction f as [|f IH]; intros l ms r; [done|]. rewrite members_S. cbv zeta. destruct (skip_ws l) as [|q l1]; [done|].
  destruct (chr_eqb q DQ); [|done]. destruct (unq l1) as [[k r0]|]; [|done].
  destruct (skip_ws r0) as [|c r1]; [done|]. destruct (chr_eqb c COLON); [|done].
  destruct (value f (skip_ws r1)) as [[v r2]|] eqn:Ev; [|done]. pose proof (consumed_valid _ _ _ _ Ev) as Hv.
  destruct (skip_ws r2) as [|d r3]; [done|]. destruct (chr_eqb d COMMA).
  - destruct (members f r3) as [[ms2 r4]|] eqn:Em; [|done]. intros [= <- <-]. constructor; [exact Hv|]. by apply (IH r3 ms2 r4).
  - destruct (chr_eqb d RBRACE); [|done]. intros [= <- <-]. by constructor.
Qed.
Lemma value_valid f l v r : value f l = Some (v, r) -> valid_raws v.
Proof.
  destruct f as [|f]; [done|]. destruct l as [|a l]; [done|]. rewrite value_S. intros E.
  destruct v as [|b|n|s|vs|ms]; [done..|]. repeat case_match; try discriminate E; injection E as <- <-; [constructor|].
  by eapply members_valid.
Qed.
Lemma parse_valid s v : parse s = Some v -> valid_raws v.
Proof.
  unfold parse. cbv zeta. destruct (value _ _) as [[w r]|] eqn:E; [|done]. destruct (skip_ws r); [|done].
  intros [= ->]. by eapply value_valid.
Qed.

(** * Raw fields that were decoded *)
(** Fields of which a predicate holds after any members with valid texts were set. *)
Lemma set_members_keep {R} (fs : fields R) (P : R -> Prop) :
  (forall r n raw v, P r -> is_Some (compact raw) -> P (fst (set_field fs n raw v r))) ->
  forall ms r bad, Forall (fun m : string * string * json => is_Some (compact m.1.2)) ms -> P r ->
  P (fst (foldl (set_member fs) (r, bad) ms)).
Proof.
  intros Hset ms. induction ms as [|[[k raw] v] ms IH]; intros r bad Hms Hr; [done|].
  apply Forall_cons in Hms as [Hraw Hms]. cbn [foldl set_member].
  destruct (find_name (names fs) k) as [n|]; [|by apply IH]. specialize (Hset r n raw v Hr Hraw).
  destruct (set_field fs n raw v r) as [r' b]. by apply IH.
Qed.
Lemma unmarshal_keeps {A} `{WireStruct A} (P : A -> Prop) v a :
  (forall r n raw w, P (ws_of r) -> is_Some (compact raw) -> P (ws_of (fst (set_field ws_fields n raw w r)))) ->
  P (ws_of (ws_to (ws_of (zeros ws_fields)))) -> P (ws_of (zeros ws_fields)) -> valid_raws v -> Unmarshal v = Ok a -> P a.
Proof.
  intros Hset H0 H1 Hv. unfold Unmarshal, UnmarshalAs. cbn [c_read c_zero wire].
  destruct v as [|b|n|s|vs|ms]; [by intros [= <-]|done..|].
  pose proof (set_members_keep ws_fields (fun r => P (ws_of r)) Hset ms (ws_to (ws_of (zeros ws_fields))) false Hv H0) as Hp.
  destruct (foldl _ _ ms) as [r bad]. destruct bad; [done|]. by intros [= <-].
Qed.
Lemma decoded_output p r : DecodePayload (Unmarshal (A := CommandReply)) p = Ok r -> raw_ok (cr_Output r).
Proof.
  unfold DecodePayload. destruct (str_empty _); [done|]. destruct (parse (pk_Payload p)) as [v|] eqn:E; [|done].
  apply (unmarshal_keeps (fun r => raw_ok (cr_Output r))); [|by left..|by eapply parse_valid].
  intros (n & s & m & o & []) k raw w Ho Hraw. cbn [ws_fields CommandReply_wire set_field ws_of fst].
  repeat (destruct (str_eqb _ k); [try (by destruct (c_read _ _ _ _)); by right|]). done.
Qed.
Lemma decoded_command p r : DecodePayload (Unmarshal (A := OrchestratorCommand)) p = Ok r -> raw_ok (oc_Command r).
Proof.
  unfold DecodePayload. destruct (str_empty _); [done|]. destruct (parse (pk_Payload p)) as [v|] eqn:E; [|done].
  apply (unmarshal_keeps (fun r => raw_ok (oc_Command r))); [|by left..|by eapply parse_valid].
  intros (n & c & []) k raw w Ho Hraw. cbn [ws_fields OrchestratorCommand_wire set_field ws_of fst].
  repeat (destruct (str_eqb _ k); [try (by destruct (c_read _ _ _ _)); by right|]). done.
Qed.
(** A reply whose output is valid can be written. *)
Lemma marshal_raw_ok n st m o : raw_ok o -> exists t, MarshalAs (wire CommandReply) (mkCommandReply n st m o) = Ok t.
Proof.
  intros Ho. assert (exists t, c_text craw o = Ok t) as [t Ht].
  { cbn. unfold marshal_raw. destruct Ho as [->|[t Ht]]; [by eexists|]. rewrite Ht. by destruct (str_empty o); eexists. }
  unfold MarshalAs. assert (exists x, c_text (wire CommandReply) (mkCommandReply n st m o) = Ok x) as [x ->]; [|by eexists].
  change (exists x, (let? l := struct_fields (ws_fields (A := CommandReply)) (n, (st, (m, (o, tt)))) in Ok (object_text l))%res = Ok x).
  cbn [ws_fields CommandReply_wire struct_fields]. rewrite Ht. cbn [c_text cstr].
  destruct (true && c_empty cstr n), (true && c_empty cstr m), (true && c_empty craw o); by eexists.
Qed.
