(* ===== verification/GoDispatch.v ===== *)
(** Commands on their way to a master: [orchestrator/tcp/server.go], the table of
    connected masters, [sendCommandWait] and the choice of a master of a cluster in
    [SendClusterCommandWait].

    What a connection answers to a request ([sendRequest]), the JSON of commands and
    replies and the fresh packet id are parameters here; GoCommands gives them. *)
From stdpp Require Import base gmap strings list.
From Stdlib Require Import Lia ZArith.
From S2P Require Import Prelude GoStrings GoJson GoTypes GoProtocol GoHandshake GoRegistry GoServer.
Local Open Scope res_scope.

(** * The table of connected masters *)
Section Table.
Context {C : Type}.
Implicit Types (conns : gmap string C).
Definition registerMasterConn (id : string) (mc : C) conns : gmap string C :=
  if str_empty id then conns else <[id := mc]> conns.
Definition unregisterMasterConn (id : string) conns : gmap string C :=
  if str_empty id then conns else delete id conns.
End Table.

Inductive TargetScope := TargetAnyMaster | TargetMasterByNode | OtherScope (n : Z).
Record TargetRequest := mkTargetRequest { tr_ClusterID : string; tr_NodeID : string; tr_Scope : TargetScope }.

Section Dispatch.
Context {D : Type} `{ClusterDB D} {C : Type}.
Context (conns : gmap string C) (sendRequest : C -> Packet -> result Packet).
Context (Marshal : OrchestratorCommand -> result string) (UnmarshalReply : json -> result CommandReply).
Context (fresh_id : string).

Definition sendCommandWait (masterID : string) (cmd : OrchestratorCommand) : result CommandReply :=
  if str_empty masterID then Err "master id is empty"
  else match conns !! masterID with
       | None => Err "master not connected"
       | Some mc =>
           let? packet := NewPacket Marshal PacketOrchCommand (Some cmd) in
           let packet := if str_empty (pk_ID packet) then set_string FID fresh_id packet else packet in
           let? respPacket := sendRequest mc packet in
           if negb (str_eqb (pk_Type respPacket) PacketOrchCommandReply) then Err "unexpected reply type"
           else if negb (str_eqb (pk_ReplyTo respPacket) (pk_ID packet)) then Err "reply id mismatch"
           else match DecodePayload UnmarshalReply respPacket with
                | Ok reply => Ok reply
                | Err _ => Err "invalid reply payload"
                end
       end.

Definition SendCommandWait (masterID nodeID : string) (command : RawMessage) : result CommandReply :=
  if str_empty nodeID then Err "node id is empty"
  else sendCommandWait masterID (mkOrchestratorCommand nodeID command).
Definition SendMasterCommandWait (masterID : string) (command : RawMessage) : result CommandReply :=
  sendCommandWait masterID (mkOrchestratorCommand "" command).

(** The connection and the line that is handed to its writer; nobody waits for an answer,
    and the packet carries no id. *)
Definition SendCommand (masterID nodeID : string) (command : RawMessage) : result (C * string) :=
  if str_empty masterID then Err "master id is empty"
  else if str_empty nodeID then Err "node id is empty"
  else match conns !! masterID with
       | None => Err "master not connected"
       | Some mc =>
           let? packet := NewPacket Marshal PacketOrchCommand (Some (mkOrchestratorCommand nodeID command)) in
           Ok (mc, mustJSON packet)
       end.

(** The loop over the masters of the cluster: the first one that fits is asked, and its
    answer, good or bad, is the result. *)
Fixpoint ask_first (req : TargetRequest) (command : RawMessage) (masters : list StoredMaster)
  : option (result (string * CommandReply)) :=
  match masters with
  | [] => None
  | master :: masters' =>
      let ask :=
        Some (let? reply := sendCommandWait (sm_ID master) (mkOrchestratorCommand (tr_NodeID req) command) in
              Ok (sm_ID master, reply)) in
      if str_empty (sm_ID master) then ask_first req command masters'
      else match tr_Scope req with
           | TargetMasterByNode =>
               if str_empty (tr_NodeID req) || negb (MasterHasNode master (tr_NodeID req))
               then ask_first req command masters' else ask
           | TargetAnyMaster => ask
           | OtherScope _ => Some (Err "unknown target scope")
           end
  end.
Definition SendClusterCommandWait (now : Z) (store : option (Store D)) (order : list (string * StoredMaster))
  (req : TargetRequest) (command : RawMessage) : result (string * CommandReply) :=
  match store with
  | None => Err "nil store"
  | Some s =>
      let req := mkTargetRequest (TrimSpace (tr_ClusterID req)) (TrimSpace (tr_NodeID req)) (tr_Scope req) in
      if str_empty (tr_ClusterID req) then Err "cluster id is empty"
      else
        match MastersForCluster now s order (tr_ClusterID req) with
        | [] => Err "master not connected"
        | masters =>
            match ask_first req command masters with
            | Some r => r
            | None =>
                match tr_Scope req with
                | TargetMasterByNode => Err "node not connected through any master"
                | _ => Err "no eligible master connected"
                end
            end
        end
  end.

(** * Lemmas *)
(** Whether the loop stops at a master. *)
Definition eligible (req : TargetRequest) (m : StoredMaster) : bool :=
  negb (str_empty (sm_ID m))
  && match tr_Scope req with
     | TargetMasterByNode => negb (str_empty (tr_NodeID req)) && MasterHasNode m (tr_NodeID req)
     | _ => true
     end.
Lemma ask_first_find req command ms :
  ask_first req command ms =
  match List.find (eligible req) ms with
  | None => None
  | Some m =>
      Some (match tr_Scope req with
            | OtherScope _ => Err "unknown target scope"
            | _ => let? reply := sendCommandWait (sm_ID m) (mkOrchestratorCommand (tr_NodeID req) command) in
                   Ok (sm_ID m, reply)
            end)
  end.
Proof.
  induction ms as [|m ms IH]; [done|]. cbn [ask_first List.find]. unfold eligible at 1.
  destruct (str_empty (sm_ID m)); cbn [negb andb]; [done|].
  destruct (tr_Scope req) eqn:E; [done| |done].
  destruct (str_empty (tr_NodeID req)); cbn [orb negb andb]; [done|].
  by destruct (MasterHasNode m (tr_NodeID req)).
Qed.

(** The text of the error when no master fits. *)
Definition no_master (sc : TargetScope) (masters : list StoredMaster) : string :=
  match masters, sc with
  | [], _ => "master not connected"
  | _, TargetMasterByNode => "node not connected through any master"
  | _, _ => "no eligible master connected"
  end.
Lemma SendClusterCommandWait_find now s order req command :
  let req' := mkTargetRequest (TrimSpace (tr_ClusterID req)) (TrimSpace (tr_NodeID req)) (tr_Scope req) in
  let masters := MastersForCluster now s order (tr_ClusterID req') in
  tr_ClusterID req' <> "" ->
  SendClusterCommandWait now (Some s) order req command =
  match List.find (eligible req') masters with
  | None => Err (no_master (tr_Scope req) masters)
  | Some m =>
      match tr_Scope req with
      | OtherScope _ => Err "unknown target scope"
      | _ => let? reply := sendCommandWait (sm_ID m) (mkOrchestratorCommand (tr_NodeID req') command) in
             Ok (sm_ID m, reply)
      end
  end.
Proof.
  intros req' masters Hc. unfold SendClusterCommandWait. fold req' masters.
  destruct (str_empty_spec (tr_ClusterID req')) as [E|_]; [done|].
  destruct masters as [|m ms]; [done|]. rewrite ask_first_find.
  destruct (List.find (eligible req') (m :: ms)); [done|]. by destruct (tr_Scope req).
Qed.

(** The reply that is handed on answers the packet that was sent. *)
Lemma sendCommandWait_ok masterID cmd reply : sendCommandWait masterID cmd = Ok reply ->
  exists mc raw resp, conns !! masterID = Some mc /\ Marshal cmd = Ok raw
    /\ sendRequest mc (mkPacket PacketOrchCommand fresh_id "" "" raw) = Ok resp
    /\ pk_ReplyTo resp = fresh_id /\ pk_Type resp = PacketOrchCommandReply
    /\ DecodePayload UnmarshalReply resp = Ok reply.
Proof.
  unfold sendCommandWait. destruct (str_empty masterID); [done|].
  destruct (conns !! masterID) as [mc|]; [|done]. unfold NewPacket.
  change (str_empty (TrimSpace PacketOrchCommand)) with false. cbv iota.
  destruct (Marshal cmd) as [raw|]; [|done]. cbn [res_bind pk_ID].
  change (str_empty "") with true. cbn [set_string].
  destruct (sendRequest mc _) as [resp|] eqn:Es; [|done]. cbn [res_bind pk_ID].
  destruct (str_eqb_spec (pk_Type resp) PacketOrchCommandReply) as [Ht|]; [|done].
  destruct (str_eqb_spec (pk_ReplyTo resp) fresh_id) as [Hr|]; [|done]. cbn [negb].
  destruct (DecodePayload UnmarshalReply resp) as [rep|] eqn:Ed; [|done]. intros [= <-].
  by exists mc, raw, resp.
Qed.

(** With a connection, the result is the checks on the reply. *)
Lemma sendCommandWait_conn masterID cmd mc raw :
  masterID <> "" -> conns !! masterID = Some mc -> Marshal cmd = Ok raw ->
  match sendRequest mc (mkPacket PacketOrchCommand fresh_id "" "" raw) with
  | Err e => sendCommandWait masterID cmd = Err e
  | Ok resp =>
      if negb (bool_decide (pk_Type resp = PacketOrchCommandReply)) then sendCommandWait masterID cmd = Err "unexpected reply type"
      else if negb (bool_decide (pk_ReplyTo resp = fresh_id)) then sendCommandWait masterID cmd = Err "reply id mismatch"
      else match DecodePayload UnmarshalReply resp with
           | Err _ => sendCommandWait masterID cmd = Err "invalid reply payload"
           | Ok reply => sendCommandWait masterID cmd = Ok reply
           end
  end.
Proof.
  intros Hne Hc Hm. unfold sendCommandWait. destruct (str_empty_spec masterID) as [|_]; [done|].
  rewrite Hc. unfold NewPacket. change (str_empty (TrimSpace PacketOrchCommand)) with false. cbv iota.
  rewrite Hm. cbn [res_bind pk_ID]. change (str_empty "") with true. cbn [set_string].
  destruct (sendRequest mc _) as [resp|]; [|done]. cbn [res_bind pk_ID].
  destruct (str_eqb_spec (pk_Type resp) PacketOrchCommandReply) as [Ht|Ht];
    [rewrite bool_decide_eq_true_2 by done|by rewrite bool_decide_eq_false_2 by done].
  destruct (str_eqb_spec (pk_ReplyTo resp) fresh_id) as [Hr|Hr];
    [rewrite bool_decide_eq_true_2 by done|by rewrite bool_decide_eq_false_2 by done].
  cbn [negb]. by destruct (DecodePayload UnmarshalReply resp).
Qed.
Lemma eligible_id req m : eligible req m = true -> sm_ID m <> "".
Proof. unfold eligible. by destruct (str_empty_spec (sm_ID m)). Qed.
Lemma eligible_by_node req m : eligible req m = true -> tr_Scope req = TargetMasterByNode ->
  tr_NodeID req <> "" /\ MasterHasNode m (tr_NodeID req) = true.
Proof.
  unfold eligible. intros [_ Hn]%andb_true_iff E. rewrite E in Hn. apply andb_true_iff in Hn as [Hn ?].
  by destruct (str_empty_spec (tr_NodeID req)).
Qed.

(** * Properties *)
(** C16: a command for a cluster is answered only by a master that is stored and live in that cluster, that has the node when a node is meant, that is connected, and whose connection was asked exactly this command in a packet with a fresh id; the answer is what the payload of the reply says, and that reply is of the type of command replies and names the id of that very packet; a reply of another type, to another packet or with another payload is an error, and so is a request that fails; and it is the first such master that is asked: its error is the result and no other one is tried. *)
Theorem command_reaches_its_master now s order req command :
  enumerates order (mastersByID s) ->
  let cluster := TrimSpace (tr_ClusterID req) in
  let node := TrimSpace (tr_NodeID req) in
  let req' := mkTargetRequest cluster node (tr_Scope req) in
  let answer := SendClusterCommandWait now (Some s) order req command in
  (forall id reply, answer = Ok (id, reply) ->
    exists m k mc raw resp, mastersByID s !! k = Some m /\ sm_ID m = id /\ sm_Cluster m = cluster
      /\ (time_Sub now (sm_LastSeen m) <= st_ttl s)%Z
      /\ (tr_Scope req = TargetMasterByNode -> node <> "" /\ MasterHasNode m node = true)
      /\ List.find (eligible req') (MastersForCluster now s order cluster) = Some m
      /\ conns !! id = Some mc /\ Marshal (mkOrchestratorCommand node command) = Ok raw
      /\ sendRequest mc (mkPacket PacketOrchCommand fresh_id "" "" raw) = Ok resp
      /\ pk_Type resp = PacketOrchCommandReply /\ pk_ReplyTo resp = fresh_id
      /\ DecodePayload UnmarshalReply resp = Ok reply)
  /\ (forall m mc raw, cluster <> "" -> (forall n, tr_Scope req <> OtherScope n) ->
      List.find (eligible req') (MastersForCluster now s order cluster) = Some m ->
      conns !! sm_ID m = Some mc -> Marshal (mkOrchestratorCommand node command) = Ok raw ->
      match sendRequest mc (mkPacket PacketOrchCommand fresh_id "" "" raw) with
      | Err e => answer = Err e
      | Ok resp =>
          if negb (bool_decide (pk_Type resp = PacketOrchCommandReply)) then answer = Err "unexpected reply type"
          else if negb (bool_decide (pk_ReplyTo resp = fresh_id)) then answer = Err "reply id mismatch"
          else match DecodePayload UnmarshalReply resp with
               | Err _ => answer = Err "invalid reply payload"
               | Ok reply => answer = Ok (sm_ID m, reply)
               end
      end).
Proof.
  intros Ho cluster node req' answer. destruct (str_empty_spec cluster) as [E|Hc].
  { unfold answer, SendClusterCommandWait. fold cluster node. rewrite E.
    split; [intros ? ? [=]|]. intros m mc raw Hc. by destruct Hc. }
  unfold answer. rewrite (SendClusterCommandWait_find now s order req command Hc). fold cluster node req'.
  pose proof (fun m => MastersForCluster_spec now s order cluster m Ho) as Hm.
  change (tr_ClusterID req') with cluster. change (tr_NodeID req') with node.
  set (masters := MastersForCluster now s order cluster) in *.
  split.
  - intros id reply. destruct (List.find (eligible req') masters) as [m|] eqn:Ef; [|done].
    pose proof Ef as [Hin%list_elem_of_In He]%List.find_some. apply Hm in Hin as (_ & Hcl & Hlive & k & Hk).
    intros Hr. assert (sendCommandWait (sm_ID m) (mkOrchestratorCommand node command) = Ok reply /\ sm_ID m = id)
      as [(mc & raw & resp & Hs)%sendCommandWait_ok <-].
    { destruct (tr_Scope req); [| |done];
        (destruct (sendCommandWait _ _) as [rep|]; [|done]; cbn in Hr; by injection Hr as <- <-). }
    exists m, k, mc, raw, resp. destruct Hs as (H1 & H2 & H3 & H4 & H5 & H6). split_and!; try done.
    all: intros Hsc; apply (eligible_by_node req' m He Hsc).
  - intros m mc raw _ Hsc Ef Hconn Hraw. rewrite Ef.
    assert (sm_ID m <> "") as Hid by (by apply List.find_some in Ef as [_ He%eligible_id]).
    pose proof (sendCommandWait_conn (sm_ID m) (mkOrchestratorCommand node command) mc raw Hid Hconn Hraw) as Hw.
    destruct (tr_Scope req) as [| |n]; [| |by destruct (Hsc n)];
      (destruct (sendRequest mc _) as [resp|]; [|by rewrite Hw]; repeat case_match; by rewrite Hw).
Qed.
End Dispatch.

(** * Examples *)
Section Examples.
Import MemDB.
(** A master that answers every request with the same reply. *)
Definition ex_conns : gmap string unit := {["b" := tt]}.
Definition ex_send (_ : unit) (p : Packet) : result Packet :=
  Ok (mkPacket PacketOrchCommandReply "" (pk_ID p) "" "{}").
Definition ex_marshal (c : OrchestratorCommand) : result string := Ok "{}".
Definition ex_reply (_ : json) : result CommandReply := Ok (mkCommandReply "n1" "ok" "" "").
Definition ex_req : TargetRequest := mkTargetRequest " west " "n1 " TargetMasterByNode.

Lemma command_reaches_its_master_witness :
  SendClusterCommandWait ex_conns ex_send ex_marshal ex_reply "id1" (80 * Second) (Some ex_store) ex_order ex_req "{}"
    = Ok ("b", mkCommandReply "n1" "ok" "" "")
  /\ exists m k, mastersByID ex_store !! k = Some m /\ sm_ID m = "b" /\ MasterHasNode m "n1" = true.
Proof.
  assert (SendClusterCommandWait ex_conns ex_send ex_marshal ex_reply "id1" (80 * Second) (Some ex_store) ex_order ex_req "{}"
    = Ok ("b", mkCommandReply "n1" "ok" "" "")) as Hr by (vm_compute; reflexivity).
  split; [exact Hr|].
  destruct (command_reaches_its_master ex_conns ex_send ex_marshal ex_reply "id1" (80 * Second) ex_store ex_order ex_req "{}"
    (enumerates_map_to_list (mastersByID ex_store))) as [Ht _].
  destruct (Ht _ _ Hr) as (m & k & mc & raw & resp & Hk & Hid & _ & _ & Hn & _).
  exists m, k. split_and!; [exact Hk|exact Hid|exact (proj2 (Hn eq_refl))].
Defined.
End Examples.
