(* ===== verification/GoCommands.v ===== *)
(** Commands at their destination: the loop of a master over what the orchestrator sends
    ([master/orchestrator_client.go]), and the handlers of a slave ([slave/handlers]).

    What libvirt and docker do for an action ([host]), the hardware readings and what a
    connected node answers to a request are parameters. *)
From stdpp Require Import base gmap strings list.
From Stdlib Require Import Lia ZArith Ascii.
From S2P Require Import Prelude GoStrings GoJson GoTypes GoProtocol GoHandshake GoRegistry GoStruct GoWire GoServer GoDispatch.
Local Open Scope res_scope.
Local Open Scope conn_scope.

(** [json.Marshal] of a [json.RawMessage]. *)
Definition MarshalRaw (raw : RawMessage) : result string :=
  let? t := marshal_raw raw in Ok (default "null" t).
(** * slave/handlers *)
Section Slave.
Context (host : string -> NodeCommand -> result RawMessage).
Context (heartbeat : result string).

Definition command_actions : list string :=
  ["docker.containers.list"; "docker.images.list"; "docker.image.pull"; "docker.image.remove";
   "docker.container.create"; "docker.container.start"; "docker.container.stop";
   "docker.container.restart"; "docker.container.remove"; "libvirt.domains.list";
   "libvirt.storage.pools.list"; "libvirt.networks.list"; "libvirt.domain.create";
   "libvirt.domain.start"; "libvirt.domain.shutdown"; "libvirt.domain.reboot";
   "libvirt.domain.destroy"; "libvirt.domain.delete"; "libvirt.domain.autostart";
   "libvirt.domain.iso.attach"; "libvirt.domain.iso.detach"].
Definition handleNoop (cmd : NodeCommand) : result RawMessage := Ok "".
Definition commandHandlers (action : string) : option (NodeCommand -> result RawMessage) :=
  if str_eqb action "noop" then Some handleNoop
  else if mem_str action command_actions then Some (host action) else None.

Definition writeCommandReply (replyTo : string) (payload : CommandReply) : M (result unit) :=
  match NewReply Marshal PacketNodeCommandReply replyTo (Some payload) with
  | Err e => ret (Err e)
  | Ok reply => write_packet reply
  end.
(** What the reply says: the result of the handler of the action. *)
Definition command_result (packet : Packet) : CommandReply :=
  match DecodePayload (Unmarshal (A := NodeCommand)) packet with
  | Err _ => mkCommandReply "" "error" "invalid command" ""
  | Ok cmd =>
      match commandHandlers (TrimSpace (nc_Action cmd)) with
      | None => mkCommandReply "" "error" "unknown action" ""
      | Some handler =>
          match handler cmd with
          | Err e => mkCommandReply "" "error" e ""
          | Ok output => mkCommandReply "" "ok" "" output
          end
      end
  end.
Definition handleNodeCommand (packet : Packet) : M (result unit) :=
  writeCommandReply (pk_ID packet) (command_result packet).

Definition handleHeartbeat (packet : Packet) : M (result unit) :=
  match NewReply (fun r => r) PacketHeartbeatReply (pk_ID packet) (Some heartbeat) with
  | Err e => ret (Err e)
  | Ok reply => write_packet reply
  end.
Definition PacketHandlers (ty : string) : option (Packet -> M (result unit)) :=
  if str_eqb ty PacketHeartbeat then Some handleHeartbeat
  else if str_eqb ty PacketNodeCommand then Some handleNodeCommand
  else None.
(** One round of the loop of [Connect]. *)
Definition slave_turn : M unit :=
  let! r := read_packet in
  let! packet := orelse_stop r in
  match PacketHandlers (pk_Type packet) with
  | None => ret tt
  | Some handler => let! e := handler packet in orelse_stop e
  end.
End Slave.

(** * master: the connected nodes and the packets of the orchestrator *)
Section Master.
Context {N : Type} (nodes : gmap string N) (sendRequest : N -> Packet -> result Packet).
(** The ids of the table, in the order the map gives them. *)
Context (listConnectedNodeIDs : list string).

Definition sendCommandToNodeWait (id : string) (payload : Packet) : result Packet :=
  if str_empty id then Err "node id is empty"
  else match nodes !! id with
       | None => Err "node not connected"
       | Some n => sendRequest n payload
       end.

(** What the list says of one node. *)
Definition vm_list_node (cmdPacket : Packet) (nodeID : string) : VMListNode :=
  let failed msg := mkVMListNode nodeID [] msg in
  match sendCommandToNodeWait nodeID cmdPacket with
  | Err e => failed e
  | Ok respPacket =>
      if negb (str_eqb (pk_Type respPacket) PacketNodeCommandReply) then failed "unexpected reply type"
      else match DecodePayload (Unmarshal (A := CommandReply)) respPacket with
           | Err _ => failed "invalid reply payload"
           | Ok reply =>
               if negb (str_eqb (cr_Status reply) "ok") then failed (cr_Message reply)
               else match UnmarshalText (cslice (wire VMDomain)) (cr_Output reply) with
                    | Err _ => failed "invalid domain list"
                    | Ok items => mkVMListNode nodeID items ""
                    end
           end
  end.
Fixpoint vm_list (command : RawMessage) (ids : list string) : result (list VMListNode) :=
  match ids with
  | [] => Ok []
  | nodeID :: ids' =>
      if str_empty (TrimSpace nodeID) then vm_list command ids'
      else
        let? cmdPacket := NewPacket MarshalRaw PacketNodeCommand (Some command) in
        let? rest := vm_list command ids' in
        Ok (vm_list_node cmdPacket nodeID :: rest)
  end.
Definition handleMasterCommand (command : RawMessage) : CommandReply :=
  let failed msg := mkCommandReply "" "error" msg "" in
  match UnmarshalText (wire NodeCommand) command with
  | Err _ => failed "invalid command"
  | Ok cmd =>
      if str_eqb (nc_Action cmd) "libvirt.domains.list" then
        match vm_list command listConnectedNodeIDs with
        | Err _ => failed "invalid command packet"
        | Ok results =>
            match Marshal (mkVMListAggregate results) with
            | Err _ => failed "failed to encode domain list"
            | Ok payload => mkCommandReply "" "ok" "" payload
            end
        end
      else failed "node id required"
  end.

(** What the orchestrator is told about a command for a node. *)
Definition node_answer (nodeID : string) (resp : result Packet) : CommandReply :=
  let failed msg := mkCommandReply nodeID "error" msg "" in
  match resp with
  | Err e => failed e
  | Ok respPacket =>
      if negb (str_eqb (pk_Type respPacket) PacketNodeCommandReply) then failed "unexpected reply type"
      else match DecodePayload (Unmarshal (A := CommandReply)) respPacket with
           | Err _ => failed "invalid reply payload"
           | Ok reply => mkCommandReply nodeID (cr_Status reply) (cr_Message reply) (cr_Output reply)
           end
  end.
(** What a packet of the orchestrator leads to: it is handed over on [respCh], there is
    nothing to do, or a reply is written. *)
Inductive turn := TDeliver (packet : Packet) | TSkip | TReply (reply : Packet).
(** [reply, _ := NewReply(...)]: the zero packet, which is not written, on an error. *)
Definition reply_orchestrator (replyTo : string) (payload : CommandReply) : turn :=
  TReply match NewReply Marshal PacketOrchCommandReply replyTo (Some payload) with
         | Ok p => p
         | Err _ => zero_packet
         end.
Definition orchestrator_packet (packet : Packet) : turn :=
  if str_eqb (pk_Type packet) PacketAuthOK || str_eqb (pk_Type packet) PacketError then TDeliver packet
  else if negb (str_eqb (pk_Type packet) PacketOrchCommand) then TSkip
  else match DecodePayload (Unmarshal (A := OrchestratorCommand)) packet with
       | Err _ => TSkip
       | Ok cmd =>
           if str_empty (oc_Command cmd) then TSkip
           else if str_empty (oc_NodeID cmd) then
             reply_orchestrator (pk_ID packet) (handleMasterCommand (oc_Command cmd))
           else match NewPacket MarshalRaw PacketNodeCommand (Some (oc_Command cmd)) with
                | Err _ => TSkip
                | Ok cmdPacket =>
                    reply_orchestrator (pk_ID packet)
                      (node_answer (oc_NodeID cmd) (sendCommandToNodeWait (oc_NodeID cmd) cmdPacket))
                end
       end.
(** One round of [readOrchestratorLoop]: the packet that is sent on [respCh], if any. *)
Definition orchestrator_turn : M (option Packet) :=
  let! r := read_packet in
  let! packet := orelse_stop r in
  match orchestrator_packet packet with
  | TDeliver p => ret (Some p)
  | TSkip => ret None
  | TReply reply => let! _ := write_packet reply in ret None
  end.
End Master.

(** * A request over a connection that works *)
(** The first packet that is written for a packet that is sent. *)
Definition exchange {A} (handler : M A) (p : Packet) : result Packet :=
  match WritePacket (Some (mkSink [] None)) p with
  | (Ok _, Some w) =>
      fst (ReadPacket (Some (sent (c_out (snd (handler (mkConn (Some (sent w)) (mkSink [] None))))))))
  | (Err e, _) => Err e
  | (Ok _, None) => Err "nil writer"
  end.
(** [sendRequest] with nothing else under way, for an answer that takes [took] to come: it is
    handed over when it replies to the packet and comes within the time-out; otherwise the
    time runs out.  [usual] is the time-out that stands for none.  What an answer that comes
    later leads to is shown in GoSession. *)
Definition timed_out : string := "timeout waiting for reply".
Definition request {A} (usual timeout took : Z) (NewID : string) (handler : M A) (p : Packet) : result Packet :=
  let p := if str_empty (pk_ID p) then set_string FID NewID p else p in
  match fst (WritePacket (Some (mkSink [] None)) p) with
  | Err e => Err e
  | Ok _ =>
      let timeout := if (timeout <=? 0)%Z then usual else timeout in
      match exchange handler p with
      | Ok reply =>
          if negb (str_empty (pk_ReplyTo reply)) && str_eqb (pk_ReplyTo reply) (pk_ID p) && (took <=? timeout)%Z
          then Ok reply else Err timed_out
      | Err _ => Err timed_out
      end
  end.

Lemma sendable_write p : sendable p -> exists w, WritePacket (Some (mkSink [] None)) p = (Ok tt, Some w) /\ sent w = packet_text p.
Proof.
  intros Hs. destruct (sendable_marshal p Hs) as [_ [b Hb]]. destruct Hs as (_ & Ht & _). unfold WritePacket, packet_text.
  destruct (str_empty_spec (TrimSpace (pk_Type p))) as [|_]; [done|]. rewrite Hb. by eexists.
Qed.
Lemma exchange_ok {A} (handler : M A) p q a i : sendable p -> sendable q ->
  handler (mkConn (Some (packet_text p)) (mkSink [] None)) = (a, mkConn i (mkSink (packet_text q) None)) ->
  exchange handler p = Ok q.
Proof.
  intros Hp Hq Hh. unfold exchange. pose proof (write_step p None [] Hp) as Hw.
  unfold write_packet, on_writer in Hw. cbn [c_out c_in] in Hw.
  destruct (WritePacket (Some (mkSink [] None)) p) as [e [w|]]; injection Hw as -> Hw; [|].
  - cbn [default] in Hw. subst w. cbn [sent app]. rewrite Hh. cbn [snd c_out sent].
    pose proof (read_step q [] (mkSink [] None) Hq) as Hr. unfold read_packet, on_reader in Hr.
    cbn [c_in c_out] in Hr. rewrite app_nil_r in Hr.
    destruct (ReadPacket (Some (packet_text q))) as [r s]. by injection Hr as -> _.
  - revert Hw. unfold packet_text.
    destruct (sendable_marshal p Hp) as [_ [b ->]]. by destruct b.
Qed.

(** A reply, and the packet of a command, around the text of a wire type. *)
Definition reply_packet (ty id t : string) : Packet := mkPacket ty "" id "" t.
Definition request_packet (ty id t : string) : Packet := mkPacket ty id "" "" t.
Lemma NewReply_wire {A} `{WireStruct A} `{!Lawful (wire A)} ty id (a : A) : good (wire A) a ->
  utf8_str ty -> utf8_str id -> TrimSpace id = id -> TrimSpace ty <> "" ->
  exists t, NewReply Marshal ty id (Some a) = Ok (reply_packet ty id t)
    /\ sendable (reply_packet ty id t) /\ DecodePayload Unmarshal (reply_packet ty id t) = Ok (arr (wire A) a).
Proof.
  intros Ha Ht Hi Hid Hty. destruct (payload_arrives (wire A) a Ha) as (t & Hm & Hc & Hne & Hd). exists t.
  unfold NewReply, NewPacket, Marshal. destruct (str_empty_spec (TrimSpace ty)) as [|_]; [done|]. rewrite Hm.
  cbn [res_bind pk_Type pk_ID pk_Error pk_Payload]. rewrite Hid. split; [done|]. split; [|by apply Hd].
  split; [repeat split; try done; constructor|]. split; [done|by right].
Qed.
Lemma request_sendable ty id t : utf8_str ty -> TrimSpace ty <> "" -> utf8_str id -> compact t = Some t ->
  sendable (request_packet ty id t).
Proof. intros H1 H2 H3 H4. split; [|split; [done|by right]]. repeat split; try done; constructor. Qed.
(** A reply with a valid output can be sent. *)
Definition reply_ok (r : CommandReply) : Prop :=
  utf8_str (cr_NodeID r) /\ utf8_str (cr_Status r) /\ utf8_str (cr_Message r) /\ raw_ok (cr_Output r).
Lemma reply_good r : reply_ok r -> good (wire CommandReply) r.
Proof. by intros (H1 & H2 & H3 & H4). Qed.
Lemma command_good n c t : utf8_str n -> compact c = Some t ->
  good (wire OrchestratorCommand) (mkOrchestratorCommand n c).
Proof. intros Hn Hc. split; [done|]. split; [right; by exists t|done]. Qed.
(** What a reply has become when it arrives. *)
Definition relay_reply (r : CommandReply) : CommandReply :=
  mkCommandReply (cr_NodeID r) (cr_Status r) (cr_Message r) (relay_raw true (cr_Output r)).
Lemma arr_reply r : arr (wire CommandReply) r = relay_reply r.
Proof. destruct r. apply arr_CommandReply. Qed.

(** A slave answers a command with the result of its handler. *)
Lemma slave_answers host hb id t : utf8_str id -> TrimSpace id = id -> id <> "" -> compact t = Some t ->
  let p := request_packet PacketNodeCommand id t in
  let r := command_result host p in
  reply_ok r ->
  exists q, exchange (slave_turn host hb) p = Ok q /\ pk_Type q = PacketNodeCommandReply /\ pk_ReplyTo q = id
    /\ DecodePayload Unmarshal q = Ok (relay_reply r).
Proof.
  intros Hu Hid Hne Hc p r Hr.
  assert (sendable p) as Hp by (apply request_sendable; [utf8_name|done..]).
  destruct (NewReply_wire PacketNodeCommandReply id r (reply_good _ Hr) ltac:(utf8_name) Hu Hid ltac:(done))
    as (tr & Hn & Hs & Hd). rewrite arr_reply in Hd.
  exists (reply_packet PacketNodeCommandReply id tr). split; [|done].
  apply (exchange_ok _ _ _ (Some tt) (Some [])); [done..|]. unfold slave_turn.
  erewrite bind_step by (rewrite <- (app_nil_r (packet_text p)); by apply read_step). cbn [orelse_stop].
  rewrite bind_ret. change (PacketHandlers host hb (pk_Type p)) with (Some (handleNodeCommand host)). cbv iota.
  unfold handleNodeCommand, writeCommandReply. change (pk_ID p) with id. fold r. rewrite Hn.
  erewrite bind_step by (by apply write_step). reflexivity.
Qed.

(** A master asks the node that is meant, and answers with what it said. *)
Lemma master_relays {N} (nodes : gmap string N) send ids n id nodeID command t tc :
  utf8_str id -> TrimSpace id = id -> utf8_str nodeID -> nodeID <> "" ->
  nodes !! nodeID = Some n -> compact command = Some t ->
  Marshal (mkOrchestratorCommand nodeID command) = Ok tc ->
  let ans := node_answer nodeID (send n (mkPacket PacketNodeCommand "" "" "" t)) in
  reply_ok ans ->
  exists q, exchange (orchestrator_turn nodes send ids) (request_packet PacketOrchCommand id tc) = Ok q
    /\ pk_Type q = PacketOrchCommandReply /\ pk_ReplyTo q = id /\ DecodePayload Unmarshal q = Ok (relay_reply ans).
Proof.
  intros Hu Hid Hn Hne Hnode Hc Hm ans Hans. set (p := request_packet PacketOrchCommand id tc).
  destruct (payload_arrives _ _ (command_good nodeID command t Hn Hc)) as (tc' & Hm' & Hcc & _ & Hd). unfold Marshal in Hm. rewrite Hm in Hm'. injection Hm' as <-.
  assert (sendable p) as Hp by (apply request_sendable; [utf8_name|done..]).
  destruct (NewReply_wire PacketOrchCommandReply id ans (reply_good _ Hans) ltac:(utf8_name) Hu Hid ltac:(done))
    as (tr & Hr & Hs & Hdr). rewrite arr_reply in Hdr.
  exists (reply_packet PacketOrchCommandReply id tr). split; [|done].
  apply (exchange_ok _ _ _ (Some None) (Some [])); [done..|]. unfold orchestrator_turn.
  erewrite bind_step by (rewrite <- (app_nil_r (packet_text p)); by apply read_step). cbn [orelse_stop].
  rewrite bind_ret. unfold orchestrator_packet. change (pk_Type p) with PacketOrchCommand.
  change (str_eqb PacketOrchCommand PacketAuthOK || str_eqb PacketOrchCommand PacketError) with false.
  change (str_eqb PacketOrchCommand PacketOrchCommand) with true. cbn [negb]. rewrite (Hd p eq_refl : DecodePayload Unmarshal p = _).
  rewrite arr_OrchestratorCommand. cbn [oc_NodeID oc_Command]. unfold relay_raw. cbn [andb]. rewrite Hc.
  change (default "null" (Some t)) with t. pose proof (compact_not_empty _ _ Hc) as Htne.
  destruct (str_empty_spec t) as [|_]; [done|]. destruct (str_empty_spec nodeID) as [|_]; [done|].
  unfold NewPacket, MarshalRaw, marshal_raw. change (str_empty (TrimSpace PacketNodeCommand)) with false. cbv iota.
  destruct (str_empty_spec t) as [|_]; [done|]. rewrite (compact_idem _ _ Hc). cbn [res_bind].
  change (default "null" (Some t)) with t. unfold sendCommandToNodeWait.
  destruct (str_empty_spec nodeID) as [|_]; [done|]. rewrite Hnode. fold ans.
  unfold reply_orchestrator. change (pk_ID p) with id. rewrite Hr.
  erewrite bind_step by (by apply write_step). reflexivity.
Qed.

(** * The whole way of a command *)
Section Way.
(** The random bytes of the ids that the master and the orchestrator draw. *)
Context (random_o random_m : list ascii) (heartbeat : result string) (order : list string).
Abbreviation Host := (string -> NodeCommand -> result RawMessage).
(** How long the answer of the node, and that of the master, take to come. *)
Context (node_takes master_takes : Z).
Definition ask_node (host : Host) : Packet -> result Packet :=
  request (5 * Second) (10 * Second) node_takes (NewID random_m) (slave_turn host heartbeat).
Definition ask_master (timeout : Z) (nodes : gmap string Host) : Packet -> result Packet :=
  request (10 * Second) timeout master_takes (NewID random_o) (orchestrator_turn nodes ask_node order).
(** What the caller gets when the node replies with [r]: a master that takes too long is an
    error of the request, a node that takes too long an error that the master replies with. *)
Definition outcome (timeout : Z) (nodeID : string) (r : CommandReply) : result CommandReply :=
  if (timeout <? master_takes)%Z then Err timed_out
  else Ok (if (10 * Second <? node_takes)%Z then mkCommandReply nodeID "error" timed_out ""
           else mkCommandReply nodeID (cr_Status r) (cr_Message r) (relay_raw true (cr_Output r))).

Lemma NewID_good random : random <> [] ->
  utf8_str (NewID random) /\ TrimSpace (NewID random) = NewID random /\ NewID random <> "".
Proof.
  intros H. split; [apply utf8_b64|]. split; [apply TrimSpace_b64|]. intros E.
  apply EncodeToString_empty in E. by destruct random.
Qed.
Lemma request_answer {A} usual timeout took id (h : M A) p q : exchange h p = Ok q -> sendable p ->
  pk_ID p = id -> pk_ReplyTo q = id -> id <> "" -> (0 < timeout)%Z ->
  request usual timeout took id h p = if (timeout <? took)%Z then Err timed_out else Ok q.
Proof.
  intros He Hs Hp Hq Hne Ht. unfold request. rewrite Hp. destruct (str_empty_spec id) as [|_]; [done|].
  destruct (sendable_write p Hs) as (w & -> & _). cbn [fst]. rewrite (proj2 (Z.leb_gt timeout 0)) by done.
  rewrite He, Hq, Hp. destruct (str_empty_spec id) as [|_]; [done|]. rewrite str_eqb_refl. cbn [negb andb].
  rewrite Z.leb_antisym. by destruct (timeout <? took)%Z.
Qed.
Lemma request_named {A} usual timeout took id (h : M A) p : pk_ID p = "" -> id <> "" ->
  request usual timeout took id h p = request usual timeout took id h (set_string FID id p).
Proof.
  destruct p as [ty i r e y]. cbn [pk_ID]. intros -> Hne. unfold request. cbn [pk_ID set_string].
  change (str_empty "") with true. cbv iota. by destruct (str_empty_spec id) as [E|_].
Qed.

Lemma command_result_arrives (conns : gmap string (gmap string Host)) nodes host timeout masterID nodeID command t :
  (0 < timeout)%Z -> random_o <> [] -> random_m <> [] ->
  masterID <> "" -> conns !! masterID = Some nodes ->
  nodeID <> "" -> utf8_str nodeID -> nodes !! nodeID = Some host -> compact command = Some t ->
  let r := command_result host (request_packet PacketNodeCommand (NewID random_m) t) in
  reply_ok r ->
  SendCommandWait conns (ask_master timeout) Marshal Unmarshal (NewID random_o) masterID nodeID command
  = outcome timeout nodeID r.
Proof.
  intros Htime Ho Hm Hmid Hconn Hne Hn Hnode Hc r Hr.
  destruct (NewID_good _ Ho) as (Uo & To & Eo). destruct (NewID_good _ Hm) as (Um & Tm & Em).
  unfold SendCommandWait, sendCommandWait. destruct (str_empty_spec nodeID) as [|_]; [done|].
  destruct (str_empty_spec masterID) as [|_]; [done|]. rewrite Hconn. unfold NewPacket at 1.
  change (str_empty (TrimSpace PacketOrchCommand)) with false. cbv iota.
  destruct (payload_arrives _ _ (command_good nodeID command t Hn Hc)) as (tc & Htc & Htcc & _). pose proof (Htc : Marshal _ = _) as Htm. rewrite Htm. cbn [res_bind pk_ID].
  change (str_empty "") with true. cbv iota. cbn [set_string].
  (* the node *)
  destruct (slave_answers host heartbeat _ t Um Tm Em (compact_idem _ _ Hc) Hr) as (qn & Hqn & Tn & Rn & Dn).
  set (ans := if (10 * Second <? node_takes)%Z then mkCommandReply nodeID "error" timed_out ""
              else mkCommandReply nodeID (cr_Status r) (cr_Message r) (relay_raw true (cr_Output r))).
  assert (node_answer nodeID (ask_node host (mkPacket PacketNodeCommand "" "" "" t)) = ans) as Hans.
  { unfold ask_node. rewrite request_named by done. cbn [set_string].
    rewrite (request_answer _ _ _ _ _ _ _ Hqn); [|apply request_sendable; [utf8_name|done|done|by apply (compact_idem _ _ Hc)]|done..].
    unfold ans. destruct (10 * Second <? node_takes)%Z; [done|]. unfold node_answer. rewrite Tn, Dn. done. }
  (* the master *)
  destruct Hr as (H1 & H2 & H3 & H4). destruct (relay_raw_idem _ H4) as [Hi Hok].
  assert (reply_ok ans /\ relay_reply ans = ans) as [Hansok Hidem].
  { unfold ans. destruct (10 * Second <? node_takes)%Z; [|by unfold relay_reply; cbn; rewrite Hi].
    split; [|done]. repeat split; try done; try utf8_name. by left. }
  destruct (master_relays nodes ask_node order host (NewID random_o) nodeID command t tc Uo To Hn Hne Hnode Hc Htc)
    as (q & Hq & Tq & Rq & Dq); [by rewrite Hans|]. rewrite Hans, Hidem in Dq.
  change (mkPacket PacketOrchCommand (NewID random_o) "" "" tc) with
    (request_packet PacketOrchCommand (NewID random_o) tc).
  unfold ask_master. rewrite (request_answer _ _ _ (NewID random_o) _ _ q Hq);
    [|apply request_sendable; [utf8_name|done..]|done..].
  unfold outcome. destruct (timeout <? master_takes)%Z; [done|]. cbn [res_bind].
  rewrite Tq, Rq. change (str_eqb PacketOrchCommandReply PacketOrchCommandReply) with true. cbn [negb pk_ID].
  rewrite str_eqb_refl. cbn [negb]. by rewrite Dq.
Qed.

(** What the handlers make of a command, case by case. *)
Lemma command_result_cases (host : Host) id command t cmd (P : CommandReply -> Prop) :
  compact command = Some t -> UnmarshalText (wire NodeCommand) t = Ok cmd ->
  (let r := command_result host (request_packet PacketNodeCommand id t) in reply_ok r -> P r) ->
  match commandHandlers host (TrimSpace (nc_Action cmd)) with
  | None => P (mkCommandReply "" "error" "unknown action" "")
  | Some handler =>
      match handler cmd with
      | Err e => utf8_str e -> P (mkCommandReply "" "error" e "")
      | Ok output => raw_ok output -> P (mkCommandReply "" "ok" "" output)
      end
  end.
Proof.
  intros Hc Hcmd H. cbv zeta in H. unfold command_result in H.
  assert (DecodePayload Unmarshal (request_packet PacketNodeCommand id t) = Ok cmd) as Hd.
  { unfold DecodePayload, request_packet. cbn [pk_Payload]. pose proof (compact_not_empty _ _ Hc).
    destruct (str_empty_spec t) as [|_]; [done|]. unfold UnmarshalText in Hcmd. by destruct (parse t). }
  rewrite Hd in H. destruct (commandHandlers host (TrimSpace (nc_Action cmd))) as [handler|].
  - destruct (handler cmd) as [output|e]; intros Hout; apply H; repeat split; try done; try utf8_name; by left.
  - apply H. repeat split; try utf8_name. by left.
Qed.

(** A command the orchestrator sends to a node through its master is carried out there and the caller gets what the handler returned, unless the node or the master takes too long to answer ([outcome]): the id of the node, the status, and the output in compact form or the error text, whatever the way the JSON of the command was written; an action that no handler is known for is answered as such. *)
Theorem command_carried_out (conns : gmap string (gmap string Host)) nodes host timeout masterID nodeID command t cmd :
  (0 < timeout)%Z -> random_o <> [] -> random_m <> [] ->
  masterID <> "" -> conns !! masterID = Some nodes ->
  nodeID <> "" -> utf8_str nodeID -> nodes !! nodeID = Some host ->
  compact command = Some t -> UnmarshalText (wire NodeCommand) t = Ok cmd ->
  let answer := SendCommandWait conns (ask_master timeout) Marshal Unmarshal (NewID random_o) masterID nodeID command in
  match commandHandlers host (TrimSpace (nc_Action cmd)) with
  | None => answer = outcome timeout nodeID (mkCommandReply "" "error" "unknown action" "")
  | Some handler =>
      match handler cmd with
      | Err e => utf8_str e -> answer = outcome timeout nodeID (mkCommandReply "" "error" e "")
      | Ok output => raw_ok output -> answer = outcome timeout nodeID (mkCommandReply "" "ok" "" output)
      end
  end.
Proof.
  intros Htime Ho Hm Hmid Hconn Hne Hn Hnode Hc Hcmd answer.
  apply (command_result_cases host (NewID random_m) command t cmd (fun r => answer = outcome timeout nodeID r) Hc Hcmd).
  by apply (command_result_arrives conns nodes).
Qed.
End Way.

(** * The list of all virtual machines *)
Lemma aggregate_sendable (a : VMListAggregate) : exists t, Marshal a = Ok t /\ compact t = Some t.
Proof.
  destruct (total (c := wire VMListAggregate) a) as (t & Ht & Htok). exists (of_bytes t).
  unfold Marshal, MarshalAs. rewrite Ht. split; [done|]. by apply token_settled.
Qed.

(** C29: The list of all virtual machines is always answered, with a text that can be sent on, and it has one entry for every connected node with a name, in order, made of that node's answer alone: a node that does not answer, or answers something else, shows up with its error and hides no other. *)
Theorem vm_list_answers {N} (nodes : gmap string N) send ids command cmd :
  UnmarshalText (wire NodeCommand) command = Ok cmd -> nc_Action cmd = "libvirt.domains.list" ->
  exists t results payload,
    compact command = Some t
    /\ handleMasterCommand nodes send ids command = mkCommandReply "" "ok" "" payload
    /\ compact payload = Some payload
    /\ Marshal (mkVMListAggregate results) = Ok payload
    /\ results = map (vm_list_node nodes send (mkPacket PacketNodeCommand "" "" "" t))
        (filter (fun id => TrimSpace id <> "") ids)
    /\ forall id e, id ∈ ids -> TrimSpace id <> "" ->
        (forall p, sendCommandToNodeWait nodes send id p = Err e) -> mkVMListNode id [] e ∈ results.
Proof.
  intros Hu Ha. unfold handleMasterCommand. rewrite Hu, Ha. change (str_eqb _ _) with true. cbv iota.
  assert (exists t, compact command = Some t) as [t Ht].
  { unfold UnmarshalText in Hu. unfold compact. destruct (parse command); [by eexists|done]. }
  pose proof (compact_not_empty _ _ Ht) as Hne. assert (command <> "") as Hce by (by intros ->).
  set (p := mkPacket PacketNodeCommand "" "" "" t).
  assert (vm_list nodes send command ids = Ok (map (vm_list_node nodes send p)
    (filter (fun id => TrimSpace id <> "") ids))) as Hl.
  { induction ids as [|id ids IH]; [done|]. cbn [vm_list]. rewrite filter_cons.
    destruct (str_empty_spec (TrimSpace id)) as [E|E].
    - rewrite decide_False by (by intros H; apply H). exact IH.
    - rewrite decide_True by done. unfold NewPacket, MarshalRaw, marshal_raw.
      change (str_empty (TrimSpace PacketNodeCommand)) with false. cbv iota.
      destruct (str_empty_spec command) as [|_]; [done|]. rewrite Ht. cbn [res_bind].
      rewrite IH. done. }
  rewrite Hl. destruct (aggregate_sendable (mkVMListAggregate (map (vm_list_node nodes send p)
    (filter (fun id => TrimSpace id <> "") ids)))) as (payload & Hp & Hc).
  eexists t, _, payload. rewrite Hp. split; [done|]. split; [done|]. split; [done|]. split; [exact Hp|].
  split; [done|]. intros id e Hid Hb He. apply list_elem_of_fmap. exists id. split.
  - unfold vm_list_node. by rewrite He.
  - by apply list_elem_of_filter.
Qed.

(** * Examples *)
Section Examples.
(** JSON with single quotes. *)
Definition json_text (s : string) : string :=
  of_bytes (map (fun a => if chr_eqb a "'"%char then DQ else a) (bytes_of s)).
(** A host that knows its virtual machines and nothing else. *)
Definition ex_host (action : string) (cmd : NodeCommand) : result RawMessage :=
  if str_eqb action "libvirt.domains.list"
  then Ok (json_text "[ { 'id' : 7, 'uuid' : 'u', 'name' : '<a>', 'active' : true } ]")
  else Err "no docker here".
Definition ex_nodes : gmap string (string -> NodeCommand -> result RawMessage) := {["n1" := ex_host]}.
Definition ex_list : string := json_text "{ 'action': 'libvirt.domains.list' }".

(** A command that the node takes three seconds for, and one that it takes twelve. *)
Abbreviation ex_answer node_takes := (SendCommandWait {["m1" := ex_nodes]}
  (ask_master toy_random toy_random (Ok "{}") [] (node_takes * Second) (4 * Second) (20 * Second)) Marshal Unmarshal
  (NewID toy_random) "m1" "n1" ex_list).
Lemma command_carried_out_examples :
  ex_answer 3 = Ok (mkCommandReply "n1" "ok" ""
      (relay_raw true (json_text "[ { 'id' : 7, 'uuid' : 'u', 'name' : '<a>', 'active' : true } ]")))
  /\ ex_answer 12 = Ok (mkCommandReply "n1" "error" timed_out "").
Proof. split; vm_compute; reflexivity. Qed.

Lemma vm_list_answers_witness :
  exists payload, handleMasterCommand ex_nodes (ask_node toy_random (Ok "{}") (3 * Second)) ["n1"; " "; "n2"] ex_list
      = mkCommandReply "" "ok" "" payload
    /\ payload = json_text
      "{'nodes':[{'node_id':'n1','domains':[{'id':7,'uuid':'u','name':'\u003ca\u003e','active':true}]},{'node_id':'n2','error':'node not connected'}]}".
Proof.
  destruct (vm_list_answers ex_nodes (ask_node toy_random (Ok "{}") (3 * Second)) ["n1"; " "; "n2"] ex_list
    (mkNodeCommand "libvirt.domains.list" "")) as (t & results & payload & Ht & Hh & _ & Hm & Hr & _).
  - vm_compute. reflexivity.
  - reflexivity.
  - exists payload. split; [exact Hh|]. subst results. vm_compute in Ht. injection Ht as <-. vm_compute in Hm.
    injection Hm as <-. vm_compute. reflexivity.
Defined.
End Examples.
