(* ===== verification/GoMaster.v ===== *)
(** The orchestrator's list of allowed masters ([main.go]) and the side of the master in
    its handshake with the orchestrator ([master/orchestrator_client.go]).

    The keys are arguments, as the files they are read from are not modelled; SHA-256 and
    Ed25519 are parameters. *)
From stdpp Require Import base gmap strings list.
From Stdlib Require Import Lia ZArith Ascii.
From S2P Require Import Prelude GoStrings GoJson GoTypes GoProtocol GoHandshake GoRegistry GoServer.
Local Open Scope res_scope.
Local Open Scope conn_scope.

(** * main.go: the lists of clusters and masters *)
(** [sliceToSet]: the nodes that a master allows. *)
Definition sliceToSet (l : list string) : gset string := list_to_set (filter (fun v => v <> "") l).
(** The ids of the entries of each cluster; the order of the map is a parameter. *)
Definition whitelistClusters (wl : list (string * list string)) : list string :=
  filter (fun c => c <> "") (map fst wl).
(** A nil map and an empty one are the same to all users. *)
Definition master_set (entries : list string) : option (gset string) :=
  let set := sliceToSet entries in
  if decide (set = ∅) then None else Some set.
Definition whitelistClusterMasters (wl : gmap string (list string)) : gmap string (gset string) :=
  omap master_set (delete "" wl).

(** * The master's side of the handshake *)
Section Crypto.
Context (sha256 : list ascii -> list ascii).
Context (ed_sign : list ascii -> list ascii -> list ascii).
Context (ed_verify : list ascii -> list ascii -> list ascii -> bool).

(** The part of the configuration that describes the master, and the name of the host. *)
Record master_config := mkMasterConfig {
  mc_Name : string; mc_Cluster : string; mc_Advertise : string; mc_hostname : string }.
Definition buildMasterInfo (cfg : master_config) (pubKeyBytes : list ascii) (nodeIDs : list string) : MasterInfo :=
  let name := TrimSpace (mc_Name cfg) in
  let name := if str_empty name then mc_hostname cfg else name in
  let cluster := TrimSpace (mc_Cluster cfg) in
  let cluster := if str_empty cluster then "default" else cluster in
  let id := if 0 <? length pubKeyBytes then EncodeToString (sha256 pubKeyBytes) else "" in
  mkMasterInfo id name cluster (TrimSpace (mc_Advertise cfg)) ""
    (map (fun nodeID => mkNodeInfo nodeID "" "") (filter (fun n => TrimSpace n <> "") nodeIDs)).

Definition auth_hello (cfg : master_config) (pubKeyBytes : list ascii) : AuthHello :=
  let mi := buildMasterInfo cfg pubKeyBytes [] in
  mkAuthHello (mi_ID mi) (EncodeToString pubKeyBytes) "master" (mi_Name mi) (mi_Cluster mi) (mi_Advertise mi).
(** [connectLoop] up to "orchestrator auth ok". *)
Definition connect_auth (cfg : master_config) (pubKeyBytes privKey : list ascii) : M unit :=
  let! e := on_writer (fun w => WriteHello w HeaderOrchestrator) in
  let! _ := orelse_stop e in
  let! r := read_packet in
  let! challengePacket := orelse_stop r in
  if negb (str_eqb (pk_Type challengePacket) PacketAuthChallenge) then stop
  else
    let! payload := orelse_stop (DecodePayload UnmarshalAuthChallenge challengePacket) in
    let! authPacket := orelse_stop
      (NewPacket MarshalAuthHello PacketAuthHello (Some (auth_hello cfg pubKeyBytes))) in
    let sig := ed_sign privKey (bytes_of (ac_Challenge payload)) in
    let! proofPacket := orelse_stop
      (NewPacket MarshalAuthProof PacketAuthProof (Some (mkAuthProof (EncodeToString sig)))) in
    let! e := write_packet authPacket in
    let! _ := orelse_stop e in
    let! e := write_packet proofPacket in
    let! _ := orelse_stop e in
    let! r := read_packet in
    let! authResp := orelse_stop r in
    if str_eqb (pk_Type authResp) PacketError then stop
    else if negb (str_eqb (pk_Type authResp) PacketAuthOK) then stop
    else ret tt.
End Crypto.

(** What [sendPacketAndExpectAuthOK] waits for: a packet on [respCh], or the end of the
    read loop, with its error. *)
Inductive auth_event := RespPacket (p : Packet) | ReadEnd (err : option string).
Definition expect_auth_ok (ev : auth_event) : result unit :=
  match ev with
  | RespPacket resp =>
      if str_eqb (pk_Type resp) PacketError then
        if str_empty (TrimSpace (pk_Error resp)) then Err "orchestrator replied with an error"
        else Err ("orchestrator error: " +:+ TrimSpace (pk_Error resp))
      else if negb (str_eqb (pk_Type resp) PacketAuthOK) then Err "orchestrator replied with another type"
      else Ok tt
  | ReadEnd None => Err "unexpected EOF"
  | ReadEnd (Some e) => Err e
  end.

(** [ConnectToOrchestrator]: the pause after a failure, and the next one. *)
Definition next_backoff (backoff : Z) : Z :=
  if (backoff <? 30 * Second)%Z then
    let backoff := (backoff * 2)%Z in
    if (30 * Second <? backoff)%Z then (30 * Second)%Z else backoff
  else backoff.
Fixpoint backoffs (n : nat) (backoff : Z) : list Z :=
  match n with O => [] | S n' => backoff :: backoffs n' (next_backoff backoff) end.

(** * Lemmas *)
Lemma backoffs_bounds n b : (Second <= b <= 30 * Second)%Z ->
  Forall (fun x => (Second <= x <= 30 * Second)%Z) (backoffs n b).
Proof.
  revert b. induction n as [|n IH]; intros b Hb; cbn [backoffs]; constructor; [done|]. apply IH.
  unfold next_backoff, Second in *. destruct (Z.ltb_spec b (30 * 1000000000)); [|lia].
  destruct (Z.ltb_spec (30 * 1000000000) (b * 2)); lia.
Qed.

(** The line [writeLine(mustJSON(p))] writes is the one [WritePacket] writes. *)
Lemma write_json_step p i s : sendable p ->
  write_json p (mkConn i (mkSink s None)) = (Some (Ok tt), mkConn i (mkSink (s ++ packet_text p) None)).
Proof.
  intros Hs. destruct (sendable_marshal p Hs) as [_ [b Hb]].
  unfold write_json, on_writer, WriteLine, mustJSON, packet_text. rewrite Hb. cbn [c_out c_in].
  assert (exists pl, b = object_text (packet_fields p pl)) as [pl ->].
  { unfold MarshalPacket, marshal_raw in Hb. repeat case_match; simplify_eq/=; eauto. }
  pose proof (object_trim (packet_fields p pl)) as Ht. rewrite of_bytes_app in Ht.
  change (of_bytes [NL]) with nl_str in Ht. rewrite TrimSpace_nl in Ht. rewrite Ht by done.
  destruct (str_empty_spec (of_bytes (object_text (packet_fields p pl)))) as [E|_]; [discriminate E|].
  unfold write_flush. cbn [room sent]. rewrite bytes_of_app, bytes_of_of. reflexivity.
Qed.

(** ** The whitelist *)
Lemma master_set_elem entries set id : master_set entries = Some set -> id ∈ set <-> id ∈ entries /\ id <> "".
Proof.
  unfold master_set, sliceToSet. destruct (decide _); [done|]. intros [= <-]. rewrite elem_of_list_to_set, list_elem_of_filter. tauto.
Qed.
Lemma whitelist_elem wl c id :
  (exists set, whitelistClusterMasters wl !! c = Some set /\ id ∈ set)
  <-> c <> "" /\ id <> "" /\ exists entries, wl !! c = Some entries /\ id ∈ entries.
Proof.
  unfold whitelistClusterMasters. rewrite lookup_omap. split.
  - intros (set & Hset & Hid). destruct (decide (c = "")) as [->|Hc]; [by rewrite lookup_delete_eq in Hset|].
    rewrite lookup_delete_ne in Hset by done. destruct (wl !! c) as [entries|]; [|done]. cbn in Hset.
    apply (master_set_elem _ _ id Hset) in Hid as [Hid Hne]. eauto.
  - intros (Hc & Hne & entries & He & Hid). rewrite lookup_delete_ne by done. rewrite He. cbn.
    destruct (master_set entries) as [set|] eqn:Es.
    + exists set. split; [done|]. by apply (master_set_elem _ _ id Es).
    + exfalso. unfold master_set in Es. destruct (decide _) as [E|]; [|done].
      assert (id ∈ (∅ : gset string)) as H; [|by apply not_elem_of_empty in H].
      rewrite <- E. unfold sliceToSet. apply elem_of_list_to_set, list_elem_of_filter. done.
Qed.
(** A whitelist whose entries are all blank is no whitelist. *)
Lemma blank_whitelist wl : (forall c entries, c <> "" -> wl !! c = Some entries -> Forall (fun id => id = "") entries) ->
  whitelistClusterMasters wl = ∅.
Proof.
  intros H. apply map_empty. intros c. destruct (whitelistClusterMasters wl !! c) as [set|] eqn:E; [|done]. exfalso.
  assert (set <> ∅) as Hne.
  { unfold whitelistClusterMasters in E. rewrite lookup_omap in E. destruct (delete "" wl !! c) as [es|]; [|done].
    cbn in E. unfold master_set in E. destruct (decide _) as [|Hn]; [done|]. by injection E as <-. }
  apply set_choose_L in Hne as [id Hid].
  destruct (proj1 (whitelist_elem wl c id)) as (Hc & Hid' & es & Hes & Hin); [by eauto|].
  specialize (H c es Hc Hes). rewrite Forall_forall in H. by apply Hid', H.
Qed.

(** ** An honest master *)
Section Honest.
Context (sha256 : list ascii -> list ascii) (ed_sign : list ascii -> list ascii -> list ascii).
Context (ed_verify : list ascii -> list ascii -> list ascii -> bool).
Context (cfg : master_config) (pub priv random : list ascii) (wl : gmap string (list string)).
Hypothesis (Hd : digest_law sha256) (Hk : key_pair ed_sign ed_verify pub priv) (Hr : random <> []).
Let hello := auth_hello sha256 cfg pub.
Let ch := GenerateChallenge random.
Let sig := EncodeToString (ed_sign priv (bytes_of ch)).
Hypothesis (Hh : utf8_hello hello).

Lemma honest_id : ah_ID hello = EncodeToString (sha256 pub) /\ ah_ID hello <> "".
Proof.
  assert (ah_ID hello = EncodeToString (sha256 pub)) as E.
  { unfold hello, auth_hello, buildMasterInfo. cbn [ah_ID mi_ID]. destruct Hk as (-> & _). reflexivity. }
  split; [done|]. rewrite E. by intros H%EncodeToString_empty%Hd.
Qed.
Lemma honest_cluster : ah_Cluster hello <> "".
Proof.
  unfold hello, auth_hello, buildMasterInfo. cbn [ah_Cluster mi_Cluster].
  by destruct (str_empty_spec (TrimSpace (mc_Cluster cfg))).
Qed.
Lemma honest_verified : VerifyMasterAuth sha256 ed_verify ch (mkMasterInfo (ah_ID hello) (ah_Name hello)
  (ah_Cluster hello) (ah_Advertise hello) (ah_PubKey hello) []) sig = true.
Proof.
  destruct (challenge_signed _ _ _ _ _ Hk Hr) as (_ & _ & _ & Hver).
  assert (IDFromPublicKey sha256 pub = Ok (ah_ID hello)) as Hid.
  { unfold IDFromPublicKey. destruct Hk as (-> & _). by rewrite Nat.eqb_refl, (proj1 honest_id). }
  unfold VerifyMasterAuth. cbn [mi_PubKey mi_ID]. change (ah_PubKey hello) with (EncodeToString pub).
  rewrite DecodeString_EncodeToString, (proj1 Hk). change (PublicKeySize =? PublicKeySize) with true. cbn [negb].
  by rewrite (VerifyID_of_key _ _ _ Hd Hid).
Qed.
Definition listed : Prop := whitelistClusterMasters wl = ∅
  \/ (exists entries, wl !! ah_Cluster hello = Some entries /\ ah_ID hello ∈ entries).
Lemma whitelist_step c : listed ->
  (if decide (whitelistClusterMasters wl = ∅) then ret tt
   else match whitelistClusterMasters wl !! ah_Cluster hello with
        | None => refuse "cluster not allowed"
        | Some clusterSet => demand (bool_decide (ah_ID hello ∈ clusterSet)) "master not allowed"
        end) c = (Some tt, c).
Proof.
  intros Hwl. destruct (decide _) as [|Hne]; [done|]. destruct Hwl as [|(es & Hes & Hin)]; [done|].
  destruct (proj2 (whitelist_elem wl (ah_Cluster hello) (ah_ID hello))) as (set & -> & Hset).
  { split; [apply honest_cluster|]. split; [apply honest_id|]. by exists es. }
  by rewrite bool_decide_eq_true_2.
Qed.

Lemma authenticate_honest more : listed ->
  authenticate sha256 ed_verify ch (whitelistClusterMasters wl)
    (mkConn (Some (bytes_of HeaderOrchestrator ++ NL :: packet_text (hello_packet hello)
       ++ packet_text (proof_packet sig) ++ more)) (mkSink [] None))
  = (Some (EncodeToString (sha256 pub), ah_Cluster hello),
     mkConn (Some more) (mkSink (packet_text (challenge_packet ch) ++ packet_text ok_packet) None)).
Proof.
  intros Hwl. destruct (challenge_signed _ _ _ _ _ Hk Hr) as (Hch & Hsig & _ & _). unfold authenticate.
  erewrite bind_step by (apply hello_read; [done|done|by_decide]).
  cbn [orelse_refuse]. rewrite bind_ret.
  change (NewPacket MarshalAuthChallenge PacketAuthChallenge (Some (mkAuthChallenge ch)))
    with (Ok (challenge_packet ch)). cbn [orelse_refuse]. rewrite bind_ret.
  erewrite bind_step by (by apply write_json_step, challenge_sendable).
  erewrite bind_step by (by apply read_step, hello_sendable). cbn [orelse_stop]. rewrite bind_ret.
  change (str_eqb (pk_Type (hello_packet hello)) PacketAuthHello) with true. cbn [demand]. rewrite bind_ret.
  rewrite hello_payload by done. cbn [orelse_refuse]. rewrite bind_ret.
  change (str_eqb (ah_Role hello) "master") with true. cbn [demand]. rewrite bind_ret.
  erewrite bind_step by (by apply read_step, proof_sendable). cbn [orelse_stop]. rewrite bind_ret.
  change (str_eqb (pk_Type (proof_packet sig)) PacketAuthProof) with true. cbn [demand]. rewrite bind_ret.
  rewrite proof_payload by done. cbn [orelse_refuse]. rewrite bind_ret. cbn [ap_Signature]. cbv zeta.
  rewrite honest_verified. cbn [demand]. rewrite bind_ret.
  erewrite bind_step by (by apply whitelist_step).
  erewrite bind_step by (apply write_json_step, ok_sendable). by rewrite <- (proj1 honest_id).
Qed.
Lemma connect_auth_honest more :
  connect_auth sha256 ed_sign cfg pub priv
    (mkConn (Some (packet_text (challenge_packet ch) ++ packet_text ok_packet ++ more)) (mkSink [] None))
  = (Some tt, mkConn (Some more) (mkSink (bytes_of HeaderOrchestrator ++ NL :: packet_text (hello_packet hello)
       ++ packet_text (proof_packet sig)) None)).
Proof.
  destruct (challenge_signed _ _ _ _ _ Hk Hr) as (Hch & Hsig & _ & _). unfold connect_auth.
  erewrite bind_step by (by apply hello_write). cbn [orelse_stop]. rewrite bind_ret.
  erewrite bind_step by (by apply read_step, challenge_sendable). cbn [orelse_stop]. rewrite bind_ret.
  change (str_eqb (pk_Type (challenge_packet ch)) PacketAuthChallenge) with true. cbn [negb].
  rewrite challenge_payload by done. cbn [orelse_stop]. rewrite bind_ret. cbn [ac_Challenge].
  change (NewPacket MarshalAuthHello PacketAuthHello (Some (auth_hello sha256 cfg pub)))
    with (Ok (hello_packet hello)). cbn [orelse_stop]. rewrite bind_ret. cbv zeta. fold sig.
  change (NewPacket MarshalAuthProof PacketAuthProof (Some (mkAuthProof sig))) with (Ok (proof_packet sig)).
  cbn [orelse_stop]. rewrite bind_ret.
  erewrite bind_step by (by apply write_step, hello_sendable). cbn [orelse_stop]. rewrite bind_ret.
  erewrite bind_step by (by apply write_step, proof_sendable). cbn [orelse_stop]. rewrite bind_ret.
  erewrite bind_step by (apply read_step, ok_sendable). cbn [orelse_stop]. rewrite bind_ret.
  change (str_eqb (pk_Type ok_packet) PacketError) with false.
  change (str_eqb (pk_Type ok_packet) PacketAuthOK) with true. cbn [negb ret].
  by rewrite <- !app_assoc.
Qed.
End Honest.

(** * Properties *)
(** C27: A master that holds its key pair, and that the configured whitelist names for its cluster, or any such master when the whitelist names nobody, is admitted under the digest of its public key and its cluster, and both sides reach the end of the handshake having read exactly what the other wrote. *)
Theorem honest_master_admitted sha256 ed_sign ed_verify cfg pub priv random wl :
  digest_law sha256 -> key_pair ed_sign ed_verify pub priv -> random <> [] ->
  utf8_hello (auth_hello sha256 cfg pub) ->
  let hello := auth_hello sha256 cfg pub in
  whitelistClusterMasters wl = ∅
    \/ (exists entries, wl !! ah_Cluster hello = Some entries /\ ah_ID hello ∈ entries) ->
  exists up down, forall more more',
    authenticate sha256 ed_verify (GenerateChallenge random) (whitelistClusterMasters wl)
      (mkConn (Some (up ++ more)) (mkSink [] None))
    = (Some (EncodeToString (sha256 pub), ah_Cluster hello), mkConn (Some more) (mkSink down None))
    /\ connect_auth sha256 ed_sign cfg pub priv (mkConn (Some (down ++ more')) (mkSink [] None))
    = (Some tt, mkConn (Some more') (mkSink up None)).
Proof.
  intros Hd Hk Hr Hh hello Hwl.
  exists (bytes_of HeaderOrchestrator ++ NL :: packet_text (hello_packet hello)
      ++ packet_text (proof_packet (EncodeToString (ed_sign priv (bytes_of (GenerateChallenge random)))))),
    (packet_text (challenge_packet (GenerateChallenge random)) ++ packet_text ok_packet).
  intros more more'. rewrite <- !app_assoc. cbn [app]. rewrite <- !app_assoc.
  split; [by eapply authenticate_honest|by eapply connect_auth_honest].
Qed.

(** * Examples *)
Section Examples.
Definition ex_config : master_config := mkMasterConfig "" " east " "10.0.0.1:7000" "host".
Definition ex_whitelist : gmap string (list string) := {["east" := [""; toy_id]]}.
Lemma honest_master_admitted_witness :
  exists up down, forall more more',
    authenticate toy_digest toy_verify (GenerateChallenge toy_random) (whitelistClusterMasters ex_whitelist)
      (mkConn (Some (up ++ more)) (mkSink [] None))
    = (Some (toy_id, "east"), mkConn (Some more) (mkSink down None))
    /\ connect_auth toy_digest toy_sign ex_config toy_key toy_key (mkConn (Some (down ++ more')) (mkSink [] None))
    = (Some tt, mkConn (Some more') (mkSink up None)).
Proof.
  refine (honest_master_admitted toy_digest toy_sign toy_verify ex_config toy_key toy_key toy_random ex_whitelist
    toy_digest_law toy_key_pair _ _ _); [discriminate| |].
  - repeat split; utf8_name.
  - right. exists [""; toy_id]. split; [reflexivity|]. right. left.
Defined.
End Examples.
