(* ===== verification/GoSession.v ===== *)
(** A session of a master with the orchestrator after the handshake: the two goroutines of
    [connectLoop] ([master/orchestrator_client.go]: the loop that registers and sends
    heartbeats, and [readOrchestratorLoop]), the loop of [handleConn]
    ([orchestrator/tcp/server.go]) and the requests that other goroutines send over the same
    connection.

    The goroutines interleave: [session_step] is one step of one of them, and a schedule is a
    list of labels.  The two directions of the connection are queues of packets as they
    arrive; the connection is not lost.  When the loop of the master ends, the connection is
    closed and the session is over. *)
From stdpp Require Import base gmap strings list.
From Stdlib Require Import Lia ZArith Ascii.
From S2P Require Import Prelude GoStrings GoJson GoTypes GoProtocol GoHandshake GoRegistry GoServer GoStruct GoWire GoRaw GoDispatch GoCommands GoMaster.

(** * Definitions *)
Definition fresh_conn : conn := mkConn None (mkSink [] None).
(** What the other side reads when something is written. *)
Definition arrives (write : M (result unit)) : list Packet :=
  match fst (ReadPacket (Some (sent (c_out (snd (write fresh_conn)))))) with
  | Ok p => [p]
  | Err _ => []
  end.

(** The loop of [connectLoop]: before [master.register], waiting in
    [sendPacketAndExpectAuthOK], in its [select], or returned with an error. *)
Inductive main_state := MStart | MWait | MIdle | MGone (why : string).
(** [readOrchestratorLoop]: in [ReadPacket], at work on a packet, or blocked on [respCh]. *)
Inductive read_state := RReading | RBusy (p : Packet) | RHolding (p : Packet).

Section Session.
Context {D : Type} `{ClusterDB D}.
Context (sha256 : list ascii -> list ascii) (cfg : master_config) (pub : list ascii).

Record session := mkSession {
  s_main : main_state; s_read : read_state;
  s_down : list Packet; s_up : list Packet;
  s_orch : orch_state (D := D) }.

(** The packet of [master.register] and [master.heartbeat]. *)
Definition update_packet (ty : string) (nodeIDs : list string) : result Packet :=
  NewPacket Marshal ty (Some (buildMasterInfo sha256 cfg pub nodeIDs)).
Definition update_type (m : main_state) : string :=
  match m with MStart => PacketMasterRegister | _ => PacketMasterHeartbeat end.

(** The table of nodes and the order of its ids may change between commands. *)
Inductive label :=
  | LTick (nodeIDs : list string)
  | LRead
  | LServe (nodes : gmap string (Packet -> result Packet)) (ids : list string)
  | LHand
  | LOrch (now : Z)
  | LSend (random : list ascii) (cmd : OrchestratorCommand)
  | LPost (cmd : OrchestratorCommand)
  | LTimeout (id : string).

(** The loop of the master sends an update. *)
Definition tick (nodeIDs : list string) (s : session) : session :=
  let gone e := mkSession (MGone e) (s_read s) (s_down s) (s_up s) (s_orch s) in
  match update_packet (update_type (s_main s)) nodeIDs with
  | Err e => gone e
  | Ok p =>
      match fst (write_packet p fresh_conn) with
      | Some (Ok _) =>
          mkSession MWait (s_read s) (s_down s) (s_up s ++ arrives (write_packet p)) (s_orch s)
      | Some (Err e) => gone e
      | None => gone "write failed"
      end
  end.
(** The read loop is done with a packet. *)
Definition serve (t : turn) (s : session) : session :=
  match t with
  | TDeliver p => mkSession (s_main s) (RHolding p) (s_down s) (s_up s) (s_orch s)
  | TSkip => mkSession (s_main s) RReading (s_down s) (s_up s) (s_orch s)
  | TReply r => mkSession (s_main s) RReading (s_down s) (s_up s ++ arrives (write_packet r)) (s_orch s)
  end.
(** A packet goes over [respCh]. *)
Definition hand (p : Packet) (s : session) : session :=
  mkSession (match expect_auth_ok (RespPacket p) with Ok _ => MIdle | Err e => MGone e end)
    RReading (s_down s) (s_up s) (s_orch s).
(** The loop of the orchestrator, for the identity and the cluster of the handshake. *)
Definition orch (now : Z) (p : Packet) (up : list Packet) (s : session) : session :=
  let mi := buildMasterInfo sha256 cfg pub [] in
  let (o, reply) := orch_turn Unmarshal (mi_ID mi) (mi_Cluster mi) now p (s_orch s) in
  mkSession (s_main s) (s_read s)
    (s_down s ++ match reply with Some q => arrives (write_json q) | None => [] end) up o.
(** [sendCommandWait] up to its wait: the entry of the table is made and the packet is sent. *)
Definition send_command (random : list ascii) (cmd : OrchestratorCommand) (s : session) : session :=
  match NewPacket Marshal PacketOrchCommand (Some cmd) with
  | Err _ => s
  | Ok p =>
      let p := if str_empty (pk_ID p) then set_string FID (NewID random) p else p in
      mkSession (s_main s) (s_read s) (s_down s ++ arrives (write_packet p)) (s_up s)
        (mkOrch (o_store (s_orch s)) ({[pk_ID p]} ∪ o_pend (s_orch s)))
  end.
(** [SendCommand]: nobody waits, and the packet has no id. *)
Definition post_command (cmd : OrchestratorCommand) (s : session) : session :=
  match NewPacket Marshal PacketOrchCommand (Some cmd) with
  | Err _ => s
  | Ok p => mkSession (s_main s) (s_read s) (s_down s ++ arrives (write_json p)) (s_up s) (s_orch s)
  end.
(** A request gives up. *)
Definition timeout (id : string) (s : session) : session :=
  mkSession (s_main s) (s_read s) (s_down s) (s_up s)
    (mkOrch (o_store (s_orch s)) (o_pend (s_orch s) ∖ {[id]})).

Definition session_step (l : label) (s : session) : option session :=
  match s_main s with
  | MGone _ => None
  | m =>
      match l with
      | LTick nodeIDs => match m with MStart | MIdle => Some (tick nodeIDs s) | _ => None end
      | LRead =>
          match s_read s, s_down s with
          | RReading, p :: down => Some (mkSession m (RBusy p) down (s_up s) (s_orch s))
          | _, _ => None
          end
      | LServe nodes ids =>
          match s_read s with
          | RBusy p => Some (serve (orchestrator_packet nodes (fun ask => ask) ids p) s)
          | _ => None
          end
      | LHand => match m, s_read s with MWait, RHolding p => Some (hand p s) | _, _ => None end
      | LOrch now => match s_up s with p :: up => Some (orch now p up s) | [] => None end
      | LSend random cmd => Some (send_command random cmd s)
      | LPost cmd => Some (post_command cmd s)
      | LTimeout id => Some (timeout id s)
      end
  end.
Fixpoint run (ls : list label) (s : session) : option session :=
  match ls with
  | [] => Some s
  | l :: ls' => match session_step l s with Some s' => run ls' s' | None => None end
  end.
Definition started (store : Store D) : session := mkSession MStart RReading [] [] (mkOrch store ∅).

(** * Schedules without late time-outs *)
Definition is_type (ty : string) (p : Packet) : bool := str_eqb (pk_Type p) ty.
Definition is_update (p : Packet) : bool := is_type PacketMasterRegister p || is_type PacketMasterHeartbeat p.
(** What the master has not dealt with. *)
Definition inbox (s : session) : list Packet :=
  match s_read s with RReading => [] | RBusy p | RHolding p => [p] end ++ s_down s.
(** The commands that the master has not answered, and those whose answer is on its way. *)
Definition in_flight (s : session) : list string :=
  map pk_ID (List.filter (is_type PacketOrchCommand) (inbox s))
  ++ map pk_ReplyTo (List.filter (is_type PacketOrchCommandReply) (s_up s)).
(** A step that the environment takes in time: ids of nodes are valid strings, the id of a request is new, and a request gives up only when no answer will come. *)
Definition prompt (l : label) (s : session) : Prop :=
  match l with
  | LTick nodeIDs => Forall utf8_str nodeIDs
  | LSend random _ => random <> [] /\ NewID random ∉ o_pend (s_orch s)
  | LPost _ => False
  | LTimeout id => id ∉ in_flight s
  | _ => True
  end.
Fixpoint prompt_run (ls : list label) (s : session) : Prop :=
  match ls with
  | [] => True
  | l :: ls' => prompt l s /\ match session_step l s with Some s' => prompt_run ls' s' | None => True end
  end.
(** The steps that need nobody but the two ends. *)
Definition internal (l : label) : bool :=
  match l with LRead | LServe _ _ | LHand | LOrch _ => true | _ => false end.
(** The replies that are handed to a request that waits for them. *)
Fixpoint delivered (ls : list label) (s : session) : list Packet :=
  match ls with
  | [] => []
  | l :: ls' =>
      match l, s_up s with
      | LOrch _, p :: _ => match resolveReply p (o_pend (s_orch s)) with Some _ => [p] | None => [] end
      | _, _ => []
      end ++ match session_step l s with Some s' => delivered ls' s' | None => [] end
  end.
(** A command that can be read, and the answer that it gets for a table of nodes. *)
Definition commanded (p : Packet) (cmd : OrchestratorCommand) : Prop :=
  pk_Type p = PacketOrchCommand /\ DecodePayload (Unmarshal (A := OrchestratorCommand)) p = Ok cmd /\ oc_Command cmd <> "".
Definition answer_of (nodes : gmap string (Packet -> result Packet)) (ids : list string) (cmd : OrchestratorCommand)
  : CommandReply :=
  if str_empty (oc_NodeID cmd) then handleMasterCommand nodes (fun ask => ask) ids (oc_Command cmd)
  else node_answer (oc_NodeID cmd) (sendCommandToNodeWait nodes (fun ask => ask) (oc_NodeID cmd)
    (mkPacket PacketNodeCommand "" "" "" (default "" (compact (oc_Command cmd))))).
(** How many of these are left at most. *)
Definition weight (p : Packet) : nat := if is_update p then 5 else 1.
Definition work (s : session) : nat :=
  match s_read s with RReading => 0 | RBusy _ => 3 | RHolding _ => 2 end
  + 4 * length (s_down s) + sum_list_with weight (s_up s).
End Session.
Arguments session D : clear implicits.

(** * What arrives *)
Lemma arrives_write p : sendable p -> arrives (write_packet p) = [p] /\ fst (write_packet p fresh_conn) = Some (Ok tt).
Proof.
  intros Hp. unfold arrives, fresh_conn. rewrite write_step by done. cbn [fst snd c_out sent app]. split; [|done].
  pose proof (read_step p [] (mkSink [] None) Hp) as Hr. unfold read_packet, on_reader in Hr.
  cbn [c_in c_out] in Hr. rewrite app_nil_r in Hr. destruct (ReadPacket _) as [r i]. by injection Hr as -> _.
Qed.
Lemma arrives_json p : sendable p -> arrives (write_json p) = [p].
Proof.
  intros Hp. rewrite <- (proj1 (arrives_write p Hp)). unfold arrives, fresh_conn.
  by rewrite write_json_step, write_step by done.
Qed.
Lemma arrives_zero : arrives (write_packet zero_packet) = [].
Proof. reflexivity. Qed.

Definition good_id (id : string) : Prop := utf8_str id /\ TrimSpace id = id /\ id <> "".
(** A packet that is made of a value of a wire type. *)
Lemma NewPacket_sendable {A} `{WireStruct A} `{!Settled (wire A)} ty (a : A) p :
  utf8_str ty -> TrimSpace ty <> "" -> NewPacket Marshal ty (Some a) = Ok p ->
  exists t, p = mkPacket ty "" "" "" t /\ compact t = Some t.
Proof.
  intros Hu Hne. unfold NewPacket. destruct (str_empty_spec (TrimSpace ty)) as [|_]; [done|].
  destruct (Marshal a) as [t|] eqn:E; [|done]. intros [= <-]. exists t. split; [done|].
  by eapply marshal_settled.
Qed.
Lemma packet_sendable ty id rt t : utf8_str ty -> TrimSpace ty <> "" -> utf8_str id -> utf8_str rt ->
  compact t = Some t -> sendable (mkPacket ty id rt "" t).
Proof. intros. split; [repeat split; try done; constructor|]. split; [done|by right]. Qed.

(** What the read loop does with a command. *)
Lemma serve_command {N} (nodes : gmap string N) send ids p :
  pk_Type p = PacketOrchCommand -> good_id (pk_ID p) ->
  orchestrator_packet nodes send ids p = TSkip
  \/ orchestrator_packet nodes send ids p = TReply zero_packet
  \/ exists t, orchestrator_packet nodes send ids p = TReply (reply_packet PacketOrchCommandReply (pk_ID p) t)
      /\ sendable (reply_packet PacketOrchCommandReply (pk_ID p) t).
Proof.
  intros Ht (Hu & Htr & Hne). unfold orchestrator_packet. rewrite Ht.
  change (str_eqb PacketOrchCommand _ || _) with false. change (str_eqb PacketOrchCommand _) with true. cbn [negb].
  assert (forall r, reply_orchestrator (pk_ID p) r = TReply zero_packet
    \/ exists t, reply_orchestrator (pk_ID p) r = TReply (reply_packet PacketOrchCommandReply (pk_ID p) t)
      /\ sendable (reply_packet PacketOrchCommandReply (pk_ID p) t)) as Hr.
  { intros r. unfold reply_orchestrator, NewReply.
    destruct (NewPacket Marshal PacketOrchCommandReply (Some r)) as [q|] eqn:E; [|by left]. right.
    apply NewPacket_sendable in E as (t & -> & Hc); [|utf8_name|done]. exists t. cbn [res_bind pk_Type pk_ID pk_Error pk_Payload].
    rewrite Htr. split; [done|]. apply packet_sendable; [utf8_name|done|utf8_name|done|done]. }
  destruct (DecodePayload _ p) as [cmd|]; [|by left]. destruct (str_empty (oc_Command cmd)); [by left|].
  destruct (str_empty (oc_NodeID cmd)); [right; apply Hr|].
  destruct (NewPacket _ _ _); [right; apply Hr|by left].
Qed.

(** A command that can be read is always answered. *)
Lemma answer_output nodes ids cmd : raw_ok (cr_Output (answer_of nodes ids cmd)) /\ cr_NodeID (answer_of nodes ids cmd) = oc_NodeID cmd.
Proof.
  unfold answer_of. destruct (str_empty_spec (oc_NodeID cmd)) as [->|_].
  - unfold handleMasterCommand. repeat case_match; (split; [|done]); try by left.
    right. eexists. match goal with Hm : Marshal _ = Ok _ |- _ => exact (marshal_settled _ _ _ Hm) end.
  - unfold node_answer. repeat case_match; (split; [|done]); try by left.
    match goal with Hm : DecodePayload _ _ = Ok _ |- _ => exact (decoded_output _ _ Hm) end.
Qed.
Lemma serve_answers nodes ids p cmd : commanded p cmd -> good_id (pk_ID p) ->
  exists t, orchestrator_packet nodes (fun ask => ask) ids p = TReply (reply_packet PacketOrchCommandReply (pk_ID p) t)
    /\ sendable (reply_packet PacketOrchCommandReply (pk_ID p) t) /\ Marshal (answer_of nodes ids cmd) = Ok t.
Proof.
  intros (Hty & Hd & Hne) (Hu & Htr & Hid).
  assert (exists t, Marshal (answer_of nodes ids cmd) = Ok t /\ compact t = Some t) as (t & Ht & Hc).
  { destruct (answer_output nodes ids cmd) as [Hout _]. destruct (answer_of nodes ids cmd) as [n st m o].
    cbn [cr_Output] in Hout. unfold Marshal. destruct (marshal_raw_ok n st m o Hout) as (t & Ht).
    exists t. split; [exact Ht|]. exact (marshal_settled _ _ _ Ht). }
  exists t. assert (reply_orchestrator (pk_ID p) (answer_of nodes ids cmd) = TReply (reply_packet PacketOrchCommandReply (pk_ID p) t)) as Hr.
  { unfold reply_orchestrator, NewReply, NewPacket. change (str_empty (TrimSpace PacketOrchCommandReply)) with false.
    cbv iota. rewrite Ht. cbn [res_bind pk_Type pk_ID pk_Error pk_Payload]. by rewrite Htr. }
  split; [|split; [apply packet_sendable; [utf8_name|done|utf8_name|done|done]|done]].
  rewrite <- Hr. unfold orchestrator_packet, answer_of. rewrite Hty.
  change (str_eqb PacketOrchCommand _ || _) with false. change (str_eqb PacketOrchCommand _) with true. cbn [negb].
  rewrite Hd. destruct (str_empty_spec (oc_Command cmd)) as [|_]; [done|].
  destruct (str_empty (oc_NodeID cmd)); [done|]. unfold NewPacket, MarshalRaw, marshal_raw.
  change (str_empty (TrimSpace PacketNodeCommand)) with false. cbv iota.
  destruct (str_empty_spec (oc_Command cmd)) as [|_]; [done|].
  destruct (decoded_command _ _ Hd) as [|[c Hcc]]; [done|]. by rewrite Hcc.
Qed.

(** * Honest masters *)
Section Honest.
Context {D : Type} `{ClusterDB D}.
Context (sha256 : list ascii -> list ascii) (cfg : master_config) (pub : list ascii).
Hypothesis (Hd : digest_law sha256) (Hpub : length pub = PublicKeySize).
Hypothesis (Hh : utf8_hello (auth_hello sha256 cfg pub)).
Abbreviation session := (session D).
Implicit Types (s : session).
Abbreviation mi := (buildMasterInfo sha256 cfg pub).
Abbreviation step := (session_step sha256 cfg pub).

(** An update of the master, as it arrives. *)
Definition update_ok (p : Packet) : Prop :=
  is_update p = true /\ pk_ReplyTo p = ""
  /\ exists nodeIDs, DecodePayload (Unmarshal (A := MasterInfo)) p = Ok (mi nodeIDs).
Definition down_ok (p : Packet) : Prop :=
  p = ok_packet \/ pk_Type p = PacketOrchCommand /\ good_id (pk_ID p).
Definition up_ok (p : Packet) : Prop :=
  update_ok p \/ pk_Type p = PacketOrchCommandReply /\ pk_ReplyTo p <> "".
(** The store lets the cluster of the master in. *)
Definition admits (store : Store D) : Prop :=
  st_allowed store = None \/ IsAllowed (st_allowed store) (mi_Cluster (mi [])) = Ok true.
(** The store has an update of the master. *)
Definition recorded (store : Store D) : Prop :=
  exists nodeIDs t, mastersByID store !! mi_ID (mi []) = Some (mkStoredMaster (mi nodeIDs) t).
Definition oks s : list Packet := List.filter (is_type PacketAuthOK) (inbox s).
Definition updates s : list Packet := List.filter is_update (s_up s).
(** What holds between any two steps of a schedule without late time-outs. *)
Record orderly s : Prop := {
  ord_main : match s_main s with
             | MWait => length (oks s) + length (updates s) = 1
             | MGone _ => False
             | _ => length (oks s) + length (updates s) = 0
             end;
  ord_held : match s_read s with RHolding p => p = ok_packet | _ => True end;
  ord_down : Forall down_ok (inbox s);
  ord_up : Forall up_ok (s_up s);
  ord_fresh : NoDup (in_flight s);
  ord_pend : Forall (fun id => id ∈ o_pend (s_orch s)) (in_flight s);
  ord_admits : admits (o_store (s_orch s));
  ord_recorded : s_main s = MIdle \/ oks s <> [] -> recorded (o_store (s_orch s)) }.

Lemma id_not_empty l : mi_ID (mi l) <> "".
Proof.
  cbn [mi_ID buildMasterInfo]. rewrite Hpub. by intros E%EncodeToString_empty%Hd.
Qed.
Lemma update_decodes ty l : ty = PacketMasterRegister \/ ty = PacketMasterHeartbeat -> Forall utf8_str l ->
  exists p, update_packet sha256 cfg pub ty l = Ok p /\ sendable p /\ pk_Type p = ty
    /\ is_update p = true /\ pk_ReplyTo p = "" /\ DecodePayload (Unmarshal (A := MasterInfo)) p = Ok (mi l).
Proof.
  intros Hty Hl. assert (good (wire MasterInfo) (mi l)) as Hg.
  { destruct Hh as (H1 & _ & _ & H4 & H5 & H6). repeat split; try done; [utf8_name|].
    cbn. apply Forall_forall. intros n (x & -> & Hx)%list_elem_of_fmap. apply list_elem_of_filter in Hx as [_ Hx].
    rewrite Forall_forall in Hl. repeat split; [by apply Hl|utf8_name..]. }
  destruct (payload_arrives (wire MasterInfo) (mi l) Hg) as (t & Hm & Hc & Hne & Hdec).
  assert (utf8_str ty /\ TrimSpace ty <> "") as [Hu Ht] by (destruct Hty as [->| ->]; split; try done; utf8_name).
  exists (mkPacket ty "" "" "" t). unfold update_packet, NewPacket, Marshal. rewrite Hm.
  destruct (str_empty_spec (TrimSpace ty)) as [|_]; [done|]. split; [done|].
  split; [by apply packet_sendable; try done; utf8_name|]. split; [done|].
  split; [unfold is_update, is_type; by destruct Hty as [->| ->]|]. split; [done|].
  etrans; [exact (Hdec (mkPacket ty "" "" "" t) eq_refl)|]. by rewrite arr_id.
Qed.
Lemma update_arrives ty l : ty = PacketMasterRegister \/ ty = PacketMasterHeartbeat -> Forall utf8_str l ->
  exists p, update_packet sha256 cfg pub ty l = Ok p /\ sendable p /\ update_ok p /\ pk_Type p = ty.
Proof.
  intros Hty Hl. destruct (update_decodes ty l Hty Hl) as (p & E & Hs & Ht & Hu & Hr & Hdec).
  exists p. split; [done|]. split; [done|]. split; [|done]. split; [done|]. split; [done|]. by exists l.
Qed.
(** The loop of the orchestrator on an update, and on an awaited reply. *)
Definition with_update now l (store : Store D) : Store D :=
  mkStore (<[mi_ID (mi []) := mkStoredMaster (mi l) now]> (mastersByID store)) (st_ttl store) (st_allowed store).
Lemma orch_stores now p l o : is_update p = true -> pk_ReplyTo p = "" ->
  DecodePayload (Unmarshal (A := MasterInfo)) p = Ok (mi l) -> admits (o_store o) ->
  orch_turn Unmarshal (mi_ID (mi [])) (mi_Cluster (mi [])) now p o
  = (mkOrch (with_update now l (o_store o)) (o_pend o), Some ok_packet).
Proof.
  intros Hty Hrt Hdec Ha. unfold orch_turn, resolveReply. rewrite Hrt. change (str_empty "") with true. cbv iota.
  unfold is_update, is_type in Hty. rewrite Hty, Hdec.
  destruct (str_empty_spec (mi_ID (mi l))) as [E|Hne]; [by apply id_not_empty in E|].
  rewrite !str_eqb_refl. cbn [negb]. rewrite UpsertMaster_accepts.
  assert (accepts (st_allowed (o_store o)) (mkStoredMaster (mi l) 0) = true) as ->; [|done].
  unfold accepts. cbn [sm_ID sm_Cluster sm_Info]. unfold sm_ID, sm_Cluster. cbn [sm_Info].
  destruct (str_empty_spec (mi_ID (mi l))) as [|_]; [done|]. cbn [negb andb].
  destruct Ha as [-> | Ha]; [done|]. destruct (st_allowed (o_store o)); [|done].
  change (mi_Cluster (mi l)) with (mi_Cluster (mi [])). by rewrite Ha.
Qed.
Lemma orch_update now p o : update_ok p -> admits (o_store o) ->
  exists store, orch_turn Unmarshal (mi_ID (mi [])) (mi_Cluster (mi [])) now p o
      = (mkOrch store (o_pend o), Some ok_packet) /\ admits store /\ recorded store.
Proof.
  intros (Hty & Hrt & l & Hdec) Ha. rewrite (orch_stores now p l o Hty Hrt Hdec Ha). eexists. split; [done|].
  split; [exact Ha|]. exists l, now. apply lookup_insert_eq.
Qed.
Lemma orch_reply now p o : pk_ReplyTo p <> "" -> pk_ReplyTo p ∈ o_pend o ->
  orch_turn Unmarshal (mi_ID (mi [])) (mi_Cluster (mi [])) now p o
  = (mkOrch (o_store o) (o_pend o ∖ {[pk_ReplyTo p]}), None).
Proof.
  intros Hne Hin. unfold orch_turn, resolveReply. destruct (str_empty_spec (pk_ReplyTo p)) as [|_]; [done|].
  by rewrite decide_True.
Qed.

(** ** Every step keeps the session orderly *)
Lemma update_types p : is_update p = true ->
  is_type PacketOrchCommandReply p = false /\ is_type PacketAuthOK p = false.
Proof.
  unfold is_update, is_type. rewrite orb_true_iff. intros [E|E]; apply str_eqb_eq in E; by rewrite E.
Qed.
Lemma tick_orderly nodeIDs s : orderly s -> s_main s = MStart \/ s_main s = MIdle -> Forall utf8_str nodeIDs ->
  orderly (tick sha256 cfg pub nodeIDs s).
Proof.
  intros [Hm Hr Hdn Hup Hf Hp Ha Hrec] Hs Hn. destruct s as [m r down up o]. cbn [s_main] in *.
  destruct (update_arrives (update_type m) nodeIDs) as (p & E & Hsend & Hok & Hty); [destruct Hs as [->| ->]; auto|done|].
  unfold tick. cbn [s_main]. rewrite E. destruct (arrives_write p Hsend) as [-> ->].
  destruct (update_types p (proj1 Hok)) as [Hnr _].
  constructor; cbn [s_main s_read s_orch s_up]; try done.
  - revert Hm. unfold oks, updates. cbn [inbox s_read s_down s_up]. rewrite List.filter_app, length_app.
    cbn [List.filter]. rewrite (proj1 Hok). cbn [length]. unfold inbox. cbn [s_read s_down s_up]. destruct Hs as [->| ->]; lia.
  - apply Forall_app. split; [done|]. constructor; [by left|done].
  - revert Hf. unfold in_flight. cbn [s_up]. rewrite List.filter_app. cbn [List.filter]. rewrite Hnr, app_nil_r. done.
  - revert Hp. unfold in_flight. cbn [s_up]. rewrite List.filter_app. cbn [List.filter]. rewrite Hnr, app_nil_r. done.
  - intros [|Hok']; [done|]. apply Hrec. by right.
Qed.
Lemma serve_orderly {N} (nodes : gmap string N) send ids p m down up o :
  orderly (mkSession m (RBusy p) down up o) ->
  orderly (serve (orchestrator_packet nodes send ids p) (mkSession m (RBusy p) down up o)).
Proof.
  intros [Hm Hr Hdn Hup Hf Hp Ha Hrec]. cbn [s_main s_read s_orch s_up] in *.
  pose proof (Forall_inv Hdn) as [->|[Hty Hid]]; [by constructor|].
  assert (oks (mkSession m (RBusy p) down up o) = oks (mkSession m RReading down up o)) as Eoks.
  { unfold oks, inbox. cbn [s_read s_down app List.filter]. unfold is_type at 1. by rewrite Hty. }
  assert (in_flight (mkSession m (RBusy p) down up o) = pk_ID p :: in_flight (mkSession m RReading down up o)) as Ef.
  { unfold in_flight, inbox. cbn [s_read s_down s_up app List.filter]. unfold is_type at 1. by rewrite Hty. }
  rewrite Eoks in Hm, Hrec. rewrite Ef in Hf, Hp.
  assert (orderly (mkSession m RReading down up o)) as Hskip.
  { apply NoDup_cons in Hf as [_ Hf]. constructor; try done; [by inversion Hdn|by inversion Hp]. }
  destruct (serve_command nodes send ids p Hty Hid) as [->|[->|(t & -> & Hs)]]; cbn [serve s_main s_down s_up s_orch]; [done| |].
  - rewrite arrives_zero, app_nil_r. done.
  - rewrite (proj1 (arrives_write _ Hs)). set (q := reply_packet _ _ _) in *.
    assert (in_flight (mkSession m RReading down (up ++ [q]) o) = in_flight (mkSession m RReading down up o) ++ [pk_ID p]) as Eq.
    { unfold in_flight. cbn [s_up]. rewrite List.filter_app, map_app, app_assoc. done. }
    constructor; cbn [s_main s_read s_orch s_up]; try done.
    + revert Hm. unfold updates. cbn [s_up]. rewrite List.filter_app, app_nil_r. done.
    + by inversion Hdn.
    + apply Forall_app. split; [done|]. constructor; [|done]. right. split; [done|]. apply Hid.
    + rewrite Eq. by rewrite <- Permutation_cons_append.
    + rewrite Eq. by rewrite <- Permutation_cons_append.
Qed.
Lemma hand_orderly p m down up o : m = MWait -> orderly (mkSession m (RHolding p) down up o) ->
  orderly (hand p (mkSession m (RHolding p) down up o)).
Proof.
  intros -> [Hm Hr Hdn Hup Hf Hp Ha Hrec]. cbn [s_main s_read s_orch s_up] in *. subst p.
  assert (oks (mkSession MWait (RHolding ok_packet) down up o) = ok_packet :: oks (mkSession MIdle RReading down up o)) as Eo
    by reflexivity.
  rewrite Eo in Hm, Hrec. unfold hand. change (expect_auth_ok (RespPacket ok_packet)) with (Ok tt). constructor; cbn [s_main s_read s_orch s_up]; try done.
  - revert Hm. change (updates (mkSession MWait (RHolding ok_packet) down up o)) with
      (updates (mkSession MIdle RReading down up o)).
    cbn [length s_down s_up s_orch]. lia.
  - by inversion Hdn.
  - intros _. apply Hrec. by right.
Qed.
Lemma orch_orderly now p m r down up o : orderly (mkSession m r down (p :: up) o) ->
  orderly (orch sha256 cfg pub now p up (mkSession m r down (p :: up) o)).
Proof.
  intros [Hm Hr Hdn Hup Hf Hp Ha Hrec]. cbn [s_main s_read s_orch s_up] in *. unfold orch. cbn [s_orch].
  pose proof (Forall_inv Hup) as [Hok|[Hty Hne]].
  - destruct (orch_update now p o Hok Ha) as (store & -> & Ha' & Hrec'). cbn [s_main s_read s_down].
    rewrite (arrives_json _ ok_sendable). destruct (update_types p (proj1 Hok)) as [Hnr _].
    assert (inbox (mkSession m r (down ++ [ok_packet]) up (mkOrch store (o_pend o)))
      = inbox (mkSession m r down (p :: up) o) ++ [ok_packet]) as Ei by (unfold inbox; cbn [s_read s_down]; by rewrite app_assoc).
    constructor; cbn [s_main s_read s_orch s_up]; try done.
    + revert Hm. unfold oks, updates. rewrite Ei, List.filter_app, length_app. cbn [s_up List.filter].
      rewrite (proj1 Hok). cbn [length]. change (is_type PacketAuthOK ok_packet) with true. cbn [length].
      destruct m; [lia..|done].
    + rewrite Ei. apply Forall_app. split; [done|]. constructor; [by left|done].
    + by inversion Hup.
    + revert Hf. unfold in_flight. rewrite Ei, List.filter_app. cbn [s_up List.filter]. rewrite Hnr, app_nil_r. done.
    + revert Hp. unfold in_flight. rewrite Ei, List.filter_app. cbn [s_up List.filter]. rewrite Hnr, app_nil_r. done.
  - assert (in_flight (mkSession m r down (p :: up) o)
      ≡ₚ pk_ReplyTo p :: in_flight (mkSession m r down up o)) as Ef.
    { unfold in_flight. cbn [s_up List.filter]. unfold is_type at 2. rewrite Hty. cbn [str_eqb].
      change (str_eqb PacketOrchCommandReply PacketOrchCommandReply) with true. cbv iota. cbn [map].
      by rewrite <- Permutation_middle. }
    rewrite Ef in Hf, Hp. apply NoDup_cons in Hf as [Hnew Hf]. inversion Hp as [|? ? Hin Hp']; subst.
    rewrite (orch_reply now p o Hne Hin). cbn [s_main s_read s_down]. rewrite app_nil_r.
    constructor; cbn [s_main s_read s_orch s_up]; try done.
    + revert Hm. unfold updates. cbn [s_up List.filter].
      assert (is_update p = false) as -> by (unfold is_update, is_type; by rewrite Hty). done.
    + by inversion Hup.
    + apply Forall_forall. intros id Hid. rewrite Forall_forall in Hp'. cbn [o_pend]. apply elem_of_difference.
      split; [by apply Hp'|]. intros ->%elem_of_singleton. by apply Hnew.
Qed.
Lemma send_orderly random cmd s : orderly s -> random <> [] -> NewID random ∉ o_pend (s_orch s) ->
  orderly (send_command random cmd s).
Proof.
  intros Ho Hran Hfresh. unfold send_command.
  destruct (NewPacket Marshal PacketOrchCommand (Some cmd)) as [p|] eqn:E; [|done].
  apply NewPacket_sendable in E as (t & -> & Hc); [|utf8_name|done]. cbn [pk_ID]. change (str_empty "") with true.
  cbv iota. cbn [set_string]. destruct (NewID_good _ Hran) as (Hu & Ht & Hne). set (id := NewID random) in *.
  assert (sendable (mkPacket PacketOrchCommand id "" "" t)) as Hs by (apply packet_sendable; [utf8_name|done|done|utf8_name|done]).
  rewrite (proj1 (arrives_write _ Hs)). destruct Ho as [Hm Hr Hdn Hup Hf Hp Ha Hrec].
  set (q := mkPacket _ id _ _ _) in *. destruct s as [m r down up o]. cbn [s_main s_read s_down s_up s_orch pk_ID] in *.
  set (s' := mkSession m r (down ++ [q]) up (mkOrch (o_store o) ({[id]} ∪ o_pend o))).
  assert (inbox s' = inbox (mkSession m r down up o) ++ [q]) as Ei by (unfold inbox; cbn [s_read s_down s']; by rewrite app_assoc).
  assert (oks s' = oks (mkSession m r down up o)) as Eo.
  { unfold oks. rewrite Ei, List.filter_app, app_nil_r. done. }
  assert (in_flight s' ≡ₚ id :: in_flight (mkSession m r down up o)) as Ef.
  { unfold in_flight. rewrite Ei, List.filter_app, map_app. cbn [s_up s'].
    change (map pk_ID (List.filter (is_type PacketOrchCommand) [q])) with [id].
    rewrite <- app_assoc. cbn [app]. by rewrite <- Permutation_middle. }
  change (orderly s'). constructor; try done.
  - rewrite Eo. done.
  - rewrite Ei. apply Forall_app. split; [done|]. constructor; [|done]. right. split; [done|]. by repeat split.
  - rewrite Ef. constructor; [|done]. intros Hin. rewrite Forall_forall in Hp. by apply Hfresh, Hp.
  - rewrite Ef. cbn [s_orch s' o_pend]. constructor; [set_solver|]. eapply Forall_impl; [exact Hp|]. cbn. set_solver.
  - rewrite Eo. done.
Qed.
Lemma timeout_orderly id s : orderly s -> id ∉ in_flight s -> orderly (timeout id s).
Proof.
  intros [Hm Hr Hdn Hup Hf Hp Ha Hrec] Hid. constructor; try done. change (in_flight (timeout id s)) with (in_flight s).
  apply Forall_forall. intros x Hx. rewrite Forall_forall in Hp. cbn. apply elem_of_difference.
  split; [by apply Hp|]. intros ->%elem_of_singleton. done.
Qed.
Lemma read_orderly p m down up o : orderly (mkSession m RReading (p :: down) up o) ->
  orderly (mkSession m (RBusy p) down up o).
Proof. intros [Hm Hr Hdn Hup Hf Hp Ha Hrec]. by constructor. Qed.
Lemma step_orderly l s s' : orderly s -> prompt l s -> step l s = Some s' -> orderly s'.
Proof.
  intros Ho Hl. unfold session_step.
  assert (match s_main s with MGone _ => False | _ => True end) as Hg by (pose proof (ord_main s Ho); by destruct (s_main s)).
  destruct l as [ids| |nodes ids| |now|random cmd|cmd|id]; cbn [prompt] in Hl; [| | | | | |done|].
  - intros E. destruct (s_main s) eqn:Em; try discriminate E; injection E as <-; apply tick_orderly; auto.
  - destruct s as [m r down up o]. cbn [s_main s_read s_down s_up s_orch] in *. intros E.
    destruct m, r, down; try discriminate E; injection E as <-; by apply read_orderly.
  - destruct s as [m r down up o]. cbn [s_main s_read s_down s_up s_orch] in *. intros E.
    destruct m, r; try discriminate E; injection E as <-; by apply serve_orderly.
  - destruct s as [m r down up o]. cbn [s_main s_read s_down s_up s_orch] in *. intros E.
    destruct m, r; try discriminate E; injection E as <-; by apply hand_orderly.
  - destruct s as [m r down up o]. cbn [s_main s_read s_down s_up s_orch] in *. intros E.
    destruct m, up; try discriminate E; injection E as <-; by apply orch_orderly.
  - destruct Hl as [Hr Hf]. intros E. destruct (s_main s); try discriminate E; injection E as <-; by apply send_orderly.
  - intros E. destruct (s_main s); try discriminate E; injection E as <-; by apply timeout_orderly.
Qed.
Lemma run_orderly ls s s' : orderly s -> prompt_run sha256 cfg pub ls s -> run sha256 cfg pub ls s = Some s' -> orderly s'.
Proof.
  revert s. induction ls as [|l ls IH]; intros s Ho; cbn [prompt_run run]; [by intros _ [= <-]|].
  intros [Hl Hls]. destruct (step l s) as [s1|] eqn:E; [|done]. intros Hrun. by apply (IH s1 (step_orderly l s s1 Ho Hl E)).
Qed.
Lemma started_orderly store : admits store -> orderly (started store).
Proof. intros Ha. constructor; try done; [constructor..|]. by intros [|]. Qed.

(** ** Internal steps come to an end *)
Abbreviation internal_run ls := (Forall (fun l => internal l = true) ls) (only parsing).
Lemma sum_weight_app ps qs : sum_list_with weight (ps ++ qs) = sum_list_with weight ps + sum_list_with weight qs.
Proof. induction ps as [|p ps IH]; [done|]. cbn. rewrite IH. lia. Qed.
Lemma weight_reply id t : weight (reply_packet PacketOrchCommandReply id t) = 1.
Proof. reflexivity. Qed.
Lemma internal_works l s s' : orderly s -> internal l = true -> step l s = Some s' -> work s' < work s.
Proof.
  intros Ho Hl. unfold session_step.
  destruct s as [m r down up o]. cbn [s_main s_read s_down s_up s_orch].
  destruct l as [ids| |nodes ids| |now|random cmd|cmd|id]; try discriminate Hl; intros E.
  - destruct m, r, down; try discriminate E; injection E as <-; unfold work; cbn; lia.
  - destruct m, r; try discriminate E; injection E as <-; unfold work; cbn [s_read s_down s_up].
    all: pose proof (Forall_inv (ord_down _ Ho)) as [->|[Hty Hid]];
      [change (orchestrator_packet _ _ _ ok_packet) with (TDeliver ok_packet); cbn; lia|].
    all: destruct (serve_command nodes (fun ask => ask) ids p Hty Hid) as [->|[->|(t & -> & Hs)]];
      cbn [serve s_read s_down s_up]; [lia|rewrite arrives_zero, app_nil_r; lia|].
    all: rewrite (proj1 (arrives_write _ Hs)), sum_weight_app; cbn [sum_list_with]; rewrite weight_reply; lia.
  - destruct m, r; try discriminate E; injection E as <-; unfold work; cbn; lia.
  - assert (forall p up', up = p :: up' ->
      work (orch sha256 cfg pub now p up' (mkSession m r down up o)) < work (mkSession m r down up o)) as Hw.
    { intros p up' ->. unfold orch. cbn [s_orch].
      pose proof (Forall_inv (ord_up _ Ho)) as [Hok|[Hty Hne]].
      - destruct (orch_update now p o Hok (ord_admits _ Ho)) as (store & -> & _).
        rewrite (arrives_json _ ok_sendable). unfold work. cbn [s_read s_down s_up sum_list_with].
        rewrite length_app. cbn [length]. unfold weight at 2. rewrite (proj1 Hok). lia.
      - pose proof (ord_pend _ Ho) as Hp. unfold in_flight in Hp. cbn [s_up List.filter] in Hp.
        rewrite Forall_app in Hp. destruct Hp as [_ Hp]. unfold is_type at 1 in Hp. rewrite Hty in Hp.
        change (str_eqb PacketOrchCommandReply PacketOrchCommandReply) with true in Hp. cbv iota in Hp.
        rewrite (orch_reply now p o Hne (Forall_inv Hp)). unfold work. cbn [s_read s_down s_up sum_list_with].
        rewrite app_nil_r. unfold weight at 2. destruct (is_update p); lia. }
    destruct m, up as [|p up']; try discriminate E; injection E as <-; by apply Hw.
Qed.
Lemma internal_prompt l s : internal l = true -> prompt l s.
Proof. by destruct l. Qed.
Lemma internal_prompt_run ls s : internal_run ls -> prompt_run sha256 cfg pub ls s.
Proof.
  intros Hi. revert s. induction Hi as [|l ls Hl _ IH]; intros s; [done|]. split; [by apply internal_prompt|].
  destruct (step l s); [apply IH|done].
Qed.
Lemma internal_bound ls s s' : orderly s -> internal_run ls -> run sha256 cfg pub ls s = Some s' ->
  length ls + work s' <= work s.
Proof.
  intros Ho Hi. revert s Ho. induction Hi as [|l ls Hl _ IH]; intros s Ho; cbn [run length]; [by intros [= <-]|].
  destruct (step l s) as [s1|] eqn:E; [|done]. intros Hr. pose proof (internal_works l s s1 Ho Hl E).
  specialize (IH s1 (step_orderly l s s1 Ho (internal_prompt l s Hl) E) Hr). lia.
Qed.
(** Where an orderly session cannot go on by itself, all is answered. *)
Definition quiet s : Prop := (forall l, internal l = true -> step l s = None).
Lemma quiet_answered s : orderly s -> quiet s ->
  inbox s = [] /\ s_up s = [] /\ (s_main s = MStart \/ s_main s = MIdle).
Proof.
  intros [Hm Hr Hdn Hup Hf Hp Ha Hrec] Hq. destruct s as [m r down up o]. unfold quiet, session_step in Hq.
  unfold oks, updates, inbox in Hm. unfold inbox.
  cbn [s_main s_read s_down s_up s_orch] in *.
  pose proof (Hq LRead eq_refl) as H1. pose proof (Hq (LServe ∅ []) eq_refl) as H2.
  pose proof (Hq LHand eq_refl) as H3. pose proof (Hq (LOrch 0) eq_refl) as H4. cbv beta iota in *.
  destruct m, r, down, up; try done; auto; cbn in Hm; subst; try discriminate Hm; cbn in Hm; lia.
Qed.
Lemma internal_finishes s : orderly s ->
  exists ls s', internal_run ls /\ run sha256 cfg pub ls s = Some s' /\ quiet s'.
Proof.
  remember (work s) as n eqn:En. revert s En. induction n as [n IH] using lt_wf_ind. intros s -> Ho.
  assert (quiet s \/ exists l s1, internal l = true /\ step l s = Some s1) as [Hq|(l & s1 & Hl & E)].
  { destruct (step LRead s) eqn:E1; [right; by exists LRead, s0|].
    destruct (step LHand s) eqn:E3; [right; by exists LHand, s0|].
    destruct (step (LServe ∅ []) s) eqn:E2; [right; by exists (LServe ∅ []), s0|].
    destruct (step (LOrch 0) s) eqn:E4; [right; by exists (LOrch 0), s0|].
    left. intros l Hl. destruct l; try done; revert E2 E4; unfold session_step;
      destruct (s_main s), (s_read s), (s_up s); done. }
  - by exists [], s.
  - destruct (IH (work s1) (internal_works l s s1 Ho Hl E) s1 eq_refl
      (step_orderly l s s1 Ho (internal_prompt l s Hl) E)) as (ls & s' & Hi & Hr & Hq).
    exists (l :: ls), s'. split; [by constructor|]. split; [|done]. cbn [run]. by rewrite E.
Qed.

(** A master that has registered stays registered. *)
Lemma step_started l s s' : step l s = Some s' -> s_main s <> MStart -> s_main s' <> MStart.
Proof.
  intros E Hs. unfold session_step in E. destruct (s_main s) eqn:Em; try done; destruct l; repeat case_match;
    try discriminate E; injection E as <-; unfold tick, serve, hand, orch, send_command, post_command, timeout;
    repeat case_match; cbn [s_main]; congruence.
Qed.
Lemma run_started ls s s' : run sha256 cfg pub ls s = Some s' -> s_main s <> MStart -> s_main s' <> MStart.
Proof.
  revert s. induction ls as [|l ls IH]; intros s; cbn [run]; [by intros [= <-]|].
  destruct (step l s) as [s1|] eqn:E; [|done]. intros Hr Hs. by apply (IH s1), (step_started l s).
Qed.
Lemma run_prompt_orderly ls store s : admits store -> prompt_run sha256 cfg pub ls (started store) ->
  run sha256 cfg pub ls (started store) = Some s -> orderly s.
Proof. intros Ha Hp Hr. eapply run_orderly; [by apply started_orderly|done..]. Qed.

(** C9: However the goroutines of a session interleave, and whatever commands are sent over it meanwhile, a master whose cluster is admitted is never dropped as long as no command gives up while its answer is still to come: every command under way is awaited, no packet is refused, and whenever the loop of the master is idle the store holds an update of it. *)
Theorem prompt_session_survives ls store s :
  admits store -> prompt_run sha256 cfg pub ls (started store) -> run sha256 cfg pub ls (started store) = Some s ->
  (forall why, s_main s <> MGone why)
  /\ (forall id, id ∈ in_flight s -> id ∈ o_pend (s_orch s)) /\ NoDup (in_flight s)
  /\ Forall down_ok (inbox s)
  /\ (s_main s = MIdle -> recorded (o_store (s_orch s))).
Proof.
  intros Ha Hp Hr. destruct (run_prompt_orderly ls store s Ha Hp Hr) as [Hm _ Hdn _ Hf Hpd _ Hrec].
  split; [intros why E; by rewrite E in Hm|]. rewrite Forall_forall in Hpd. split; [by apply Hpd|].
  split; [done|]. split; [done|]. intros E. apply Hrec. by left.
Qed.

(** ** Every command is answered *)
Abbreviation delivered := (delivered sha256 cfg pub).
Lemma step_up l s s1 q : orderly s -> internal l = true -> step l s = Some s1 -> q ∈ s_up s ->
  q ∈ s_up s1 \/ exists now up, l = LOrch now /\ s_up s = q :: up.
Proof.
  intros Ho Hl. unfold session_step. destruct s as [m r down up o]. cbn [s_main s_read s_down s_up s_orch].
  destruct l as [ids| |nodes ids| |now|random cmd|cmd|id]; try discriminate Hl; intros E Hq.
  - left. destruct m, r, down; try discriminate E; by injection E as <-.
  - left. destruct m, r; try discriminate E; injection E as <-; unfold serve; case_match; cbn [s_up]; set_solver.
  - left. destruct m, r; try discriminate E; by injection E as <-.
  - destruct up as [|p up']; [by apply elem_of_nil in Hq|]. apply elem_of_cons in Hq as [->|Hq]; [right; by eexists _, _|].
    left. destruct m; try discriminate E; injection E as <-; unfold orch; cbn [s_orch];
      destruct (orch_turn _ _ _ _ _ _); exact Hq.
Qed.
Lemma step_inbox l s s1 p : orderly s -> internal l = true -> step l s = Some s1 -> p ∈ inbox s ->
  pk_Type p = PacketOrchCommand ->
  p ∈ inbox s1 \/ exists nodes ids, l = LServe nodes ids /\ s1 = serve (orchestrator_packet nodes (fun ask => ask) ids p) s.
Proof.
  intros Ho Hl. unfold session_step. destruct s as [m r down up o]. cbn [s_main s_read s_down s_up s_orch].
  destruct l as [ids| |nodes ids| |now|random cmd|cmd|id]; try discriminate Hl; intros E Hp Ht; unfold inbox in *;
    cbn [s_read s_down] in *.
  - left. destruct m, r, down; try discriminate E; by injection E as <-.
  - destruct m, r as [|p'|p']; try discriminate E; injection E as <-; cbn [app] in Hp;
      (apply elem_of_cons in Hp as [->|Hp]; [right; by eexists _, _|left]; destruct (orchestrator_packet nodes _ ids p'); cbn [serve s_read s_down app]; first [exact Hp|by right]).
  - left. pose proof (ord_held _ Ho) as Hh'. destruct m, r as [|p'|p']; try discriminate E; injection E as <-.
    cbn [s_read] in Hh'. subst p'. cbn [app] in Hp. apply elem_of_cons in Hp as [->|Hp]; [discriminate Ht|exact Hp].
  - left. destruct m, up; try discriminate E; injection E as <-; unfold orch; cbn [s_orch];
      destruct (orch_turn _ _ _ _ _ _); cbn [s_read s_down]; set_solver.
Qed.
Lemma awaited_delivered now q up s ls : orderly s -> s_up s = q :: up -> pk_Type q = PacketOrchCommandReply ->
  q ∈ delivered (LOrch now :: ls) s.
Proof.
  intros Ho Hu Ht. cbn [GoSession.delivered]. rewrite Hu. apply elem_of_app. left.
  pose proof (ord_up _ Ho) as Hup. pose proof (ord_pend _ Ho) as Hp. rewrite Hu in Hup.
  apply Forall_inv in Hup as [[Hupd _]|[_ Hne]].
  { apply update_types in Hupd as [Hn _]. unfold is_type in Hn. rewrite Ht in Hn. discriminate Hn. }
  assert (pk_ReplyTo q ∈ o_pend (s_orch s)) as Hin.
  { rewrite Forall_forall in Hp. apply Hp. unfold in_flight. rewrite Hu. apply elem_of_app. right. cbn [List.filter].
    unfold is_type at 1. rewrite Ht. cbn. left. }
  unfold resolveReply. destruct (str_empty_spec (pk_ReplyTo q)) as [|_]; [done|]. rewrite decide_True by done. left.
Qed.
Lemma up_delivered ls : forall s s' q, orderly s -> internal_run ls -> run sha256 cfg pub ls s = Some s' ->
  s_up s' = [] -> q ∈ s_up s -> pk_Type q = PacketOrchCommandReply -> q ∈ delivered ls s.
Proof.
  induction ls as [|l ls IH]; intros s s' q Ho Hi; cbn [run].
  { intros [= <-] -> Hq. by apply elem_of_nil in Hq. }
  apply Forall_cons in Hi as [Hl Hi]. destruct (step l s) as [s1|] eqn:E; [|done]. intros Hr Hup Hq Ht.
  destruct (step_up l s s1 q Ho Hl E Hq) as [Hq1|(now & up & -> & Hu)]; [|by apply (awaited_delivered now q up)].
  cbn [GoSession.delivered]. rewrite E. apply elem_of_app. right. apply (IH s1 s'); try done.
  by apply (step_orderly l s s1 Ho (internal_prompt l s Hl)).
Qed.
(** The answer to a command that can be read comes to the request that waits for it. *)
Definition answered (ls : list label) s (p : Packet) (cmd : OrchestratorCommand) : Prop :=
  exists nodes ids q, LServe nodes ids ∈ ls /\ q ∈ delivered ls s
    /\ pk_Type q = PacketOrchCommandReply /\ pk_ReplyTo q = pk_ID p
    /\ Marshal (answer_of nodes ids cmd) = Ok (pk_Payload q).
Lemma inbox_answered ls : forall s s' p cmd, orderly s -> internal_run ls -> run sha256 cfg pub ls s = Some s' ->
  inbox s' = [] -> s_up s' = [] -> p ∈ inbox s -> commanded p cmd -> answered ls s p cmd.
Proof.
  induction ls as [|l ls IH]; intros s s' p cmd Ho Hi; cbn [run].
  { intros [= <-] -> _ Hp. by apply elem_of_nil in Hp. }
  apply Forall_cons in Hi as [Hl Hi]. destruct (step l s) as [s1|] eqn:E; [|done]. intros Hr Hin Hup Hp Hc.
  pose proof (step_orderly l s s1 Ho (internal_prompt l s Hl) E) as Ho1.
  assert (forall q, q ∈ delivered ls s1 -> q ∈ delivered (l :: ls) s) as Hmore.
  { intros q Hq. cbn [GoSession.delivered]. rewrite E. apply elem_of_app. by right. }
  destruct (step_inbox l s s1 p Ho Hl E Hp (proj1 Hc)) as [Hp1|(nodes & ids & -> & E1)].
  - destruct (IH s1 s' p cmd Ho1 Hi Hr Hin Hup Hp1 Hc) as (nodes & ids & q & Hs & Hq & Hrest).
    exists nodes, ids, q. split; [by right|]. split; [by apply Hmore|exact Hrest].
  - pose proof (ord_down s Ho) as Hdown. rewrite Forall_forall in Hdown. destruct (Hdown p Hp) as [->|[_ Hid]]; [by destruct Hc as [[=] _]|].
    destruct (serve_answers nodes ids p cmd Hc Hid) as (t & Eq & Hs & Ht). exists nodes, ids, (reply_packet PacketOrchCommandReply (pk_ID p) t).
    split; [left|]. split; [|done]. apply Hmore, (up_delivered ls s1 s'); [done..| |done].
    rewrite E1, Eq. cbn [serve s_up]. rewrite (proj1 (arrives_write _ Hs)). apply elem_of_app. right. left.
Qed.

(** C8: Heartbeats and commands are answered: the two ends of such a session, left alone, stop after at most [work] steps, whichever goroutine moves first, and where they stop nothing is under way in either direction; every command that was on its way to the master, and that can be read, has got a reply, which names its id and carries the JSON of what the handlers of the master make of it with the table of nodes of that moment, and which was handed to the request that waits for it; every reply that was on its way has been handed over too; and the loop of the master, if it was waiting for the answer to an update, is back in its select. *)
Theorem heartbeats_are_answered ls store s :
  admits store -> prompt_run sha256 cfg pub ls (started store) -> run sha256 cfg pub ls (started store) = Some s ->
  (exists ls' s', internal_run ls' /\ run sha256 cfg pub ls' s = Some s' /\ quiet s')
  /\ forall ls' s', internal_run ls' -> run sha256 cfg pub ls' s = Some s' ->
      length ls' <= work s
      /\ (quiet s' -> inbox s' = [] /\ s_up s' = [] /\ in_flight s' = []
            /\ (forall p cmd, p ∈ inbox s -> commanded p cmd -> answered ls' s p cmd)
            /\ (forall q, q ∈ s_up s -> pk_Type q = PacketOrchCommandReply -> q ∈ delivered ls' s)
            /\ (s_main s = MWait -> s_main s' = MIdle /\ recorded (o_store (s_orch s')))).
Proof.
  intros Ha Hp Hr. pose proof (run_prompt_orderly ls store s Ha Hp Hr) as Ho.
  split; [by apply internal_finishes|]. intros ls' s' Hi Hr'.
  split; [pose proof (internal_bound ls' s s' Ho Hi Hr'); lia|]. intros Hq.
  assert (orderly s') as Ho' by (eapply run_orderly; [exact Ho|by apply internal_prompt_run|exact Hr']).
  destruct (quiet_answered s' Ho' Hq) as (Hin & Hup & Hm). split; [done|]. split; [done|].
  split; [unfold in_flight; by rewrite Hin, Hup|]. split; [intros p cmd; by apply (inbox_answered ls' s s')|].
  split; [intros q; by apply (up_delivered ls' s s')|]. intros Hw.
  assert (s_main s' = MIdle) as Hidle.
  { destruct Hm as [Hm|]; [|done]. exfalso. by eapply (run_started ls' s s'); [|rewrite Hw|]. }
  split; [done|]. apply (ord_recorded s' Ho'). by left.
Qed.

(** ** A late answer *)
(** An answer that nobody waits for any more ends the session: the orchestrator replies
    with an error, which the master takes for the answer to its next heartbeat. *)
Theorem late_reply_drops_master s reply now nodeIDs :
  s_main s = MIdle -> s_read s = RReading -> s_down s = [] -> s_up s = [reply] ->
  pk_Type reply = PacketOrchCommandReply -> pk_ReplyTo reply ∉ o_pend (s_orch s) -> Forall utf8_str nodeIDs ->
  exists s', run sha256 cfg pub [LOrch now; LRead; LServe ∅ []; LTick nodeIDs; LHand] s = Some s'
    /\ s_main s' = MGone "orchestrator error: unknown message type".
Proof.
  intros Hm Hr Hd' Hu Hty Hrt Hn. destruct s as [m r down up o]. cbn [s_main s_read s_down s_up s_orch] in *. subst.
  destruct (update_arrives PacketMasterHeartbeat nodeIDs) as (p & E & Hsend & _ & _); [auto|done|].
  cbn [run session_step s_main s_up]. unfold orch. cbn [s_orch s_main s_read s_down app].
  assert (orch_turn Unmarshal (mi_ID (mi [])) (mi_Cluster (mi [])) now reply o
    = (o, Some (NewError "unknown message type"))) as ->.
  { unfold orch_turn, resolveReply. rewrite Hty, decide_False by done. by destruct (str_empty (pk_ReplyTo reply)). }
  change (arrives (write_json (NewError "unknown message type"))) with [NewError "unknown message type"].
  cbn [session_step s_main s_read s_down s_up s_orch app].
  change (orchestrator_packet _ _ _ (NewError _)) with (TDeliver (NewError "unknown message type")). cbn [serve].
  cbn [session_step s_main s_read s_down s_up s_orch]. unfold tick. cbn [s_main update_type]. rewrite E.
  destruct (arrives_write p Hsend) as [-> ->]. cbn [s_main s_read hand]. eexists. split; [reflexivity|].
  vm_compute. reflexivity.
Qed.
End Honest.

(** * Examples *)
Section Examples.
Import MemDB.
Definition ex_store : Store (gset string) := NewStore (60 * Second) (Some (mkAllowedClusters (Some {["east"]}))).
Definition ex_ask : gmap string (Packet -> result Packet) := {["n1" := ask_node toy_random (Ok "{}") (3 * Second) ex_host]}.
Definition ex_command : OrchestratorCommand := mkOrchestratorCommand "n1" ex_list.
(** A command comes in between a heartbeat and its answer. *)
Definition ex_schedule : list label :=
  [LTick []; LOrch 1; LRead; LServe ex_ask []; LHand; LTick ["n1"]; LSend toy_random ex_command;
   LRead; LServe ex_ask ["n1"]].
Abbreviation ex_run := (run toy_digest ex_config toy_key).
Definition ex_session : session (gset string) := default (started ex_store) (ex_run ex_schedule (started ex_store)).

Lemma ex_admits : admits toy_digest ex_config toy_key ex_store.
Proof. right. vm_compute. reflexivity. Qed.
Lemma ex_config_utf8 : utf8_hello (auth_hello toy_digest ex_config toy_key).
Proof. repeat split; utf8_name. Qed.
Lemma ex_prompt : prompt_run toy_digest ex_config toy_key ex_schedule (started ex_store).
Proof.
  vm_compute. repeat split; try discriminate; repeat constructor.
Qed.
Lemma ex_runs : ex_run ex_schedule (started ex_store) = Some ex_session.
Proof. vm_compute. reflexivity. Qed.
Lemma ex_waits : s_main ex_session = MWait /\ length (in_flight ex_session) = 1.
Proof. split; vm_compute; reflexivity. Qed.

Lemma prompt_session_survives_witness :
  (forall why, s_main ex_session <> MGone why)
  /\ (forall id, id ∈ in_flight ex_session -> id ∈ o_pend (s_orch ex_session)) /\ NoDup (in_flight ex_session)
  /\ Forall down_ok (inbox ex_session)
  /\ (s_main ex_session = MIdle -> recorded toy_digest ex_config toy_key (o_store (s_orch ex_session))).
Proof.
  exact (prompt_session_survives toy_digest ex_config toy_key toy_digest_law eq_refl ex_config_utf8
    ex_schedule ex_store ex_session ex_admits ex_prompt ex_runs).
Defined.
Lemma heartbeats_are_answered_witness :
  exists ls' s', Forall (fun l => internal l = true) ls' /\ ex_run ls' ex_session = Some s' /\ s_main s' = MIdle.
Proof.
  destruct (heartbeats_are_answered toy_digest ex_config toy_key toy_digest_law eq_refl ex_config_utf8
    ex_schedule ex_store ex_session ex_admits ex_prompt ex_runs) as [(ls' & s' & Hi & Hr & Hq) Hall].
  exists ls', s'. split; [exact Hi|]. split; [exact Hr|].
  exact (proj1 (proj2 (proj2 (proj2 (proj2 (proj2 (proj2 (Hall ls' s' Hi Hr) Hq))))) (proj1 ex_waits))).
Defined.

(** The same schedule, but the orchestrator gives up before the answer arrives. *)
Definition ex_late : option (session (gset string)) :=
  ex_run ([LTick []; LOrch 1; LRead; LServe ex_ask []; LHand; LSend toy_random ex_command; LRead;
    LTimeout (NewID toy_random); LServe ex_ask ["n1"]]
    ++ [LOrch 2; LRead; LServe ex_ask []; LTick ["n1"]; LHand]) (started ex_store).
Lemma late_reply_happens : from_option s_main MStart ex_late = MGone "orchestrator error: unknown message type".
Proof. vm_compute. reflexivity. Qed.
(** A command that nobody waits for does the same. *)
Lemma posted_command_drops_master : from_option s_main MStart (ex_run
  [LTick []; LOrch 1; LRead; LServe ex_ask []; LHand; LPost ex_command; LRead; LServe ex_ask ["n1"];
   LOrch 2; LRead; LServe ex_ask []; LTick ["n1"]; LHand] (started ex_store))
  = MGone "orchestrator error: unknown message type".
Proof. vm_compute. reflexivity. Qed.
End Examples.
