(* ===== verification/GoCluster.v ===== *)
(** The way of a command through a whole cluster: a master announces its nodes
    ([master/orchestrator_client.go], [core/protocol]), the orchestrator stores the
    announcement ([orchestrator/tcp/server.go], [orchestrator/registry]), a request for a node of
    the cluster is sent to the master that has it, the master passes it on, and the slave
    carries it out ([slave/handlers]). *)
From stdpp Require Import base gmap strings list.
From Stdlib Require Import Lia ZArith Ascii.
From S2P Require Import Prelude GoStrings GoJson GoTypes GoProtocol GoHandshake GoRegistry GoServer GoStruct GoWire GoDispatch GoCommands GoMaster GoSession.

Section Cluster.
Context {D : Type} `{ClusterDB D}.
Context (sha256 : list ascii -> list ascii) (cfg : master_config) (pub : list ascii).
Hypothesis (Hd : digest_law sha256) (Hpub : length pub = PublicKeySize).
Hypothesis (Hh : utf8_hello (auth_hello sha256 cfg pub)).
Abbreviation mi := (buildMasterInfo sha256 cfg pub).
Abbreviation Host := (string -> NodeCommand -> result RawMessage).

(** The store after the orchestrator has read an announcement. *)
Definition announced (now : Z) (p : Packet) (o : orch_state (D := D)) : Store D :=
  o_store (fst (orch_turn Unmarshal (mi_ID (mi [])) (mi_Cluster (mi [])) now p o)).

Lemma cluster_trimmed l : TrimSpace (mi_Cluster (mi l)) = mi_Cluster (mi l) /\ mi_Cluster (mi l) <> "".
Proof.
  cbn [mi_Cluster buildMasterInfo]. destruct (str_empty_spec (TrimSpace (mc_Cluster cfg))) as [|Hne]; [done|].
  split; [apply TrimSpace_idem|done].
Qed.

(** The first master of the cluster that announced the node. *)
Lemma announced_found now now' l (s : Store D) order node :
  mastersByID s !! mi_ID (mi []) = Some (mkStoredMaster (mi l) now) ->
  (time_Sub now' now <= st_ttl s)%Z -> enumerates order (mastersByID s) ->
  node ∈ l -> TrimSpace node = node -> node <> "" ->
  (forall k m, mastersByID s !! k = Some m -> k <> mi_ID (mi []) -> live now' s m ->
    sm_Cluster m = mi_Cluster (mi []) -> MasterHasNode m node = false) ->
  List.find (eligible (mkTargetRequest (mi_Cluster (mi [])) node TargetMasterByNode))
    (MastersForCluster now' s order (mi_Cluster (mi []))) = Some (mkStoredMaster (mi l) now).
Proof.
  intros Hs Hlive Ho Hin Ht Hne Hothers. set (me := mkStoredMaster (mi l) now) in *.
  set (req := mkTargetRequest _ _ _).
  assert (eligible req me = true) as Hel.
  { unfold eligible. cbn [tr_Scope tr_NodeID req]. unfold sm_ID. cbn [sm_Info me].
    destruct (str_empty_spec (mi_ID (mi l))) as [E|_]; [by eapply id_not_empty in E|].
    destruct (str_empty_spec node) as [|_]; [done|]. cbn [negb andb]. unfold MasterHasNode.
    destruct (str_empty_spec node) as [|_]; [done|]. apply existsb_exists. exists (mkNodeInfo node "" "").
    split; [|by apply str_eqb_refl]. apply list_elem_of_In. unfold sm_Nodes. cbn [sm_Info me mi_Nodes buildMasterInfo].
    apply list_elem_of_fmap. exists node. split; [done|]. apply list_elem_of_filter. by rewrite Ht. }
  assert (me ∈ MastersForCluster now' s order (mi_Cluster (mi []))) as Hme.
  { apply elem_of_MastersForCluster. split; [by apply cluster_trimmed|]. exists (mi_ID (mi [])).
    split; [by apply (elem_of_enumeration _ _ _ _ Ho)|]. split; [|done].
    unfold live, expired. apply Z.ltb_ge. exact Hlive. }
  destruct (List.find (eligible req) _) as [m|] eqn:E.
  - apply List.find_some in E as [Hm%list_elem_of_In He]. apply elem_of_MastersForCluster in Hm as (_ & k & Hk & Hl & Hc).
    apply (elem_of_enumeration _ _ _ _ Ho) in Hk. destruct (decide (k = mi_ID (mi []))) as [->|Hk'].
    + rewrite Hs in Hk. by injection Hk as <-.
    + exfalso. unfold eligible in He. cbn [tr_Scope tr_NodeID req] in He.
      rewrite (Hothers k m Hk Hk' Hl Hc) in He. by rewrite !andb_false_r in He.
  - exfalso. eapply List.find_none in E; [|by apply list_elem_of_In]. by rewrite Hel in E.
Qed.

Section Way.
Context (random_o random_m : list ascii) (heartbeat : result string) (order_ids : list string).
Context (node_takes master_takes : Z).
Context (conns : gmap string (gmap string Host)) (nodes : gmap string Host) (host : Host).
Abbreviation outcome := (outcome node_takes master_takes).
Abbreviation ask_master := (ask_master random_o random_m heartbeat order_ids node_takes master_takes).
(** What becomes of the result of a handler. *)
Definition told (id : string) (timeout : Z) (node : string) (r : CommandReply) : result (string * CommandReply) :=
  Prelude.res_map (pair id) (outcome timeout node r).

(** Once the orchestrator has read an announcement of a master, and for as long as it is fresh, a command for a node that the master announced, and that no other live master of the cluster claims, is carried out on that node, and the caller learns the identity of the master and what the handler returned, or that it took too long; an action without a handler is answered as such. *)
Lemma announced_served ty nodeIDs p now now' o order timeout node command t cmd :
  (0 < timeout)%Z ->
  admits sha256 cfg pub (o_store o) ->
  ty = PacketMasterRegister \/ ty = PacketMasterHeartbeat -> Forall utf8_str nodeIDs ->
  update_packet sha256 cfg pub ty nodeIDs = Ok p ->
  let store := announced now p o in
  let id := mi_ID (mi []) in
  let cluster := mi_Cluster (mi []) in
  (time_Sub now' now <= st_ttl (o_store o))%Z -> enumerates order (mastersByID store) ->
  node ∈ nodeIDs -> TrimSpace node = node -> node <> "" ->
  (forall k m, mastersByID store !! k = Some m -> k <> id -> live now' store m ->
    sm_Cluster m = cluster -> MasterHasNode m node = false) ->
  random_o <> [] -> random_m <> [] -> conns !! id = Some nodes -> nodes !! node = Some host ->
  compact command = Some t -> UnmarshalText (wire NodeCommand) t = Ok cmd ->
  let answer := SendClusterCommandWait conns (ask_master timeout) Marshal Unmarshal
    (NewID random_o) now' (Some store) order (mkTargetRequest cluster node TargetMasterByNode) command in
  match commandHandlers host (TrimSpace (nc_Action cmd)) with
  | None => answer = told id timeout node (mkCommandReply "" "error" "unknown action" "")
  | Some handler =>
      match handler cmd with
      | Err e => utf8_str e -> answer = told id timeout node (mkCommandReply "" "error" e "")
      | Ok output => raw_ok output -> answer = told id timeout node (mkCommandReply "" "ok" "" output)
      end
  end.
Proof.
  intros Htime Ha Hty Hl Hp store id cluster Hlive Ho Hin Ht Hne Hothers Hro Hrm Hconn Hnode Hc Hcmd answer.
  destruct (update_decodes sha256 cfg pub Hh ty nodeIDs Hty Hl) as (p' & Hp' & _ & _ & Hu & Hr & Hdec).
  rewrite Hp in Hp'. injection Hp' as <-.
  assert (store = with_update sha256 cfg pub now nodeIDs (o_store o)) as Es.
  { unfold store, announced. by rewrite (orch_stores sha256 cfg pub Hd Hpub now p nodeIDs o Hu Hr Hdec Ha). }
  pose proof (announced_found now now' nodeIDs store order node) as Hf.
  rewrite Es in Hf. specialize (Hf (lookup_insert_eq _ _ _) Hlive). rewrite <- Es in Hf.
  specialize (Hf Ho Hin Ht Hne Hothers). destruct (cluster_trimmed []) as [Hct Hcne].
  assert (answer = (let? reply := SendCommandWait conns (ask_master timeout) Marshal
    Unmarshal (NewID random_o) id node command in Ok (id, reply))%res) as ->.
  { unfold answer. rewrite SendClusterCommandWait_find by (unfold cluster; cbn [tr_ClusterID]; by rewrite Hct).
    cbn [tr_ClusterID tr_NodeID tr_Scope]. unfold cluster. rewrite Hct, Ht, Hf.
    unfold SendCommandWait. destruct (str_empty_spec node) as [|_]; [done|]. done. }
  apply (command_result_cases host (NewID random_m) command t cmd (fun r =>
    (let? reply := SendCommandWait conns (ask_master timeout) Marshal
      Unmarshal (NewID random_o) id node command in Ok (id, reply))%res
    = told id timeout node r) Hc Hcmd).
  intros r Hrok. rewrite (command_result_arrives random_o random_m heartbeat order_ids node_takes master_takes conns nodes host
    timeout id node command t); try done.
  - by eapply id_not_empty.
  - rewrite Forall_forall in Hl. by apply Hl.
Qed.
End Way.
End Cluster.

(** * Examples *)
Section Examples.
Import MemDB.
Definition ex_announcement : Packet :=
  match update_packet toy_digest ex_config toy_key PacketMasterHeartbeat ["n1"; "n2"] with Ok p => p | Err _ => zero_packet end.
Definition ex_master : MasterInfo := buildMasterInfo toy_digest ex_config toy_key [].
Abbreviation ex_announced :=
  (announced toy_digest ex_config toy_key 5 ex_announcement (mkOrch GoSession.ex_store ∅)).

End Examples.
