(* ===== verification/GoNodes.v ===== *)
(** The connections of a master to its nodes ([master/nodes.go]): the table of
    connected nodes and the table of requests that wait for a reply, as a machine
    whose steps are what the goroutines do under the locks of the code; the read loop, and
    the heartbeats of [master/server.go] that keep a node in the table.

    A channel is a number with the replies in its buffer; [sendRequest] makes it with
    room for one.  A blocked [ch <- reply] is a step that cannot happen. *)
From stdpp Require Import base gmap strings list relations.
From Stdlib Require Import Lia.
From S2P Require Import Prelude GoJson GoTypes GoProtocol.

(** * The requests that wait for a reply *)
Record pend_state := mkPend {
  pend : gmap string nat;
  buffer : gmap nat (list Packet);
  fresh : nat }.
Definition capacity : nat := 1.
Definition no_requests : pend_state := mkPend ∅ ∅ 0.

(** [sendRequest] up to the write: a new channel under the id of the packet. *)
Definition open_request (id : string) (s : pend_state) : pend_state :=
  mkPend (<[id := fresh s]> (pend s)) (<[fresh s := []]> (buffer s)) (S (fresh s)).
(** The entry is removed when the write failed or the time is over. *)
Definition drop_request (id : string) (s : pend_state) : pend_state :=
  mkPend (delete id (pend s)) (buffer s) (fresh s).
(** The receive of [sendRequest]. *)
Definition take_reply (ch : nat) (s : pend_state) : pend_state :=
  mkPend (pend s) (<[ch := []]> (buffer s)) (fresh s).
(** [resolveReply]: the channel a reply goes to, and the state after the removal of
    its entry, before the send. *)
Definition resolve (reply : Packet) (s : pend_state) : option (nat * pend_state) :=
  if str_empty (pk_ReplyTo reply) then None
  else match pend s !! pk_ReplyTo reply with
       | None => None
       | Some ch => Some (ch, drop_request (pk_ReplyTo reply) s)
       end.
Definition send (ch : nat) (reply : Packet) (s : pend_state) : option pend_state :=
  let b := default [] (buffer s !! ch) in
  if length b <? capacity then Some (mkPend (pend s) (<[ch := b ++ [reply]]> (buffer s)) (fresh s))
  else None.

(** What the goroutines that share a connection do, one step at a time.  The send of a
    reply comes after the lock is released, so other steps can fall in between: the
    reply that is on its way is part of the state. *)
Record conn_state := mkConnState { cs_pend : pend_state; cs_flight : option (nat * Packet) }.
Inductive conn_step : conn_state -> conn_state -> Prop :=
  | step_open id s f : conn_step (mkConnState s f) (mkConnState (open_request id s) f)
  | step_drop id s f : conn_step (mkConnState s f) (mkConnState (drop_request id s) f)
  | step_take ch r s f : buffer s !! ch = Some [r] ->
      conn_step (mkConnState s f) (mkConnState (take_reply ch s) f)
  | step_resolve reply ch s s' : resolve reply s = Some (ch, s') ->
      conn_step (mkConnState s None) (mkConnState s' (Some (ch, reply)))
  | step_send ch reply s s' : send ch reply s = Some s' ->
      conn_step (mkConnState s (Some (ch, reply))) (mkConnState s' None).
Definition reachable (c : conn_state) : Prop := rtc conn_step (mkConnState no_requests None) c.

(** A channel that can still be written to has an empty buffer, and only one writer. *)
Definition ready (s : pend_state) (ch : nat) : Prop := ch < fresh s /\ buffer s !! ch = Some [].
Record well_formed (c : conn_state) : Prop := {
  wf_ready id ch : pend (cs_pend c) !! id = Some ch -> ready (cs_pend c) ch;
  wf_inj id id' ch : pend (cs_pend c) !! id = Some ch -> pend (cs_pend c) !! id' = Some ch -> id = id';
  wf_flight ch p : cs_flight c = Some (ch, p) ->
    ready (cs_pend c) ch /\ forall id, pend (cs_pend c) !! id <> Some ch;
  wf_bound ch b : buffer (cs_pend c) !! ch = Some b -> length b <= capacity /\ ch < fresh (cs_pend c) }.

Lemma well_formed_init : well_formed (mkConnState no_requests None).
Proof. split; cbn; intros *; rewrite ?lookup_empty; done. Qed.

Lemma well_formed_step c c' : conn_step c c' -> well_formed c -> well_formed c'.
Proof.
  intros H [Hr Hi Hf Hb]. destruct H as [id s f|id s f|ch r s f Hch|reply ch s s' Hres|ch reply s s' Hs];
    cbn [cs_pend cs_flight] in *.
  - assert (forall ch, ready s ch -> ch <> fresh s /\ ready (open_request id s) ch) as Ho.
    { intros ch [H1 H2]. assert (ch <> fresh s) by lia. split; [done|]. split; cbn; [lia|].
      by rewrite lookup_insert_ne. }
    split; cbn [cs_pend cs_flight].
    + cbn. intros id' ch. destruct (decide (id' = id)) as [->|Hne].
      * rewrite lookup_insert_eq. intros [= <-]. split; cbn; [lia|]. by rewrite lookup_insert_eq.
      * rewrite lookup_insert_ne by done. intros H%Hr. by apply Ho.
    + cbn. intros id1 id2 ch. destruct (decide (id1 = id)) as [->|H1], (decide (id2 = id)) as [->|H2];
        rewrite ?lookup_insert_eq, ?lookup_insert_ne by done; try done.
      * intros [= <-] H%Hr. destruct (Ho _ H). done.
      * intros H%Hr [= <-]. destruct (Ho _ H). done.
      * by apply Hi.
    + intros ch p Hp. destruct (Hf _ _ Hp) as [H1 H2]. destruct (Ho _ H1). split; [done|]. cbn.
      intros id'. destruct (decide (id' = id)) as [->|Hne].
      * rewrite lookup_insert_eq. intros [= E]; congruence.
      * by rewrite lookup_insert_ne.
    + cbn. intros ch b. destruct (decide (ch = fresh s)) as [->|Hne].
      * rewrite lookup_insert_eq. intros [= <-]. cbn. unfold capacity. lia.
      * rewrite lookup_insert_ne by done. intros [? ?]%Hb. lia.
  - split; cbn [cs_pend cs_flight]; cbn.
    + intros id' ch [_ H]%lookup_delete_Some. by eapply Hr.
    + intros id1 id2 ch [_ H1]%lookup_delete_Some [_ H2]%lookup_delete_Some. by eapply Hi.
    + intros ch p Hp. destruct (Hf _ _ Hp) as [H1 H2]. split; [done|].
      intros id' [_ H]%lookup_delete_Some. by apply (H2 id').
    + done.
  - assert (forall ch', ready s ch' -> ready (take_reply ch s) ch') as Ht.
    { intros ch' [H1 H2]. split; [done|]. cbn. rewrite lookup_insert_ne; [done|]. congruence. }
    split; cbn [cs_pend cs_flight]; cbn.
    + intros id ch' H%Hr. by apply Ht.
    + done.
    + intros ch' p Hp. destruct (Hf _ _ Hp). split; [by apply Ht|done].
    + intros ch' b. destruct (decide (ch' = ch)) as [->|Hne].
      * rewrite lookup_insert_eq. intros [= <-]. apply Hb in Hch. cbn. lia.
      * rewrite lookup_insert_ne by done. apply Hb.
  - unfold resolve in Hres. destruct (str_empty _); [done|].
    destruct (pend s !! pk_ReplyTo reply) as [ch'|] eqn:E; [|done]. injection Hres as <- <-.
    split; cbn [cs_pend cs_flight]; cbn.
    + intros id ch [_ H]%lookup_delete_Some. by eapply Hr.
    + intros id1 id2 ch [_ H1]%lookup_delete_Some [_ H2]%lookup_delete_Some. by eapply Hi.
    + intros ch p [= <- <-]. split; [by apply (Hr (pk_ReplyTo reply))|].
      intros id [Hne H]%lookup_delete_Some. apply Hne. by eapply Hi.
    + done.
  - destruct (Hf _ _ eq_refl) as [[H1 H2] H3]. unfold send in Hs. rewrite H2 in Hs. cbn in Hs.
    injection Hs as <-. split; cbn [cs_pend cs_flight]; cbn.
    + intros id ch' H. assert (ch' <> ch) by (intros ->; by apply (H3 id)). destruct (Hr _ _ H).
      split; [done|]. cbn. by rewrite lookup_insert_ne.
    + done.
    + done.
    + intros ch' b. destruct (decide (ch' = ch)) as [->|Hne].
      * rewrite lookup_insert_eq. intros [= <-]. cbn. unfold capacity. lia.
      * rewrite lookup_insert_ne by done. apply Hb.
Qed.

Lemma well_formed_reachable c : reachable c -> well_formed c.
Proof.
  intros H. unfold reachable in H. remember (mkConnState no_requests None) as c0 eqn:E.
  assert (well_formed c0) as H0 by (subst; apply well_formed_init). clear E.
  induction H as [|x y z Hxy Hyz IH]; [done|]. by apply IH, (well_formed_step x).
Qed.

(** C18: However requests, replies, time-outs and failed writes interleave, the read loop never blocks on a reply: the channel a reply was resolved to has room for it, no reply is ever sent twice to one request, and no channel holds more than its capacity. *)
Theorem replies_never_block c :
  reachable c ->
  (forall ch p, cs_flight c = Some (ch, p) -> is_Some (send ch p (cs_pend c)))
  /\ (forall ch b, buffer (cs_pend c) !! ch = Some b -> length b <= capacity)
  /\ (forall ch p p' s, cs_flight c = Some (ch, p) -> send ch p (cs_pend c) = Some s ->
        (resolve p' s = None \/ exists ch' s', resolve p' s = Some (ch', s') /\ ch' <> ch)).
Proof.
  intros Hc%well_formed_reachable. destruct Hc as [Hr Hi Hf Hb]. split_and!.
  - intros ch p H. destruct (Hf _ _ H) as [[_ H2] _]. unfold send. rewrite H2. by eexists.
  - intros ch b H. by destruct (Hb _ _ H).
  - intros ch p p' s H Hs. destruct (Hf _ _ H) as [_ H3]. unfold send in Hs.
    destruct (_ <? capacity); [|done]. injection Hs as <-. unfold resolve. cbn [pend].
    destruct (str_empty _); [by left|]. destruct (pend _ !! _) as [ch'|] eqn:E; [right|by left].
    eexists _, _. split; [done|]. intros ->. by apply (H3 (pk_ReplyTo p')).
Qed.

Definition reply_to (id : string) : Packet := mkPacket PacketNodeCommandReply "" id "" "".
Lemma replies_never_block_witness :
  exists c, reachable c /\ cs_flight c = Some (0, reply_to "r1")
    /\ (forall ch p, cs_flight c = Some (ch, p) -> is_Some (send ch p (cs_pend c))).
Proof.
  pose (s1 := open_request "r1" no_requests).
  pose (c := mkConnState (drop_request "r1" (open_request "r2" s1)) (Some (0, reply_to "r1"))).
  assert (reachable c) as Hc.
  { eapply rtc_l; [apply (step_open "r1")|]. eapply rtc_l; [apply (step_open "r2")|].
    eapply rtc_l; [|apply rtc_refl]. apply (step_resolve (reply_to "r1")). vm_compute. reflexivity. }
  exists c. split; [exact Hc|]. split; [reflexivity|]. exact (proj1 (replies_never_block c Hc)).
Defined.

(** * The read loop *)
(** The channel [ch] belongs to the request [id]: only replies to it get there. *)
Record owned (id : string) (ch : nat) (c : conn_state) : Prop := {
  own_fresh : ch < fresh (cs_pend c);
  own_pend id' : pend (cs_pend c) !! id' = Some ch -> id' = id;
  own_flight r : cs_flight c = Some (ch, r) -> pk_ReplyTo r = id;
  own_buffer r : r ∈ default [] (buffer (cs_pend c) !! ch) -> pk_ReplyTo r = id }.

Lemma owned_step id ch c c' : conn_step c c' -> owned id ch c -> owned id ch c'.
Proof.
  intros H [Hn Hp Hf Hb].
  destruct H as [id1 s f|id1 s f|ch1 r s f Hch|reply ch1 s s' Hres|ch1 reply s s' Hs]; cbn in *.
  - split; cbn; [lia| |done|by rewrite lookup_insert_ne by lia].
    intros id' [[_ E]|[_ H]]%lookup_insert_Some; [lia|by apply Hp].
  - split; cbn; [done| |done|done]. intros id' [_ H]%lookup_delete_Some. by apply Hp.
  - split; cbn; [done..|]. intros r'. destruct (decide (ch = ch1)) as [->|Hne].
    + rewrite lookup_insert_eq. by intros ?%elem_of_nil.
    + rewrite lookup_insert_ne by done. apply Hb.
  - unfold resolve in Hres. destruct (str_empty _); [done|].
    destruct (pend s !! pk_ReplyTo reply) as [ch'|] eqn:E; [|done]. injection Hres as -> <-.
    split; cbn; [done| | |done].
    + intros id' [_ H]%lookup_delete_Some. by apply Hp.
    + intros r [= -> <-]. by apply Hp.
  - unfold send in Hs. destruct (_ <? capacity); [|done]. injection Hs as <-. split; cbn; [done..|].
    intros r. destruct (decide (ch = ch1)) as [->|Hne].
    + rewrite lookup_insert_eq. cbn. intros [H| ->%list_elem_of_singleton]%elem_of_app; [by apply Hb|by apply Hf].
    + rewrite lookup_insert_ne by done. apply Hb.
Qed.

Lemma owned_open id s f : well_formed (mkConnState s f) -> owned id (fresh s) (mkConnState (open_request id s) f).
Proof.
  intros [Hr _ Hf _]. split; cbn; [lia| | |].
  - intros id' [[<- _]|[_ H%Hr]]%lookup_insert_Some; [done|]. destruct H as [H _]. cbn in H. lia.
  - intros r [[H _] _]%Hf. cbn in H. lia.
  - rewrite lookup_insert_eq. by intros r ?%elem_of_nil.
Qed.

(** Whatever other requests, time-outs and packets come in between, what a request receives
    on its channel replies to it: the id under which it was opened. *)
Lemma reply_answers_its_request id s f c ch r :
  reachable (mkConnState s f) -> ch = fresh s ->
  rtc conn_step (mkConnState (open_request id s) f) c -> buffer (cs_pend c) !! ch = Some [r] ->
  pk_ReplyTo r = id.
Proof.
  intros Hw%well_formed_reachable -> Hc Hb. pose proof (owned_open id s f Hw) as Ho. clear Hw.
  assert (owned id (fresh s) c) as [_ _ _ H].
  { remember (mkConnState (open_request id s) f) as c0 eqn:E. clear E.
    induction Hc as [|x y z Hxy _ IH]; [done|]. apply IH; [done|]. by apply (owned_step _ _ x). }
  apply H. rewrite Hb. by apply list_elem_of_singleton.
Qed.

Section ReadLoop.
Context {HB : Type} (decode_heartbeat : json -> result HB).
(** What becomes of a packet: it is handed to a request, or what the log says of it. *)
Inductive read_event :=
  | EvReply (ch : nat) | EvHeartbeat (h : HB) | EvBadHeartbeat (e : string)
  | EvCommandReply | EvUnexpected (ty : string).
(** One round of [readLoop]; [None] is a send that blocks. *)
Definition read_turn (packet : Packet) (s : pend_state) : option (read_event * pend_state) :=
  match resolve packet s with
  | Some (ch, s') => option_map (pair (EvReply ch)) (send ch packet s')
  | None => Some (
      if str_eqb (pk_Type packet) PacketHeartbeatReply then
        match DecodePayload decode_heartbeat packet with
        | Err e => EvBadHeartbeat e
        | Ok h => EvHeartbeat h
        end
      else if str_eqb (pk_Type packet) PacketNodeCommandReply then EvCommandReply
      else EvUnexpected (pk_Type packet), s)
  end.
(** The packets up to the first error of [ReadPacket]. *)
Fixpoint readLoop (ps : list Packet) (s : pend_state) : option (list read_event * pend_state) :=
  match ps with
  | [] => Some ([], s)
  | p :: ps =>
      match read_turn p s with
      | None => None
      | Some (e, s') => option_map (fun '(es, t) => (e :: es, t)) (readLoop ps s')
      end
  end.

(** A round is a step of the machine, or two, or none. *)
Lemma read_turn_steps p s : well_formed (mkConnState s None) ->
  exists e s', read_turn p s = Some (e, s') /\ rtc conn_step (mkConnState s None) (mkConnState s' None).
Proof.
  intros Hw. unfold read_turn. destruct (resolve p s) as [[ch s1]|] eqn:E; [|by eexists _, _].
  assert (conn_step (mkConnState s None) (mkConnState s1 (Some (ch, p)))) as H1 by by apply step_resolve.
  pose proof (well_formed_step _ _ H1 Hw) as [_ _ Hf _]. destruct (Hf ch p eq_refl) as [[_ H2] _]. cbn in H2.
  destruct (send ch p s1) as [s2|] eqn:Es; [|unfold send in Es; by rewrite H2 in Es].
  exists (EvReply ch), s2. split; [done|]. eapply rtc_l; [done|]. apply rtc_once. by apply step_send.
Qed.

Lemma rtc_well_formed c c' : rtc conn_step c c' -> well_formed c -> well_formed c'.
Proof. induction 1 as [|x y z Hxy _ IH]; [done|]. intros H. by apply IH, (well_formed_step x). Qed.

(** The buffer of a request after a round: the packet, if it is the reply to it. *)
Lemma read_turn_buffer id ch p s e s' : well_formed (mkConnState s None) -> id <> "" ->
  pend s !! id = Some ch -> read_turn p s = Some (e, s') ->
  if str_eqb (pk_ReplyTo p) id then buffer s' !! ch = Some [p] /\ forall id', pend s' !! id' <> Some ch
  else pend s' !! id = Some ch.
Proof.
  intros [Hr Hi _ _] Hne Hp. unfold read_turn, resolve. destruct (str_eqb_spec (pk_ReplyTo p) id) as [->|Hd].
  - destruct (str_empty_spec id) as [|_]; [done|]. rewrite Hp. unfold send. cbn.
    destruct (Hr id ch Hp) as [_ Hb]. cbn in Hb. rewrite Hb. cbn. intros [= <- <-]. cbn.
    rewrite lookup_insert_eq. split; [done|]. intros id' [H1 H2]%lookup_delete_Some. apply H1.
    by apply (Hi id id' ch).
  - destruct (str_empty (pk_ReplyTo p)); [by intros [= <- <-]|].
    destruct (pend s !! pk_ReplyTo p) as [ch'|] eqn:E; [|by intros [= <- <-]].
    unfold send. destruct (_ <? capacity); [|done]. intros [= <- <-]. cbn.
    by rewrite lookup_delete_ne.
Qed.
Lemma read_turn_other ch p s e s' : (forall id, pend s !! id <> Some ch) -> read_turn p s = Some (e, s') ->
  buffer s' !! ch = buffer s !! ch /\ forall id, pend s' !! id <> Some ch.
Proof.
  intros Hp. unfold read_turn, resolve. destruct (str_empty (pk_ReplyTo p)); [by intros [= <- <-]|].
  destruct (pend s !! pk_ReplyTo p) as [ch'|] eqn:E; [|by intros [= <- <-]].
  unfold send. destruct (_ <? capacity); [|done]. intros [= <- <-]. cbn. split.
  - apply lookup_insert_ne. intros ->. by apply (Hp (pk_ReplyTo p)).
  - by intros id [_ H%Hp]%lookup_delete_Some.
Qed.
Lemma readLoop_other ch ps : forall s es s', (forall id, pend s !! id <> Some ch) ->
  readLoop ps s = Some (es, s') -> buffer s' !! ch = buffer s !! ch.
Proof.
  induction ps as [|p ps IH]; intros s es s' Hp; cbn; [by intros [= _ <-]|].
  destruct (read_turn p s) as [[e s1]|] eqn:E; [|done]. destruct (read_turn_other _ _ _ _ _ Hp E) as [<- Hp1].
  destruct (readLoop ps s1) as [[es1 s2]|] eqn:E1; [|done]. intros [= _ <-]. by apply (IH s1 es1).
Qed.

(** C19: The read loop of a connection never blocks, deals with every packet, and gives each request that waits the first packet that replies to it and no other, whatever comes in between: a packet of another type, one that answers nobody, a reply to another request, or a second reply. *)
Theorem first_reply_wins ps s :
  reachable (mkConnState s None) ->
  exists es s', readLoop ps s = Some (es, s') /\ length es = length ps
    /\ reachable (mkConnState s' None)
    /\ forall id ch, id <> "" -> pend s !! id = Some ch ->
         buffer s' !! ch = Some (option_list (List.find (fun p => str_eqb (pk_ReplyTo p) id) ps)).
Proof.
  revert s. induction ps as [|p ps IH]; intros s Hs; pose proof (well_formed_reachable _ Hs) as Hw.
  - exists [], s. split; [done|]. split; [done|]. split; [done|]. intros id ch _ Hp. cbn.
    destruct Hw as [Hr _ _ _]. by destruct (Hr id ch Hp).
  - destruct (read_turn_steps p s Hw) as (e & s1 & E & Hst).
    assert (reachable (mkConnState s1 None)) as Hs1 by (unfold reachable; by etrans).
    destruct (IH s1 Hs1) as (es & s2 & E2 & Hl & Hs2 & H). exists (e :: es), s2. cbn. rewrite E, E2. cbn.
    split; [done|]. split; [by f_equal|]. split; [done|]. intros id ch Hne Hp.
    pose proof (read_turn_buffer id ch p s e s1 Hw Hne Hp E) as Hb.
    destruct (str_eqb (pk_ReplyTo p) id); [|by apply H]. destruct Hb as [Hb Hn].
    rewrite (readLoop_other ch ps s1 es s2 Hn E2). exact Hb.
Qed.
End ReadLoop.

(** Two requests wait; the first gets the first of its two replies, the other one none. *)
Lemma first_reply_wins_witness :
  exists s es s', reachable (mkConnState s None) /\ pend s !! "r1" = Some 0 /\ pend s !! "r2" = Some 1
    /\ readLoop (fun _ : json => Err "no heartbeat" : result unit) [reply_to "r1"; reply_to ""; reply_to "r1"] s = Some (es, s')
    /\ buffer s' !! 0 = Some [reply_to "r1"] /\ buffer s' !! 1 = Some [].
Proof.
  set (s := open_request "r2" (open_request "r1" no_requests)).
  assert (reachable (mkConnState s None)) as Hs.
  { eapply rtc_l; [apply (step_open "r1")|]. apply rtc_once. apply (step_open "r2"). }
  destruct (first_reply_wins (fun _ : json => Err "no heartbeat" : result unit)
    [reply_to "r1"; reply_to ""; reply_to "r1"] s Hs) as (es & s' & E & _ & _ & H).
  exists s, es, s'. split; [exact Hs|]. split; [reflexivity|]. split; [reflexivity|]. split; [exact E|]. split.
  - by apply (H "r1").
  - by apply (H "r2").
Defined.

(** * The table of connected nodes *)
Abbreviation node_table := (gmap string nat) (only parsing).
(** The connection is a number; an empty id is not registered. *)
Definition registerNode (id : string) (n : nat) (t : node_table) : node_table :=
  if str_empty id then t else <[id := n]> t.
Definition unregisterNode (id : string) (t : node_table) : node_table :=
  if str_empty id then t else delete id t.
Definition connectedNode (id : string) (t : node_table) : result nat :=
  if str_empty id then Err "node id is empty" else of_option "node not connected" (t !! id).

(** The end of an old connection removes the entry of the new one. *)
Lemma reconnect_is_lost id old new t :
  connectedNode id (registerNode id new (registerNode id old t)) =
    (if str_empty id then Err "node id is empty" else Ok new)
  /\ is_ok (connectedNode id (unregisterNode id (registerNode id new (registerNode id old t)))) = false.
Proof.
  unfold connectedNode, registerNode, unregisterNode. destruct (str_empty id); [done|].
  by rewrite lookup_insert_eq, lookup_delete_eq.
Qed.

(** * The life of a connection *)
(** The loop of [handleConnection] after the handshake: heartbeats until one gets no answer,
    whose error is the result; what the answers say is not looked at. *)
Fixpoint heartbeats (answers : list (result Packet)) : option string :=
  match answers with
  | [] => None
  | Ok _ :: answers => heartbeats answers
  | Err e :: _ => Some e
  end.
(** The table after these heartbeats of a node that was admitted. *)
Definition serve_node (id : string) (n : nat) (answers : list (result Packet)) (t : node_table) : node_table :=
  let t := registerNode id n t in
  match heartbeats answers with None => t | Some _ => unregisterNode id t end.

(** [sendCommandToNode]: the lookup, and [writePacket] on the connection. *)
Definition sendCommandToNode (writePacket : nat -> Packet -> result unit) (id : string) (payload : Packet)
    (t : node_table) : result unit :=
  res_bind (connectedNode id t) (fun n => writePacket n payload).

(** [listConnectedNodeIDs], for an order in which the map is visited. *)
Definition listConnectedNodeIDs (visited : list (string * nat)) : list string := map fst visited.

(** A node is connected exactly as long as each of its heartbeats is answered; the end of
    its connection touches no other node. *)
Lemma served_while_answering id n answers (t : gmap string nat) : id <> "" ->
  (connectedNode id (serve_node id n answers t) = Ok n <-> forall e, Err e ∉ answers)
  /\ forall id', id' <> id -> connectedNode id' (serve_node id n answers t) = connectedNode id' t.
Proof.
  intros Hne. unfold serve_node, connectedNode, registerNode, unregisterNode.
  destruct (str_empty_spec id) as [|_]; [done|]. split.
  - induction answers as [|[p|e] answers IH]; cbn [heartbeats].
    + rewrite lookup_insert_eq. cbn. split; [by intros _ e ?%elem_of_nil|done].
    + rewrite IH. split; intros H e; specialize (H e); set_solver.
    + rewrite lookup_delete_eq. cbn. split; [done|]. intros H. destruct (H e). by left.
  - intros id' Hd. destruct (heartbeats answers).
    + by rewrite lookup_delete_ne, lookup_insert_ne by done.
    + by rewrite lookup_insert_ne by done.
Qed.
Lemma listed_nodes visited (t : gmap string nat) : enumerates visited t ->
  NoDup (listConnectedNodeIDs visited) /\ forall id, id ∈ listConnectedNodeIDs visited <-> is_Some (t !! id).
Proof.
  intros H. split.
  - unfold listConnectedNodeIDs. rewrite H. apply NoDup_fst_map_to_list.
  - intros id. unfold listConnectedNodeIDs. rewrite list_elem_of_fmap. split.
    + intros ([k n] & -> & Hk). exists n. by apply (elem_of_enumeration visited t).
    + intros [n Hn]. exists (id, n). split; [done|]. by apply (elem_of_enumeration visited t).
Qed.
