(* ===== verification/GoXml.v ===== *)
(** What the Go code uses of [encoding/xml]: [EscapeText] and, for [Unmarshal], the decoder
    in its strict mode with the local names of elements and attributes, which is all that the
    structs of [slave/libvirt/vm.go] look at.

    The decoder gives the first element of a text as a tree ([document]), with the character
    data of each element; what follows the element is not read, as in Go.  The
    tables of letters beyond ASCII that names may use are a parameter.  The limit of 10000 on
    the nesting is not modelled. *)
From stdpp Require Import base strings list.
From Stdlib Require Import Lia ZArith Ascii.
From S2P Require Import Prelude GoStrings GoJson.

(** * [EscapeText] *)
(** U+FFFD, and the last two code points of the basic plane, which XML does not have. *)
Definition replacement : list ascii := [chr 239; chr 191; chr 189].
Definition noncharacter (a b c : ascii) : bool :=
  (byte_val a =? 239) && (byte_val b =? 191) && ((byte_val c =? 190) || (byte_val c =? 191)).
Definition xesc_ascii (a : ascii) : list ascii :=
  let n := byte_val a in
  if n =? 34 then bytes_of "&#34;" else if n =? 39 then bytes_of "&#39;"
  else if n =? 38 then bytes_of "&amp;" else if n =? 60 then bytes_of "&lt;" else if n =? 62 then bytes_of "&gt;"
  else if n =? 9 then bytes_of "&#x9;" else if n =? 10 then bytes_of "&#xA;" else if n =? 13 then bytes_of "&#xD;"
  else if n <? 32 then replacement
  else [a].
Fixpoint xesc (l : list ascii) : list ascii :=
  match l with
  | [] => []
  | a :: l1 =>
      if ascii_byte a then xesc_ascii a ++ xesc l1
      else
        let bad := replacement ++ xesc l1 in
        match l1 with
        | [] => bad
        | b :: l2 =>
            if rune2 a b then a :: b :: xesc l2
            else match l2 with
                 | [] => bad
                 | c :: l3 =>
                     if rune3 a b c then (if noncharacter a b c then replacement else [a; b; c]) ++ xesc l3
                     else match l3 with
                          | [] => bad
                          | d :: l4 => if rune4 a b c d then a :: b :: c :: d :: xesc l4 else bad
                          end
                 end
        end
  end.
Definition xmlEscape (raw : string) : string := of_bytes (xesc (bytes_of raw)).

(** * The decoder *)
(** Whether all of a text is characters that XML has. *)
Definition char_ok (a : ascii) : bool :=
  let n := byte_val a in (n =? 9) || (n =? 10) || (n =? 13) || (32 <=? n).
Fixpoint chars_ok (l : list ascii) : bool :=
  match l with
  | [] => true
  | a :: l1 =>
      if ascii_byte a then char_ok a && chars_ok l1
      else match l1 with
           | [] => false
           | b :: l2 =>
               if rune2 a b then chars_ok l2
               else match l2 with
                    | [] => false
                    | c :: l3 =>
                        if rune3 a b c then negb (noncharacter a b c) && chars_ok l3
                        else match l3 with
                             | [] => false
                             | d :: l4 => rune4 a b c d && chars_ok l4
                             end
                    end
           end
  end.

Definition NUL : ascii := chr 0.
Definition CR : ascii := chr 13.
Definition is_chr (n : nat) (a : ascii) : bool := byte_val a =? n.
Definition is_quote (a : ascii) : bool := is_chr 34 a || is_chr 39 a.

(** ** Names *)
Definition letter (a : ascii) : bool := in_range 65 90 a || in_range 97 122 a.
Definition name_first (a : ascii) : bool := letter a || is_chr 95 a || is_chr 58 a.
Definition name_byte (a : ascii) : bool :=
  name_first a || in_range 48 57 a || is_chr 45 a || is_chr 46 a || negb (ascii_byte a).
(** An element: its name, its attributes, the character data in it, and its elements. *)
Inductive xml := Elem (name : string) (attrs : list (string * string)) (words : string) (kids : list xml).

Section Decoder.
Context (unicode_name : list ascii -> bool).
Definition isName (n : list ascii) : bool :=
  match n with
  | [] => false
  | a :: _ => if forallb ascii_byte n then name_first a else unicode_name n
  end.
Definition colons (n : list ascii) : nat := length (List.filter (is_chr 58) n).
Definition nsname (l : list ascii) : option (list ascii * list ascii) :=
  let (n, r) := span name_byte l in
  if isName n && (colons n <=? 1) then Some (n, r) else None.
(** The part behind the colon, where there is something on both sides. *)
Definition local_name (n : list ascii) : string :=
  match span (fun a => negb (is_chr 58 a)) n with
  | (_ :: _, _ :: (_ :: _) as local) => of_bytes (tail local)
  | _ => of_bytes n
  end.

(** ** Text *)
Definition digit_of (base : N) (a : ascii) : bool :=
  is_digit a || ((base =? 16)%N && match hex_val a with Some _ => true | None => false end).
Definition ref_value (base : N) (ds : list ascii) : N :=
  foldl (fun n a => base * n + N.of_nat (default 0%nat (hex_val a)))%N 0%N ds.
(** Behind [&#]. *)
Definition char_ref (l : list ascii) : option (list ascii * list ascii) :=
  let '(base, l) := match l with
                    | a :: l' => if is_chr 120 a then (16%N, l') else (10%N, l)
                    | [] => (10%N, l)
                    end in
  match span (digit_of base) l with
  | (d :: ds, a :: r) =>
      if is_chr 59 a && (ref_value base (d :: ds) <=? 1114111)%N
      then Some (append_rune (ref_value base (d :: ds)), r) else None
  | _ => None
  end.
Definition entity_value (n : string) : option ascii :=
  if str_eqb n "lt" then Some (chr 60) else if str_eqb n "gt" then Some (chr 62)
  else if str_eqb n "amp" then Some (chr 38) else if str_eqb n "apos" then Some (chr 39)
  else if str_eqb n "quot" then Some (chr 34) else None.
(** Behind [&]. *)
Definition entity (l : list ascii) : option (list ascii * list ascii) :=
  match l with
  | a :: l' =>
      if is_chr 35 a then char_ref l'
      else match span name_byte l with
           | (n, b :: r) =>
               if is_chr 59 b then match entity_value (of_bytes n) with Some c => Some ([c], r) | None => None end
               else None
           | _ => None
           end
  | [] => None
  end.
(** [Decoder.text]: up to the closing quote, or to the next tag. *)
Fixpoint text (fuel : nat) (quote : option ascii) (b0 b1 : ascii) (l : list ascii)
  : option (list ascii * list ascii) :=
  match fuel with
  | O => None
  | S f =>
      match l with
      | [] => Some ([], [])
      | b :: l' =>
          let quoted := match quote with Some _ => true | None => false end in
          if negb quoted && is_chr 93 b0 && is_chr 93 b1 && is_chr 62 b then None
          else if is_chr 60 b then (if quoted then None else Some ([], l))
          else if bool_decide (quote = Some b) then Some ([], l')
          else if is_chr 38 b then
            match entity l' with
            | Some (t, r) => push t (text f quote NUL NUL r)
            | None => None
            end
          else
            push (if is_chr 13 b then [NL] else if is_chr 13 b1 && is_chr 10 b then [] else [b])
              (text f quote b1 b l')
      end
  end.
Definition checked (r : option (list ascii * list ascii)) : option (list ascii * list ascii) :=
  match r with Some (d, rest) => if chars_ok d then Some (d, rest) else None | None => None end.
Definition char_data (quote : option ascii) (l : list ascii) : option (list ascii * list ascii) :=
  checked (text (S (length l)) quote NUL NUL l).
(** Behind [<![CDATA[]; the brackets at the end are part of what is collected. *)
Fixpoint cdata_text (b0 b1 : ascii) (l : list ascii) : option (list ascii * list ascii) :=
  match l with
  | [] => None
  | b :: l' =>
      if is_chr 93 b0 && is_chr 93 b1 && is_chr 62 b then Some ([], l')
      else push (if is_chr 13 b then [NL] else if is_chr 13 b1 && is_chr 10 b then [] else [b]) (cdata_text b1 b l')
  end.
Definition cdata (l : list ascii) : option (list ascii * list ascii) :=
  match cdata_text NUL NUL l with
  | Some (d, r) => checked (Some (take (length d - 2) d, r))
  | None => None
  end.

(** ** Comments, processing instructions and directives: what follows them *)
Fixpoint comment (b0 b1 : ascii) (l : list ascii) : option (list ascii) :=
  match l with
  | [] => None
  | b :: l' =>
      if is_chr 45 b0 && is_chr 45 b1 then (if is_chr 62 b then Some l' else None)
      else comment b1 b l'
  end.
(** [procInst]: the quoted value behind [param=] in the text of an XML declaration. *)
Fixpoint index_after (param l : list ascii) : option (list ascii) :=
  match strip param l with
  | Some r => Some r
  | None => match l with [] => None | _ :: l' => index_after param l' end
  end.
Fixpoint procInst (fuel : nat) (param l : list ascii) : list ascii :=
  match fuel with
  | O => []
  | S f =>
      match index_after param l with
      | Some (c :: r) =>
          if is_quote c then
            match span (fun a => negb (chr_eqb a c)) r with (v, _ :: _) => v | (_, []) => [] end
          else procInst f param r
      | _ => []
      end
  end.
Definition declaration_ok (content : list ascii) : bool :=
  let ver := of_bytes (procInst (S (length content)) (bytes_of "version=") content) in
  let enc := of_bytes (procInst (S (length content)) (bytes_of "encoding=") content) in
  (str_empty ver || str_eqb ver "1.0") && (str_empty enc || str_eqb (ToLower enc) "utf-8").
Fixpoint instruction_text (b0 : ascii) (l : list ascii) : option (list ascii * list ascii) :=
  match l with
  | [] => None
  | b :: l' => if is_chr 63 b0 && is_chr 62 b then Some ([], l') else push [b] (instruction_text b l')
  end.
(** Behind [<?]. *)
Definition instruction (l : list ascii) : option (list ascii) :=
  let (target, r) := span name_byte l in
  if negb (isName target) then None
  else match instruction_text NUL (skip_ws r) with
       | Some (d, r') =>
           let content := take (length d - 1) d in
           if str_eqb (of_bytes target) "xml" && negb (declaration_ok content) then None else Some r'
       | None => None
       end.
Fixpoint directive_comment (b0 b1 : ascii) (l : list ascii) : option (list ascii) :=
  match l with
  | [] => None
  | b :: l' =>
      if is_chr 45 b0 && is_chr 45 b1 && is_chr 62 b then Some l' else directive_comment b1 b l'
  end.
Fixpoint directive (fuel : nat) (inquote : option ascii) (depth : nat) (l : list ascii) : option (list ascii) :=
  match fuel, l with
  | S f, b :: l' =>
      match inquote with
      | Some q => directive f (if chr_eqb b q then None else Some q) depth l'
      | None =>
          if is_chr 62 b then match depth with O => Some l' | S d => directive f None d l' end
          else if is_quote b then directive f (Some b) depth l'
          else if is_chr 60 b then
            match strip (bytes_of "!--") l' with
            | Some r => match directive_comment NUL NUL r with Some r' => directive f None depth r' | None => None end
            | None => directive f None (S depth) l'
            end
          else directive f None depth l'
      end
  | _, _ => None
  end.
(** Behind [<!]: the character data, and what follows. *)
Definition exclamation (l : list ascii) : option (list ascii * list ascii) :=
  match l with
  | [] => None
  | b :: l' =>
      if is_chr 45 b then
        match l' with
        | c :: r => if is_chr 45 c then option_map (pair []) (comment NUL NUL r) else None
        | [] => None
        end
      else if is_chr 91 b then
        match strip (bytes_of "CDATA[") l' with
        | Some r => cdata r
        | None => None
        end
      else option_map (pair []) (directive (S (length l')) None 0 l')
  end.

(** ** Tags and elements *)
Fixpoint attributes (fuel : nat) (l : list ascii) : option (list (string * string) * bool * list ascii) :=
  match fuel with
  | O => None
  | S f =>
      match skip_ws l with
      | [] => None
      | b :: r =>
          if is_chr 47 b then
            match r with c :: r' => if is_chr 62 c then Some ([], true, r') else None | [] => None end
          else if is_chr 62 b then Some ([], false, r)
          else match nsname (b :: r) with
               | None => None
               | Some (n, r1) =>
                   match skip_ws r1 with
                   | [] => None
                   | e :: r2 =>
                       if negb (is_chr 61 e) then None
                       else match skip_ws r2 with
                            | [] => None
                            | q :: r3 =>
                                if negb (is_quote q) then None
                                else match char_data (Some q) r3 with
                                     | None => None
                                     | Some (v, r4) =>
                                         match attributes f r4 with
                                         | Some (attrs, empty, rest) =>
                                             Some ((local_name n, of_bytes v) :: attrs, empty, rest)
                                         | None => None
                                         end
                                     end
                            end
                   end
               end
      end
  end.
(** Behind [<]: the name, the attributes, whether the element ends here, and what follows. *)
Definition start_tag (l : list ascii) : option (list ascii * list (string * string) * bool * list ascii) :=
  match nsname l with
  | None => None
  | Some (n, r) =>
      match attributes (S (length r)) r with
      | Some (attrs, empty, rest) => Some (n, attrs, empty, rest)
      | None => None
      end
  end.
(** Behind [</], for the element that is open. *)
Definition end_tag (opened l : list ascii) : option (list ascii) :=
  match nsname l with
  | None => None
  | Some (n, r) =>
      match skip_ws r with
      | b :: r' => if is_chr 62 b && bool_decide (n = opened) then Some r' else None
      | [] => None
      end
  end.
(** The character data and the elements up to the next end tag that belongs to none of them;
    what follows its [</]. *)
Definition more_text (d : list ascii) (r : option (list ascii * list xml * list ascii))
  : option (list ascii * list xml * list ascii) :=
  match r with Some (t, es, rest) => Some (d ++ t, es, rest) | None => None end.
Fixpoint children (fuel : nat) (l : list ascii) : option (list ascii * list xml * list ascii) :=
  match fuel with
  | O => None
  | S f =>
      match char_data None l with
      | Some (d, _ :: b :: r) =>
          more_text d (
          if is_chr 47 b then Some ([], [], r)
          else if is_chr 63 b then match instruction r with Some r' => children f r' | None => None end
          else if is_chr 33 b then match exclamation r with Some (t, r') => more_text t (children f r') | None => None end
          else match start_tag (b :: r) with
               | None => None
               | Some (n, attrs, true, r') =>
                   match children f r' with
                   | Some (t, es, rest) => Some (t, Elem (local_name n) attrs "" [] :: es, rest)
                   | None => None
                   end
               | Some (n, attrs, false, r') =>
                   match children f r' with
                   | None => None
                   | Some (words, kids, r2) =>
                       match end_tag n r2 with
                       | None => None
                       | Some r3 =>
                           match children f r3 with
                           | Some (t, es, rest) => Some (t, Elem (local_name n) attrs (of_bytes words) kids :: es, rest)
                           | None => None
                           end
                       end
                   end
               end)
      | _ => None
      end
  end.
(** The first element of a text. *)
Fixpoint first_element (fuel : nat) (l : list ascii) : option xml :=
  match fuel with
  | O => None
  | S f =>
      match char_data None l with
      | Some (_, _ :: b :: r) =>
          if is_chr 47 b then None
          else if is_chr 63 b then match instruction r with Some r' => first_element f r' | None => None end
          else if is_chr 33 b then match exclamation r with Some (_, r') => first_element f r' | None => None end
          else match start_tag (b :: r) with
               | None => None
               | Some (n, attrs, true, _) => Some (Elem (local_name n) attrs "" [])
               | Some (n, attrs, false, r') =>
                   match children f r' with
                   | Some (words, kids, r2) =>
                       match end_tag n r2 with
                       | Some _ => Some (Elem (local_name n) attrs (of_bytes words) kids)
                       | None => None
                       end
                   | None => None
                   end
               end
      | _ => None
      end
  end.
Definition document (s : string) : option xml := first_element (S (length (bytes_of s))) (bytes_of s).
End Decoder.

(** * What is escaped is read back *)
(** A text with what XML cannot hold replaced, as [EscapeText] does. *)
Fixpoint xclean (l : list ascii) : list ascii :=
  match l with
  | [] => []
  | a :: l1 =>
      if ascii_byte a then (if char_ok a then [a] else replacement) ++ xclean l1
      else
        let bad := replacement ++ xclean l1 in
        match l1 with
        | [] => bad
        | b :: l2 =>
            if rune2 a b then a :: b :: xclean l2
            else match l2 with
                 | [] => bad
                 | c :: l3 =>
                     if rune3 a b c then (if noncharacter a b c then replacement else [a; b; c]) ++ xclean l3
                     else match l3 with
                          | [] => bad
                          | d :: l4 => if rune4 a b c d then a :: b :: c :: d :: xclean l4 else bad
                          end
                 end
        end
  end.
Definition sanitized (s : string) : string := of_bytes (xclean (bytes_of s)).

(** Texts that XML can hold. *)
Inductive xml_chars : list ascii -> Prop :=
  | xml_nil : xml_chars []
  | xml_1 a l : ascii_byte a = true -> char_ok a = true -> xml_chars l -> xml_chars (a :: l)
  | xml_2 a b l : rune2 a b = true -> xml_chars l -> xml_chars (a :: b :: l)
  | xml_3 a b c l : rune3 a b c = true -> noncharacter a b c = false -> xml_chars l -> xml_chars (a :: b :: c :: l)
  | xml_4 a b c d l : rune4 a b c d = true -> xml_chars l -> xml_chars (a :: b :: c :: d :: l).

Lemma replacement_chars l : xml_chars l -> xml_chars (replacement ++ l).
Proof. intros H. by apply xml_3. Qed.
Lemma xclean_chars l : xml_chars (xclean l).
Proof.
  remember (length l) as n eqn:En. revert l En. induction n as [n IH] using lt_wf_ind. intros l ->.
  destruct l as [|a l1]; [constructor|]. cbn [xclean].
  assert (xml_chars (xclean l1)) as H1 by (by apply (IH (length l1)); [cbn; lia|]).
  destruct (ascii_byte a) eqn:Ea.
  - destruct (char_ok a) eqn:Ec; [by apply xml_1|by apply replacement_chars].
  - pose proof (replacement_chars _ H1) as Hbad. destruct l1 as [|b l2]; [done|].
    destruct (rune2 a b) eqn:E2; [apply xml_2; [done|]; by apply (IH (length l2)); [cbn; lia|]|].
    destruct l2 as [|c l3]; [done|]. destruct (rune3 a b c) eqn:E3.
    { assert (xml_chars (xclean l3)) as H3 by (by apply (IH (length l3)); [cbn; lia|]).
      destruct (noncharacter a b c) eqn:En; [by apply replacement_chars|by apply xml_3]. }
    destruct l3 as [|d l4]; [done|]. destruct (rune4 a b c d) eqn:E4; [|done].
    apply xml_4; [done|]. by apply (IH (length l4)); [cbn; lia|].
Qed.
(** A text that XML can hold is left alone. *)
Lemma xclean_id l : chars_ok l = true -> xclean l = l.
Proof.
  remember (length l) as n eqn:En. revert l En. induction n as [n IH] using lt_wf_ind. intros l ->.
  destruct l as [|a l1]; [done|]. cbn [chars_ok xclean]. destruct (ascii_byte a).
  { intros [-> H]%andb_true_iff. cbn [app]. f_equal. by apply (IH (length l1)); [cbn; lia|done..]. }
  destruct l1 as [|b l2]; [done|]. destruct (rune2 a b).
  { intros H. do 2 f_equal. by apply (IH (length l2)); [cbn; lia|done..]. }
  destruct l2 as [|c l3]; [done|]. destruct (rune3 a b c).
  { intros [Hn H]%andb_true_iff. apply negb_true_iff in Hn as ->. cbn [app]. do 3 f_equal.
    by apply (IH (length l3)); [cbn; lia|done..]. }
  destruct l3 as [|d l4]; [done|]. destruct (rune4 a b c d); [|done].
  intros H. do 4 f_equal. by apply (IH (length l4)); [cbn; lia|done..].
Qed.
Lemma sanitized_id s : chars_ok (bytes_of s) = true -> sanitized s = s.
Proof. intros H. unfold sanitized. rewrite xclean_id by done. apply of_bytes_of. Qed.
Lemma chars_ok_of l : xml_chars l -> chars_ok l = true.
Proof.
  induction 1 as [|a l Ha Hc _ IH|a b l H2 _ IH|a b c l H3 Hn _ IH|a b c d l H4 _ IH]; cbn [chars_ok]; [done|..].
  - by rewrite Ha, Hc.
  - by rewrite (rune2_not_ascii _ _ H2), H2.
  - destruct (rune3_not_ascii _ _ _ H3) as [-> ->]. by rewrite H3, Hn.
  - destruct (rune4_not_ascii _ _ _ _ H4) as (-> & -> & ->). by rewrite H4.
Qed.
(** Escaping does not see the replacement. *)
Lemma xesc_replacement l : xesc (replacement ++ l) = replacement ++ xesc l.
Proof. reflexivity. Qed.
Lemma xesc_xclean l : xesc (xclean l) = xesc l.
Proof.
  remember (length l) as n eqn:En. revert l En. induction n as [n IH] using lt_wf_ind. intros l ->.
  destruct l as [|a l1]; [done|].
  assert (xesc (xclean l1) = xesc l1) as H1 by (by apply (IH (length l1)); [cbn; lia|]).
  assert (forall x, x = xclean l1 -> xesc (replacement ++ x) = replacement ++ xesc l1) as Hbad
    by (intros x ->; by rewrite xesc_replacement, H1).
  cbn [xclean]. destruct (ascii_byte a) eqn:Ea.
  - destruct (char_ok a) eqn:Ec.
    + cbn [app xesc]. by rewrite Ea, H1.
    + rewrite xesc_replacement, H1. cbn [xesc]. rewrite Ea. f_equal. unfold xesc_ascii, char_ok in *.
      repeat match goal with |- context [?x =? ?y] => destruct (Nat.eqb_spec x y); try (exfalso; revert Ec; by
        repeat match goal with E : byte_val a = _ |- _ => rewrite E; clear E end) end.
      destruct (Nat.ltb_spec (byte_val a) 32); [done|]. exfalso. revert Ec.
      destruct (Nat.leb_spec 32 (byte_val a)); [by rewrite !orb_true_r|lia].
  - cbn [xesc]. rewrite Ea. destruct l1 as [|b l2]; [by apply Hbad|].
    destruct (rune2 a b) eqn:E2.
    { cbn [xesc]. rewrite Ea, E2. by rewrite (IH (length l2)) by (cbn; lia). }
    destruct l2 as [|c l3]; [by apply Hbad|]. destruct (rune3 a b c) eqn:E3.
    { destruct (noncharacter a b c) eqn:En.
      - rewrite xesc_replacement. f_equal. by apply (IH (length l3)); [cbn; lia|].
      - cbn [xesc app]. rewrite Ea, E2, E3, En. cbn [app]. by rewrite (IH (length l3)) by (cbn; lia). }
    destruct l3 as [|d l4]; [by apply Hbad|]. destruct (rune4 a b c d) eqn:E4; [|by apply Hbad].
    cbn [xesc]. rewrite Ea, E2, E3, E4. by rewrite (IH (length l4)) by (cbn; lia).
Qed.

(** ** Text *)
(** The end of a text: the quote around it, or the next tag. *)
Inductive ends : option ascii -> list ascii -> list ascii -> Prop :=
  | ends_quote q r : is_quote q = true -> ends (Some q) (q :: r) r
  | ends_tag r : ends None (chr 60 :: r) (chr 60 :: r).
Definition plain_byte (b : ascii) : bool :=
  negb (is_chr 60 b || is_chr 62 b || is_chr 38 b || is_chr 34 b || is_chr 39 b || is_chr 13 b || is_chr 10 b).
Lemma text_plain f q b0 b1 b l : plain_byte b = true -> (forall c, q = Some c -> is_quote c = true) ->
  text (S f) q b0 b1 (b :: l) = push [b] (text f q b1 b l).
Proof.
  intros Hb Hq. unfold plain_byte in Hb. rewrite negb_true_iff, !orb_false_iff in Hb.
  destruct Hb as [[[[[[H60 H62] H38] H34] H39] H13] H10]. cbn [text]. rewrite H62, H60, H38, H13, H10, !andb_false_r.
  rewrite bool_decide_eq_false_2; [done|]. intros ->. specialize (Hq b eq_refl). unfold is_quote in Hq.
  by rewrite H34, H39 in Hq.
Qed.
Lemma text_entity f q b0 b1 t c r l : (forall c, q = Some c -> is_quote c = true) ->
  l = chr 38 :: t ++ r -> entity (t ++ r) = Some (c, r) ->
  text (S f) q b0 b1 l = push c (text f q NUL NUL r).
Proof.
  intros Hq -> He. cbn [text]. change (is_chr 62 (chr 38)) with false. change (is_chr 60 (chr 38)) with false.
  change (is_chr 38 (chr 38)) with true. rewrite !andb_false_r, He. rewrite bool_decide_eq_false_2; [done|].
  intros ->. by specialize (Hq _ eq_refl).
Qed.
Lemma push_app a b r : push a (push b r) = push (a ++ b) r.
Proof. destruct r as [[x y]|]; [|done]. cbn. by rewrite app_assoc. Qed.
Lemma high_plain b : 128 <= byte_val b -> plain_byte b = true.
Proof.
  intros H. unfold plain_byte, is_chr.
  repeat match goal with |- context [?x =? ?y] => destruct (Nat.eqb_spec x y); [lia|] end. done.
Qed.
Lemma rune_high lo hi a : in_range lo hi a = true -> 128 <= lo -> 128 <= byte_val a.
Proof. unfold in_range. rewrite andb_true_iff, !Nat.leb_le. lia. Qed.
Ltac high := match goal with
  | H : cont ?a = true |- 128 <= byte_val ?a => by apply (rune_high 128 191)
  | H : in_range ?x ?y ?a = true |- 128 <= byte_val ?a => apply (rune_high x y a H); lia
  | H : (byte_val ?a =? _) = true |- 128 <= byte_val ?a => apply Nat.eqb_eq in H; rewrite H; lia
  end.
Lemma rune2_high a b : rune2 a b = true -> 128 <= byte_val a /\ 128 <= byte_val b.
Proof. unfold rune2. rewrite andb_true_iff. intros [? ?]. split; high. Qed.
Lemma rune3_high a b c : rune3 a b c = true -> 128 <= byte_val a /\ 128 <= byte_val b /\ 128 <= byte_val c.
Proof.
  unfold rune3. rewrite andb_true_iff, !orb_true_iff, !andb_true_iff.
  intros [? [[[[? ?]|[? ?]]|[? ?]]|[? ?]]]; (split; [high|split; high]).
Qed.
Lemma rune4_high a b c d : rune4 a b c d = true ->
  128 <= byte_val a /\ 128 <= byte_val b /\ 128 <= byte_val c /\ 128 <= byte_val d.
Proof.
  unfold rune4. rewrite !andb_true_iff, !orb_true_iff, !andb_true_iff.
  intros [[? ?] [[[? ?]|[? ?]]|[? ?]]]; (split; [high|split; [high|split; high]]).
Qed.
Lemma text_end q b0 b1 l r f : ends q l r -> text (S f) q b0 b1 l = Some ([], r).
Proof.
  intros [q' r' Hq|r']; cbn [text].
  - unfold is_quote, is_chr in *. destruct (Nat.eqb_spec (byte_val q') 60) as [E|]; [by rewrite E in Hq|].
    cbn [negb andb]. by rewrite bool_decide_eq_true_2.
  - change (is_chr 62 (chr 60)) with false. change (is_chr 60 (chr 60)) with true. by rewrite !andb_false_r.
Qed.
Lemma ends_quoted q l r c : ends q l r -> q = Some c -> is_quote c = true.
Proof. by intros [] [= <-]. Qed.
Lemma ends_longer q l r : ends q l r -> 0 < length l.
Proof. intros []; cbn; lia. Qed.
Lemma xesc_ascii_reads a f q b0 b1 rest : ascii_byte a = true -> char_ok a = true ->
  (forall c, q = Some c -> is_quote c = true) ->
  exists c0 c1, text (S f) q b0 b1 (xesc_ascii a ++ rest) = push [a] (text f q c0 c1 rest).
Proof.
  intros Ha Hc Hq. unfold xesc_ascii.
  repeat match goal with
  | |- context [if (byte_val a =? ?n) then _ else _] =>
      destruct (Nat.eqb_spec (byte_val a) n) as [E|?];
        [exists NUL, NUL; rewrite <- (chr_byte_val a), E; by eapply text_entity|]
  end.
  unfold char_ok in Hc. rewrite !orb_true_iff, !Nat.eqb_eq, Nat.leb_le in Hc.
  destruct (Nat.ltb_spec (byte_val a) 32); [lia|]. exists b1, a. apply text_plain; [|done].
  unfold plain_byte, is_chr.
  repeat match goal with |- context [?x =? ?y] => destruct (Nat.eqb_spec x y); [lia|] end. done.
Qed.
Lemma text_xesc l q stop r : xml_chars l -> ends q stop r ->
  forall f b0 b1, length (xesc l ++ stop) <= f -> text f q b0 b1 (xesc l ++ stop) = Some (l, r).
Proof.
  intros Hl He. pose proof (fun c => ends_quoted q stop r c He) as Hq. pose proof (ends_longer q stop r He) as Hlen.
  induction Hl as [|a l Ha Hc _ IH|a b l H2 _ IH|a b c l H3 Hn _ IH|a b c d l H4 _ IH]; intros f b0 b1 Hf.
  - destruct f as [|f]; [cbn in Hf; lia|]. by apply text_end.
  - cbn [xesc] in *. rewrite Ha in *. rewrite <- app_assoc in *. destruct f as [|f]; [rewrite !length_app in Hf; lia|].
    destruct (xesc_ascii_reads a f q b0 b1 (xesc l ++ stop) Ha Hc Hq) as (c0 & c1 & ->). rewrite IH; [done|].
    rewrite length_app in Hf. assert (0 < length (xesc_ascii a)); [|lia].
    unfold xesc_ascii. repeat case_match; cbn; lia.
  - cbn [xesc] in *. rewrite (rune2_not_ascii _ _ H2), H2 in *. destruct (rune2_high _ _ H2).
    cbn [app length] in *. do 2 (destruct f as [|f]; [lia|]).
    rewrite !text_plain by (try done; by apply high_plain). rewrite push_app, IH by lia. done.
  - cbn [xesc] in *. destruct (rune3_not_ascii _ _ _ H3) as [Ea E2]. rewrite Ea, E2, H3, Hn in *.
    destruct (rune3_high _ _ _ H3) as (? & ? & ?). cbn [app length] in *. do 3 (destruct f as [|f]; [lia|]).
    rewrite !text_plain by (try done; by apply high_plain). rewrite !push_app, IH by lia. done.
  - cbn [xesc] in *. destruct (rune4_not_ascii _ _ _ _ H4) as (Ea & E2 & E3). rewrite Ea, E2, E3, H4 in *.
    destruct (rune4_high _ _ _ _ H4) as (? & ? & ? & ?). cbn [app length] in *. do 4 (destruct f as [|f]; [lia|]).
    rewrite !text_plain by (try done; by apply high_plain). rewrite !push_app, IH by lia. done.
Qed.
(** Whatever was escaped ends where it ends, and is what it was but for what XML cannot hold. *)
Lemma char_data_xesc l q stop r : ends q stop r -> char_data q (xesc l ++ stop) = Some (xclean l, r).
Proof.
  intros He. unfold char_data. rewrite <- (xesc_xclean l).
  rewrite (text_xesc (xclean l) q stop r (xclean_chars l) He) by lia. cbn [checked].
  by rewrite (chars_ok_of _ (xclean_chars l)).
Qed.

(** * Markup *)
(** What the Go code writes: elements with elements in them, and elements with text. *)
Inductive markup :=
  | Tag (name : string) (attrs : list (string * string)) (kids : list markup)
  | Leaf (name : string) (attrs : list (string * string)) (words : string).
Definition attr_text (a : string * string) : list ascii :=
  chr 32 :: bytes_of a.1 ++ chr 61 :: chr 39 :: xesc (bytes_of a.2) ++ [chr 39].
Definition close_text (n : string) : list ascii := chr 60 :: chr 47 :: bytes_of n ++ [chr 62].
Fixpoint print (m : markup) : list ascii :=
  match m with
  | Leaf n attrs w =>
      chr 60 :: bytes_of n ++ flat_map attr_text attrs ++ chr 62 :: xesc (bytes_of w) ++ close_text n
  | Tag n attrs kids =>
      chr 60 :: bytes_of n ++ flat_map attr_text attrs ++
      match kids with
      | [] => [chr 47; chr 62]
      | _ => chr 62 :: flat_map print kids ++ close_text n
      end
  end.
(** The element a decoder finds. *)
Definition clean_attr (a : string * string) : string * string := (a.1, sanitized a.2).
Fixpoint shape (m : markup) : xml :=
  match m with
  | Leaf n attrs w => Elem n (map clean_attr attrs) (sanitized w) []
  | Tag n attrs kids => Elem n (map clean_attr attrs) "" (map shape kids)
  end.

Definition plain_name (n : string) : bool :=
  match bytes_of n with [] => false | a :: _ => letter a || is_chr 95 a end
  && forallb (fun a => letter a || is_chr 95 a || is_digit a) (bytes_of n).
Fixpoint named (m : markup) : bool :=
  match m with
  | Leaf n attrs _ => plain_name n && forallb (fun a => plain_name a.1) attrs
  | Tag n attrs kids => plain_name n && forallb (fun a => plain_name a.1) attrs && forallb named kids
  end.
Fixpoint tags (m : markup) : nat :=
  match m with Leaf _ _ _ => 1 | Tag _ _ kids => S (sum_list_with tags kids) end.

Section Reads.
Context (unicode_name : list ascii -> bool).
Abbreviation nsname := (nsname unicode_name).
Abbreviation attributes := (attributes unicode_name).
Abbreviation start_tag := (start_tag unicode_name).
Abbreviation end_tag := (end_tag unicode_name).
Abbreviation children := (children unicode_name).

Lemma span_split p l r : Forall (fun a => p a = true) l -> match r with [] => True | a :: _ => p a = false end ->
  span p (l ++ r) = (l, r).
Proof.
  intros Hl Hr. induction Hl as [|a l Ha _ IH]; cbn [app].
  - destruct r as [|a r]; [done|]. cbn [span]. by rewrite Hr.
  - cbn [span]. by rewrite Ha, IH.
Qed.
Lemma plain_chr a : letter a || is_chr 95 a || is_digit a = true ->
  name_byte a = true /\ ascii_byte a = true /\ is_chr 58 a = false.
Proof.
  unfold name_byte, name_first, letter, is_digit, in_range, is_chr, ascii_byte.
  rewrite !orb_true_iff, !andb_true_iff, Nat.eqb_eq, !Nat.leb_le, Nat.eqb_neq, Nat.ltb_lt.
  intros H. split; [tauto|lia].
Qed.
Lemma plain_nsname n r : plain_name n = true -> match r with [] => True | a :: _ => name_byte a = false end ->
  nsname (bytes_of n ++ r) = Some (bytes_of n, r) /\ local_name (bytes_of n) = n.
Proof.
  unfold plain_name. intros [Hh Hall]%andb_true_iff Hr.
  assert (Forall (fun a => letter a || is_chr 95 a || is_digit a = true) (bytes_of n)) as Hf.
  { apply Forall_forall. intros a Ha%list_elem_of_In. by eapply forallb_forall in Hall. }
  assert (Forall (fun a => name_byte a = true) (bytes_of n)) as Hn by (eapply Forall_impl; [exact Hf|]; intros a Ha; by apply plain_chr).
  assert (Forall (fun a => negb (is_chr 58 a) = true) (bytes_of n)) as Hc
    by (eapply Forall_impl; [exact Hf|]; intros a Ha; cbn; by rewrite (proj2 (proj2 (plain_chr a Ha)))).
  split.
  - unfold GoXml.nsname. rewrite (span_split _ _ _ Hn Hr).
    assert (isName unicode_name (bytes_of n) = true) as ->.
    { unfold isName. destruct (bytes_of n) as [|a l] eqn:E; [done|].
      assert (forallb ascii_byte (a :: l) = true) as ->.
      { apply forallb_forall. intros x Hx%list_elem_of_In. rewrite Forall_forall in Hf. by apply plain_chr, Hf. }
      unfold name_first. by rewrite Hh. }
    assert (colons (bytes_of n) = 0) as ->; [|done]. unfold colons.
    clear - Hc. induction Hc as [|a l Ha _ IH]; [done|]. cbn [List.filter]. apply negb_true_iff in Ha. by rewrite Ha.
  - unfold local_name. pose proof (span_split (fun a => negb (is_chr 58 a)) (bytes_of n) [] Hc I) as Es.
    rewrite app_nil_r in Es. rewrite Es. by destruct (bytes_of n) eqn:E; rewrite <- E, of_bytes_of.
Qed.
Lemma skip_ws_stop b l : ws b = false -> skip_ws (b :: l) = b :: l.
Proof. intros H. cbn. by rewrite H. Qed.
Lemma skip_ws_name n l : plain_name n = true -> skip_ws (bytes_of n ++ l) = bytes_of n ++ l.
Proof.
  unfold plain_name. intros [Hh _]%andb_true_iff. destruct (bytes_of n) as [|a x]; [done|]. apply skip_ws_stop.
  revert Hh. unfold letter, in_range, is_chr, ws. rewrite !orb_true_iff, !andb_true_iff, !Nat.leb_le, Nat.eqb_eq.
  intros H. repeat match goal with |- context [?u =? ?v] => destruct (Nat.eqb_spec u v); [lia|] end. done.
Qed.
(** The end of a start tag. *)
Inductive tag_end : bool -> list ascii -> list ascii -> Prop :=
  | tag_empty r : tag_end true (chr 47 :: chr 62 :: r) r
  | tag_open r : tag_end false (chr 62 :: r) r.
Lemma plain_head n : plain_name n = true -> exists a l, bytes_of n = a :: l /\ (letter a || is_chr 95 a = true).
Proof.
  unfold plain_name. intros [Hh _]%andb_true_iff. destruct (bytes_of n) as [|a l]; [done|]. by exists a, l.
Qed.
Lemma plain_not_special a : letter a || is_chr 95 a = true ->
  is_chr 47 a = false /\ is_chr 63 a = false /\ is_chr 33 a = false /\ is_chr 62 a = false.
Proof.
  unfold letter, in_range, is_chr. rewrite !orb_true_iff, !andb_true_iff, !Nat.leb_le, Nat.eqb_eq, !Nat.eqb_neq. lia.
Qed.
Lemma attributes_print attrs e stop r : forallb (fun a => plain_name a.1) attrs = true -> tag_end e stop r ->
  forall f, length attrs < f ->
  attributes f (flat_map attr_text attrs ++ stop) = Some (map clean_attr attrs, e, r).
Proof.
  intros Ha He. induction attrs as [|[n v] attrs IH]; intros f Hf.
  - destruct f as [|f]; [lia|]. by destruct He.
  - cbn [forallb fst] in Ha. apply andb_true_iff in Ha as [Hn Ha]. destruct f as [|f]; [lia|].
    cbn [flat_map length] in *. rewrite <- app_assoc. set (more := flat_map attr_text attrs ++ stop).
    assert (attr_text (n, v) ++ more = chr 32 :: bytes_of n ++ chr 61 :: chr 39 :: xesc (bytes_of v) ++ chr 39 :: more) as ->
      by (unfold attr_text; cbn [fst snd app]; do 2 (rewrite <- app_assoc; cbn [app]); done).
    assert (forall l, attributes (S f) (chr 32 :: l) = attributes (S f) l) as -> by reflexivity.
    cbn [GoXml.attributes]. rewrite (skip_ws_name n) by done.
    destruct (plain_nsname n (chr 61 :: chr 39 :: xesc (bytes_of v) ++ chr 39 :: more) Hn eq_refl) as [Hns Hloc].
    destruct (plain_head n Hn) as (a & l & Ea & Hl).
    destruct (plain_not_special a Hl) as (H47 & _ & _ & H62).
    rewrite Ea in Hns |- *. cbn [app] in Hns |- *. rewrite H47, H62, Hns, <- Ea, Hloc.
    rewrite (skip_ws_stop (chr 61)) by done. change (negb (is_chr 61 (chr 61))) with false. cbv iota.
    rewrite (skip_ws_stop (chr 39)) by done. change (negb (is_quote (chr 39))) with false. cbv iota.
    rewrite (char_data_xesc (bytes_of v) (Some (chr 39)) (chr 39 :: more) more) by (by apply ends_quote).
    unfold more. rewrite IH by (done || lia). done.
Qed.
Lemma tag_end_head e stop r : tag_end e stop r -> match stop with [] => True | a :: _ => name_byte a = false end.
Proof. by intros []. Qed.
Lemma start_tag_print n attrs e stop r :
  plain_name n = true -> forallb (fun a => plain_name a.1) attrs = true -> tag_end e stop r ->
  start_tag (bytes_of n ++ flat_map attr_text attrs ++ stop) = Some (bytes_of n, map clean_attr attrs, e, r).
Proof.
  intros Hn Ha He. unfold GoXml.start_tag.
  destruct (plain_nsname n (flat_map attr_text attrs ++ stop) Hn) as [Hns _].
  { destruct attrs; [cbn; by eapply tag_end_head|done]. }
  rewrite Hns. rewrite (attributes_print attrs e stop r Ha He); [done|].
  rewrite length_app. assert (length attrs <= length (flat_map attr_text attrs)); [|lia].
  clear. induction attrs as [|a l IH]; [done|]. cbn [flat_map]. rewrite length_app. cbn [length attr_text]. lia.
Qed.
Lemma end_tag_print n r : plain_name n = true -> end_tag (bytes_of n) (bytes_of n ++ chr 62 :: r) = Some r.
Proof.
  intros Hn. unfold GoXml.end_tag. destruct (plain_nsname n (chr 62 :: r) Hn eq_refl) as [-> _].
  rewrite skip_ws_stop by done. by rewrite bool_decide_eq_true_2.
Qed.
Lemma char_data_tag r : char_data None (chr 60 :: r) = Some ([], chr 60 :: r).
Proof. exact (char_data_xesc [] None _ _ (ends_tag r)). Qed.
(** The next tag, whatever text comes before it. *)
Lemma more_text_nil r : more_text [] r = r.
Proof. by destruct r as [[[t es] rest]|]. Qed.
Lemma more_text_text d r : more_text d r = more_text d (more_text [] r).
Proof. by rewrite more_text_nil. Qed.
Lemma children_text w f r :
  children (S f) (xesc w ++ chr 60 :: r) = more_text (xclean w) (children (S f) (chr 60 :: r)).
Proof.
  cbn [GoXml.children]. rewrite char_data_tag, (char_data_xesc w None _ _ (ends_tag r)).
  destruct r as [|b r]; [done|]. apply more_text_text.
Qed.
Lemma children_close f r : children (S f) (chr 60 :: chr 47 :: r) = Some ([], [], r).
Proof. cbn [GoXml.children]. by rewrite char_data_tag. Qed.
Definition tag_head (n : string) (attrs : list (string * string)) (stop : list ascii) : list ascii :=
  chr 60 :: bytes_of n ++ flat_map attr_text attrs ++ stop.
Lemma children_tag f n attrs e stop r :
  plain_name n = true -> forallb (fun a => plain_name a.1) attrs = true -> tag_end e stop r ->
  children (S f) (tag_head n attrs stop) =
  if e : bool then
    match children f r with
    | Some (t, es, rest) => Some (t, Elem n (map clean_attr attrs) "" [] :: es, rest)
    | None => None
    end
  else
    match children f r with
    | None => None
    | Some (words, kids, r2) =>
        match end_tag (bytes_of n) r2 with
        | None => None
        | Some r3 =>
            match children f r3 with
            | Some (t, es, rest) => Some (t, Elem n (map clean_attr attrs) (of_bytes words) kids :: es, rest)
            | None => None
            end
        end
    end.
Proof.
  intros Hn Ha He. unfold tag_head. cbn [GoXml.children]. rewrite char_data_tag.
  pose proof (start_tag_print n attrs e stop r Hn Ha He) as Hs.
  destruct (plain_nsname n [] Hn I) as [_ Hloc]. destruct (plain_head n Hn) as (a & l & Ea & Hl).
  destruct (plain_not_special a Hl) as (H47 & H63 & H33 & _).
  rewrite Ea in Hs |- *. cbn [app] in Hs |- *. rewrite H47, H63, H33, Hs, <- Ea, Hloc.
  rewrite more_text_nil. by destruct e.
Qed.
Lemma children_print ms : forallb named ms = true ->
  forall f rest, sum_list_with tags ms < f ->
  children f (flat_map print ms ++ chr 60 :: chr 47 :: rest) = Some ([], map shape ms, rest).
Proof.
  remember (sum_list_with tags ms) as n eqn:En. revert ms En. induction n as [n IH] using lt_wf_ind.
  intros ms -> Hms f rest Hf. destruct f as [|f]; [lia|].
  destruct ms as [|m ms]; [apply children_close|]. cbn [forallb] in Hms. apply andb_true_iff in Hms as [Hm Hms].
  set (more := flat_map print ms ++ chr 60 :: chr 47 :: rest).
  assert (forall f', sum_list_with tags ms < f' -> children f' more = Some ([], map shape ms, rest)) as Hmore.
  { intros f' Hf'. apply (IH (sum_list_with tags ms)); [|done..]. cbn. destruct m; cbn; lia. }
  cbn [flat_map map]. rewrite <- app_assoc. fold more. destruct m as [name attrs kids|name attrs w]; cbn [named] in Hm.
  - apply andb_true_iff in Hm as [[Hn Ha]%andb_true_iff Hk]. cbn [sum_list_with tags] in Hf, IH.
    destruct kids as [|kid kids].
    + assert (print (Tag name attrs []) ++ more = tag_head name attrs (chr 47 :: chr 62 :: more)) as ->
        by (cbn [print]; unfold tag_head; cbn [app]; by rewrite <- !app_assoc).
      rewrite (children_tag f name attrs _ _ _ Hn Ha (tag_empty more)). by rewrite Hmore by (cbn in Hf; lia).
    + set (ks := kid :: kids) in *.
      assert (print (Tag name attrs ks) ++ more = tag_head name attrs (chr 62 :: flat_map print ks
        ++ chr 60 :: chr 47 :: bytes_of name ++ chr 62 :: more)) as ->.
      { cbn [print ks]. unfold tag_head, close_text. fold ks. cbn [app]. do 3 (rewrite <- ?app_assoc; cbn [app]). done. }
      rewrite (children_tag f name attrs _ _ _ Hn Ha (tag_open _)).
      rewrite (IH (sum_list_with tags ks)) by (done || lia). rewrite end_tag_print by done.
      by rewrite Hmore by lia.
  - apply andb_true_iff in Hm as [Hn Ha]. cbn [sum_list_with tags] in Hf.
    assert (print (Leaf name attrs w) ++ more = tag_head name attrs (chr 62 :: xesc (bytes_of w)
      ++ chr 60 :: chr 47 :: bytes_of name ++ chr 62 :: more)) as ->.
    { cbn [print]. unfold tag_head, close_text. cbn [app]. do 3 (rewrite <- ?app_assoc; cbn [app]). done. }
    rewrite (children_tag f name attrs _ _ _ Hn Ha (tag_open _)). destruct f as [|f]; [lia|].
    rewrite children_text, children_close. cbn [more_text]. rewrite app_nil_r, end_tag_print by done. by rewrite Hmore by lia.
Qed.
Lemma tags_length m : tags m <= length (print m).
Proof.
  revert m. fix IH 1. intros [n attrs kids|n attrs w]; cbn [tags print length]; [|lia].
  destruct kids as [|k ks]; [cbn; lia|]. set (l := k :: ks).
  assert (sum_list_with tags l <= length (flat_map print l)).
  { unfold l. generalize (k :: ks) as ms. induction ms as [|m ms IHm]; [done|]. cbn [sum_list_with flat_map].
    rewrite length_app. pose proof (IH m). lia. }
  rewrite !length_app. cbn [length]. rewrite length_app. lia.
Qed.
(** What is written is read as the elements that were meant. *)
Lemma document_print m : named m = true -> document unicode_name (of_bytes (print m)) = Some (shape m).
Proof.
  intros Hm. unfold document. rewrite bytes_of_of.
  pose proof (tags_length m) as Hlen.
  assert (forall f r name attrs e stop, plain_name name = true -> forallb (fun a => plain_name a.1) attrs = true ->
    tag_end e stop r -> first_element unicode_name (S f) (tag_head name attrs stop) =
    if e : bool then Some (Elem name (map clean_attr attrs) "" [])
    else match children f r with
         | Some (words, kids, r2) =>
             match end_tag (bytes_of name) r2 with
             | Some _ => Some (Elem name (map clean_attr attrs) (of_bytes words) kids)
             | None => None
             end
         | None => None
         end) as Hfirst.
  { clear. intros f r n attrs e stop Hn Ha He. unfold tag_head. cbn [first_element]. rewrite char_data_tag.
    pose proof (start_tag_print n attrs e stop r Hn Ha He) as Hs.
    destruct (plain_nsname n [] Hn I) as [_ Hloc]. destruct (plain_head n Hn) as (a & l & Ea & Hl).
    destruct (plain_not_special a Hl) as (H47 & H63 & H33 & _).
    rewrite Ea in Hs |- *. cbn [app] in Hs |- *. rewrite H47, H63, H33, Hs, <- Ea, Hloc. by destruct e. }
  set (len := length (print m)) in *. destruct m as [name attrs kids|name attrs w]; cbn [named] in Hm.
  - apply andb_true_iff in Hm as [[Hn Ha]%andb_true_iff Hk]. destruct kids as [|kid kids].
    + exact (Hfirst len [] name attrs true _ Hn Ha (tag_empty [])).
    + set (ks := kid :: kids) in *. cbn [tags] in Hlen.
      assert (print (Tag name attrs ks) = tag_head name attrs (chr 62 :: flat_map print ks
        ++ chr 60 :: chr 47 :: bytes_of name ++ [chr 62])) as -> by done.
      rewrite (Hfirst len _ name attrs false _ Hn Ha (tag_open _)).
      by rewrite children_print, end_tag_print by (done || lia).
  - apply andb_true_iff in Hm as [Hn Ha].
    assert (print (Leaf name attrs w) = tag_head name attrs (chr 62 :: xesc (bytes_of w)
      ++ chr 60 :: chr 47 :: bytes_of name ++ [chr 62])) as -> by done.
    rewrite (Hfirst len _ name attrs false _ Hn Ha (tag_open _)). cbn [tags] in Hlen. destruct len as [|len']; [lia|].
    rewrite children_text, children_close. cbn [more_text]. by rewrite app_nil_r, end_tag_print by done.
Qed.
End Reads.

(** ** Markup in front of a text *)
(** The same text with all appends to the right, as a writer makes it. *)
Definition attr_onto (a : string * string) (rest : list ascii) : list ascii :=
  chr 32 :: bytes_of a.1 ++ chr 61 :: chr 39 :: xesc (bytes_of a.2) ++ chr 39 :: rest.
Fixpoint print_onto (m : markup) (rest : list ascii) : list ascii :=
  match m with
  | Leaf n attrs w =>
      chr 60 :: bytes_of n ++ foldr attr_onto (chr 62 :: xesc (bytes_of w)
        ++ chr 60 :: chr 47 :: bytes_of n ++ chr 62 :: rest) attrs
  | Tag n attrs kids =>
      chr 60 :: bytes_of n ++ foldr attr_onto
        match kids with
        | [] => chr 47 :: chr 62 :: rest
        | _ => chr 62 :: foldr print_onto (chr 60 :: chr 47 :: bytes_of n ++ chr 62 :: rest) kids
        end attrs
  end.
Lemma attrs_onto attrs rest : foldr attr_onto rest attrs = flat_map attr_text attrs ++ rest.
Proof.
  induction attrs as [|a attrs IH]; [done|]. cbn [foldr flat_map]. rewrite IH, <- app_assoc. unfold attr_onto, attr_text.
  cbn [app]. rewrite <- app_assoc. cbn [app]. by rewrite <- app_assoc.
Qed.
Lemma print_onto_print m rest : print_onto m rest = print m ++ rest.
Proof.
  revert m rest. fix IH 1. intros [n attrs kids|n attrs w] rest; cbn [print_onto print app]; rewrite attrs_onto.
  - rewrite <- app_assoc, <- app_assoc. do 2 f_equal. f_equal. destruct kids as [|k ks]; [done|]. cbn [app]. f_equal.
    assert (forall ms r, foldr print_onto r ms = flat_map print ms ++ r) as ->.
    { induction ms as [|m ms IHm]; intros r; [done|]. cbn [foldr flat_map]. by rewrite IHm, IH, <- app_assoc. }
    unfold close_text. rewrite <- app_assoc. cbn [app]. by rewrite <- app_assoc.
  - rewrite <- !app_assoc. unfold close_text. cbn [app]. rewrite <- app_assoc. cbn [app]. by rewrite <- app_assoc.
Qed.
