(* ===== verification/GoEffect.v ===== *)
(** Programs that call code outside the repository: libvirt and docker on a slave, the
    orchestrator behind a page.  A program is the calls it makes and what it does with each
    answer; what the other side answers is left open, so that a theorem over all runs of a
    program holds whatever the other side does. *)
From stdpp Require Import base strings list.
From S2P Require Import Prelude.

(** The calls, and what comes back from each. *)
Record signature := mkSignature { op : Type; answer : op -> Type }.
Inductive prog (E : signature) (A : Type) : Type :=
  | Ret (a : A)
  | Call (o : op E) (k : answer E o -> prog E A).
Arguments Ret {E A} a.
Arguments Call {E A} o k.
Record event (E : signature) := mkEvent { ev_op : op E; ev_answer : answer E ev_op }.
Arguments mkEvent {E} ev_op ev_answer.
Arguments ev_op {E} e.
Arguments ev_answer {E} e.

Section Effect.
Context {E : signature}.
Fixpoint pbind {A B} (m : prog E A) (k : A -> prog E B) : prog E B :=
  match m with
  | Ret a => k a
  | Call o c => Call o (fun x => pbind (c x) k)
  end.
Definition call (o : op E) : prog E (answer E o) := Call o Ret.
(** [if err != nil { return ..., err }] *)
Definition ptry {A B} (m : prog E (result A)) (k : A -> prog E (result B)) : prog E (result B) :=
  pbind m (fun r => match r with Ok a => k a | Err e => Ret (Err e) end).
(** [defer cleanup()] before the rest of a function. *)
Definition deferred {A} (cleanup : prog E unit) (m : prog E A) : prog E A :=
  pbind m (fun a => pbind cleanup (fun _ => Ret a)).
Definition lift {A} (r : result A) : prog E (result A) := Ret r.

(** The calls of a run, with their answers, and its result. *)
Fixpoint ran {A} (m : prog E A) (tr : list (event E)) (a : A) : Prop :=
  match m with
  | Ret b => tr = [] /\ a = b
  | Call o k => exists x tr', tr = mkEvent o x :: tr' /\ ran (k x) tr' a
  end.
(** A run against a host with a state. *)
Fixpoint run {S A} (host : forall o, S -> answer E o * S) (m : prog E A) (s : S) : A * S * list (event E) :=
  match m with
  | Ret a => (a, s, [])
  | Call o k =>
      let (x, s') := host o s in
      let '(a, s2, tr) := run host (k x) s' in (a, s2, mkEvent o x :: tr)
  end.
Definition out {S A} (r : A * S * list (event E)) : A := fst (fst r).
Definition trace {S A} (r : A * S * list (event E)) : list (event E) := snd r.

Lemma run_ran {S A} (host : forall o, S -> answer E o * S) (m : prog E A) s :
  ran m (trace (run host m s)) (out (run host m s)).
Proof.
  revert s. induction m as [a|o k IH]; intros s; [done|]. cbn [run ran].
  destruct (host o s) as [x s']. specialize (IH x s'). destruct (run host (k x) s') as [[a s2] tr] eqn:Er.
  exists x, tr. done.
Qed.
Lemma ran_bind {A B} (m : prog E A) (k : A -> prog E B) tr b :
  ran (pbind m k) tr b <-> exists tr1 tr2 a, tr = tr1 ++ tr2 /\ ran m tr1 a /\ ran (k a) tr2 b.
Proof.
  revert tr. induction m as [a|o c IH]; intros tr; cbn [pbind ran].
  - split; [intros H; by exists [], tr, a|]. by intros (tr1 & tr2 & a' & -> & [-> ->] & H).
  - split.
    + intros (x & tr' & -> & H). apply IH in H as (tr1 & tr2 & a & -> & H1 & H2).
      exists (mkEvent o x :: tr1), tr2, a. split; [done|]. split; [by exists x, tr1|done].
    + intros (tr1 & tr2 & a & -> & (x & tr' & -> & H1) & H2). exists x, (tr' ++ tr2). split; [done|].
      apply IH. by exists tr', tr2, a.
Qed.
Lemma ran_call o tr x : ran (call o) tr x <-> tr = [mkEvent o x].
Proof. split; [by intros (x' & tr' & -> & -> & ->)|]. intros ->. by exists x, []. Qed.
Lemma ran_try {A B} (m : prog E (result A)) (k : A -> prog E (result B)) tr b :
  ran (ptry m k) tr b <->
  (exists e, b = Err e /\ ran m tr (Err e))
  \/ exists tr1 tr2 a, tr = tr1 ++ tr2 /\ ran m tr1 (Ok a) /\ ran (k a) tr2 b.
Proof.
  unfold ptry. rewrite ran_bind. split.
  - intros (tr1 & tr2 & [a|e] & -> & H1 & H2); [right; by exists tr1, tr2, a|].
    destruct H2 as [-> ->]. left. exists e. by rewrite app_nil_r.
  - intros [(e & -> & H)|(tr1 & tr2 & a & -> & H1 & H2)]; [|by exists tr1, tr2, (Ok a)].
    exists tr, [], (Err e). by rewrite app_nil_r.
Qed.
Lemma ran_deferred {A} (cleanup : prog E unit) (m : prog E A) tr a :
  ran (deferred cleanup m) tr a <-> exists tr1 tr2, tr = tr1 ++ tr2 /\ ran m tr1 a /\ ran cleanup tr2 tt.
Proof.
  unfold deferred. rewrite ran_bind. split.
  - intros (tr1 & tr2 & a' & -> & H1 & H2). apply ran_bind in H2 as (t1 & t2 & [] & -> & H2 & [-> ->]).
    exists tr1, t1. by rewrite app_nil_r.
  - intros (tr1 & tr2 & -> & H1 & H2). exists tr1, tr2, a. split; [done|]. split; [done|].
    apply ran_bind. exists tr2, [], tt. by rewrite app_nil_r.
Qed.
End Effect.

(** * Rules that a program keeps to

    A rule watches the calls of a run: in each state it allows some calls, and what comes
    back moves it to its next state.  [holds w m Q]: from the state [w] every run of [m] keeps
    to the rule and leaves it in a state that, with the result, satisfies [Q]. *)
Section Rule.
Context {E : signature} {W : Type}.
Context (allowed : W -> op E -> Prop) (seen : W -> event E -> W).
Fixpoint obeys (w : W) (tr : list (event E)) : Prop :=
  match tr with
  | [] => True
  | e :: tr' => allowed w (ev_op e) /\ obeys (seen w e) tr'
  end.
Definition after (w : W) (tr : list (event E)) : W := foldl seen w tr.
Definition holds {A} (w : W) (m : prog E A) (Q : W -> A -> Prop) : Prop :=
  forall tr a, ran m tr a -> obeys w tr /\ Q (after w tr) a.

Lemma obeys_app w tr1 tr2 : obeys w (tr1 ++ tr2) <-> obeys w tr1 /\ obeys (after w tr1) tr2.
Proof.
  revert w. induction tr1 as [|e tr1 IH]; intros w; cbn [app obeys]; [by split; [|intros [_ H]]|].
  rewrite IH. unfold after. cbn [foldl]. tauto.
Qed.
Lemma holds_ret {A} w (a : A) (Q : W -> A -> Prop) : Q w a -> holds w (Ret a) Q.
Proof. intros H tr b [-> ->]. done. Qed.
Lemma holds_bind {A B} w (m : prog E A) (k : A -> prog E B) (Q : W -> B -> Prop) :
  holds w m (fun w' a => holds w' (k a) Q) -> holds w (pbind m k) Q.
Proof.
  intros H tr b (tr1 & tr2 & a & -> & H1 & H2)%ran_bind. destruct (H tr1 a H1) as [Ho Hk].
  destruct (Hk tr2 b H2) as [Ho2 HQ]. rewrite obeys_app. unfold after in *. by rewrite foldl_app.
Qed.
Lemma holds_call w o (Q : W -> answer E o -> Prop) :
  allowed w o -> (forall x, Q (seen w (mkEvent o x)) x) -> holds w (call o) Q.
Proof. intros Ha HQ tr x ->%ran_call. split; [by split|]. apply HQ. Qed.
Lemma holds_try {A B} w (m : prog E (result A)) (k : A -> prog E (result B)) (Q : W -> result B -> Prop) :
  holds w m (fun w' r => match r with Ok a => holds w' (k a) Q | Err e => Q w' (Err e) end) ->
  holds w (ptry m k) Q.
Proof.
  intros H. apply holds_bind. intros tr r Hr. destruct (H tr r Hr) as [Ho Hk]. split; [done|].
  destruct r as [a|e]; [done|]. by apply holds_ret.
Qed.
Lemma holds_deferred {A} w (cleanup : prog E unit) (m : prog E A) (Q : W -> A -> Prop) :
  holds w m (fun w' a => holds w' cleanup (fun w2 _ => Q w2 a)) -> holds w (deferred cleanup m) Q.
Proof.
  intros H. apply holds_bind. intros tr a Hr. destruct (H tr a Hr) as [Ho Hk]. split; [done|].
  apply holds_bind. intros tr' b Hr'. destruct (Hk tr' b Hr') as [Ho' HQ]. split; [done|]. by apply holds_ret.
Qed.
Lemma holds_mono {A} w (m : prog E A) (Q Q' : W -> A -> Prop) :
  holds w m Q -> (forall w' a, Q w' a -> Q' w' a) -> holds w m Q'.
Proof. intros H HQ tr a Hr. destruct (H tr a Hr). auto. Qed.
End Rule.
Arguments holds_call {E W allowed seen} w o Q.

(** A rule without a state: only some calls are made. *)
Definition only {E A} (may : op E -> bool) (m : prog E A) : Prop :=
  forall tr a, ran m tr a -> Forall (fun e => may (ev_op e) = true) tr.
Section Only.
Context {E : signature} (may : op E -> bool).
Lemma only_ret {A} (a : A) : only may (Ret a).
Proof. intros tr b [-> _]. constructor. Qed.
Lemma only_call o : may o = true -> only may (call o).
Proof. intros H tr x ->%ran_call. by constructor. Qed.
Lemma only_bind {A B} (m : prog E A) (k : A -> prog E B) :
  only may m -> (forall a, only may (k a)) -> only may (pbind m k).
Proof.
  intros Hm Hk tr b (tr1 & tr2 & a & -> & H1 & H2)%ran_bind. apply Forall_app. split; [by eapply Hm|by eapply Hk].
Qed.
Lemma only_try {A B} (m : prog E (result A)) (k : A -> prog E (result B)) :
  only may m -> (forall a, only may (k a)) -> only may (ptry m k).
Proof. intros Hm Hk. apply only_bind; [done|]. intros [a|e]; [done|apply only_ret]. Qed.
Lemma only_deferred {A} (cleanup : prog E unit) (m : prog E A) :
  only may cleanup -> only may m -> only may (deferred cleanup m).
Proof. intros Hc Hm. apply only_bind; [done|]. intros a. apply only_bind; [done|]. intros _. apply only_ret. Qed.
End Only.
(** What a program gives back, whatever it is answered. *)
Section Returns.
Context {E : signature} {B : Type} (Q : B -> Prop).
Definition returns (m : prog E B) : Prop := forall tr b, ran m tr b -> Q b.
Lemma returns_ret b : Q b -> returns (Ret b).
Proof. intros H tr b' [_ ->]. done. Qed.
Lemma returns_bind {A} (m : prog E A) (k : A -> prog E B) : (forall a, returns (k a)) -> returns (pbind m k).
Proof. intros H tr b (tr1 & tr2 & a & -> & _ & H2)%ran_bind. by eapply H. Qed.
Lemma returns_deferred (cleanup : prog E unit) (m : prog E B) : returns m -> returns (deferred cleanup m).
Proof. intros H tr b (tr1 & tr2 & -> & H1 & _)%ran_deferred. by eapply H. Qed.
End Returns.
Lemma returns_try {E A B} (Q : result B -> Prop) (m : prog E (result A)) (k : A -> prog E (result B)) :
  (forall e, Q (Err e)) -> (forall a, returns Q (k a)) -> returns Q (ptry m k).
Proof. intros He Hk. apply returns_bind. intros [a|e]; [done|]. by apply returns_ret. Qed.

(** * Two kinds of calls in one program *)
Definition sig_sum (E F : signature) : signature :=
  mkSignature (op E + op F) (fun o => match o with inl o => answer E o | inr o => answer F o end).
Section Sum.
Context {E F : signature}.
Fixpoint in_left {A} (m : prog E A) : prog (sig_sum E F) A :=
  match m with
  | Ret a => Ret a
  | Call o k => Call (E := sig_sum E F) (inl o) (fun x => in_left (k x))
  end.
Fixpoint in_right {A} (m : prog F A) : prog (sig_sum E F) A :=
  match m with
  | Ret a => Ret a
  | Call o k => Call (E := sig_sum E F) (inr o) (fun x => in_right (k x))
  end.
Definition left_event (e : event E) : event (sig_sum E F) := mkEvent (E := sig_sum E F) (inl (ev_op e)) (ev_answer e).
Definition right_event (e : event F) : event (sig_sum E F) := mkEvent (E := sig_sum E F) (inr (ev_op e)) (ev_answer e).
Definition host_sum {S T} (h : forall o, S -> answer E o * S) (g : forall o, T -> answer F o * T)
  (o : op (sig_sum E F)) (s : S * T) : answer (sig_sum E F) o * (S * T) :=
  match o as o return answer (sig_sum E F) o * (S * T) with
  | inl o => let (x, s1) := h o s.1 in (x, (s1, s.2))
  | inr o => let (x, s2) := g o s.2 in (x, (s.1, s2))
  end.
Lemma ran_left {A} (m : prog E A) tr a : ran (in_left m) tr a <-> exists tr', tr = map left_event tr' /\ ran m tr' a.
Proof.
  revert tr. induction m as [b|o k IH]; intros tr; cbn [in_left ran].
  - split; [intros [-> ->]; by exists []|]. by intros (? & -> & -> & ->).
  - split.
    + intros (x & tr' & -> & (t & -> & Ht)%IH). exists (mkEvent o x :: t). split; [done|]. by exists x, t.
    + intros (? & -> & x & t & -> & Ht). exists x, (map left_event t). split; [done|]. apply IH. by exists t.
Qed.
Lemma ran_right {A} (m : prog F A) tr a : ran (in_right m) tr a <-> exists tr', tr = map right_event tr' /\ ran m tr' a.
Proof.
  revert tr. induction m as [b|o k IH]; intros tr; cbn [in_right ran].
  - split; [intros [-> ->]; by exists []|]. by intros (? & -> & -> & ->).
  - split.
    + intros (x & tr' & -> & (t & -> & Ht)%IH). exists (mkEvent o x :: t). split; [done|]. by exists x, t.
    + intros (? & -> & x & t & -> & Ht). exists x, (map right_event t). split; [done|]. apply IH. by exists t.
Qed.
Lemma only_left {A} (may : op (sig_sum E F) -> bool) (m : prog E A) : only (fun o => may (inl o)) m -> only may (in_left m).
Proof. intros H tr a (t & -> & Ht)%ran_left. apply Forall_map. by eapply Forall_impl; [eapply H|]. Qed.
Lemma only_right {A} (may : op (sig_sum E F) -> bool) (m : prog F A) : only (fun o => may (inr o)) m -> only may (in_right m).
Proof. intros H tr a (t & -> & Ht)%ran_right. apply Forall_map. by eapply Forall_impl; [eapply H|]. Qed.
Lemma returns_left {A} (Q : A -> Prop) (m : prog E A) : returns Q m -> returns Q (in_left m).
Proof. intros H tr a (t & -> & Ht)%ran_left. by eapply H. Qed.
Lemma returns_right {A} (Q : A -> Prop) (m : prog F A) : returns Q m -> returns Q (in_right m).
Proof. intros H tr a (t & -> & Ht)%ran_right. by eapply H. Qed.
Lemma run_left {S T A} (h : forall o, S -> answer E o * S) (g : forall o, T -> answer F o * T) (m : prog E A) s t :
  out (run (host_sum h g) (in_left m) (s, t)) = out (run h m s).
Proof.
  revert s. induction m as [a|o k IH]; intros s; [done|]. cbn [in_left run host_sum fst snd].
  destruct (h o s) as [x s1]. specialize (IH x s1). cbn in *.
  destruct (run (host_sum h g) (in_left (k x)) (s1, t)) as [[a s2] tr]. by destruct (run h (k x) s1) as [[a' s2'] tr'].
Qed.
End Sum.
Create HintDb effects.
#[export] Hint Resolve only_ret only_bind only_try only_deferred : effects.
#[export] Hint Resolve holds_ret : effects.

Declare Scope prog_scope.
Delimit Scope prog_scope with prog.
Notation "'do!' x ':=' m 'in' k" := (pbind m (fun x => k))
  (at level 10, x pattern, m at level 100, k at level 200) : prog_scope.
Notation "'try!' x ':=' m 'in' k" := (ptry m (fun x => k))
  (at level 10, x pattern, m at level 100, k at level 200) : prog_scope.
