(* ===== verification/GoVM.v ===== *)
(** Virtual machines of a slave: [slave/libvirt] ([main.go] and [vm.go]) and the handlers of
    [slave/handlers/libvirt.go].

    libvirt is a parameter: handles are of types that are left open, and what a call answers
    is up to the other side ([libvirt_op] lists the calls that the code makes).  Flags are the
    names of the constants.  A getter whose error is dropped gives the zero value on an error,
    as the bindings do. *)
From stdpp Require Import base gmap strings list.
From Stdlib Require Import Lia ZArith Ascii.
From S2P Require Import Prelude GoStrings GoJson GoTypes GoProtocol GoHandshake GoStruct GoWire GoXml GoEffect GoCommands.
Local Open Scope prog_scope.

Inductive DomainState :=
  | DOMAIN_RUNNING | DOMAIN_BLOCKED | DOMAIN_PAUSED | DOMAIN_SHUTDOWN | DOMAIN_CRASHED
  | DOMAIN_PMSUSPENDED | DOMAIN_SHUTOFF | OtherState (n : Z).
Record DomainInfo := mkDomainInfo { di_State : DomainState; di_MaxMem : Z; di_Memory : Z; di_NrVirtCpu : Z }.
Record PoolInfo := mkPoolInfo { pi_Capacity : Z; pi_Allocation : Z; pi_Available : Z }.
Record VolInfo := mkVolInfo { wi_Capacity : Z; wi_Allocation : Z }.

Section Libvirt.
Context {Conn Dom Pool Net Vol : Type}.

(** The variable [g_conn], and the calls of libvirt. *)
Inductive libvirt_op :=
  | LoadConn | StoreConn (c : Conn) | NewConnect (uri : string)
  | ListAllDomains (c : Conn) (flags : list string)
  | ListAllStoragePools (c : Conn) (flags : list string)
  | ListAllNetworks (c : Conn) (flags : list string)
  | LookupDomain (c : Conn) (name : string)
  | LookupStoragePoolByName (c : Conn) (name : string)
  | LookupStorageVolByPath (c : Conn) (path : string)
  | DomainDefineXML (c : Conn) (xml : string)
  | DomGetName (d : Dom) | DomGetUUIDString (d : Dom) | DomGetID (d : Dom) | DomIsActive (d : Dom)
  | DomIsPersistent (d : Dom) | DomGetAutostart (d : Dom) | DomGetInfo (d : Dom) | DomGetXMLDesc (d : Dom)
  | DomCreate (d : Dom) | DomShutdown (d : Dom) | DomReboot (d : Dom) | DomDestroy (d : Dom)
  | DomSetAutostart (d : Dom) (on : bool) | DomUpdateDeviceFlags (d : Dom) (xml : string) (flags : list string)
  | DomUndefineFlags (d : Dom) (flags : list string) | DomFree (d : Dom)
  | PoolGetName (p : Pool) | PoolGetUUIDString (p : Pool) | PoolIsActive (p : Pool) | PoolIsPersistent (p : Pool)
  | PoolGetAutostart (p : Pool) | PoolGetInfo (p : Pool) | PoolListAllStorageVolumes (p : Pool)
  | PoolStorageVolCreateXML (p : Pool) (xml : string) | PoolFree (p : Pool)
  | NetGetName (n : Net) | NetGetUUIDString (n : Net) | NetIsActive (n : Net) | NetIsPersistent (n : Net)
  | NetGetAutostart (n : Net) | NetFree (n : Net)
  | VolGetName (v : Vol) | VolGetKey (v : Vol) | VolGetPath (v : Vol) | VolGetInfo (v : Vol) | VolGetXMLDesc (v : Vol)
  | VolDelete (v : Vol) (flags : list string) | VolFree (v : Vol).
Definition libvirt_answer (o : libvirt_op) : Type :=
  match o with
  | LoadConn => option Conn
  | StoreConn _ => unit
  | NewConnect _ => result Conn
  | ListAllDomains _ _ => result (list Dom)
  | ListAllStoragePools _ _ => result (list Pool)
  | ListAllNetworks _ _ => result (list Net)
  | LookupDomain _ _ => result Dom
  | LookupStoragePoolByName _ _ => result Pool
  | LookupStorageVolByPath _ _ => result Vol
  | DomainDefineXML _ _ => result Dom
  | DomGetID _ => result Z
  | DomIsActive _ | DomIsPersistent _ | DomGetAutostart _ => result bool
  | DomGetInfo _ => result DomainInfo
  | DomGetName _ | DomGetUUIDString _ | DomGetXMLDesc _ => result string
  | DomCreate _ | DomShutdown _ | DomReboot _ | DomDestroy _ | DomSetAutostart _ _ => result unit
  | DomUpdateDeviceFlags _ _ _ | DomUndefineFlags _ _ | DomFree _ => result unit
  | PoolGetName _ | PoolGetUUIDString _ => result string
  | PoolIsActive _ | PoolIsPersistent _ | PoolGetAutostart _ => result bool
  | PoolGetInfo _ => result PoolInfo
  | PoolListAllStorageVolumes _ => result (list Vol)
  | PoolStorageVolCreateXML _ _ => result Vol
  | PoolFree _ => result unit
  | NetGetName _ | NetGetUUIDString _ => result string
  | NetIsActive _ | NetIsPersistent _ | NetGetAutostart _ => result bool
  | NetFree _ => result unit
  | VolGetName _ | VolGetKey _ | VolGetPath _ | VolGetXMLDesc _ => result string
  | VolGetInfo _ => result VolInfo
  | VolDelete _ _ | VolFree _ => result unit
  end.
Definition libvirt : signature := mkSignature libvirt_op libvirt_answer.
Abbreviation prog := (prog libvirt).
Abbreviation ask o := (call (E := libvirt) o).

(** [v, _ := ...] *)
Definition or_zero {A} (zero : A) (r : result A) : A := match r with Ok a => a | Err _ => zero end.
Definition free (o : libvirt_op) : prog unit := do! _ := ask o in Ret tt.
(** [json.Marshal] at the end of a handler. *)
Definition reply_json {T} (c : codec T) (v : T) : prog (result RawMessage) := Ret (MarshalAs c v).

(** * slave/libvirt/main.go *)
Definition GetQEMU : prog (result Conn) :=
  do! g := ask LoadConn in
  match g with
  | Some c => Ret (Ok c)
  | None =>
      try! c := ask (NewConnect "qemu:///system") in
      do! _ := ask (StoreConn c) in Ret (Ok c)
  end.
Definition GetDomains (c : Conn) : prog (result (list Dom)) :=
  ask (ListAllDomains c ["CONNECT_LIST_DOMAINS_ACTIVE"; "CONNECT_LIST_DOMAINS_INACTIVE"]).

(** * slave/libvirt/vm.go *)
Definition LookupDomainByName (conn : option Conn) (name : string) : prog (result Dom) :=
  match conn with
  | None => Ret (Err "nil libvirt connection")
  | Some c =>
      let name := TrimSpace name in
      if str_empty name then Ret (Err "domain name is required") else ask (LookupDomain c name)
  end.

(** The structs that a description is read into. *)
Record domainDiskXML := mkDomainDiskXML {
  dx_Device : string; dx_Type : string; dx_File : string; dx_Dev : string; dx_Bus : string }.
(** The last attribute of a name wins, and without one the field stays. *)
Definition attr_field (k old : string) (e : xml) : string :=
  let 'Elem _ attrs _ _ := e in foldl (fun old a => if str_eqb a.1 k then a.2 else old) old attrs.
Definition elem_name (e : xml) : string := let 'Elem n _ _ _ := e in n.
Definition elem_kids (e : xml) : list xml := let 'Elem _ _ _ ks := e in ks.
Definition kids_named (n : string) (e : xml) : list xml := List.filter (fun k => str_eqb (elem_name k) n) (elem_kids e).
Definition read_disk (e : xml) : domainDiskXML :=
  let sources := kids_named "source" e in
  let targets := kids_named "target" e in
  mkDomainDiskXML (attr_field "device" "" e) (attr_field "type" "" e)
    (foldl (attr_field "file") "" sources) (foldl (attr_field "dev") "" targets) (foldl (attr_field "bus") "" targets).
(** [domainXML]: the disks of all [devices] elements. *)
Definition read_disks (root : xml) : list domainDiskXML :=
  map read_disk (flat_map (kids_named "disk") (kids_named "devices" root)).
(** [storageVolumeXML]. *)
Definition read_format (root : xml) : string :=
  foldl (attr_field "type") "" (flat_map (kids_named "format") (kids_named "target" root)).

Context (unicode_name : list ascii -> bool).
(** The loop of [DescribeDomain]: the path of the ISO image and the paths of the disks. *)
Definition disk_step (acc : string * list string) (disk : domainDiskXML) : string * list string :=
  let (isoPath, diskPaths) := acc in
  (if str_eqb (dx_Device disk) "cdrom" && negb (str_empty (dx_File disk)) then dx_File disk else isoPath,
   if str_eqb (dx_Device disk) "disk" && str_eqb (dx_Type disk) "file" && negb (str_empty (dx_File disk))
   then diskPaths ++ [dx_File disk] else diskPaths).
Definition describe_disks (xmlDesc : string) : string * list string :=
  if str_empty xmlDesc then ("", [])
  else match document unicode_name xmlDesc with
       | Some root => foldl disk_step ("", []) (read_disks root)
       | None => ("", [])
       end.
Definition DomainStateString (state : DomainState) : string :=
  match state with
  | DOMAIN_RUNNING => "running" | DOMAIN_BLOCKED => "blocked" | DOMAIN_PAUSED => "paused"
  | DOMAIN_SHUTDOWN => "shutdown" | DOMAIN_CRASHED => "crashed" | DOMAIN_PMSUSPENDED => "suspended"
  | DOMAIN_SHUTOFF => "shutoff" | OtherState _ => "unknown"
  end.
Definition DescribeDomain (d : option Dom) : prog (result (VMDomain * list string)) :=
  match d with
  | None => Ret (Err "nil domain")
  | Some d =>
  try! name := ask (DomGetName d) in
  do! uuid := ask (DomGetUUIDString d) in
  do! id := ask (DomGetID d) in
  do! active := ask (DomIsActive d) in
  do! persistent := ask (DomIsPersistent d) in
  do! autostart := ask (DomGetAutostart d) in
  do! info := ask (DomGetInfo d) in
  do! xmlDesc := ask (DomGetXMLDesc d) in
  let (isoPath, diskPaths) := describe_disks (or_zero "" xmlDesc) in
  let '(state, maxMem, memory, vcpus) := match info with
    | Ok i => (DomainStateString (di_State i), di_MaxMem i / 1024, di_Memory i / 1024, di_NrVirtCpu i)%Z
    | Err _ => ("", 0, 0, 0)%Z
    end in
  Ret (Ok (mkVMDomain (or_zero 0 id mod 2 ^ 32)%Z (or_zero "" uuid) name (or_zero false active)
    (or_zero false persistent) (or_zero false autostart) state maxMem memory vcpus isoPath, diskPaths))
  end.

Definition describeStorageVolume (vol : option Vol) : prog (result LibvirtStorageVolume) :=
  match vol with
  | None => Ret (Err "nil storage volume")
  | Some vol =>
  try! name := ask (VolGetName vol) in
  do! key := ask (VolGetKey vol) in
  do! path := ask (VolGetPath vol) in
  do! info := ask (VolGetInfo vol) in
  do! xmlDesc := ask (VolGetXMLDesc vol) in
  let xmlDesc := or_zero "" xmlDesc in
  let format := if str_empty xmlDesc then ""
                else match document unicode_name xmlDesc with Some root => read_format root | None => "" end in
  let (capacity, allocation) := match info with Ok i => (wi_Capacity i, wi_Allocation i) | Err _ => (0, 0)%Z end in
  Ret (Ok (mkLibvirtStorageVolume name (or_zero "" key) (or_zero "" path) format capacity allocation))
  end.
(** A loop that describes the elements of a list, frees each, and stops at the first error. *)
Fixpoint describe_all {H A} (describe : H -> prog (result A)) (release : H -> prog unit) (hs : list H)
  : prog (result (list A)) :=
  match hs with
  | [] => Ret (Ok [])
  | h :: hs' =>
      do! item := describe h in
      do! _ := release h in
      try! item := Ret item in
      try! items := describe_all describe release hs' in
      Ret (Ok (item :: items))
  end.
Definition describeStoragePool (pool : option Pool) : prog (result LibvirtStoragePool) :=
  match pool with
  | None => Ret (Err "nil storage pool")
  | Some pool =>
  try! name := ask (PoolGetName pool) in
  do! uuid := ask (PoolGetUUIDString pool) in
  do! active := ask (PoolIsActive pool) in
  do! persistent := ask (PoolIsPersistent pool) in
  do! autostart := ask (PoolGetAutostart pool) in
  do! info := ask (PoolGetInfo pool) in
  try! vols := ask (PoolListAllStorageVolumes pool) in
  try! volumeItems := describe_all (fun v => describeStorageVolume (Some v)) (fun v => free (VolFree v)) vols in
  let '(capacity, allocation, available) := match info with
    | Ok i => (pi_Capacity i, pi_Allocation i, pi_Available i) | Err _ => (0, 0, 0)%Z end in
  Ret (Ok (mkLibvirtStoragePool name (or_zero "" uuid) (or_zero false active) (or_zero false persistent)
    (or_zero false autostart) capacity allocation available volumeItems))
  end.
Definition ListStoragePools (conn : option Conn) : prog (result (list LibvirtStoragePool)) :=
  match conn with
  | None => Ret (Err "nil libvirt connection")
  | Some c =>
      try! pools := ask (ListAllStoragePools c
        ["CONNECT_LIST_STORAGE_POOLS_ACTIVE"; "CONNECT_LIST_STORAGE_POOLS_INACTIVE"]) in
      describe_all (fun p => describeStoragePool (Some p)) (fun p => free (PoolFree p)) pools
  end.
Definition describeNetwork (net : Net) : prog (result LibvirtNetwork) :=
  do! name := ask (NetGetName net) in
  do! uuid := ask (NetGetUUIDString net) in
  do! active := ask (NetIsActive net) in
  do! persistent := ask (NetIsPersistent net) in
  do! autostart := ask (NetGetAutostart net) in
  Ret (Ok (mkLibvirtNetwork (or_zero "" name) (or_zero "" uuid) (or_zero false active) (or_zero false persistent)
    (or_zero false autostart))).
Definition ListNetworks (conn : option Conn) : prog (result (list LibvirtNetwork)) :=
  match conn with
  | None => Ret (Err "nil libvirt connection")
  | Some c =>
      try! nets := ask (ListAllNetworks c ["CONNECT_LIST_NETWORKS_ACTIVE"; "CONNECT_LIST_NETWORKS_INACTIVE"]) in
      describe_all describeNetwork (fun n => free (NetFree n)) nets
  end.

(** [filepath.Ext]: from the last dot of the last part of a path. *)
Definition Ext (path : string) : string :=
  let (back, rest) := span (fun a => negb (is_chr 46 a) && negb (is_chr 47 a)) (rev (bytes_of path)) in
  match rest with
  | a :: _ => if is_chr 46 a then of_bytes (a :: rev back) else ""
  | [] => ""
  end.
Definition volume_xml (diskName : string) (diskSizeGB : Z) : string :=
  "<volume><name>" +:+ xmlEscape diskName +:+ "</name><capacity unit='GiB'>" +:+ print_nat diskSizeGB
    +:+ "</capacity><target><format type='qcow2'/></target></volume>".
Definition CreateDiskVolume (conn : option Conn) (poolName diskName : string) (diskSizeGB : Z)
  : prog (result (option Vol * string)) :=
  match conn with
  | None => Ret (Err "nil libvirt connection")
  | Some c =>
      let poolName := TrimSpace poolName in
      let poolName := if str_empty poolName then "default" else poolName in
      let diskName := TrimSpace diskName in
      if str_empty diskName then Ret (Err "disk name is required")
      else
        let diskSizeGB := if (diskSizeGB =? 0)%Z then 20%Z else diskSizeGB in
        let diskName := if str_empty (Ext diskName) then diskName +:+ ".qcow2" else diskName in
        try! pool := ask (LookupStoragePoolByName c poolName) in
        deferred (free (PoolFree pool))
          (try! vol := ask (PoolStorageVolCreateXML pool (volume_xml diskName diskSizeGB)) in
           do! path := ask (VolGetPath vol) in
           match path with
           | Err e => do! _ := free (VolFree vol) in Ret (Err e)
           | Ok path => Ret (Ok (Some vol, path))
           end)
  end.

Definition iso_disk (isoPath : string) : string :=
  "<disk type='file' device='cdrom'><driver name='qemu' type='raw'/><source file='"
    +:+ xmlEscape (TrimSpace isoPath) +:+ "'/><target dev='hdc' bus='ide'/><readonly/></disk>".
Definition BuildDomainXML (params : LibvirtVMCreateParams) (diskPath : string) : string :=
  let network := TrimSpace (vc_Network params) in
  let network := if str_empty network then "default" else network in
  let memory := if (vc_MemoryMB params =? 0)%Z then 2048%Z else vc_MemoryMB params in
  let vcpus := if (vc_VCPUs params =? 0)%Z then 2%Z else vc_VCPUs params in
  let iso := negb (str_empty (TrimSpace (vc_ISOPath params))) in
  "<domain type='kvm'>"
  +:+ "<name>" +:+ xmlEscape (TrimSpace (vc_Name params)) +:+ "</name>"
  +:+ "<memory unit='MiB'>" +:+ print_nat memory +:+ "</memory>"
  +:+ "<currentMemory unit='MiB'>" +:+ print_nat memory +:+ "</currentMemory>"
  +:+ "<vcpu placement='static'>" +:+ print_nat vcpus +:+ "</vcpu>"
  +:+ "<os><type arch='x86_64' machine='pc'>hvm</type><boot dev='hd'/>"
  +:+ (if iso then "<boot dev='cdrom'/>" else "")
  +:+ "</os>"
  +:+ "<features><acpi/><apic/><pae/></features>"
  +:+ "<clock offset='utc'/>"
  +:+ "<on_poweroff>destroy</on_poweroff><on_reboot>restart</on_reboot><on_crash>restart</on_crash>"
  +:+ "<devices>"
  +:+ "<disk type='file' device='disk'><driver name='qemu' type='qcow2'/><source file='" +:+ xmlEscape diskPath
  +:+ "'/><target dev='vda' bus='virtio'/></disk>"
  +:+ (if iso then iso_disk (vc_ISOPath params) else "")
  +:+ "<interface type='network'><source network='" +:+ xmlEscape network +:+ "'/><model type='virtio'/></interface>"
  +:+ "<graphics type='vnc' autoport='yes' listen='0.0.0.0'/>"
  +:+ "<serial type='pty'/><console type='pty'/><input type='tablet' bus='usb'/><video><model type='virtio'/></video>"
  +:+ "</devices></domain>".
Definition BuildCDROMDeviceXML (isoPath : string) : string :=
  "<disk type='file' device='cdrom'><driver name='qemu' type='raw'/>"
  +:+ (if negb (str_empty (TrimSpace isoPath)) then "<source file='" +:+ xmlEscape (TrimSpace isoPath) +:+ "'/>" else "")
  +:+ "<target dev='hdc' bus='ide'/><readonly/></disk>".
Definition DeviceModifyFlags (active : bool) : list string :=
  if active then ["DOMAIN_DEVICE_MODIFY_CONFIG"; "DOMAIN_DEVICE_MODIFY_LIVE"] else ["DOMAIN_DEVICE_MODIFY_CONFIG"].
Fixpoint DeleteDomainVolumes_loop (c : Conn) (diskPaths : list string) : prog (result unit) :=
  match diskPaths with
  | [] => Ret (Ok tt)
  | path :: diskPaths' =>
      let path := TrimSpace path in
      if str_empty path then DeleteDomainVolumes_loop c diskPaths'
      else
        do! vol := ask (LookupStorageVolByPath c path) in
        match vol with
        | Err _ => DeleteDomainVolumes_loop c diskPaths'
        | Ok vol =>
            do! deleteErr := ask (VolDelete vol ["STORAGE_VOL_DELETE_NORMAL"]) in
            do! _ := free (VolFree vol) in
            match deleteErr with
            | Err e => Ret (Err e)
            | Ok _ => DeleteDomainVolumes_loop c diskPaths'
            end
        end
  end.
Definition DeleteDomainVolumes (conn : option Conn) (diskPaths : list string) : prog (result unit) :=
  match conn with
  | None => Ret (Err "nil libvirt connection")
  | Some c => DeleteDomainVolumes_loop c diskPaths
  end.

(** * slave/handlers/libvirt.go *)
Definition Params (T : Type) `{WireStruct T} (msg : string) (cmd : NodeCommand) : result T :=
  match UnmarshalText (wire T) (nc_Params cmd) with Ok p => Ok p | Err _ => Err msg end.
(** [json.Marshal] of a map with one entry. *)
Definition entry_json (k : string) (v : list ascii) : RawMessage := of_bytes (object_text [(k, v)]).
Definition bool_text (b : bool) : list ascii := bytes_of (if b then "true" else "false").
Definition status_ok : RawMessage := entry_json "status" (text_str "ok").

Definition handleLibvirtDomainsList (cmd : NodeCommand) : prog (result RawMessage) :=
  try! qemu := GetQEMU in
  try! domains := GetDomains qemu in
  try! items := describe_all (fun d => try! i := DescribeDomain (Some d) in Ret (Ok (fst i)))
                  (fun d => free (DomFree d)) domains in
  reply_json (cslice (wire VMDomain)) items.
Definition handleLibvirtStoragePoolsList (cmd : NodeCommand) : prog (result RawMessage) :=
  try! qemu := GetQEMU in
  try! pools := ListStoragePools (Some qemu) in
  reply_json (cslice (wire LibvirtStoragePool)) pools.
Definition handleLibvirtNetworksList (cmd : NodeCommand) : prog (result RawMessage) :=
  try! qemu := GetQEMU in
  try! networks := ListNetworks (Some qemu) in
  reply_json (cslice (wire LibvirtNetwork)) networks.

Definition with_names (p : LibvirtVMCreateParams) (name diskName : string) : LibvirtVMCreateParams :=
  mkLibvirtVMCreateParams name (vc_MemoryMB p) (vc_VCPUs p) (vc_DiskPool p) diskName (vc_DiskSizeGB p)
    (vc_Network p) (vc_ISOPath p) (vc_Autostart p) (vc_Start p).
Definition handleLibvirtVMCreate (cmd : NodeCommand) : prog (result RawMessage) :=
  try! p := Ret (Params LibvirtVMCreateParams "invalid vm create params" cmd) in
  let name := TrimSpace (vc_Name p) in
  if str_empty name then Ret (Err "vm name is required")
  else
    let params := with_names p name (if str_empty (vc_DiskName p) then name else vc_DiskName p) in
    try! qemu := GetQEMU in
    try! v := CreateDiskVolume (Some qemu) (vc_DiskPool params) (vc_DiskName params) (vc_DiskSizeGB params) in
    let '(vol, diskPath) := v in
    deferred (match vol with Some vol => free (VolFree vol) | None => Ret tt end)
      (try! domain := ask (DomainDefineXML qemu (BuildDomainXML params diskPath)) in
       deferred (free (DomFree domain))
         (try! _ := (if vc_Autostart params then ask (DomSetAutostart domain true) else Ret (Ok tt)) in
          try! _ := (if vc_Start params then ask (DomCreate domain) else Ret (Ok tt)) in
          do! uuid := ask (DomGetUUIDString domain) in
          do! volumeName := match vol with Some vol => ask (VolGetName vol) | None => Ret (Ok "") end in
          reply_json (wire LibvirtVMCreateResult)
            (mkLibvirtVMCreateResult name (or_zero "" uuid) (or_zero "" volumeName) diskPath))).

Definition handleDomainAction (action : Dom -> prog (result unit)) (cmd : NodeCommand) : prog (result RawMessage) :=
  try! params := Ret (Params LibvirtVMActionParams "invalid vm action params" cmd) in
  try! qemu := GetQEMU in
  try! domain := LookupDomainByName (Some qemu) (vp_Name params) in
  deferred (free (DomFree domain)) (try! _ := action domain in Ret (Ok status_ok)).
Definition handleLibvirtVMStart : NodeCommand -> prog (result RawMessage) := handleDomainAction (fun d => ask (DomCreate d)).
Definition handleLibvirtVMShutdown : NodeCommand -> prog (result RawMessage) := handleDomainAction (fun d => ask (DomShutdown d)).
Definition handleLibvirtVMReboot : NodeCommand -> prog (result RawMessage) := handleDomainAction (fun d => ask (DomReboot d)).
Definition handleLibvirtVMDestroy : NodeCommand -> prog (result RawMessage) := handleDomainAction (fun d => ask (DomDestroy d)).
Definition handleLibvirtVMSetAutostart (cmd : NodeCommand) : prog (result RawMessage) :=
  try! params := Ret (Params LibvirtVMSetAutostartParams "invalid vm autostart params" cmd) in
  try! qemu := GetQEMU in
  try! domain := LookupDomainByName (Some qemu) (vs_Name params) in
  deferred (free (DomFree domain))
    (try! _ := ask (DomSetAutostart domain (vs_Enabled params)) in
     Ret (Ok (entry_json "enabled" (bool_text (vs_Enabled params))))).
(** The CD-ROM device of a domain gets another medium. *)
Definition update_cdrom (domain : Dom) (isoPath : string) (reply : RawMessage) : prog (result RawMessage) :=
  do! active := ask (DomIsActive domain) in
  try! _ := ask (DomUpdateDeviceFlags domain (BuildCDROMDeviceXML isoPath) (DeviceModifyFlags (or_zero false active))) in
  Ret (Ok reply).
Definition handleLibvirtVMAttachISO (cmd : NodeCommand) : prog (result RawMessage) :=
  try! p := Ret (Params LibvirtVMAttachISOParams "invalid vm iso params" cmd) in
  let name := TrimSpace (vi_Name p) in
  let isoPath := TrimSpace (vi_ISOPath p) in
  if str_empty name || str_empty isoPath then Ret (Err "vm name and iso path are required")
  else
    try! qemu := GetQEMU in
    try! domain := LookupDomainByName (Some qemu) name in
    deferred (free (DomFree domain)) (update_cdrom domain isoPath (entry_json "iso_path" (text_str isoPath))).
Definition handleLibvirtVMDetachISO (cmd : NodeCommand) : prog (result RawMessage) :=
  try! params := Ret (Params LibvirtVMActionParams "invalid vm detach iso params" cmd) in
  try! qemu := GetQEMU in
  try! domain := LookupDomainByName (Some qemu) (vp_Name params) in
  deferred (free (DomFree domain)) (update_cdrom domain "" status_ok).
Definition undefine_flags : list string :=
  ["DOMAIN_UNDEFINE_MANAGED_SAVE"; "DOMAIN_UNDEFINE_SNAPSHOTS_METADATA";
   "DOMAIN_UNDEFINE_CHECKPOINTS_METADATA"; "DOMAIN_UNDEFINE_NVRAM"].
Definition handleLibvirtVMDelete (cmd : NodeCommand) : prog (result RawMessage) :=
  try! params := Ret (Params LibvirtVMDeleteParams "invalid vm delete params" cmd) in
  try! qemu := GetQEMU in
  try! domain := LookupDomainByName (Some qemu) (vx_Name params) in
  deferred (free (DomFree domain))
    (try! described := DescribeDomain (Some domain) in
     do! active := ask (DomIsActive domain) in
     try! _ := (if or_zero false active then
                  if negb (vx_ForceStop params) then Ret (Err "domain is running; force stop first")
                  else ask (DomDestroy domain)
                else Ret (Ok tt)) in
     try! _ := ask (DomUndefineFlags domain undefine_flags) in
     try! _ := (if vx_RemoveVolumes params then DeleteDomainVolumes (Some qemu) (snd described) else Ret (Ok tt)) in
     Ret (Ok (entry_json "removed_volumes" (bool_text (vx_RemoveVolumes params))))).

(** The entries of [commandHandlers] that are about libvirt. *)
Definition libvirt_handlers (action : string) : option (NodeCommand -> prog (result RawMessage)) :=
  if str_eqb action "libvirt.domains.list" then Some handleLibvirtDomainsList
  else if str_eqb action "libvirt.storage.pools.list" then Some handleLibvirtStoragePoolsList
  else if str_eqb action "libvirt.networks.list" then Some handleLibvirtNetworksList
  else if str_eqb action "libvirt.domain.create" then Some handleLibvirtVMCreate
  else if str_eqb action "libvirt.domain.start" then Some handleLibvirtVMStart
  else if str_eqb action "libvirt.domain.shutdown" then Some handleLibvirtVMShutdown
  else if str_eqb action "libvirt.domain.reboot" then Some handleLibvirtVMReboot
  else if str_eqb action "libvirt.domain.destroy" then Some handleLibvirtVMDestroy
  else if str_eqb action "libvirt.domain.delete" then Some handleLibvirtVMDelete
  else if str_eqb action "libvirt.domain.autostart" then Some handleLibvirtVMSetAutostart
  else if str_eqb action "libvirt.domain.iso.attach" then Some handleLibvirtVMAttachISO
  else if str_eqb action "libvirt.domain.iso.detach" then Some handleLibvirtVMDetachISO
  else None.
End Libvirt.
Arguments libvirt_op : clear implicits.
Arguments libvirt : clear implicits.

(** * The description of a domain *)
(** What [BuildDomainXML] writes, as markup. *)
Definition domain_markup (params : LibvirtVMCreateParams) (diskPath : string) : markup :=
  let network := TrimSpace (vc_Network params) in
  let network := if str_empty network then "default" else network in
  let memory := if (vc_MemoryMB params =? 0)%Z then 2048%Z else vc_MemoryMB params in
  let vcpus := if (vc_VCPUs params =? 0)%Z then 2%Z else vc_VCPUs params in
  let iso := TrimSpace (vc_ISOPath params) in
  let with_iso (ms : list markup) := if negb (str_empty iso) then ms else [] in
  Tag "domain" [("type", "kvm")] [
    Leaf "name" [] (TrimSpace (vc_Name params));
    Leaf "memory" [("unit", "MiB")] (print_nat memory);
    Leaf "currentMemory" [("unit", "MiB")] (print_nat memory);
    Leaf "vcpu" [("placement", "static")] (print_nat vcpus);
    Tag "os" [] (Leaf "type" [("arch", "x86_64"); ("machine", "pc")] "hvm" :: Tag "boot" [("dev", "hd")] []
      :: with_iso [Tag "boot" [("dev", "cdrom")] []]);
    Tag "features" [] [Tag "acpi" [] []; Tag "apic" [] []; Tag "pae" [] []];
    Tag "clock" [("offset", "utc")] [];
    Leaf "on_poweroff" [] "destroy"; Leaf "on_reboot" [] "restart"; Leaf "on_crash" [] "restart";
    Tag "devices" [] (
      Tag "disk" [("type", "file"); ("device", "disk")]
        [Tag "driver" [("name", "qemu"); ("type", "qcow2")] []; Tag "source" [("file", diskPath)] [];
         Tag "target" [("dev", "vda"); ("bus", "virtio")] []]
      :: with_iso [Tag "disk" [("type", "file"); ("device", "cdrom")]
           [Tag "driver" [("name", "qemu"); ("type", "raw")] []; Tag "source" [("file", iso)] [];
            Tag "target" [("dev", "hdc"); ("bus", "ide")] []; Tag "readonly" [] []]]
      ++ [Tag "interface" [("type", "network")] [Tag "source" [("network", network)] []; Tag "model" [("type", "virtio")] []];
          Tag "graphics" [("type", "vnc"); ("autoport", "yes"); ("listen", "0.0.0.0")] [];
          Tag "serial" [("type", "pty")] []; Tag "console" [("type", "pty")] [];
          Tag "input" [("type", "tablet"); ("bus", "usb")] [];
          Tag "video" [] [Tag "model" [("type", "virtio")] []]])].

Lemma xesc_digits l : Forall (fun a => is_digit a = true) l -> xesc l = l.
Proof.
  induction 1 as [|a l Ha _ IH]; [done|]. cbn [xesc]. revert Ha. unfold is_digit, in_range.
  rewrite andb_true_iff, !Nat.leb_le. intros Ha. unfold ascii_byte. destruct (Nat.ltb_spec (byte_val a) 128); [|lia].
  rewrite IH. unfold xesc_ascii.
  repeat match goal with |- context [?x =? ?y] => destruct (Nat.eqb_spec x y); [lia|] end.
  by destruct (Nat.ltb_spec (byte_val a) 32); [lia|].
Qed.
Lemma digits_chars_ok l : Forall (fun a => is_digit a = true) l -> chars_ok l = true.
Proof.
  induction 1 as [|a l Ha _ IH]; [done|]. cbn [chars_ok]. rewrite IH. revert Ha. unfold is_digit, in_range, ascii_byte, char_ok.
  rewrite andb_true_iff, !Nat.leb_le. intros Ha. destruct (Nat.ltb_spec (byte_val a) 128); [|lia].
  rewrite (proj2 (Nat.leb_le 32 (byte_val a))) by lia. by rewrite !orb_true_r.
Qed.
Lemma bytes_xmlEscape s : bytes_of (xmlEscape s) = xesc (bytes_of s).
Proof. apply bytes_of_of. Qed.
Lemma BuildDomainXML_markup params diskPath :
  BuildDomainXML params diskPath = of_bytes (print (domain_markup params diskPath)).
Proof.
  apply bytes_of_inj. rewrite bytes_of_of, <- (app_nil_r (print _)), <- print_onto_print.
  unfold BuildDomainXML, domain_markup, iso_disk. cbv zeta.
  set (network := if str_empty (TrimSpace (vc_Network params)) then _ else _).
  set (memory := if (vc_MemoryMB params =? 0)%Z then _ else _). set (vcpus := if (vc_VCPUs params =? 0)%Z then _ else _).
  set (iso := TrimSpace (vc_ISOPath params)). set (name := TrimSpace (vc_Name params)).
  pose proof (xesc_digits _ (print_nat_digits memory)) as Hm. pose proof (xesc_digits _ (print_nat_digits vcpus)) as Hv.
  cbn [print_onto foldr]. rewrite Hm, Hv. clear Hm Hv.
  destruct (str_empty iso); cbn [negb foldr print_onto app]; rewrite !bytes_of_app, !bytes_xmlEscape;
    unfold attr_onto; cbn [fst snd];
    generalize (xesc (bytes_of network)) (bytes_of (print_nat memory)) (bytes_of (print_nat vcpus)) (xesc (bytes_of name))
      (xesc (bytes_of diskPath)); try generalize (xesc (bytes_of iso)); intros; rewrite <- ?app_assoc; reflexivity.
Qed.

(** ** The description reads back *)
Lemma sanitized_empty s : sanitized s = "" <-> s = "".
Proof.
  split; [|by intros ->]. unfold sanitized. intros H. apply bytes_of_inj. apply (f_equal bytes_of) in H.
  rewrite bytes_of_of in H. destruct (bytes_of s) as [|a l]; [done|]. exfalso. cbn [xclean] in H.
  repeat case_match; discriminate H.
Qed.
Section Describe.
Context (unicode_name : list ascii -> bool).
Abbreviation document := (document unicode_name).
Lemma domain_document params diskPath :
  document (BuildDomainXML params diskPath) = Some (shape (domain_markup params diskPath)).
Proof.
  rewrite BuildDomainXML_markup. apply document_print. unfold domain_markup. cbv zeta.
  by destruct (str_empty (TrimSpace (vc_ISOPath params))).
Qed.
Definition cdrom_markup (iso : string) : markup :=
  Tag "disk" [("type", "file"); ("device", "cdrom")]
    (Tag "driver" [("name", "qemu"); ("type", "raw")] []
     :: (if negb (str_empty iso) then [Tag "source" [("file", iso)] []] else [])
     ++ [Tag "target" [("dev", "hdc"); ("bus", "ide")] []; Tag "readonly" [] []]).
Lemma BuildCDROMDeviceXML_markup isoPath : BuildCDROMDeviceXML isoPath = of_bytes (print (cdrom_markup (TrimSpace isoPath))).
Proof.
  apply bytes_of_inj. rewrite bytes_of_of, <- (app_nil_r (print _)), <- print_onto_print.
  unfold BuildCDROMDeviceXML, cdrom_markup. set (iso := TrimSpace isoPath).
  destruct (str_empty iso); cbn [negb print_onto foldr app]; rewrite !bytes_of_app; [reflexivity|].
  rewrite bytes_xmlEscape. unfold attr_onto. cbn [fst snd]. generalize (xesc (bytes_of iso)). intros. rewrite <- ?app_assoc. reflexivity.
Qed.
Definition volume_markup (diskName : string) (diskSizeGB : Z) : markup :=
  Tag "volume" [] [Leaf "name" [] diskName; Leaf "capacity" [("unit", "GiB")] (print_nat diskSizeGB);
    Tag "target" [] [Tag "format" [("type", "qcow2")] []]].
Lemma volume_xml_markup diskName size : volume_xml diskName size = of_bytes (print (volume_markup diskName size)).
Proof.
  apply bytes_of_inj. rewrite bytes_of_of, <- (app_nil_r (print _)), <- print_onto_print.
  unfold volume_xml, volume_markup. pose proof (xesc_digits _ (print_nat_digits size)) as Hs.
  cbn [print_onto foldr]. rewrite Hs, !bytes_of_app, bytes_xmlEscape. unfold attr_onto. cbn [fst snd].
  generalize (xesc (bytes_of diskName)) (bytes_of (print_nat size)). intros. rewrite <- ?app_assoc. reflexivity.
Qed.

Lemma read_domain_disks params diskPath :
  let iso := TrimSpace (vc_ISOPath params) in
  read_disks (shape (domain_markup params diskPath))
  = mkDomainDiskXML "disk" "file" (sanitized diskPath) "vda" "virtio"
    :: if str_empty iso then [] else [mkDomainDiskXML "cdrom" "file" (sanitized iso) "hdc" "ide"].
Proof.
  unfold domain_markup. cbv zeta. generalize (TrimSpace (vc_ISOPath params)). intros iso.
  by destruct (str_empty iso).
Qed.

(** What a reader finds behind a path of names: the elements, their texts, and an attribute
    of each. *)
Definition at_path (path : list string) (root : xml) : list xml :=
  foldl (fun es n => flat_map (kids_named n) es) [root] path.
Definition words_at (path : list string) (root : xml) : list string :=
  map (fun e => let 'Elem _ _ w _ := e in w) (at_path path root).
Definition attr_at (path : list string) (k : string) (root : xml) : list string :=
  map (attr_field k "") (at_path path root).
(** A number of a request, or what stands for 0. *)
Definition number_or (n d : Z) : Z := if decide (n = 0%Z) then d else n.
Definition text_or (s d : string) : string := if decide (s = "") then d else s.

(** What a reader finds in the description of a domain. *)
Record reads_domain (params : LibvirtVMCreateParams) (diskPath : string) (root : xml) : Prop := {
  rd_kind : elem_name root = "domain" /\ attr_at [] "type" root = ["kvm"];
  rd_name : words_at ["name"] root = [sanitized (TrimSpace (vc_Name params))];
  rd_memory : words_at ["memory"] root = [print_nat (number_or (vc_MemoryMB params) 2048)]
    /\ attr_at ["memory"] "unit" root = ["MiB"];
  rd_current : words_at ["currentMemory"] root = [print_nat (number_or (vc_MemoryMB params) 2048)]
    /\ attr_at ["currentMemory"] "unit" root = ["MiB"];
  rd_vcpus : words_at ["vcpu"] root = [print_nat (number_or (vc_VCPUs params) 2)];
  rd_boot : attr_at ["os"; "boot"] "dev" root
    = "hd" :: if decide (TrimSpace (vc_ISOPath params) = "") then [] else ["cdrom"];
  rd_disks : read_disks root = mkDomainDiskXML "disk" "file" (sanitized diskPath) "vda" "virtio"
    :: if decide (TrimSpace (vc_ISOPath params) = "") then []
       else [mkDomainDiskXML "cdrom" "file" (sanitized (TrimSpace (vc_ISOPath params))) "hdc" "ide"];
  rd_formats : attr_at ["devices"; "disk"; "driver"] "type" root
    = "qcow2" :: if decide (TrimSpace (vc_ISOPath params) = "") then [] else ["raw"];
  rd_network : attr_at ["devices"; "interface"; "source"] "network" root
    = [sanitized (text_or (TrimSpace (vc_Network params)) "default")] }.
Record reads_volume (diskName : string) (size : Z) (root : xml) : Prop := {
  rv_kind : elem_name root = "volume";
  rv_name : words_at ["name"] root = [sanitized diskName];
  rv_size : words_at ["capacity"] root = [print_nat size] /\ attr_at ["capacity"] "unit" root = ["GiB"];
  rv_format : read_format root = "qcow2" }.
Record reads_cdrom (isoPath : string) (root : xml) : Prop := {
  rc_kind : elem_name root = "disk";
  rc_disk : read_disk root = mkDomainDiskXML "cdrom" "file" (sanitized (TrimSpace isoPath)) "hdc" "ide";
  rc_source : attr_at ["source"] "file" root
    = if decide (TrimSpace isoPath = "") then [] else [sanitized (TrimSpace isoPath)] }.

Lemma domain_reads params diskPath : reads_domain params diskPath (shape (domain_markup params diskPath)).
Proof.
  assert (forall n d, (if (n =? 0)%Z then d else n) = number_or n d) as Hnum.
  { intros n d. unfold number_or. destruct (Z.eqb_spec n 0); by case_decide. }
  assert (forall s d, (if str_empty s then d else s) = text_or s d) as Htext.
  { intros s d. unfold text_or. destruct (str_empty_spec s); by case_decide. }
  assert (forall n, sanitized (print_nat n) = print_nat n) as Hsan.
  { intros n. apply sanitized_id, digits_chars_ok, print_nat_digits. }
  unfold domain_markup. rewrite !Hnum, Htext. cbv zeta. destruct params as [name mem cpu pool disk gb net iso auto start].
  cbn [vc_MemoryMB vc_VCPUs vc_Network vc_ISOPath vc_Name].
  pose proof (Hsan (number_or mem 2048)) as Hm. pose proof (Hsan (number_or cpu 2)) as Hv.
  split; cbn [vc_MemoryMB vc_VCPUs vc_Network vc_ISOPath vc_Name]; revert Hm Hv;
    generalize (print_nat (number_or mem 2048)) (print_nat (number_or cpu 2)) (text_or (TrimSpace net) "default")
      (TrimSpace name); intros memory vcpus network dname Hm Hv;
    destruct (str_empty_spec (TrimSpace iso)) as [E|E];
    rewrite ?(decide_True _ _ E), ?(decide_False _ _ E); lazy -[sanitized TrimSpace]; rewrite ?Hm, ?Hv; done.
Qed.
Lemma volume_reads diskName size : reads_volume diskName size (shape (volume_markup diskName size)).
Proof.
  assert (sanitized (print_nat size) = print_nat size) as Hs by apply sanitized_id, digits_chars_ok, print_nat_digits.
  split; cbn -[sanitized print_nat]; rewrite ?Hs; done.
Qed.
Lemma cdrom_reads isoPath :
  exists root, document (BuildCDROMDeviceXML isoPath) = Some root /\ reads_cdrom isoPath root.
Proof.
  rewrite BuildCDROMDeviceXML_markup. exists (shape (cdrom_markup (TrimSpace isoPath))).
  unfold cdrom_markup. destruct (str_empty_spec (TrimSpace isoPath)) as [E|E]; (split; [by apply document_print|]);
    (split; [done| |rewrite ?(decide_True _ _ E), ?(decide_False _ _ E); done]).
  - by rewrite E.
  - done.
Qed.
(** What [DescribeDomain] finds of the disks. *)
Lemma described_disks params diskPath : diskPath <> "" ->
  describe_disks unicode_name (BuildDomainXML params diskPath)
  = (sanitized (TrimSpace (vc_ISOPath params)), [sanitized diskPath]).
Proof.
  intros Hp. unfold describe_disks. rewrite domain_document.
  assert (str_empty (BuildDomainXML params diskPath) = false) as -> by reflexivity.
  assert (sanitized diskPath <> "") as Hd by (by rewrite sanitized_empty).
  rewrite read_domain_disks. cbv zeta. set (iso := TrimSpace (vc_ISOPath params)).
  destruct (str_empty_spec iso) as [Ei|Ei].
  - rewrite Ei. cbn -[sanitized]. by destruct (str_empty_spec (sanitized diskPath)).
  - assert (sanitized iso <> "") as Hi by (by rewrite sanitized_empty). cbn -[sanitized].
    destruct (str_empty_spec (sanitized diskPath)); [done|]. by destruct (str_empty_spec (sanitized iso)).
Qed.

(** C5: No name, path or network can change what a description says, and it says what is meant: whatever the parameters are, a decoder reads the description of a new domain as one domain with the name, the memory, the processors, the network, the disk and the ISO image that were asked for, where nothing was given with the values that stand for it, and no other disk, with characters that XML does not have replaced and every other text unchanged; the code that looks at the disks of a domain finds those; and the descriptions of a volume, with its name and size, and of a CD-ROM device read back likewise. *)
Theorem descriptions_read_back params diskPath diskName size isoPath :
  (exists root, document (BuildDomainXML params diskPath) = Some root
    /\ root = shape (domain_markup params diskPath) /\ reads_domain params diskPath root)
  /\ (diskPath <> "" -> describe_disks unicode_name (BuildDomainXML params diskPath)
        = (sanitized (TrimSpace (vc_ISOPath params)), [sanitized diskPath]))
  /\ (exists root, document (volume_xml diskName size) = Some root /\ reads_volume diskName size root)
  /\ (exists root, document (BuildCDROMDeviceXML isoPath) = Some root /\ reads_cdrom isoPath root)
  /\ (forall s, chars_ok (bytes_of s) = true -> sanitized s = s).
Proof.
  split; [|split; [|split; [|split]]].
  - eexists. split; [apply domain_document|]. split; [done|apply domain_reads].
  - apply described_disks.
  - eexists. rewrite volume_xml_markup, document_print by reflexivity. split; [reflexivity|apply volume_reads].
  - apply cdrom_reads.
  - apply sanitized_id.
Qed.
End Describe.

(** ** What a handler may change *)
Section Handlers.
Context {Conn Dom Pool Net Vol : Type} (unicode_name : list ascii -> bool).
Abbreviation libvirt := (libvirt Conn Dom Pool Net Vol).
Definition reads_only (o : op libvirt) : bool :=
  match o with
  | DomainDefineXML _ _ | DomCreate _ | DomShutdown _ | DomReboot _ | DomDestroy _ | DomSetAutostart _ _
  | DomUpdateDeviceFlags _ _ _ | DomUndefineFlags _ _ | PoolStorageVolCreateXML _ _ | VolDelete _ _ => false
  | _ => true
  end.
Definition permitted (action : string) (o : op libvirt) : bool :=
  reads_only o ||
  match o with
  | PoolStorageVolCreateXML _ _ | DomainDefineXML _ _ => str_eqb action "libvirt.domain.create"
  | DomCreate _ => mem_str action ["libvirt.domain.create"; "libvirt.domain.start"]
  | DomSetAutostart _ _ => mem_str action ["libvirt.domain.create"; "libvirt.domain.autostart"]
  | DomShutdown _ => str_eqb action "libvirt.domain.shutdown"
  | DomReboot _ => str_eqb action "libvirt.domain.reboot"
  | DomDestroy _ => mem_str action ["libvirt.domain.destroy"; "libvirt.domain.delete"]
  | DomUpdateDeviceFlags _ _ _ => mem_str action ["libvirt.domain.iso.attach"; "libvirt.domain.iso.detach"]
  | DomUndefineFlags _ _ | VolDelete _ _ => str_eqb action "libvirt.domain.delete"
  | _ => false
  end.
Ltac keeps := repeat first
  [ apply only_ret | match goal with |- only ?may (call ?o) => apply (only_call may o); reflexivity end | apply only_try | apply only_bind | apply only_deferred
  | progress intros | progress unfold ptry, free, reply_json, GetQEMU, GetDomains, LookupDomainByName, update_cdrom
  | case_match ].
Lemma only_describe_all may {H A} (describe : H -> prog libvirt (result A)) release hs :
  (forall h, only may (describe h)) -> (forall h, only may (release h)) -> only may (describe_all describe release hs).
Proof.
  intros Hd Hr. induction hs as [|h hs IH]; cbn [describe_all]; [apply only_ret|].
  apply only_bind; [done|]. intros r. apply only_bind; [done|]. intros _. apply only_try; [apply only_ret|].
  intros i. apply only_try; [done|]. intros l. apply only_ret.
Qed.
Lemma only_delete_volumes may c paths :
  (forall p, may (LookupStorageVolByPath c p) = true) -> (forall v f, may (VolDelete v f) = true) ->
  (forall v, may (VolFree v) = true) -> only (E := libvirt) may (DeleteDomainVolumes_loop c paths).
Proof.
  intros Hl Hd Hf. induction paths as [|p ps IH]; cbn [DeleteDomainVolumes_loop]; [apply only_ret|].
  destruct (str_empty (TrimSpace p)); [done|]. apply only_bind; [by apply (only_call (E := libvirt))|]. intros [v|e]; [|done].
  apply only_bind; [by apply only_call|]. intros r. apply only_bind; [unfold free; keeps; by apply only_call|].
  intros _. destruct r; [done|apply only_ret].
Qed.

(** A handler changes no more than its action says. *)
Lemma libvirt_keeps action h cmd :
  libvirt_handlers unicode_name action = Some h -> only (E := libvirt) (permitted action) (h cmd).
Proof.
  unfold libvirt_handlers. intros Hh.
  repeat match type of Hh with
  | (if str_eqb action ?a then _ else _) = _ =>
      destruct (str_eqb_spec action a) as [->|_]; [injection Hh as <-|]
  end; [..|discriminate Hh].
  - unfold handleLibvirtDomainsList. keeps. apply only_describe_all; intros d; unfold DescribeDomain; keeps.
  - unfold handleLibvirtStoragePoolsList, ListStoragePools. keeps.
    apply only_describe_all; intros p; unfold describeStoragePool; keeps.
    apply only_describe_all; intros v; unfold describeStorageVolume; keeps.
  - unfold handleLibvirtNetworksList, ListNetworks. keeps.
    apply only_describe_all; intros n; unfold describeNetwork; keeps.
  - unfold handleLibvirtVMCreate, CreateDiskVolume. keeps.
  - unfold handleLibvirtVMStart, handleDomainAction. keeps.
  - unfold handleLibvirtVMShutdown, handleDomainAction. keeps.
  - unfold handleLibvirtVMReboot, handleDomainAction. keeps.
  - unfold handleLibvirtVMDestroy, handleDomainAction. keeps.
  - unfold handleLibvirtVMDelete, DescribeDomain, DeleteDomainVolumes. keeps. by apply only_delete_volumes.
  - unfold handleLibvirtVMSetAutostart. keeps.
  - unfold handleLibvirtVMAttachISO. keeps.
  - unfold handleLibvirtVMDetachISO. keeps.
Qed.

(** ** Deleting a domain *)
(** What the calls of a deletion have shown so far. *)
Record delete_watch := mkDeleteWatch {
  w_dom : option Dom; w_freed : bool; w_stopped : bool; w_undefined : bool;
  w_paths : list string; w_looked : list string; w_vol : option Vol; w_failed : bool }.
Definition delete_start : delete_watch := mkDeleteWatch None false false false [] [] None false.
(** When a deletion may make a call. *)
Definition delete_allowed (p : LibvirtVMDeleteParams) (w : delete_watch) (o : op libvirt) : Prop :=
  w_freed w = false /\
  match o with
  | LookupDomain _ name => name = TrimSpace (vx_Name p)
  | DomDestroy d => w_dom w = Some d /\ vx_ForceStop p = true
  | DomUndefineFlags d _ => w_dom w = Some d /\ w_stopped w = true
  | LookupStorageVolByPath _ path => vx_RemoveVolumes p = true /\ path <> "" /\ path ∈ map TrimSpace (w_paths w)
  | VolDelete v _ => w_undefined w = true /\ w_vol w = Some v /\ w_failed w = false
  | DomFree d => w_dom w = Some d
  | o => reads_only o = true
  end.
Definition delete_seen (w : delete_watch) (e : event libvirt) : delete_watch :=
  let 'mkDeleteWatch dom freed stopped undefined paths looked vol failed := w in
  match ev_op e as o return libvirt_answer o -> delete_watch with
  | LookupDomain _ _ => fun x =>
      mkDeleteWatch match x with Ok d => Some d | Err _ => dom end freed stopped undefined paths looked vol failed
  | DomGetXMLDesc _ => fun x =>
      mkDeleteWatch dom freed stopped undefined (snd (describe_disks unicode_name (or_zero "" x))) looked vol failed
  | DomIsActive _ => fun x => mkDeleteWatch dom freed (negb (or_zero false x)) undefined paths looked vol failed
  | DomDestroy _ => fun x => mkDeleteWatch dom freed (stopped || is_ok x) undefined paths looked vol failed
  | DomUndefineFlags _ _ => fun x => mkDeleteWatch dom freed stopped (undefined || is_ok x) paths looked vol failed
  | LookupStorageVolByPath _ path => fun x =>
      mkDeleteWatch dom freed stopped undefined paths (looked ++ [path]) match x with Ok v => Some v | Err _ => None end failed
  | VolDelete _ _ => fun x => mkDeleteWatch dom freed stopped undefined paths looked vol (failed || negb (is_ok x))
  | VolFree _ => fun _ => mkDeleteWatch dom freed stopped undefined paths looked None failed
  | DomFree _ => fun _ => mkDeleteWatch dom true stopped undefined paths looked vol failed
  | _ => fun _ => w
  end (ev_answer e).

Definition real_paths (paths : list string) : list string := filter (fun p => p <> "") (map TrimSpace paths).
Section Delete.
Context (p : LibvirtVMDeleteParams).
Abbreviation holds := (holds (delete_allowed p) delete_seen).
Lemma delete_volumes_holds c all paths dom stopped looked : vx_RemoveVolumes p = true ->
  (forall x, x ∈ paths -> x ∈ all) ->
  holds (mkDeleteWatch (Some dom) false stopped true all looked None false) (DeleteDomainVolumes_loop c paths)
    (fun w r => w_dom w = Some dom /\ w_freed w = false /\ w_undefined w = true /\ w_paths w = all
       /\ (r = Ok tt -> w_failed w = false /\ w_looked w = looked ++ real_paths paths)).
Proof.
  intros Hp. revert looked. induction paths as [|x paths IH]; intros looked Hall; cbn [DeleteDomainVolumes_loop].
  - apply holds_ret. split_and!; try done. intros _. by rewrite app_nil_r.
  - assert (forall y, y ∈ paths -> y ∈ all) as Hall' by (intros y Hy; apply Hall; by right).
    unfold real_paths. cbn [map]. rewrite filter_cons. destruct (str_empty_spec (TrimSpace x)) as [E|E].
    { rewrite decide_False by (by intros H; apply H). by apply IH. }
    rewrite decide_True by done. apply holds_bind, holds_call.
    { split; [done|]. cbn. split; [done|]. split; [done|]. apply list_elem_of_fmap. exists x. split; [done|]. apply Hall. left. }
    intros [v|e]; cbn [delete_seen ev_op ev_answer].
    + apply holds_bind, holds_call; [by split|]. intros r. apply holds_bind. unfold free. apply holds_bind, holds_call; [by split|].
      intros ?. apply holds_ret. cbn [delete_seen ev_op ev_answer]. destruct r as [[]|e]; cbn [is_ok orb negb].
      * eapply holds_mono; [by apply (IH (looked ++ [TrimSpace x]))|]. cbn. intros w r (? & ? & ? & ? & Hr). split_and!; try done.
        intros Hok. destruct (Hr Hok) as [? ->]. by rewrite <- app_assoc.
      * apply holds_ret. cbn. split_and!; done.
    + eapply holds_mono; [by apply (IH (looked ++ [TrimSpace x]))|]. cbn. intros w r (? & ? & ? & ? & Hr). split_and!; try done.
      intros Hok. destruct (Hr Hok) as [? ->]. by rewrite <- app_assoc.
Qed.
Ltac do_call := match goal with |- GoEffect.holds _ _ ?w (call ?o) ?Q => apply (holds_call (E := libvirt) w o Q) end.
Definition delete_done (w : delete_watch) (r : result RawMessage) : Prop :=
  (forall d, w_dom w = Some d -> w_freed w = true)
  /\ forall out, r = Ok out ->
      w_undefined w = true /\ out = entry_json "removed_volumes" (bool_text (vx_RemoveVolumes p))
      /\ (vx_RemoveVolumes p = true -> w_failed w = false /\ w_looked w = real_paths (w_paths w)).
Ltac delete_call := apply holds_bind; do_call; [by split|intros ?; cbn [delete_seen ev_op ev_answer]].
Lemma describe_holds d (Q : delete_watch -> result (VMDomain * list string) -> Prop) w :
  w = mkDeleteWatch (Some d) false false false [] [] None false ->
  (forall e, Q w (Err e)) ->
  (forall vm b paths, Q (mkDeleteWatch (Some d) false b false paths [] None false) (Ok (vm, paths))) ->
  holds w (DescribeDomain unicode_name (Some d)) Q.
Proof.
  intros -> He Hok. unfold DescribeDomain. apply holds_try; do_call; [by split|].
  intros [name|e]; cbn [delete_seen ev_op ev_answer]; [|apply He].
  do 7 delete_call. destruct (describe_disks _ _) as [iso paths] eqn:Ed.
  destruct (match _ with Ok i => _ | Err _ => _ end) as [[[st mx] me] vc]. apply holds_ret. cbn [snd]. apply Hok.
Qed.
Lemma GetQEMU_holds w (Q : delete_watch -> result Conn -> Prop) :
  w_freed w = false -> (forall r, Q w r) -> holds w GetQEMU Q.
Proof.
  intros Hf HQ. destruct w as [dom freed stopped undefined paths looked vol failed]. cbn [w_freed] in Hf. subst freed.
  unfold GetQEMU. delete_call. destruct x as [c|]; [by apply holds_ret|]. apply holds_try; do_call; [by split|].
  intros [c|e]; cbn [delete_seen ev_op ev_answer]; [|apply HQ]. delete_call. by apply holds_ret.
Qed.
Lemma free_holds d r w : w_dom w = Some d -> w_freed w = false ->
  (forall out, r = Ok out ->
      w_undefined w = true /\ out = entry_json "removed_volumes" (bool_text (vx_RemoveVolumes p))
      /\ (vx_RemoveVolumes p = true -> w_failed w = false /\ w_looked w = real_paths (w_paths w))) ->
  holds w (free (DomFree d)) (fun w2 _ => delete_done w2 r).
Proof.
  destruct w as [dom freed stopped undefined pth looked vol failed]. cbn [w_dom w_freed w_undefined w_failed w_looked w_paths]. intros -> -> Hr.
  apply holds_bind; do_call; [by split|]. intros ?. by apply holds_ret.
Qed.
Lemma undefine_holds d c vm paths :
  holds (mkDeleteWatch (Some d) false true false paths [] None false)
    (try! _ := call (E := libvirt) (DomUndefineFlags d undefine_flags) in
     try! _ := (if vx_RemoveVolumes p then DeleteDomainVolumes (Some c) (snd (vm : VMDomain, paths)) else Ret (Ok tt)) in
     Ret (Ok (entry_json "removed_volumes" (bool_text (vx_RemoveVolumes p)))))
    (fun w a => holds w (free (DomFree d)) (fun w2 _ => delete_done w2 a)).
Proof.
  apply holds_try; do_call; [by split|]. intros [[]|e]; cbn [delete_seen ev_op ev_answer is_ok orb]; [|by apply free_holds].
  apply holds_try. destruct (vx_RemoveVolumes p) eqn:Erv.
  - cbn [DeleteDomainVolumes snd]. eapply holds_mono; [by apply (delete_volumes_holds c paths paths d true [])|].
    intros w r (Hd & Hf & Hu & Hp & Hok). destruct r as [[]|e]; [|by apply free_holds].
    apply holds_ret, free_holds; try done. intros out [= <-]. rewrite Erv. split_and!; try done. intros _.
    destruct (Hok eq_refl) as [? ->]. by rewrite Hp.
  - apply holds_ret, holds_ret, free_holds; try done. intros out [= <-]. by rewrite Erv.
Qed.
Lemma delete_holds cmd : Params LibvirtVMDeleteParams "invalid vm delete params" cmd = Ok p ->
  holds delete_start (handleLibvirtVMDelete unicode_name cmd) delete_done.
Proof.
  intros Hp. unfold handleLibvirtVMDelete. rewrite Hp. apply holds_try, holds_ret, holds_try, GetQEMU_holds; [done|].
  intros [qemu|e]; [|by split]. apply holds_try. unfold LookupDomainByName.
  destruct (str_empty_spec (TrimSpace (vx_Name p))); [by apply holds_ret|]. do_call; [by split|].
  intros [d|e]; cbn [delete_seen delete_start ev_op ev_answer]; [|by split].
  apply holds_deferred, holds_try, describe_holds; [done|..]; [intros e; by apply free_holds|].
  intros vm b paths. delete_call. apply holds_try. destruct (or_zero false x) eqn:Ea; cbn [negb].
  - destruct (vx_ForceStop p) eqn:Efs; cbn [negb]; [|by apply holds_ret, free_holds].
    do_call; [by split|]. intros [[]|e]; cbn [delete_seen ev_op ev_answer is_ok orb]; [|by apply free_holds].
    apply undefine_holds.
  - apply holds_ret, undefine_holds.
Qed.

(** C6: A deletion is careful whatever libvirt answers: it stops a running domain only when it is asked to, undefines a domain only after it was stopped or when libvirt did not say that it runs, looks for volumes only when it is asked to and only at the paths of disks that the description named, deletes a volume only after the domain was undefined, and gives up at the first volume it cannot delete; it releases the domain last, and where it reports success the domain is undefined and the volumes of all its disks, if any were to go, have been looked for. *)
Theorem delete_is_careful cmd tr r :
  Params LibvirtVMDeleteParams "invalid vm delete params" cmd = Ok p ->
  ran (handleLibvirtVMDelete unicode_name cmd) tr r ->
  obeys (delete_allowed p) delete_seen delete_start tr /\ delete_done (after delete_seen delete_start tr) r.
Proof. intros Hp Hr. exact (delete_holds cmd Hp tr r Hr). Qed.
End Delete.

(** ** Creating a domain *)
Record create_watch := mkCreateWatch {
  n_pool : option Pool; n_vol : option Vol; n_path : option string; n_dom : option Dom;
  n_auto : bool; n_started : bool; n_pool_freed : bool; n_vol_freed : bool; n_dom_freed : bool }.
Definition create_start : create_watch := mkCreateWatch None None None None false false false false false.
(** The name and size of the disk that a request asks for. *)
Definition wanted_disk (p : LibvirtVMCreateParams) : string :=
  let name := TrimSpace (if str_empty (vc_DiskName p) then TrimSpace (vc_Name p) else vc_DiskName p) in
  if str_empty (Ext name) then name +:+ ".qcow2" else name.
Definition wanted_pool (p : LibvirtVMCreateParams) : string :=
  if str_empty (TrimSpace (vc_DiskPool p)) then "default" else TrimSpace (vc_DiskPool p).
Definition wanted_size (p : LibvirtVMCreateParams) : Z := if (vc_DiskSizeGB p =? 0)%Z then 20%Z else vc_DiskSizeGB p.
Definition create_allowed (p : LibvirtVMCreateParams) (w : create_watch) (o : op libvirt) : Prop :=
  match o with
  | LookupStoragePoolByName _ name => name = wanted_pool p
  | PoolStorageVolCreateXML pl xml =>
      n_vol w = None /\ n_pool w = Some pl /\ n_pool_freed w = false /\ xml = volume_xml (wanted_disk p) (wanted_size p)
  | PoolFree pl => n_pool w = Some pl /\ n_pool_freed w = false
  | VolGetPath v | VolGetName v | VolFree v => n_vol w = Some v /\ n_vol_freed w = false
  | DomainDefineXML _ xml =>
      n_dom w = None /\ exists path diskName, n_path w = Some path
        /\ xml = BuildDomainXML (with_names p (TrimSpace (vc_Name p)) diskName) path
  | DomSetAutostart d on => n_dom w = Some d /\ n_dom_freed w = false /\ on = true /\ vc_Autostart p = true
  | DomCreate d => n_dom w = Some d /\ n_dom_freed w = false /\ vc_Start p = true
  | DomGetUUIDString d | DomFree d => n_dom w = Some d /\ n_dom_freed w = false
  | o => reads_only o = true
  end.
Definition create_seen (w : create_watch) (e : event libvirt) : create_watch :=
  let 'mkCreateWatch pl vol path dom auto started pf vf df := w in
  match ev_op e as o return libvirt_answer o -> create_watch with
  | LookupStoragePoolByName _ _ => fun x =>
      mkCreateWatch match x with Ok p => Some p | Err _ => pl end vol path dom auto started pf vf df
  | PoolStorageVolCreateXML _ _ => fun x =>
      mkCreateWatch pl match x with Ok v => Some v | Err _ => vol end path dom auto started pf vf df
  | VolGetPath _ => fun x =>
      mkCreateWatch pl vol match x with Ok p => Some p | Err _ => path end dom auto started pf vf df
  | DomainDefineXML _ _ => fun x =>
      mkCreateWatch pl vol path match x with Ok d => Some d | Err _ => dom end auto started pf vf df
  | DomSetAutostart _ _ => fun x => mkCreateWatch pl vol path dom (auto || is_ok x) started pf vf df
  | DomCreate _ => fun x => mkCreateWatch pl vol path dom auto (started || is_ok x) pf vf df
  | PoolFree _ => fun _ => mkCreateWatch pl vol path dom auto started true vf df
  | VolFree _ => fun _ => mkCreateWatch pl vol path dom auto started pf true df
  | DomFree _ => fun _ => mkCreateWatch pl vol path dom auto started pf vf true
  | _ => fun _ => w
  end (ev_answer e).
(** What was opened is closed, and a success says that all is as it was asked for. *)
Definition create_done (p : LibvirtVMCreateParams) (w : create_watch) (r : result RawMessage) : Prop :=
  (n_pool w <> None -> n_pool_freed w = true) /\ (n_vol w <> None -> n_vol_freed w = true) /\ (n_dom w <> None -> n_dom_freed w = true)
  /\ forall out, r = Ok out ->
      n_dom w <> None /\ (vc_Autostart p = true -> n_auto w = true) /\ (vc_Start p = true -> n_started w = true)
      /\ exists path uuid volume, n_path w = Some path
          /\ MarshalAs (wire LibvirtVMCreateResult) (mkLibvirtVMCreateResult (TrimSpace (vc_Name p)) uuid volume path) = Ok out.
Section Create.
Context (p : LibvirtVMCreateParams).
Abbreviation holds := (holds (create_allowed p) create_seen).
Ltac do_call := match goal with |- GoEffect.holds _ _ ?w (call ?o) ?Q => apply (holds_call (E := libvirt) w o Q) end.
Ltac create_cbn := cbn [create_seen create_start ev_op ev_answer is_ok orb].
Lemma create_qemu_holds (Q : create_watch -> result Conn -> Prop) w :
  (forall r, Q w r) -> holds w GetQEMU Q.
Proof.
  intros HQ. destruct w. unfold GetQEMU. apply holds_bind; do_call; [done|]. intros [c|]; create_cbn; [by apply holds_ret|].
  apply holds_try; do_call; [done|]. intros [c|e]; create_cbn; [|apply HQ].
  apply holds_bind; do_call; [done|]. intros ?. by apply holds_ret.
Qed.
Lemma create_volume_holds c (Q : create_watch -> result (option Vol * string) -> Prop) :
  let name := if str_empty (vc_DiskName p) then TrimSpace (vc_Name p) else vc_DiskName p in
  (forall e, Q create_start (Err e)) -> (forall pl e, Q (mkCreateWatch (Some pl) None None None false false true false false) (Err e)) ->
  (forall pl v e, Q (mkCreateWatch (Some pl) (Some v) None None false false true true false) (Err e)) ->
  (forall pl v path, Q (mkCreateWatch (Some pl) (Some v) (Some path) None false false true false false) (Ok (Some v, path))) ->
  holds create_start (CreateDiskVolume (Some c) (vc_DiskPool p) name (vc_DiskSizeGB p)) Q.
Proof.
  intros name H1 H2 H3 H4. unfold CreateDiskVolume. destruct (str_empty (TrimSpace name)); [by apply holds_ret|].
  apply holds_try; do_call; [done|]. intros [pool|e]; create_cbn; [|apply H1].
  apply holds_deferred, holds_try; do_call; [done|]. intros [v|e]; create_cbn.
  - apply holds_bind; do_call; [done|]. intros [path|e]; create_cbn.
    + apply holds_ret, holds_bind; do_call; [done|]. intros ?. create_cbn. apply holds_ret, H4.
    + apply holds_bind, holds_bind; do_call; [done|]. intros ?. create_cbn. apply holds_ret, holds_ret, holds_bind; do_call; [done|].
      intros ?. create_cbn. apply holds_ret, H3.
  - apply holds_bind; do_call; [done|]. intros ?. create_cbn. apply holds_ret, H2.
Qed.
Definition create_reported (dom : option Dom) (auto started : bool) (path : string) (r : result RawMessage) : Prop :=
  forall out, r = Ok out ->
    dom <> None /\ (vc_Autostart p = true -> auto = true) /\ (vc_Start p = true -> started = true)
    /\ exists uuid volume,
         MarshalAs (wire LibvirtVMCreateResult) (mkLibvirtVMCreateResult (TrimSpace (vc_Name p)) uuid volume path) = Ok out.
(** The last steps: the domain, if there is one, and then the volume are let go. *)
Lemma release_volume_holds pl v path dom auto started df r :
  create_reported dom auto started path r -> (dom <> None -> df = true) ->
  holds (mkCreateWatch pl (Some v) (Some path) dom auto started true false df) (free (VolFree v))
    (fun w _ => create_done p w r).
Proof.
  intros Hr Hd. apply holds_bind; do_call; [done|]. intros ?. apply holds_ret. create_cbn.
  split; [done|]. split; [done|]. split; [done|]. intros out Ho. destruct (Hr out Ho) as (? & ? & ? & u & n & ?).
  cbn. split_and!; try done. by exists path, u, n.
Qed.
Lemma release_domain_holds pl v d path auto started r :
  create_reported (Some d) auto started path r ->
  holds (mkCreateWatch pl (Some v) (Some path) (Some d) auto started true false false) (free (DomFree d))
    (fun w _ => holds w (free (VolFree v)) (fun w _ => create_done p w r)).
Proof.
  intros Hr. apply holds_bind; do_call; [done|]. intros ?. create_cbn. by apply holds_ret, release_volume_holds.
Qed.
Lemma create_finish_holds pl v d path auto started :
  (vc_Autostart p = true -> auto = true) -> (vc_Start p = true -> started = true) ->
  holds (mkCreateWatch pl (Some v) (Some path) (Some d) auto started true false false)
    (do! uuid := call (E := libvirt) (DomGetUUIDString d) in
     do! volumeName := call (E := libvirt) (VolGetName v) in
     reply_json (wire LibvirtVMCreateResult)
       (mkLibvirtVMCreateResult (TrimSpace (vc_Name p)) (or_zero "" uuid) (or_zero "" volumeName) path))
    (fun w a => holds w (free (DomFree d)) (fun w _ => holds w (free (VolFree v)) (fun w _ => create_done p w a))).
Proof.
  intros Ha Hs. do 2 (apply holds_bind; do_call; [done|]; intros ?; create_cbn).
  apply holds_ret, release_domain_holds. intros out Ho. split_and!; try done. by eexists _, _.
Qed.
Lemma create_holds cmd : Params LibvirtVMCreateParams "invalid vm create params" cmd = Ok p ->
  holds create_start (handleLibvirtVMCreate cmd) (create_done p).
Proof.
  intros Hp. unfold handleLibvirtVMCreate. rewrite Hp. apply holds_try, holds_ret.
  destruct (str_empty (TrimSpace (vc_Name p))); [by apply holds_ret|].
  apply holds_try, create_qemu_holds. intros [c|e]; [|by split].
  apply holds_try, create_volume_holds; [by split..|]. intros pl v path.
  apply holds_deferred, holds_try; do_call; [by split; [|eexists _, _]|].
  intros [d|e]; create_cbn; [|by apply release_volume_holds].
  apply holds_deferred, holds_try. cbn [with_names vc_Autostart vc_Start].
  destruct (vc_Autostart p) eqn:Ea; [do_call; [done|]; intros [[]|e]; create_cbn; [|by apply release_domain_holds]|apply holds_ret];
  (apply holds_try; destruct (vc_Start p) eqn:Es;
    [do_call; [done|]; intros [[]|e]; create_cbn; [|by apply release_domain_holds]|apply holds_ret];
    apply create_finish_holds; congruence).
Qed.

(** C7: A creation does what was asked and lets go of everything, whatever libvirt answers: it makes at most one volume, in the pool and of the name and size that the request says (or their defaults), defines at most one domain, from the request and the path of that volume, starts it or sets its autostart only where that was asked for; every handle it got it releases exactly once, and never uses afterwards; and where it reports success the domain was defined, started and marked as was asked, and the report names the path of its disk. *)
Theorem create_is_what_was_asked cmd tr r :
  Params LibvirtVMCreateParams "invalid vm create params" cmd = Ok p ->
  ran (handleLibvirtVMCreate cmd) tr r ->
  obeys (create_allowed p) create_seen create_start tr /\ create_done p (after create_seen create_start tr) r.
Proof. intros Hp Hr. exact (create_holds cmd Hp tr r Hr). Qed.
End Create.
End Handlers.

(** ** A libvirt to run against

    It has one pool with its volumes and at most one domain; it can refuse to define a domain,
    and it can fail to say whether a domain runs. *)
Record toy := mkToy { t_vols : list string; t_domain : option (string * bool); t_refuses : bool; t_mute : bool }.
Abbreviation toy_libvirt := (libvirt unit unit string unit string).
Definition toy_host (o : op toy_libvirt) (s : toy) : answer toy_libvirt o * toy :=
  let 'mkToy vols dom refuses mute := s in
  let change (running : bool) := mkToy vols match dom with Some (x, _) => Some (x, running) | None => None end refuses mute in
  match o as o return libvirt_answer o * toy with
  | LoadConn => (Some tt, s)
  | StoreConn _ => (tt, s)
  | NewConnect _ => (Ok tt, s)
  | ListAllDomains _ _ => (Ok match dom with Some _ => [tt] | None => [] end, s)
  | ListAllStoragePools _ _ => (Ok ["default"], s)
  | ListAllNetworks _ _ => (Ok [tt], s)
  | LookupDomain _ _ => (match dom with Some _ => Ok tt | None => Err "no domain" end, s)
  | LookupStoragePoolByName _ name => (if str_eqb name "default" then Ok name else Err "no pool", s)
  | LookupStorageVolByPath _ path => (if mem_str path vols then Ok path else Err "no volume", s)
  | DomainDefineXML _ xml => if refuses then (Err "refused", s) else (Ok tt, mkToy vols (Some (xml, false)) refuses mute)
  | DomIsActive _ => (if mute then Err "timeout" else Ok match dom with Some (_, running) => running | None => false end, s)
  | DomGetXMLDesc _ => (match dom with Some (xml, _) => Ok xml | None => Err "no domain" end, s)
  | DomCreate _ => (Ok tt, change true)
  | DomShutdown _ | DomReboot _ | DomSetAutostart _ _ | DomUpdateDeviceFlags _ _ _ | DomFree _ => (Ok tt, s)
  | DomDestroy _ => (Ok tt, change false)
  | DomUndefineFlags _ _ => (Ok tt, mkToy vols None refuses mute)
  | DomGetName _ | DomGetUUIDString _ => (Ok "vm", s)
  | DomGetID _ => (Ok (-1)%Z, s)
  | DomIsPersistent _ | DomGetAutostart _ => (Ok true, s)
  | DomGetInfo _ => (Err "no information", s)
  | PoolGetName p | PoolGetUUIDString p => (Ok p, s)
  | PoolIsActive _ | PoolIsPersistent _ | PoolGetAutostart _ => (Ok true, s)
  | PoolGetInfo _ => (Ok (mkPoolInfo 100 40 60), s)
  | PoolListAllStorageVolumes _ => (Ok vols, s)
  | PoolStorageVolCreateXML _ xml =>
      if mem_str "/pool/disk" vols then (Err "volume exists", s)
      else (Ok "/pool/disk", mkToy ("/pool/disk" :: vols) dom refuses mute)
  | PoolFree _ | VolFree _ => (Ok tt, s)
  | NetGetName _ | NetGetUUIDString _ => (Ok "default", s)
  | NetIsActive _ | NetIsPersistent _ | NetGetAutostart _ => (Ok true, s)
  | NetFree _ => (Ok tt, s)
  | VolGetName v | VolGetKey v | VolGetPath v => (Ok v, s)
  | VolGetXMLDesc _ => (Err "no description", s)
  | VolGetInfo _ => (Ok (mkVolInfo 20 1), s)
  | VolDelete v _ => (Ok tt, mkToy (filter (fun x => x <> v) vols) dom refuses mute)
  end.
Definition state_after {A} (r : A * toy * list (event toy_libvirt)) : toy := snd (fst r).
Abbreviation ascii_only := (fun _ : list ascii => false).
Abbreviation ask_to action text := (mkNodeCommand action (json_text text)).
Abbreviation create_vm := (ask_to "libvirt.domain.create" "{'name':' <a> ','memory_mb':0,'vcpus':1,'disk_pool':'','disk_size_gb':5,'start':true}").
Abbreviation delete_vm := (ask_to "libvirt.domain.delete" "{'name':'a','remove_volumes':true}").
Abbreviation delete_vm_hard := (ask_to "libvirt.domain.delete" "{'name':'a','force_stop':true,'remove_volumes':true}").
Abbreviation create_on := (run toy_host (handleLibvirtVMCreate create_vm)).
Abbreviation delete_on cmd := (run toy_host (handleLibvirtVMDelete ascii_only cmd)).
Abbreviation fresh := (mkToy [] None false false).
Abbreviation created := (state_after (create_on fresh)).

Example a_domain_comes_and_goes :
  out (create_on fresh) = Ok (json_text "{'name':'\u003ca\u003e','uuid':'vm','disk_volume':'/pool/disk','disk_path':'/pool/disk'}")
  /\ t_vols created = ["/pool/disk"]
  /\ out (delete_on delete_vm created) = Err "domain is running; force stop first"
  /\ out (delete_on delete_vm_hard created) = Ok (json_text "{'removed_volumes':true}")
  /\ state_after (delete_on delete_vm_hard created) = fresh.
Proof. vm_compute. split_and!; reflexivity. Qed.

Lemma delete_is_careful_witness :
  Params LibvirtVMDeleteParams "invalid vm delete params" delete_vm_hard = Ok (mkLibvirtVMDeleteParams "a" true true)
  /\ length (trace (delete_on delete_vm_hard created)) = 17
  /\ delete_done (mkLibvirtVMDeleteParams "a" true true)
       (after (delete_seen ascii_only) delete_start (trace (delete_on delete_vm_hard created)))
       (out (delete_on delete_vm_hard created)).
Proof.
  split; [vm_compute; reflexivity|]. split; [vm_compute; reflexivity|].
  apply (delete_is_careful ascii_only (mkLibvirtVMDeleteParams "a" true true) delete_vm_hard);
    [vm_compute; reflexivity|apply run_ran].
Defined.
Abbreviation created_params := (mkLibvirtVMCreateParams " <a> " 0 1 "" "" 5 "" "" false true).
Lemma create_is_what_was_asked_witness :
  Params LibvirtVMCreateParams "invalid vm create params" create_vm = Ok created_params
  /\ create_done created_params (after create_seen create_start (trace (create_on fresh))) (out (create_on fresh)).
Proof.
  split; [vm_compute; reflexivity|].
  apply (create_is_what_was_asked created_params create_vm); [vm_compute; reflexivity|apply run_ran].
Defined.

(** A creation that fails after its volume was made leaves the volume behind, and from then
    on the same request fails because of it, even when libvirt would define the domain. *)
Lemma failed_create_blocks_retry :
  let failed := create_on (mkToy [] None true false) in
  out failed = Err "refused" /\ t_vols (state_after failed) = ["/pool/disk"]
  /\ out (create_on (mkToy (t_vols (state_after failed)) None false false)) = Err "volume exists".
Proof. vm_compute. split_and!; reflexivity. Qed.
(** When libvirt cannot say whether the domain runs, a deletion that was not to stop it
    undefines it as it runs, and deletes the volume it runs on. *)
Lemma silence_deletes_running_domain :
  let s := mkToy (t_vols created) (t_domain created) false true in
  (exists xml, t_domain s = Some (xml, true)) /\ t_vols s = ["/pool/disk"]
  /\ is_ok (out (delete_on delete_vm s)) = true
  /\ state_after (delete_on delete_vm s) = mkToy [] None false true.
Proof. vm_compute. split_and!; [by eexists|reflexivity..]. Qed.
