(* ===== verification/GoDocker.v ===== *)
(** Containers of a slave: [slave/docker/main.go] and the handlers of
    [slave/handlers/docker.go].

    The docker client is a parameter, as libvirt is in GoVM: [docker_op] lists the calls that
    the code makes, and what they answer is left open.  The two functions of the moby library
    that only compute, [network.ParsePort] and [container.ValidateRestartPolicy], are
    parameters too. *)
From stdpp Require Import base gmap strings list.
From Stdlib Require Import Lia ZArith Ascii.
From S2P Require Import Prelude GoStrings GoJson GoTypes GoProtocol GoHandshake GoStruct GoWire GoEffect GoCommands GoVM.
Local Open Scope prog_scope.

(** * [strings.Fields] *)
Definition flush (cur : list ascii) (rest : list string) : list string :=
  match cur with [] => rest | _ => of_bytes cur :: rest end.
Fixpoint fields_from (l cur : list ascii) : list string :=
  match l with
  | [] => flush cur []
  | a :: l1 =>
      if space1 a then flush cur (fields_from l1 [])
      else
        let go := fields_from l1 (cur ++ [a]) in
        match l1 with
        | [] => go
        | b :: l2 =>
            if space2 a b then flush cur (fields_from l2 [])
            else match l2 with
                 | [] => go
                 | c :: l3 => if space3 a b c then flush cur (fields_from l3 []) else go
                 end
        end
  end.
Definition Fields (s : string) : list string := fields_from (bytes_of s) [].

(** * What the client is given and gives *)
Record container_Summary := mkSummary {
  su_ID : string; su_Image : string; su_Names : list string; su_State : string;
  su_Status : string; su_Created : Z }.
Record image_Summary := mkImageSummary {
  si_ID : string; si_RepoTags : list string; si_Size : Z; si_Created : Z; si_Labels : gmap string string }.
Record DeleteResponse := mkDeleteResponse { re_Deleted : string; re_Untagged : string }.
Record CreateResult := mkCreateResult { rc_ID : string; rc_Warnings : list string }.
Record HostConfig := mkHostConfig { hc_PublishAllPorts : bool; hc_AutoRemove : bool; hc_RestartPolicy : string }.

Section Docker.
Context {Cli Pull Port : Type} `{Countable Port}.
(** [network.ParsePort]; [container.ValidateRestartPolicy] of a policy with only a name. *)
Context (ParsePort : string -> result Port) (ValidateRestartPolicy : string -> result unit).
Record Config := mkConfig {
  cf_Image : string; cf_Cmd : list string; cf_Entrypoint : list string; cf_WorkingDir : string;
  cf_Env : list string; cf_ExposedPorts : gset Port }.

(** The variable [g_client], and the calls of the client. *)
Inductive docker_op :=
  | LoadClient | StoreClient (c : Cli) | NewClient
  | ContainerList (c : Cli) (all : bool) | ImageList (c : Cli)
  | ImagePull (c : Cli) (image : string) | PullWait (p : Pull) | PullClose (p : Pull)
  | ImageRemove (c : Cli) (image : string) (force prune : bool)
  | ContainerCreate (c : Cli) (config : Config) (hostConfig : HostConfig) (name : string)
  | ContainerStart (c : Cli) (id : string)
  | ContainerStop (c : Cli) (id : string) (timeout : option Z)
  | ContainerRestart (c : Cli) (id : string) (timeout : option Z)
  | ContainerRemove (c : Cli) (id : string) (force volumes : bool).
Definition docker_answer (o : docker_op) : Type :=
  match o with
  | LoadClient => option Cli
  | StoreClient _ => unit
  | NewClient => result Cli
  | ContainerList _ _ => result (list container_Summary)
  | ImageList _ => result (list image_Summary)
  | ImagePull _ _ => result Pull
  | PullWait _ | PullClose _ => result unit
  | ImageRemove _ _ _ _ => result (list DeleteResponse)
  | ContainerCreate _ _ _ _ => result CreateResult
  | ContainerStart _ _ | ContainerStop _ _ _ | ContainerRestart _ _ _ | ContainerRemove _ _ _ _ => result unit
  end.
Definition docker : signature := mkSignature docker_op docker_answer.
Abbreviation prog := (prog docker).
Abbreviation ask o := (call (E := docker) o).

(** * slave/docker/main.go *)
Definition GetClient : prog (result Cli) :=
  do! g := ask LoadClient in
  match g with
  | Some c => Ret (Ok c)
  | None => try! c := ask NewClient in do! _ := ask (StoreClient c) in Ret (Ok c)
  end.

(** * slave/handlers/docker.go *)
Definition container_item (c : container_Summary) : DockerContainer :=
  mkDockerContainer (su_ID c) (su_Image c) (su_Names c) (su_State c) (su_Status c) (su_Created c).
(** The error of [json.Marshal] is dropped, and a nil slice is returned with it. *)
Definition handleDockerContainersList (cmd : NodeCommand) : prog (result RawMessage) :=
  try! cli := GetClient in
  try! containers := ask (ContainerList cli true) in
  Ret (Ok match MarshalAs (cslice (wire DockerContainer)) (map container_item containers) with
          | Ok items_m => items_m
          | Err _ => ""
          end).
Definition image_item (i : image_Summary) : DockerImage :=
  mkDockerImage (si_ID i) (si_RepoTags i) (si_Size i) (si_Created i) (si_Labels i).
Definition handleDockerImagesList (cmd : NodeCommand) : prog (result RawMessage) :=
  try! cli := GetClient in
  try! images := ask (ImageList cli) in
  Ret (MarshalAs (cslice (wire DockerImage)) (map image_item images)).
Definition handleDockerImagePull (cmd : NodeCommand) : prog (result RawMessage) :=
  try! params := Ret (Params DockerImagePullParams "invalid image pull params" cmd) in
  let image := TrimSpace (dp_Image params) in
  if str_empty image then Ret (Err "image is required")
  else
    try! cli := GetClient in
    try! resp := ask (ImagePull cli image) in
    deferred (do! _ := ask (PullClose resp) in Ret tt)
      (try! _ := ask (PullWait resp) in Ret (Ok status_ok)).
Definition nonempty (l : list string) : list string := List.filter (fun s => negb (str_empty s)) l.
Definition handleDockerImageRemove (cmd : NodeCommand) : prog (result RawMessage) :=
  try! params := Ret (Params DockerImageRemoveParams "invalid image remove params" cmd) in
  let image := TrimSpace (dr_Image params) in
  if str_empty image then Ret (Err "image is required")
  else
    try! cli := GetClient in
    try! items := ask (ImageRemove cli image (dr_Force params) (dr_PruneChildren params)) in
    Ret (MarshalAs (wire DockerImageRemoveResult)
      (mkDockerImageRemoveResult (nonempty (map re_Deleted items)) (nonempty (map re_Untagged items)))).

(** The loop over the ports: the set so far, or the text of the one that is refused. *)
Fixpoint expose (ports : list string) (acc : gset Port) : result (gset Port) :=
  match ports with
  | [] => Ok acc
  | raw :: ports' =>
      match ParsePort (TrimSpace raw) with
      | Err _ => Err ("invalid port: " +:+ raw)
      | Ok p => expose ports' ({[p]} ∪ acc)
      end
  end.
Definition words (s : string) : list string := if str_empty (TrimSpace s) then [] else Fields s.
Definition container_config (image : string) (params : DockerContainerCreateParams) (ports : gset Port) : Config :=
  mkConfig image (words (cc_Command params)) (words (cc_Entrypoint params)) (TrimSpace (cc_WorkingDir params))
    (cc_Env params) ports.
Definition restart_policy (params : DockerContainerCreateParams) : result string :=
  if str_empty (cc_RestartPolicy params) then Ok ""
  else
    let policy := TrimSpace (cc_RestartPolicy params) in
    match ValidateRestartPolicy policy with Err e => Err e | Ok _ => Ok policy end.
Definition handleDockerContainerCreate (cmd : NodeCommand) : prog (result RawMessage) :=
  try! params := Ret (Params DockerContainerCreateParams "invalid container create params" cmd) in
  let image := TrimSpace (cc_Image params) in
  if str_empty image then Ret (Err "image is required")
  else
    try! cli := GetClient in
    try! ports := Ret (expose (cc_Ports params) ∅) in
    try! policy := Ret (restart_policy params) in
    try! res := ask (ContainerCreate cli (container_config image params ports)
      (mkHostConfig (cc_PublishAll params) (cc_AutoRemove params) policy) (TrimSpace (cc_Name params))) in
    try! _ := (if cc_Start params then ask (ContainerStart cli (rc_ID res)) else Ret (Ok tt)) in
    Ret (MarshalAs (wire DockerContainerCreateResult) (mkDockerContainerCreateResult (rc_ID res) (rc_Warnings res))).
(** The common part of the four actions on a container. *)
Definition on_container (id : string) (action : Cli -> prog (result unit)) : prog (result RawMessage) :=
  if str_empty (TrimSpace id) then Ret (Err "id is required")
  else
    try! cli := GetClient in
    try! _ := action cli in
    Ret (Ok status_ok).
Definition handleDockerContainerStart (cmd : NodeCommand) : prog (result RawMessage) :=
  try! params := Ret (Params DockerContainerStartParams "invalid container start params" cmd) in
  on_container (cs_ID params) (fun cli => ask (ContainerStart cli (cs_ID params))).
Definition handleDockerContainerStop (cmd : NodeCommand) : prog (result RawMessage) :=
  try! params := Ret (Params DockerContainerStopParams "invalid container stop params" cmd) in
  on_container (ct_ID params) (fun cli => ask (ContainerStop cli (ct_ID params) (ct_TimeoutSeconds params))).
Definition handleDockerContainerRestart (cmd : NodeCommand) : prog (result RawMessage) :=
  try! params := Ret (Params DockerContainerRestartParams "invalid container restart params" cmd) in
  on_container (cx_ID params) (fun cli => ask (ContainerRestart cli (cx_ID params) (cx_TimeoutSeconds params))).
Definition handleDockerContainerRemove (cmd : NodeCommand) : prog (result RawMessage) :=
  try! params := Ret (Params DockerContainerRemoveParams "invalid container remove params" cmd) in
  on_container (cm_ID params) (fun cli => ask (ContainerRemove cli (cm_ID params) (cm_Force params) (cm_RemoveVolumes params))).

(** The entries of [commandHandlers] that are about docker. *)
Definition docker_handlers (action : string) : option (NodeCommand -> prog (result RawMessage)) :=
  if str_eqb action "docker.containers.list" then Some handleDockerContainersList
  else if str_eqb action "docker.images.list" then Some handleDockerImagesList
  else if str_eqb action "docker.image.pull" then Some handleDockerImagePull
  else if str_eqb action "docker.image.remove" then Some handleDockerImageRemove
  else if str_eqb action "docker.container.create" then Some handleDockerContainerCreate
  else if str_eqb action "docker.container.start" then Some handleDockerContainerStart
  else if str_eqb action "docker.container.stop" then Some handleDockerContainerStop
  else if str_eqb action "docker.container.restart" then Some handleDockerContainerRestart
  else if str_eqb action "docker.container.remove" then Some handleDockerContainerRemove
  else None.
End Docker.
Arguments docker_op Cli Pull Port {_ _}.
Arguments docker Cli Pull Port {_ _}.
Arguments Config Port {_ _}.
Arguments docker_handlers {_ _ _ _ _} _ _ _.

(** * What a handler may change *)
Section Handlers.
Context {Cli Pull Port : Type} `{Countable Port}.
Context (ParsePort : string -> result Port) (ValidateRestartPolicy : string -> result unit).
Abbreviation docker := (docker Cli Pull Port).
Definition docker_reads (o : op docker) : bool :=
  match o with
  | ImagePull _ _ | ImageRemove _ _ _ _ | ContainerCreate _ _ _ _ | ContainerStart _ _ | ContainerStop _ _ _
  | ContainerRestart _ _ _ | ContainerRemove _ _ _ _ => false
  | _ => true
  end.
Definition docker_permitted (action : string) (o : op docker) : bool :=
  docker_reads o ||
  match o with
  | ImagePull _ _ => str_eqb action "docker.image.pull"
  | ImageRemove _ _ _ _ => str_eqb action "docker.image.remove"
  | ContainerCreate _ _ _ _ => str_eqb action "docker.container.create"
  | ContainerStart _ _ => mem_str action ["docker.container.create"; "docker.container.start"]
  | ContainerStop _ _ _ => str_eqb action "docker.container.stop"
  | ContainerRestart _ _ _ => str_eqb action "docker.container.restart"
  | ContainerRemove _ _ _ _ => str_eqb action "docker.container.remove"
  | _ => false
  end.
Ltac keeps := repeat first
  [ apply only_ret | match goal with |- only ?may (call ?o) => apply (only_call may o); reflexivity end
  | apply only_try | apply only_bind | apply only_deferred
  | progress intros | progress unfold ptry, GetClient, on_container | case_match ].
Lemma docker_keeps action h cmd :
  docker_handlers ParsePort ValidateRestartPolicy action = Some h -> only (E := docker) (docker_permitted action) (h cmd).
Proof.
  unfold docker_handlers. intros Hh.
  repeat match type of Hh with
  | (if str_eqb action ?a then _ else _) = _ =>
      destruct (str_eqb_spec action a) as [->|_]; [injection Hh as <-|]
  end; [..|discriminate Hh].
  - unfold handleDockerContainersList. keeps.
  - unfold handleDockerImagesList. keeps.
  - unfold handleDockerImagePull. keeps.
  - unfold handleDockerImageRemove. keeps.
  - unfold handleDockerContainerCreate. keeps.
  - unfold handleDockerContainerStart. keeps.
  - unfold handleDockerContainerStop. keeps.
  - unfold handleDockerContainerRestart. keeps.
  - unfold handleDockerContainerRemove. keeps.
Qed.

(** ** Creating a container *)
Lemma expose_spec ports acc set : expose ParsePort ports acc = Ok set ->
  (forall raw, raw ∈ ports -> is_ok (ParsePort (TrimSpace raw)) = true)
  /\ forall x, x ∈ set <-> x ∈ acc \/ exists raw, raw ∈ ports /\ ParsePort (TrimSpace raw) = Ok x.
Proof.
  revert acc. induction ports as [|raw ports IH]; intros acc; cbn [expose].
  - intros [= <-]. split; [by intros ? ?%elem_of_nil|]. intros x. split; [by left|].
    by intros [?|(? & ?%elem_of_nil & _)].
  - destruct (ParsePort (TrimSpace raw)) as [x|e] eqn:Ex; [|done]. intros Hs. destruct (IH _ Hs) as [Hall Hset].
    split.
    + intros y [->|Hy]%elem_of_cons; [by rewrite Ex|by apply Hall].
    + intros y. rewrite Hset, elem_of_union, elem_of_singleton. split.
      * intros [[->|?]|(r & ? & ?)]; [right; exists raw; split; [by left|done]|by left|right; exists r; split; [by right|done]].
      * intros [?|(r & [->|?]%elem_of_cons & Hr)]; [by left; right|left; left; congruence|right; by exists r].
Qed.
Record docker_watch := mkDockerWatch { k_made : option CreateResult; k_started : bool }.
(** A container that is made as a request says. *)
Definition as_asked (p : DockerContainerCreateParams) (c : Config Port) (h : HostConfig) (name : string) : Prop :=
  cf_Image c = TrimSpace (cc_Image p) /\ cf_Image c <> ""
  /\ cf_Cmd c = words (cc_Command p) /\ cf_Entrypoint c = words (cc_Entrypoint p)
  /\ cf_WorkingDir c = TrimSpace (cc_WorkingDir p) /\ cf_Env c = cc_Env p
  /\ (forall raw, raw ∈ cc_Ports p -> is_ok (ParsePort (TrimSpace raw)) = true)
  /\ (forall x, x ∈ cf_ExposedPorts c <-> exists raw, raw ∈ cc_Ports p /\ ParsePort (TrimSpace raw) = Ok x)
  /\ hc_PublishAllPorts h = cc_PublishAll p /\ hc_AutoRemove h = cc_AutoRemove p
  /\ (hc_RestartPolicy h = TrimSpace (cc_RestartPolicy p)
      /\ (cc_RestartPolicy p <> "" -> is_ok (ValidateRestartPolicy (hc_RestartPolicy h)) = true))
  /\ name = TrimSpace (cc_Name p).
Definition docker_allowed (p : DockerContainerCreateParams) (w : docker_watch) (o : op docker) : Prop :=
  match o with
  | ContainerCreate _ c h name => k_made w = None /\ as_asked p c h name
  | ContainerStart _ id =>
      (exists res, k_made w = Some res /\ id = rc_ID res) /\ k_started w = false /\ cc_Start p = true
  | o => docker_reads o = true
  end.
Definition docker_seen (w : docker_watch) (e : event docker) : docker_watch :=
  match ev_op e as o return docker_answer o -> docker_watch with
  | ContainerCreate _ _ _ _ => fun x => mkDockerWatch match x with Ok r => Some r | Err _ => k_made w end (k_started w)
  | ContainerStart _ _ => fun x => mkDockerWatch (k_made w) (k_started w || is_ok x)
  | _ => fun _ => w
  end (ev_answer e).
Definition container_done (p : DockerContainerCreateParams) (w : docker_watch) (r : result RawMessage) : Prop :=
  forall out, r = Ok out -> exists res, k_made w = Some res /\ k_started w = cc_Start p
    /\ MarshalAs (wire DockerContainerCreateResult) (mkDockerContainerCreateResult (rc_ID res) (rc_Warnings res)) = Ok out.
Section Create.
Context (p : DockerContainerCreateParams).
Abbreviation holds := (holds (docker_allowed p) docker_seen).
Ltac do_call := match goal with |- GoEffect.holds _ _ ?w (call ?o) ?Q => apply (holds_call (E := docker) w o Q) end.
Ltac docker_cbn := cbn [docker_seen ev_op ev_answer is_ok orb k_made k_started].
Lemma GetClient_holds w (Q : docker_watch -> result Cli -> Prop) : (forall r, Q w r) -> holds w GetClient Q.
Proof.
  intros HQ. unfold GetClient. apply holds_bind; do_call; [done|]. intros [c|]; docker_cbn; [by apply holds_ret|].
  apply holds_try; do_call; [done|]. intros [c|e]; docker_cbn; [|apply HQ].
  apply holds_bind; do_call; [done|]. intros ?. by apply holds_ret.
Qed.
Lemma restart_policy_spec policy : restart_policy ValidateRestartPolicy p = Ok policy ->
  policy = TrimSpace (cc_RestartPolicy p) /\ (cc_RestartPolicy p <> "" -> is_ok (ValidateRestartPolicy policy) = true).
Proof.
  unfold restart_policy. destruct (str_empty_spec (cc_RestartPolicy p)) as [->|Hp]; [by intros [= <-]|].
  destruct (ValidateRestartPolicy _) eqn:E; [|done]. intros [= <-]. by rewrite E.
Qed.
Lemma container_create_holds cmd :
  Params DockerContainerCreateParams "invalid container create params" cmd = Ok p ->
  holds (mkDockerWatch None false) (handleDockerContainerCreate ParsePort ValidateRestartPolicy cmd) (container_done p).
Proof.
  intros Hp. unfold handleDockerContainerCreate. rewrite Hp. apply holds_try, holds_ret.
  destruct (str_empty_spec (TrimSpace (cc_Image p))) as [|Hi]; [by apply holds_ret|].
  apply holds_try, GetClient_holds. intros [cli|e]; [|done].
  apply holds_try, holds_ret. destruct (expose _ _ _) as [ports|e] eqn:Ex; [|done].
  apply holds_try, holds_ret. destruct (restart_policy _ p) as [policy|e] eqn:Er; [|done].
  destruct (expose_spec _ _ _ Ex) as [Hall Hset]. destruct (restart_policy_spec _ Er) as [-> Hv].
  apply holds_try; do_call.
  { split; [done|]. repeat split; try done; cbn [cf_ExposedPorts container_config].
    - intros Hx. apply Hset in Hx as [[]%not_elem_of_empty|?]; done.
    - intros Hx. apply Hset. by right. }
  intros [res|e]; docker_cbn; [|done]. apply holds_try. destruct (cc_Start p) eqn:Es.
  - do_call; [by split; [exists res|]|]. intros [[]|e]; docker_cbn; [|done]. apply holds_ret. intros out Ho.
    exists res. by rewrite Es.
  - apply holds_ret, holds_ret. intros out Ho. exists res. by rewrite Es.
Qed.

(** C21: A container is made as was asked or not at all, whatever docker answers: it is made only when the image has a name, every port can be read and the restart policy is a valid one, with the command and entry point cut into words, and exactly the ports that were listed; only the container just made is started, only if that was asked, and where success is reported it was made and, if asked, started. *)
Theorem container_is_what_was_asked cmd tr r :
  Params DockerContainerCreateParams "invalid container create params" cmd = Ok p ->
  ran (handleDockerContainerCreate ParsePort ValidateRestartPolicy cmd) tr r ->
  obeys (docker_allowed p) docker_seen (mkDockerWatch None false) tr
  /\ container_done p (after docker_seen (mkDockerWatch None false) tr) r.
Proof. intros Hp Hr. exact (container_create_holds cmd Hp tr r Hr). Qed.
End Create.
End Handlers.

(** ** A docker to run against

    Its containers have names and are running or not; it can refuse to start one. *)
Record toy_docker := mkToyDocker { y_containers : list (string * bool); y_refuses : bool }.
Abbreviation toy_docker_sig := (docker unit string string).
Definition toy_port (s : string) : result string := if mem_str s ["80"; "443"] then Ok (s +:+ "/tcp") else Err "bad port".
Definition toy_policy (s : string) : result unit := if mem_str s ["no"; "always"] then Ok tt else Err "bad policy".
Definition set_running (id : string) (running : bool) (l : list (string * bool)) : list (string * bool) :=
  map (fun c => if str_eqb c.1 id then (c.1, running) else c) l.
Definition toy_docker_host (o : op toy_docker_sig) (s : toy_docker) : answer toy_docker_sig o * toy_docker :=
  let 'mkToyDocker cs refuses := s in
  match o as o return docker_answer o * toy_docker with
  | LoadClient => (None, s)
  | StoreClient _ => (tt, s)
  | NewClient => (Ok tt, s)
  | ContainerList _ _ =>
      (Ok (map (fun c => mkSummary c.1 "img" [c.1] (if c.2 : bool then "running" else "created") "" 7) cs), s)
  | ImageList _ => (Ok [mkImageSummary "i" ["img:1"] 10 7 {["k" := "v"]}], s)
  | ImagePull _ image => (Ok image, s)
  | PullWait _ | PullClose _ => (Ok tt, s)
  | ImageRemove _ image _ _ => (Ok [mkDeleteResponse "" image; mkDeleteResponse "sha" ""], s)
  | ContainerCreate _ _ _ name =>
      if mem_str name (map fst cs) then (Err "name in use", s)
      else (Ok (mkCreateResult name []), mkToyDocker ((name, false) :: cs) refuses)
  | ContainerStart _ id => if refuses then (Err "refused", s) else (Ok tt, mkToyDocker (set_running id true cs) refuses)
  | ContainerStop _ id _ => (Ok tt, mkToyDocker (set_running id false cs) refuses)
  | ContainerRestart _ id _ => (Ok tt, mkToyDocker (set_running id true cs) refuses)
  | ContainerRemove _ id _ _ => (Ok tt, mkToyDocker (List.filter (fun c => negb (str_eqb c.1 id)) cs) refuses)
  end.
Abbreviation create_container := (ask_to "docker.container.create"
  "{'image':' img ','name':'web','command':'run  -v','ports':['80'],'start':true}").
Abbreviation create_container_on := (run toy_docker_host (handleDockerContainerCreate (Cli := unit) (Pull := string) toy_port toy_policy create_container)).

Example containers_come_and_go :
  out (create_container_on (mkToyDocker [] false)) = Ok (json_text "{'id':'web'}")
  /\ snd (fst (create_container_on (mkToyDocker [] false))) = mkToyDocker [("web", true)] false
  /\ out (run toy_docker_host (handleDockerImagesList (Port := string) (Pull := string) (Cli := unit) (ask_to "docker.images.list" ""))
       (mkToyDocker [] false)) = Ok (json_text "[{'id':'i','repo_tags':['img:1'],'size':10,'created':7,'labels':{'k':'v'}}]")
  /\ out (run toy_docker_host (handleDockerImageRemove (Port := string) (Pull := string) (Cli := unit)
       (ask_to "docker.image.remove" "{'image':'img'}")) (mkToyDocker [] false))
     = Ok (json_text "{'deleted':['sha'],'untagged':['img']}")
  /\ Fields (" a b" +:+ nl_str +:+ "c ") = ["a"; "b"; "c"].
Proof. vm_compute. split_and!; reflexivity. Qed.

Abbreviation container_params := (mkDockerContainerCreateParams " img " "web" "run  -v" "" "" [] ["80"] false false "" true).
Lemma container_is_what_was_asked_witness :
  Params DockerContainerCreateParams "invalid container create params" create_container = Ok container_params
  /\ container_done container_params
       (after docker_seen (mkDockerWatch None false) (trace (create_container_on (mkToyDocker [] false))))
       (out (create_container_on (mkToyDocker [] false))).
Proof.
  split; [vm_compute; reflexivity|].
  apply (container_is_what_was_asked toy_port toy_policy container_params create_container); [vm_compute; reflexivity|apply run_ran].
Defined.

(** A container that cannot be started stays behind, its id is not told, and the same request
    fails from then on because of its name. *)
Lemma failed_start_blocks_retry :
  let failed := create_container_on (mkToyDocker [] true) in
  out failed = Err "refused" /\ y_containers (snd (fst failed)) = [("web", false)]
  /\ out (create_container_on (mkToyDocker (y_containers (snd (fst failed))) false)) = Err "name in use".
Proof. vm_compute. split_and!; reflexivity. Qed.
