(* ===== verification/GoSlave.v ===== *)
(** The whole table of [slave/handlers/handlers.go]: the handlers of GoVM and GoDocker as
    programs over the calls of both, what each may change and what it answers, and the slave
    that they make, as GoCommands and GoCluster speak of it. *)
From stdpp Require Import base gmap strings list.
From Stdlib Require Import Lia ZArith Ascii.
From S2P Require Import Prelude GoStrings GoJson GoTypes GoProtocol GoHandshake GoStruct GoWire GoEffect GoCommands GoVM GoDocker.
Local Open Scope prog_scope.

Section Slave.
Context {Conn Dom Pool Net Vol Cli Pull Port : Type} `{Countable Port}.
Context (unicode_name : list ascii -> bool).
Context (ParsePort : string -> result Port) (ValidateRestartPolicy : string -> result unit).
Abbreviation libvirt := (libvirt Conn Dom Pool Net Vol).
Abbreviation docker := (docker Cli Pull Port).
Definition slave_calls : signature := sig_sum libvirt docker.
Abbreviation prog := (prog slave_calls).

Definition slave_handlers (action : string) : option (NodeCommand -> prog (result RawMessage)) :=
  if str_eqb action "noop" then Some (fun cmd => lift (handleNoop cmd))
  else match docker_handlers (Cli := Cli) (Pull := Pull) ParsePort ValidateRestartPolicy action with
       | Some h => Some (fun cmd => in_right (h cmd))
       | None =>
           match libvirt_handlers (Conn := Conn) (Dom := Dom) (Pool := Pool) (Net := Net) (Vol := Vol) unicode_name action with
           | Some h => Some (fun cmd => in_left (h cmd))
           | None => None
           end
       end.
(** The actions are those of GoCommands. *)
Lemma docker_actions action :
  is_Some (docker_handlers (Cli := Cli) (Pull := Pull) ParsePort ValidateRestartPolicy action) <->
  mem_str action (take 9 command_actions) = true.
Proof.
  unfold docker_handlers, command_actions. cbn [take mem_str]. rewrite orb_false_r.
  repeat (destruct (str_eqb action _); cbn [orb]; [by split; [|eexists]|]).
  split; [by intros []|done].
Qed.
Lemma libvirt_actions action :
  is_Some (libvirt_handlers (Conn := Conn) (Dom := Dom) (Pool := Pool) (Net := Net) (Vol := Vol) unicode_name action) <->
  mem_str action (drop 9 command_actions) = true.
Proof.
  unfold libvirt_handlers, command_actions. cbn [drop mem_str]. rewrite orb_false_r.
  repeat (destruct (str_eqb action _); cbn [orb]; [by split; [|eexists]|]).
  split; [by intros []|done].
Qed.

(** * What a handler may change *)
Definition slave_permitted (action : string) (o : op slave_calls) : bool :=
  match o with inl o => permitted action o | inr o => docker_permitted action o end.

(** C20: A handler changes no more than its action says: whatever libvirt and docker answer, listing changes nothing, only an action that creates makes volumes, domains and containers, each of the other actions changes only what it is named for, and only a deletion undefines domains and deletes volumes. *)
Theorem handlers_keep_to_their_action action h cmd :
  slave_handlers action = Some h -> only (slave_permitted action) (h cmd).
Proof.
  unfold slave_handlers. destruct (str_eqb action "noop"); [intros [= <-]; apply only_ret|].
  destruct (docker_handlers _ _ action) as [g|] eqn:Ed.
  - intros [= <-]. apply only_right. by eapply docker_keeps.
  - destruct (libvirt_handlers _ action) as [g|] eqn:El; [|done]. intros [= <-].
    apply only_left. by eapply libvirt_keeps.
Qed.

(** * What a handler answers *)
Definition answers_json (r : result RawMessage) : Prop := forall t, r = Ok t -> raw_ok t.
Lemma compact_ok t : compact t = Some t -> raw_ok t.
Proof. intros Hc. right. by exists t. Qed.
Lemma marshalled_json {T} (c : codec T) `{Settled T c} v : answers_json (MarshalAs c v).
Proof. intros t Ht. by eapply compact_ok, marshal_settled. Qed.
Lemma entry_token k v : token v -> compact (entry_json k v) = Some (entry_json k v).
Proof. intros Hv. apply token_settled, object_text_token. by constructor. Qed.
Lemma entry_text_json k s : answers_json (Ok (entry_json k (text_str s))).
Proof. intros t [= <-]. apply compact_ok, entry_token, text_str_token. Qed.
Lemma entry_bool_json k b : answers_json (Ok (entry_json k (bool_text b))).
Proof. intros t [= <-]. apply compact_ok, entry_token. destruct b; by apply word_text_token. Qed.
Lemma status_json : answers_json (Ok status_ok).
Proof. apply entry_text_json. Qed.
#[local] Instance cmap_total : Total cmap.
Proof.
  intros m. eexists. split; [reflexivity|]. apply object_text_token, Forall_map, Forall_true. intros [k v]. apply text_str_token.
Qed.
Hint Resolve entry_text_json entry_bool_json status_json : core.
Ltac answers := repeat first
  [ by apply returns_ret | apply returns_ret; by apply marshalled_json; apply _
  | match goal with |- returns _ (deferred _ _) => apply returns_deferred end
  | apply returns_try; [done|] | apply returns_bind | progress intros | progress unfold reply_json | case_match ].
Lemma handlers_answer_json action h cmd : slave_handlers action = Some h -> returns answers_json (h cmd).
Proof.
  unfold slave_handlers. destruct (str_eqb action "noop").
  { intros [= <-]. apply returns_ret. intros t [= <-]. by left. }
  destruct (docker_handlers _ _ action) as [g|] eqn:Ed.
  - intros [= <-]. apply returns_right. unfold docker_handlers in Ed.
    repeat match type of Ed with (if ?b then _ else _) = _ => destruct b; [injection Ed as <-|] end; [..|discriminate Ed].
    + unfold handleDockerContainersList. apply returns_try; [done|]. intros cli. apply returns_try; [done|]. intros cs.
      apply returns_ret. intros t [= <-]. destruct (MarshalAs _ _) as [t|] eqn:E; [|by left].
      by eapply (marshalled_json (cslice (wire DockerContainer))).
    + unfold handleDockerImagesList. answers.
    + unfold handleDockerImagePull. answers.
    + unfold handleDockerImageRemove. answers.
    + unfold handleDockerContainerCreate. answers.
    + unfold handleDockerContainerStart, on_container. answers.
    + unfold handleDockerContainerStop, on_container. answers.
    + unfold handleDockerContainerRestart, on_container. answers.
    + unfold handleDockerContainerRemove, on_container. answers.
  - destruct (libvirt_handlers _ action) as [g|] eqn:El; [|done]. intros [= <-]. apply returns_left. unfold libvirt_handlers in El.
    repeat match type of El with (if ?b then _ else _) = _ => destruct b; [injection El as <-|] end; [..|discriminate El].
    + unfold handleLibvirtDomainsList. answers.
    + unfold handleLibvirtStoragePoolsList. answers.
    + unfold handleLibvirtNetworksList. answers.
    + unfold handleLibvirtVMCreate. answers.
    + unfold handleLibvirtVMStart, handleDomainAction. answers.
    + unfold handleLibvirtVMShutdown, handleDomainAction. answers.
    + unfold handleLibvirtVMReboot, handleDomainAction. answers.
    + unfold handleLibvirtVMDestroy, handleDomainAction. answers.
    + unfold handleLibvirtVMDelete. answers.
    + unfold handleLibvirtVMSetAutostart. answers.
    + unfold handleLibvirtVMAttachISO, update_cdrom. answers.
    + unfold handleLibvirtVMDetachISO, update_cdrom. answers.
Qed.

(** * A slave *)
Section Host.
Context {S T : Type} (libvirt_host : forall o, S -> answer libvirt o * S) (docker_host : forall o, T -> answer docker o * T).
(** What the handler of an action answers when it runs in a state of the host. *)
Definition slave_host (s : S * T) (action : string) (cmd : NodeCommand) : result RawMessage :=
  match slave_handlers action with
  | Some h => out (run (host_sum libvirt_host docker_host) (h cmd) s)
  | None => Err "unknown action"
  end.
Lemma slave_host_known s action : mem_str action command_actions = true ->
  exists h, slave_handlers action = Some h
    /\ commandHandlers (slave_host s) action = Some (slave_host s action).
Proof.
  intros Ha. assert (is_Some (slave_handlers action)) as [h Hh].
  { unfold slave_handlers. destruct (str_eqb action "noop"); [by eexists|].
    destruct (docker_handlers _ _ action) eqn:Ed; [by eexists|].
    assert (is_Some (libvirt_handlers (Conn := Conn) (Dom := Dom) (Pool := Pool) (Net := Net) (Vol := Vol) unicode_name action)) as [g ->].
    { apply libvirt_actions. rewrite <- (take_drop 9 command_actions) in Ha. revert Ha.
      rewrite !mem_str_elem. intros [Ht|Hd]%elem_of_app; [|done]. apply mem_str_elem, docker_actions in Ht as [g Hg]. congruence. }
    by eexists. }
  exists h. split; [done|]. unfold commandHandlers. destruct (str_eqb_spec action "noop") as [->|_]; [done|]. by rewrite Ha.
Qed.
Lemma slave_host_json s action cmd : answers_json (slave_host s action cmd).
Proof.
  unfold slave_host. destruct (slave_handlers action) as [h|] eqn:Hh; [|done].
  eapply (handlers_answer_json action h cmd Hh). apply run_ran.
Qed.
End Host.
End Slave.

(** * Examples *)
Abbreviation toy_slave_handlers := (slave_handlers (Conn := unit) (Dom := unit) (Pool := string) (Net := unit)
  (Vol := string) (Cli := unit) (Pull := string) ascii_only toy_port toy_policy).
Abbreviation toy_slave := (host_sum (E := toy_libvirt) (F := toy_docker_sig) toy_host toy_docker_host).
Abbreviation toy_slave_runs cmd s := (option_map (fun h => run toy_slave (h cmd) s) (toy_slave_handlers (nc_Action cmd))).
Lemma handlers_keep_to_their_action_witness :
  exists h, toy_slave_handlers "libvirt.domain.delete" = Some h
    /\ Forall (fun e => slave_permitted "libvirt.domain.delete" (ev_op e) = true)
         (trace (run toy_slave (h delete_vm_hard) (created, mkToyDocker [] false))).
Proof.
  eexists. split; [reflexivity|].
  eapply (handlers_keep_to_their_action ascii_only toy_port toy_policy "libvirt.domain.delete" _ delete_vm_hard);
    [reflexivity|apply run_ran].
Defined.
