(* ===== verification/GoForm.v ===== *)
(** The values of a form of [orchestrator/web/main.go]: [formValueBool], [splitLines],
    [splitCSV], [parsePositiveInt], [parsePositiveUint64], and that trimming and splitting
    keep text well-formed. *)
From stdpp Require Import base strings list.
From Stdlib Require Import Lia ZArith Ascii.
From S2P Require Import Prelude GoStrings GoJson GoProtocol GoStruct.

(** * Cutting well-formed UTF-8 *)
Definition starts (l : list ascii) : bool := match l with [] => true | a :: _ => negb (cont a) end.
Ltac cont_arith := byte_arith; rewrite ?andb_true_iff, ?Nat.leb_le; repeat split; lia.
(** A well-formed text that is cut where a character starts is cut into two such. *)
Lemma utf8_cut l1 l2 : utf8 (l1 ++ l2) -> starts l2 = true -> utf8 l1 /\ utf8 l2.
Proof.
  remember (l1 ++ l2) as l eqn:El. intros H. revert l1 El.
  induction H as [|a l Ha H IH|a b l Hr H IH|a b c l Hr H IH|a b c d l Hr H IH]; intros l1 El Hs.
  - destruct l1; [|done]. cbn in El. subst. by repeat constructor.
  - destruct l1 as [|x l1]; cbn in El; [subst; split; [constructor|by apply utf8_1]|].
    injection El as <- ->. destruct (IH l1 eq_refl Hs). split; [by apply utf8_1|done].
  - assert (cont b = true) by (clear -Hr; cont_arith).
    destruct l1 as [|x [|y l1]]; cbn in El; [subst; split; [constructor|by apply utf8_2]|..].
    + injection El as <- <-. cbn [starts] in Hs. by destruct (cont b).
    + injection El as <- <- ->. destruct (IH l1 eq_refl Hs). split; [by apply utf8_2|done].
  - assert (cont b = true /\ cont c = true) as [Hb Hc] by (clear -Hr; cont_arith).
    destruct l1 as [|x [|y [|z l1]]]; cbn in El; [subst; split; [constructor|by apply utf8_3]|..].
    + injection El as <- <-. cbn [starts] in Hs. by rewrite Hb in Hs.
    + injection El as <- <- <-. cbn [starts] in Hs. by rewrite Hc in Hs.
    + injection El as <- <- <- ->. destruct (IH l1 eq_refl Hs). split; [by apply utf8_3|done].
  - assert (cont b = true /\ cont c = true /\ cont d = true) as (Hb & Hc & Hd).
    { clear -Hr. cont_arith. }
    destruct l1 as [|x [|y [|z [|w l1]]]]; cbn in El; [subst; split; [constructor|by apply utf8_4]|..].
    + injection El as <- <-. cbn [starts] in Hs. by rewrite Hb in Hs.
    + injection El as <- <- <-. cbn [starts] in Hs. by rewrite Hc in Hs.
    + injection El as <- <- <- <-. cbn [starts] in Hs. by rewrite Hd in Hs.
    + injection El as <- <- <- <- ->. destruct (IH l1 eq_refl Hs). split; [by apply utf8_4|done].
Qed.

(** ** Trimming *)
Lemma space1_ascii a : space1 a = true -> ascii_byte a = true.
Proof.
  unfold space1. cbv zeta. rewrite orb_true_iff, andb_true_iff, !Nat.leb_le, Nat.eqb_eq. intros Ha. apply Nat.ltb_lt. lia.
Qed.
Lemma space2_lead a b : space2 a b = true -> byte_val a = 194.
Proof. unfold space2. by intros [?%Nat.eqb_eq _]%andb_true_iff. Qed.
Lemma space3_lead a b c : space3 a b c = true -> 225 <= byte_val a <= 227.
Proof.
  unfold space3. cbv zeta. rewrite !orb_true_iff, !andb_true_iff, !Nat.eqb_eq. lia.
Qed.
Lemma not_cont a : byte_val a < 128 \/ 192 <= byte_val a -> cont a = false.
Proof. intros Ha. unfold cont, in_range. apply andb_false_iff. rewrite !Nat.leb_gt. lia. Qed.
Lemma space1_starts a l : space1 a = true -> starts (a :: l) = true.
Proof. intros Ha%space1_ascii. cbn. rewrite not_cont; [done|]. left. by apply Nat.ltb_lt. Qed.
Ltac lead_arith := exfalso; unfold ascii_byte in *; byte_arith;
  repeat match goal with H : (_ <? _) = true |- _ => apply Nat.ltb_lt in H end; lia.
Lemma utf8_tail1 a l : byte_val a < 128 -> utf8 (a :: l) -> utf8 l.
Proof. intros Ha Hu. inversion Hu; subst; [done|lead_arith..]. Qed.
Lemma utf8_tail2 a b l : byte_val a = 194 -> utf8 (a :: b :: l) -> utf8 l.
Proof. intros Ha Hu. inversion Hu; subst; [lead_arith|done|lead_arith..]. Qed.
Lemma utf8_tail3 a b c l : 225 <= byte_val a <= 227 -> utf8 (a :: b :: c :: l) -> utf8 l.
Proof. intros Ha Hu. inversion Hu; subst; [lead_arith..|done|lead_arith]. Qed.
Lemma utf8_trim_left l : utf8 l -> utf8 (trim_left l).
Proof.
  unfold trim_left. induction l as [l Hl|a l Ha IH|a b l Ha H2 IH|a b c l Ha H2 H3 IH] using (drop_spaces_ind space2 space3); intros Hu.
  - by rewrite drop_spaces_fix.
  - rewrite drop_spaces_1 by done. apply IH. eapply utf8_tail1; [|done]. by apply Nat.ltb_lt, space1_ascii.
  - rewrite drop_spaces_2 by done. apply IH. eapply utf8_tail2; [|done]. by eapply space2_lead.
  - rewrite drop_spaces_3 by done. apply IH. eapply utf8_tail3; [|done]. by eapply space3_lead.
Qed.
(** What is cut off at the end starts with a white space. *)
Lemma drop_back_starts l : exists q, l = reverse q ++ drop_spaces (fun b a => space2 a b) (fun c b a => space3 a b c) l
  /\ starts q = true.
Proof.
  induction l as [l Hl|a l Ha IH|a b l Ha H2 IH|a b c l Ha H2 H3 IH]
    using (drop_spaces_ind (fun b a => space2 a b) (fun c b a => space3 a b c)).
  - exists []. by rewrite drop_spaces_fix.
  - destruct IH as (q & IH & Hq). exists (q ++ [a]). rewrite drop_spaces_1 by done. rewrite reverse_snoc. cbn [app]. split; [by f_equal|].
    destruct q; [by apply space1_starts|done].
  - destruct IH as (q & IH & Hq). exists (q ++ [b; a]). rewrite drop_spaces_2 by done. rewrite reverse_app.
    change (reverse [b; a]) with [a; b]. cbn [app]. split; [by do 2 f_equal|]. destruct q; [|done]. cbn [starts app].
    rewrite not_cont; [done|]. apply space2_lead in H2. lia.
  - destruct IH as (q & IH & Hq). exists (q ++ [c; b; a]). rewrite drop_spaces_3 by done. rewrite reverse_app.
    change (reverse [c; b; a]) with [a; b; c]. cbn [app]. split; [by do 3 f_equal|]. destruct q; [|done]. cbn [starts app].
    rewrite not_cont; [done|]. apply space3_lead in H3. lia.
Qed.
Lemma utf8_trim_right l : utf8 l -> utf8 (trim_right l).
Proof.
  intros Hu. unfold trim_right. destruct (drop_back_starts (reverse l)) as (q & Hq & Hs).
  apply (f_equal reverse) in Hq. rewrite reverse_involutive, reverse_app, reverse_involutive in Hq.
  rewrite Hq in Hu. by apply utf8_cut in Hu as [? _].
Qed.
Lemma utf8_TrimSpace s : utf8_str s -> utf8_str (TrimSpace s).
Proof. intros Hu. unfold utf8_str, TrimSpace. rewrite bytes_of_of. by apply utf8_trim_right, utf8_trim_left. Qed.

(** ** Splitting *)
Lemma utf8_split_on c s : byte_val c < 128 -> utf8_str s -> Forall utf8_str (split_on c s).
Proof.
  intros Hc Hs. rewrite <- (join_split_on c s) in Hs. pose proof (split_on_parts c s) as Hp.
  induction (split_on c s) as [|p ps IH]; [constructor|]. apply Forall_cons in Hp as [_ Hp].
  destruct ps as [|q ps]; [by repeat constructor|].
  change (join (str1 c) (p :: q :: ps)) with (p +:+ str1 c +:+ join (str1 c) (q :: ps)) in Hs.
  unfold utf8_str in Hs. rewrite !bytes_of_app in Hs. change (bytes_of (str1 c)) with [c] in Hs. cbn [app] in Hs.
  apply utf8_cut in Hs as [Hp1 Hs]; [|cbn; rewrite not_cont; [done|by left]].
  constructor; [done|]. apply IH; [|done]. by eapply utf8_tail1.
Qed.

(** * The values of a form *)
Definition split_trimmed (c : ascii) (raw : string) : list string :=
  let raw := TrimSpace raw in
  if str_empty raw then []
  else List.filter (fun s => negb (str_empty s)) (map TrimSpace (split_on c raw)).
Definition splitLines (raw : string) : list string := split_trimmed NL raw.
Definition splitCSV (raw : string) : list string := split_trimmed ","%char raw.
Lemma utf8_split_trimmed c raw : byte_val c < 128 -> utf8_str raw -> Forall utf8_str (split_trimmed c raw).
Proof.
  intros Hc Hr. unfold split_trimmed. destruct (str_empty (TrimSpace raw)); [constructor|].
  apply Forall_forall. intros s [Hs _]%list_elem_of_In%List.filter_In.
  apply list_elem_of_In, list_elem_of_fmap in Hs as (x & -> & Hx). apply utf8_TrimSpace.
  pose proof (utf8_split_on c (TrimSpace raw) Hc (utf8_TrimSpace _ Hr)) as Hall. rewrite Forall_forall in Hall. by apply Hall.
Qed.
(** [strconv.Atoi] and [strconv.ParseUint] in base 10, with 64 bits. *)
Definition parsePositiveInt (raw : string) : option Z :=
  match ParseInt 64 raw with Some value => if (value <? 0)%Z then None else Some value | None => None end.
Definition parsePositiveUint64 (raw : string) : option Z := ParseUint 64 raw.
Lemma parse_digits_nonneg acc s n : (0 <= acc)%Z -> parse_digits acc s = Some n -> (0 <= n)%Z.
Proof.
  revert acc. induction s as [|a s IH]; intros acc Hacc; cbn [parse_digits]; [by intros [= <-]|].
  unfold chr_digit. destruct ((48 <=? byte_val a) && (byte_val a <=? 57)) eqn:E; [|done].
  apply andb_true_iff in E as [E%Nat.leb_le _]. apply IH. lia.
Qed.
Lemma parsePositiveUint64_range raw n : parsePositiveUint64 raw = Some n -> (0 <= n < 2 ^ 64)%Z.
Proof.
  unfold parsePositiveUint64, ParseUint. destruct (parse_nat raw) as [m|] eqn:E; [|done].
  destruct (Z.ltb_spec m (2 ^ 64)); [|done]. intros [= <-]. split; [|done].
  unfold parse_nat in E. destruct raw; [done|]. by eapply parse_digits_nonneg in E.
Qed.
Lemma parsePositiveInt_range raw n : parsePositiveInt raw = Some n -> (0 <= n < 2 ^ 63)%Z.
Proof.
  unfold parsePositiveInt, ParseInt. destruct (match raw with EmptyString => _ | String a s' => _ end) as [neg digits].
  destruct (parse_nat digits) as [m|] eqn:E; [|done].
  assert (0 <= m)%Z as Hm by (unfold parse_nat in E; destruct digits; [done|]; by eapply parse_digits_nonneg in E).
  change (64 - 1)%Z with 63%Z. destruct neg.
  - destruct (Z.leb_spec m (2 ^ 63)); [|done]. destruct (Z.ltb_spec (- m) 0); [done|]. intros [= <-]. lia.
  - destruct (Z.ltb_spec m (2 ^ 63)); [|done]. destruct (Z.ltb_spec m 0); [done|]. intros [= <-]. lia.
Qed.

Example form_values :
  splitCSV " 80, ,443," = ["80"; "443"] /\ splitLines (" A=1" +:+ nl_str +:+ nl_str +:+ "B= ") = ["A=1"; "B="]
  /\ splitCSV " " = [] /\ parsePositiveInt "+7" = Some 7%Z /\ parsePositiveInt "-7" = None
  /\ parsePositiveUint64 "+7" = None /\ parsePositiveUint64 "18446744073709551616" = None
  /\ parsePositiveUint64 "007" = Some 7%Z.
Proof. by vm_compute. Qed.
