(* ===== verification/GoWeb.v ===== *)
(** The web interface of the orchestrator: [orchestrator/web/main.go].

    The pages are programs over the calls they make: the queries of the registry and the two
    functions of [orchestrator/tcp] that send a command and wait.  A request is its method,
    its path and its form, which [net/http] reads ([ParseForm] can fail); a page is the
    template that is filled in and the data it gets.  The templates, the static files, the
    routing of [http.ServeMux] and the log are not modelled. *)
From stdpp Require Import base gmap strings list sorting.
From Stdlib Require Import Lia ZArith Ascii.
From S2P Require Import Prelude GoStrings GoJson GoTypes GoProtocol GoHandshake GoRegistry GoServer GoStruct GoWire GoDispatch GoEffect GoCommands GoVM GoForm.
Local Open Scope prog_scope.

Definition form := string -> string.
Record Request := mkRequest { rq_Method : string; rq_Path : string; rq_Form : result form }.

(** * What a page asks *)
Inductive web_op :=
  | IsKnownCluster (id : string) | IsClusterOnline (id : string) | ActiveClusters
  | NodesForCluster (id : string) | MastersForCluster (id : string)
  | SendClusterCommandWait (req : TargetRequest) (command : RawMessage) (seconds : Z)
  | SendMasterCommandWait (masterID : string) (command : RawMessage) (seconds : Z).
Definition web_answer (o : web_op) : Type :=
  match o with
  | IsKnownCluster _ | IsClusterOnline _ => bool
  | ActiveClusters => list string
  | NodesForCluster _ => list NodeInfo
  | MastersForCluster _ => list StoredMaster
  | SendClusterCommandWait _ _ _ => result (string * CommandReply)
  | SendMasterCommandWait _ _ _ => result CommandReply
  end.
Definition web : signature := mkSignature web_op web_answer.
Abbreviation prog := (prog web).
Abbreviation ask o := (call (E := web) o).

(** * Small functions *)
Definition findNode (nodes : list NodeInfo) (raw : string) : option NodeInfo :=
  let raw := TrimSpace raw in
  if str_empty raw then None else List.find (fun node => str_eqb (ni_ID node) raw) nodes.
Definition nodeLabel (node : NodeInfo) : string :=
  if str_empty (TrimSpace (ni_Name node)) then ni_ID node else ni_Name node.
Definition formValueBool (r : form) (key : string) : bool :=
  mem_str (ToLower (TrimSpace (r key))) ["1"; "true"; "on"; "yes"].

(** [store == nil]: what [ServeWeb] hands on is never nil, but the functions look. *)
Section Pages.
Context (store : bool).
Definition by_node (clusterID nodeID : string) : TargetRequest := mkTargetRequest clusterID nodeID TargetMasterByNode.
(** [params] is nil, or what [json.Marshal] makes of it. *)
Definition sendNodeCommand (clusterID nodeID action : string) (params : option (result RawMessage)) (timeout : Z)
  : prog (result CommandReply) :=
  if negb store then Ret (Err "nil store")
  else
    let action := TrimSpace action in
    if str_empty action then Ret (Err "action is required")
    else
      try! paramsBytes := Ret (match params with None => Ok "" | Some r => r end) in
      try! cmdBytes := Ret (Marshal (mkNodeCommand action paramsBytes)) in
      try! answer := ask (SendClusterCommandWait (by_node clusterID nodeID) cmdBytes timeout) in
      Ret (Ok (snd answer)).
(** What the page shows of a reply: nothing when all is well. *)
Definition reply_text (reply : result CommandReply) : string :=
  match reply with
  | Err e => e
  | Ok reply => if str_eqb (cr_Status reply) "ok" then "" else cr_Message reply
  end.
Definition no_target (clusterID nodeID : string) : bool := negb store || str_empty clusterID || str_empty nodeID.
(** A number of a form, or what stands for an empty field. *)
Definition form_number (r : form) (key : string) (empty : Z) (msg : string) : result Z :=
  let raw := TrimSpace (r key) in
  if str_empty raw then Ok empty
  else match parsePositiveUint64 raw with Some value => Ok value | None => Err msg end.
Definition power_command (action : string) : option string :=
  if str_eqb action "start" then Some "libvirt.domain.start"
  else if str_eqb action "shutdown" then Some "libvirt.domain.shutdown"
  else if str_eqb action "reboot" then Some "libvirt.domain.reboot"
  else if str_eqb action "destroy" then Some "libvirt.domain.destroy"
  else if str_eqb action "detach-iso" then Some "libvirt.domain.iso.detach"
  else None.
(** An early return of a text. *)
Definition or_text {A} (r : result A) (k : A -> prog string) : prog string :=
  match r with Ok a => k a | Err msg => Ret msg end.
Definition handleNodeVirtualizationAction (clusterID nodeID action : string) (r : form) : prog string :=
  if no_target clusterID nodeID then Ret ""
  else
    let action := TrimSpace action in
    if str_empty action then Ret "action is required"
    else
      let name := TrimSpace (r "vm_name") in
      let send {T} `{WireStruct T} command (params : T) timeout :=
        do! reply := sendNodeCommand clusterID nodeID command (Some (Marshal params)) timeout in Ret (reply_text reply) in
      if str_eqb action "create" then
        or_text (form_number r "memory_mb" 2048 "invalid memory value") (fun memoryMB =>
        or_text (form_number r "vcpus" 2 "invalid vcpu value") (fun vcpus =>
        or_text (form_number r "disk_size_gb" 20 "invalid disk size value") (fun diskSizeGB =>
          let params := mkLibvirtVMCreateParams name memoryMB vcpus (TrimSpace (r "disk_pool")) (TrimSpace (r "disk_name"))
            diskSizeGB (TrimSpace (r "network")) (TrimSpace (r "iso_path")) (formValueBool r "autostart")
            (formValueBool r "start") in
          if str_empty name then Ret "vm name is required"
          else send "libvirt.domain.create" params 90%Z)))
      else match power_command action with
      | Some command =>
          if str_empty name then Ret "vm name is required" else send command (mkLibvirtVMActionParams name) 45%Z
      | None =>
      if mem_str action ["autostart-enable"; "autostart-disable"] then
        if str_empty name then Ret "vm name is required"
        else send "libvirt.domain.autostart" (mkLibvirtVMSetAutostartParams name (str_eqb action "autostart-enable")) 20%Z
      else if str_eqb action "attach-iso" then
        let isoPath := TrimSpace (r "iso_path") in
        if str_empty name || str_empty isoPath then Ret "vm name and iso path are required"
        else send "libvirt.domain.iso.attach" (mkLibvirtVMAttachISOParams name isoPath) 30%Z
      else if str_eqb action "delete" then
        if str_empty name then Ret "vm name is required"
        else send "libvirt.domain.delete"
          (mkLibvirtVMDeleteParams name (formValueBool r "force_stop") (formValueBool r "remove_volumes")) 60%Z
      else Ret "unknown action"
      end.

(** ** Containers *)
(** [json.Marshal] of a [map[string]any] whose values are already written. *)
Definition map_json (m : gmap string (list ascii)) : RawMessage :=
  of_bytes (object_text (merge_sort (fun a b => String.le a.1 b.1) (map_to_list m))).
(** The common end of the two functions. *)
Definition send_docker (clusterID nodeID cmdAction : string) (params : result RawMessage) (payload command : string)
  : prog string :=
  or_text (match params with Ok t => Ok t | Err _ => Err payload end) (fun paramsBytes =>
  or_text (match Marshal (mkNodeCommand cmdAction paramsBytes) with Ok t => Ok t | Err _ => Err command end) (fun cmdBytes =>
    do! answer := ask (SendClusterCommandWait (by_node clusterID nodeID) cmdBytes 30%Z) in
    Ret (reply_text (match answer with Ok a => Ok (snd a) | Err e => Err e end)))).
Definition with_timeout (r : form) (params : gmap string (list ascii)) : gmap string (list ascii) :=
  let timeout := TrimSpace (r "timeout") in
  if str_empty timeout then params
  else match parsePositiveInt timeout with
       | Some value => <["timeout_seconds" := bytes_of (print_int value)]> params
       | None => params
       end.
Definition handleDockerContainersAction (clusterID nodeID action : string) (r : form) : prog string :=
  if no_target clusterID nodeID then Ret ""
  else
    let containerID := TrimSpace (r "container_id") in
    if str_eqb action "create" then
      let params := mkDockerContainerCreateParams (TrimSpace (r "image")) (TrimSpace (r "name")) (TrimSpace (r "command"))
        (TrimSpace (r "entrypoint")) (TrimSpace (r "working_dir")) (splitLines (r "env")) (splitCSV (r "ports"))
        (formValueBool r "publish_all") (formValueBool r "auto_remove") (TrimSpace (r "restart_policy"))
        (formValueBool r "start") in
      if str_empty (cc_Image params) then Ret "image is required"
      else send_docker clusterID nodeID "docker.container.create" (Marshal params) "failed to build create payload"
             "failed to build create command"
    else if str_empty containerID then Ret "container id is required"
    else
      let params : gmap string (list ascii) := {["id" := text_str containerID]} in
      let send cmdAction params :=
        send_docker clusterID nodeID cmdAction (Ok (map_json params)) "failed to build action payload"
          "failed to build action command" in
      if str_eqb action "start" then send "docker.container.start" params
      else if str_eqb action "stop" then send "docker.container.stop" (with_timeout r params)
      else if str_eqb action "restart" then send "docker.container.restart" (with_timeout r params)
      else if str_eqb action "remove" then
        send "docker.container.remove" (<["remove_volumes" := bool_text (formValueBool r "remove_volumes")]>
          (<["force" := bool_text (formValueBool r "force")]> params))
      else Ret "unknown action".
Definition handleDockerImagesAction (clusterID nodeID action : string) (r : form) : prog string :=
  if no_target clusterID nodeID then Ret ""
  else
    let image := TrimSpace (r "image") in
    if str_empty image then Ret "image is required"
    else
      let params : gmap string (list ascii) := {["image" := text_str image]} in
      let send cmdAction params :=
        send_docker clusterID nodeID cmdAction (Ok (map_json params)) "failed to build action payload"
          "failed to build action command" in
      if str_eqb action "pull" then send "docker.image.pull" params
      else if str_eqb action "remove" then
        send "docker.image.remove" (<["prune_children" := bool_text (formValueBool r "prune_children")]>
          (<["force" := bool_text (formValueBool r "force")]> params))
      else Ret "unknown action".

(** ** Lists *)
(** The answer to a command that lists, read as a list. *)
Definition list_reply {T} (c : codec T) (msg : string) (reply : result CommandReply) : result (list T) :=
  match reply with
  | Err e => Err e
  | Ok reply =>
      if negb (str_eqb (cr_Status reply) "ok") then Err (cr_Message reply)
      else match UnmarshalText (cslice c) (cr_Output reply) with Ok items => Ok items | Err _ => Err msg end
  end.
Definition items_and_error {T} (r : result (list T)) : list T * string :=
  match r with Ok items => (items, "") | Err e => ([], e) end.
Definition vm_entry (id : string) (reply : result CommandReply) : list VMListNode :=
  let failed msg := [mkVMListNode id [] msg] in
  match reply with
  | Err e => failed e
  | Ok reply =>
      if negb (str_eqb (cr_Status reply) "ok") then failed (cr_Message reply)
      else match UnmarshalText (wire VMListAggregate) (cr_Output reply) with
           | Err _ => failed "invalid domain list"
           | Ok aggregate => va_Nodes aggregate
           end
  end.
Fixpoint ask_masters (cmdBytes : RawMessage) (masters : list StoredMaster) : prog (list VMListNode) :=
  match masters with
  | [] => Ret []
  | master :: masters' =>
      if str_empty (sm_ID master) then ask_masters cmdBytes masters'
      else
        do! reply := ask (SendMasterCommandWait (sm_ID master) cmdBytes 10) in
        do! rest := ask_masters cmdBytes masters' in
        Ret (vm_entry (sm_ID master) reply ++ rest)
  end.
Definition fetchVMDomains (clusterID : string) : prog (list VMListNode) :=
  if negb store || str_empty clusterID then Ret []
  else
    do! storeMasters := ask (MastersForCluster clusterID) in
    match storeMasters with
    | [] => Ret []
    | _ =>
        match Marshal (mkNodeCommand "libvirt.domains.list" "") with
        | Err _ => Ret [mkVMListNode "" [] "failed to build command"]
        | Ok cmdBytes => ask_masters cmdBytes storeMasters
        end
    end.
(** [fetchNodeDocker] and [fetchNodeDockerImages]. *)
Definition fetch_docker {T} (c : codec T) (action command msg : string) (clusterID nodeID : string) : prog (list T * string) :=
  if no_target clusterID nodeID then Ret ([], "")
  else
    match Marshal (mkNodeCommand action "") with
    | Err _ => Ret ([], command)
    | Ok cmdBytes =>
        do! answer := ask (SendClusterCommandWait (by_node clusterID nodeID) cmdBytes 10) in
        Ret (items_and_error (list_reply c msg (match answer with Ok a => Ok (snd a) | Err e => Err e end)))
    end.
Definition fetchNodeDocker : string -> string -> prog (list DockerContainer * string) :=
  fetch_docker (wire DockerContainer) "docker.containers.list" "failed to build docker command" "invalid docker container list".
Definition fetchNodeDockerImages : string -> string -> prog (list DockerImage * string) :=
  fetch_docker (wire DockerImage) "docker.images.list" "failed to build docker image command" "invalid docker image list".
Definition fetchNodeVMDomains (clusterID nodeID : string) : prog (list VMDomain * string) :=
  do! reply := sendNodeCommand clusterID nodeID "libvirt.domains.list" None 20 in
  Ret (items_and_error (list_reply (wire VMDomain) "invalid domain list" reply)).
Definition fetchNodeStoragePools (clusterID nodeID : string) : prog (result (list LibvirtStoragePool)) :=
  do! reply := sendNodeCommand clusterID nodeID "libvirt.storage.pools.list" None 20 in
  Ret (list_reply (wire LibvirtStoragePool) "invalid storage pool list" reply).
Definition fetchNodeNetworks (clusterID nodeID : string) : prog (result (list LibvirtNetwork)) :=
  do! reply := sendNodeCommand clusterID nodeID "libvirt.networks.list" None 20 in
  Ret (list_reply (wire LibvirtNetwork) "invalid network list" reply).
End Pages.

(** * The pages *)
Inductive template :=
  | tmpl_home | tmpl_cluster | tmpl_vms | tmpl_reverseProxy | tmpl_nodes | tmpl_node | tmpl_nodeVirtualization.
Record dockerView := mkDockerView {
  dv_Containers : list DockerContainer; dv_Images : list DockerImage; dv_Error : string; dv_Action : string;
  dv_ActionError : string }.
Record libvirtView := mkLibvirtView {
  bv_NodeVMDomains : list VMDomain; bv_StoragePools : list LibvirtStoragePool; bv_Networks : list LibvirtNetwork;
  bv_Error : string; bv_Action : string; bv_ActionError : string }.
(** [viewData]; the fields whose names start with Docker and Libvirt are in records of their
    own, [NodeVMDomains] with the latter. *)
Record viewData := mkViewData {
  v_Title : string; v_ActiveClusterItem : string; v_ActiveNode : NodeInfo; v_ActiveNodeItem : string;
  v_NodesOpen : bool; v_Clusters : list string; v_ActiveCluster : string; v_ClusterOnline : bool;
  v_Nodes : list NodeInfo; v_VMDomains : list VMListNode; v_Docker : dockerView; v_Libvirt : libvirtView }.
Definition zero_node : NodeInfo := mkNodeInfo "" "" "".
Definition zero_docker : dockerView := mkDockerView [] [] "" "" "".
Definition zero_libvirt : libvirtView := mkLibvirtView [] [] [] "" "" "".
Inductive page := NotFound | Rendered (tmpl : template) (data : viewData).

Definition render (tmpl : template) (data : viewData) : prog page :=
  do! clusters := ask ActiveClusters in
  do! _ := ask (MastersForCluster (v_ActiveCluster data)) in
  Ret (Rendered tmpl (mkViewData (v_Title data) (v_ActiveClusterItem data) (v_ActiveNode data) (v_ActiveNodeItem data)
    (v_NodesOpen data) clusters (v_ActiveCluster data) (v_ClusterOnline data) (v_Nodes data) (v_VMDomains data)
    (v_Docker data) (v_Libvirt data))).
Definition home_page (r : Request) : prog page :=
  if negb (str_eqb (rq_Path r) "/") then Ret NotFound
  else render tmpl_home (mkViewData "Centralis" "" zero_node "" false [] "" false [] [] zero_docker zero_libvirt).
(** What a POST does before the page is made: the action, and what went wrong. *)
Definition post (r : Request) (handle : string -> form -> prog string) : prog (string * string) :=
  if str_eqb (rq_Method r) "POST" then
    match rq_Form r with
    | Err _ => Ret ("", "invalid form data")
    | Ok f =>
        let action := TrimSpace (f "action") in
        do! e := handle action f in Ret (action, e)
    end
  else Ret ("", "").
(** The parts of a page of a node: its item, template and data. *)
Definition node_panel (r : Request) (id nodeID sub : string) : prog (option (string * template * dockerView * libvirtView)) :=
  if mem_str sub ["docker"; "docker-containers"] then
    do! p_action := post r (handleDockerContainersAction true id nodeID) in let (action, e) := p_action in
    do! p_containers := fetchNodeDocker true id nodeID in let (containers, err) := p_containers in
    Ret (Some ("docker-containers", tmpl_node, mkDockerView containers [] err action e, zero_libvirt))
  else if str_eqb sub "docker-images" then
    do! p_action := post r (handleDockerImagesAction true id nodeID) in let (action, e) := p_action in
    do! p_images := fetchNodeDockerImages true id nodeID in let (images, err) := p_images in
    Ret (Some ("docker-images", tmpl_node, mkDockerView [] images err action e, zero_libvirt))
  else if str_eqb sub "virtualization" then
    do! p_action := post r (handleNodeVirtualizationAction true id nodeID) in let (action, e) := p_action in
    do! p_domains := fetchNodeVMDomains true id nodeID in let (domains, err) := p_domains in
    do! pools := fetchNodeStoragePools true id nodeID in
    let first_error {T} (r : result T) err := match r with Err e => if str_empty err then e else err | Ok _ => err end in
    let err := first_error pools err in
    do! networks := fetchNodeNetworks true id nodeID in
    let err := first_error networks err in
    Ret (Some ("virtualization", tmpl_nodeVirtualization, zero_docker,
      mkLibvirtView domains (or_zero [] pools) (or_zero [] networks) err action e))
  else Ret None.
(** The page of a part of a cluster, or of the cluster. *)
Definition cluster_item (id : string) (parts : list string) : option (string * template * string) :=
  match parts with
  | [_; item] =>
      if str_eqb item "vms" then Some ("vms", tmpl_vms, "VMs: " +:+ id)
      else if str_eqb item "reverse-proxy" then Some ("reverse-proxy", tmpl_reverseProxy, "Reverse Proxy: " +:+ id)
      else if str_eqb item "nodes" then Some ("nodes", tmpl_nodes, "Nodes: " +:+ id)
      else None
  | _ => Some ("", tmpl_cluster, "Cluster: " +:+ id)
  end.
Definition SLASH : ascii := "/"%char.
Definition cluster_page (r : Request) : prog page :=
  let rest := Trim_chr (TrimPrefix (rq_Path r) "/clusters/") SLASH in
  if str_empty rest then Ret NotFound
  else
    let parts := split_on SLASH rest in
    if (length parts <? 1) || (4 <? length parts) then Ret NotFound
    else
      let id := default "" (parts !! 0) in
      if str_empty id then Ret NotFound
      else
        do! known := ask (IsKnownCluster id) in
        if negb known then Ret NotFound
        else
          match cluster_item id parts with
          | None => Ret NotFound
          | Some (clusterItem, tmpl, title) =>
              do! nodes := ask (NodesForCluster id) in
              do! online := ask (IsClusterOnline id) in
              match parts with
              | _ :: section :: raw :: sub =>
                  if negb (str_eqb section "nodes") then Ret NotFound
                  else match findNode nodes raw with
                       | None => Ret NotFound
                       | Some n =>
                           do! panel := node_panel r id (ni_ID n) (match sub with [] => "docker" | s :: _ => s end) in
                           match panel with
                           | None => Ret NotFound
                           | Some (nodeItem, tmpl, docker, libvirt) =>
                               render tmpl (mkViewData ("Node: " +:+ nodeLabel n) "nodes" n nodeItem true [] id online nodes []
                                 docker libvirt)
                           end
                       end
              | _ =>
                  do! domains := (if str_eqb clusterItem "vms" then fetchVMDomains true id else Ret []) in
                  render tmpl (mkViewData title clusterItem zero_node "" true [] id online nodes domains zero_docker zero_libvirt)
              end
          end.

(** * What a request may ask for *)
(** The cluster and the node that a path names, with any number of slashes around. *)
Definition slashes (s : string) : Prop := Forall (fun a => a = SLASH) (bytes_of s).
Definition segment (s : string) : Prop := s <> "" /\ str_mem_chr SLASH s = false.
Definition cut_off (rest : string) : Prop := rest = "" \/ exists t, rest = "/" +:+ t.
Definition names_cluster (path id : string) : Prop :=
  segment id /\ exists pre rest, path = "/clusters/" +:+ pre +:+ id +:+ rest /\ slashes pre /\ cut_off rest.
Definition names_node (path id nodeID : string) : Prop :=
  segment id /\ exists pre raw rest, path = "/clusters/" +:+ pre +:+ id +:+ "/nodes/" +:+ raw +:+ rest
    /\ slashes pre /\ segment raw /\ TrimSpace raw = nodeID /\ cut_off rest.
Definition list_actions : list string :=
  ["docker.containers.list"; "docker.images.list"; "libvirt.domains.list"; "libvirt.storage.pools.list"; "libvirt.networks.list"].
(** The text of a command that only lists. *)
Definition lists (command : RawMessage) : bool :=
  existsb (fun action => match Marshal (mkNodeCommand action "") with Ok t => str_eqb t command | Err _ => false end) list_actions.
(** What the calls of a request have shown: the cluster that is known, its nodes and its
    masters, and whether a command that does more than list was sent. *)
Record page_watch := mkPageWatch {
  pw_known : option string; pw_nodes : list NodeInfo; pw_masters : list StoredMaster; pw_acted : bool }.
Definition page_start : page_watch := mkPageWatch None [] [] false.
Definition page_allowed (r : Request) (w : page_watch) (o : op web) : Prop :=
  match o with
  | IsKnownCluster id => pw_known w = None /\ names_cluster (rq_Path r) id
  | NodesForCluster id | IsClusterOnline id => pw_known w = Some id
  | MastersForCluster id => pw_known w = Some id
  | ActiveClusters => True
  | SendMasterCommandWait masterID command _ =>
      lists command = true /\ masterID <> "" /\ exists m, m ∈ pw_masters w /\ masterID = sm_ID m
  | SendClusterCommandWait req command _ =>
      (exists id n, pw_known w = Some id /\ n ∈ pw_nodes w /\ names_node (rq_Path r) id (ni_ID n) /\ req = by_node id (ni_ID n))
      /\ (lists command = true \/ rq_Method r = "POST" /\ is_ok (rq_Form r) = true /\ pw_acted w = false)
  end.
Definition page_seen (w : page_watch) (e : event web) : page_watch :=
  let 'mkPageWatch known nodes masters acted := w in
  match ev_op e as o return web_answer o -> page_watch with
  | IsKnownCluster id => fun b => mkPageWatch (if b : bool then Some id else known) nodes masters acted
  | NodesForCluster _ => fun x => mkPageWatch known x masters acted
  | MastersForCluster id => fun x => mkPageWatch known nodes (if bool_decide (known = Some id) then x else masters) acted
  | SendClusterCommandWait _ command _ => fun _ => mkPageWatch known nodes masters (acted || negb (lists command))
  | _ => fun _ => w
  end (ev_answer e).

Section Safe.
Context (r : Request).
Abbreviation holds := (holds (page_allowed r) page_seen).
Ltac do_call := match goal with |- GoEffect.holds _ _ ?w (call ?o) ?Q => apply (holds_call (E := web) w o Q) end.
Ltac page_cbn := cbn [page_seen ev_op ev_answer].
(** The state once the node of a page is found. *)
Definition at_node (id : string) (n : NodeInfo) (w : page_watch) : Prop :=
  pw_known w = Some id /\ n ∈ pw_nodes w /\ names_node (rq_Path r) id (ni_ID n).
Lemma send_holds {A} id n command secs (k : result (string * CommandReply) -> prog A) (Q : page_watch -> A -> Prop) w :
  at_node id n w ->
  (lists command = true \/ rq_Method r = "POST" /\ is_ok (rq_Form r) = true /\ pw_acted w = false) ->
  (forall w' x, at_node id n w' -> (lists command = true -> pw_acted w' = pw_acted w) -> holds w' (k x) Q) ->
  holds w (do! x := ask (SendClusterCommandWait (by_node id (ni_ID n)) command secs) in k x) Q.
Proof.
  intros (Hk & Hn & Hpath) Hc HQ. destruct w as [known nodes masters acted]. cbn [pw_known pw_nodes pw_acted] in *. subst known.
  apply holds_bind; do_call; [split; [by exists id, n|done]|]. intros x. page_cbn. apply HQ; [by split|].
  intros ->. apply orb_false_r.
Qed.
Lemma node_command_holds id n action params secs (Q : page_watch -> result CommandReply -> Prop) w :
  at_node id n w ->
  (params = None /\ action ∈ list_actions \/ rq_Method r = "POST" /\ is_ok (rq_Form r) = true /\ pw_acted w = false) ->
  (forall w' x, at_node id n w' -> (params = None /\ action ∈ list_actions -> pw_acted w' = pw_acted w) -> Q w' x) ->
  holds w (sendNodeCommand true id (ni_ID n) action params secs) Q.
Proof.
  intros Hw Hc HQ. unfold sendNodeCommand. cbn [negb]. destruct (str_empty (TrimSpace action)); [by apply holds_ret, HQ|].
  apply holds_try, holds_ret. destruct (match params with None => Ok "" | Some r => r end) as [t|e] eqn:Et; [|by apply HQ].
  apply holds_try, holds_ret. destruct (Marshal (mkNodeCommand (TrimSpace action) t)) as [command|e] eqn:Em; [|by apply HQ].
  assert (params = None /\ action ∈ list_actions -> lists command = true) as Hlist.
  { intros [-> Ha]. injection Et as <-. apply existsb_exists. exists action. split; [by apply list_elem_of_In|].
    assert (TrimSpace action = action) as Htrim.
    { assert (Forall (fun a => TrimSpace a = a) list_actions) as Hall by (repeat constructor).
      rewrite Forall_forall in Hall. by apply Hall. }
    rewrite Htrim in Em. rewrite Em. apply str_eqb_refl. }
  apply (send_holds id n); [done|by destruct Hc; [left; apply Hlist|right]|].
  intros w' [a|e] Hw' Hacted; (apply holds_ret, HQ; [done|]); intros Hl; by apply Hacted, Hlist.
Qed.
Lemma or_text_holds {A} (x : result A) k (Q : page_watch -> string -> Prop) w :
  (forall t, Q w t) -> (forall a, holds w (k a) Q) -> holds w (or_text x k) Q.
Proof. intros HQ Hk. destruct x as [a|e]; [apply Hk|by apply holds_ret]. Qed.
Definition may_act (w : page_watch) : Prop := rq_Method r = "POST" /\ is_ok (rq_Form r) = true /\ pw_acted w = false.
Lemma send_docker_holds id n action params p c (Q : page_watch -> string -> Prop) w :
  at_node id n w -> may_act w -> (forall w' t, at_node id n w' -> Q w' t) ->
  holds w (send_docker id (ni_ID n) action params p c) Q.
Proof.
  intros Hw Ha HQ. unfold send_docker. apply or_text_holds; [by auto|]. intros t. apply or_text_holds; [by auto|]. intros cmd.
  apply (send_holds id n); [done|by right|]. intros w' x Hw' _. by apply holds_ret, HQ.
Qed.
(** What an action of a page may do. *)
Definition acts (handle : string -> string -> string -> form -> prog string) : Prop :=
  forall id n action f (Q : page_watch -> string -> Prop) w,
  at_node id n w -> may_act w -> (forall w' t, at_node id n w' -> Q w' t) -> holds w (handle id (ni_ID n) action f) Q.
Ltac branches Hw Ha HQ := repeat first
  [ apply holds_ret; by apply HQ
  | eapply send_docker_holds; [exact Hw|exact Ha|exact HQ]
  | apply holds_bind; eapply node_command_holds; [exact Hw|by right|]; intros ? ? ? _
  | apply or_text_holds; [by auto|intros ?] | case_match ].
Lemma images_act : acts (handleDockerImagesAction true).
Proof. intros id n action f Q w Hw Ha HQ. unfold handleDockerImagesAction. branches Hw Ha HQ. Qed.
Lemma containers_act : acts (handleDockerContainersAction true).
Proof. intros id n action f Q w Hw Ha HQ. unfold handleDockerContainersAction. branches Hw Ha HQ. Qed.
Lemma vms_act : acts (handleNodeVirtualizationAction true).
Proof. intros id n action f Q w Hw Ha HQ. unfold handleNodeVirtualizationAction. branches Hw Ha HQ. Qed.
Lemma post_holds handle id n (Q : page_watch -> string * string -> Prop) w : acts handle ->
  at_node id n w -> pw_acted w = false -> (forall w' x, at_node id n w' -> Q w' x) ->
  holds w (post r (handle id (ni_ID n))) Q.
Proof.
  intros Hh Hw Ha HQ. unfold post. destruct (str_eqb_spec (rq_Method r) "POST") as [Em|]; [|by apply holds_ret, HQ].
  destruct (rq_Form r) as [f|e] eqn:Ef; [|by apply holds_ret, HQ]. apply holds_bind.
  apply Hh; [done|by split; [|rewrite Ef]|]. intros w' t Hw'. by apply holds_ret, HQ.
Qed.
Lemma fetch_docker_holds {T} (c : codec T) action command msg id n (Q : page_watch -> list T * string -> Prop) w :
  action ∈ list_actions -> at_node id n w -> (forall w' x, at_node id n w' -> Q w' x) ->
  holds w (fetch_docker true c action command msg id (ni_ID n)) Q.
Proof.
  intros Ha Hw HQ. unfold fetch_docker. destruct (no_target true id (ni_ID n)); [by apply holds_ret, HQ|].
  destruct (Marshal (mkNodeCommand action "")) as [cmd|e] eqn:Em; [|by apply holds_ret, HQ].
  apply (send_holds id n); [done| |intros w' x Hw' _; by apply holds_ret, HQ].
  left. apply existsb_exists. exists action. split; [by apply list_elem_of_In|]. rewrite Em. apply str_eqb_refl.
Qed.
Ltac listed := match goal with |- _ ∈ list_actions => apply mem_str_elem; reflexivity end.
Lemma node_panel_holds id n sub (Q : page_watch -> _ -> Prop) w :
  at_node id n w -> pw_acted w = false -> (forall w' x, at_node id n w' -> Q w' x) ->
  holds w (node_panel r id (ni_ID n) sub) Q.
Proof.
  intros Hw Ha HQ. unfold node_panel. destruct (mem_str sub _); [|destruct (str_eqb sub _); [|destruct (str_eqb sub _)]].
  - apply holds_bind, (post_holds _ id n); [apply containers_act|done..|]. intros w1 [action e] Hw1.
    apply holds_bind, fetch_docker_holds; [listed|done|]. intros w2 [items err] Hw2. by apply holds_ret, HQ.
  - apply holds_bind, (post_holds _ id n); [apply images_act|done..|]. intros w1 [action e] Hw1.
    apply holds_bind, fetch_docker_holds; [listed|done|]. intros w2 [items err] Hw2. by apply holds_ret, HQ.
  - apply holds_bind, (post_holds _ id n); [apply vms_act|done..|]. intros w1 [action e] Hw1.
    unfold fetchNodeVMDomains, fetchNodeStoragePools, fetchNodeNetworks.
    apply holds_bind, holds_bind, (node_command_holds id n); [done|left; split; [done|listed]|].
    intros w2 x2 Hw2 _. apply holds_ret. destruct (items_and_error _) as [items err].
    apply holds_bind, holds_bind, (node_command_holds id n); [done|left; split; [done|listed]|].
    intros w3 x3 Hw3 _. apply holds_ret.
    apply holds_bind, holds_bind, (node_command_holds id n); [done|left; split; [done|listed]|].
    intros w4 x4 Hw4 _. by apply holds_ret, holds_ret, HQ.
  - by apply holds_ret, HQ.
Qed.
Lemma render_holds tmpl data (Q : page_watch -> page -> Prop) w : pw_known w = Some (v_ActiveCluster data) ->
  (forall w' x, Q w' x) -> holds w (render tmpl data) Q.
Proof.
  intros Hk HQ. unfold render. destruct w. apply holds_bind; do_call; [done|]. intros ?. page_cbn.
  apply holds_bind; do_call; [exact Hk|]. intros ?. by apply holds_ret.
Qed.
Lemma ask_masters_holds command ms (Q : page_watch -> list VMListNode -> Prop) w :
  lists command = true -> (forall m, m ∈ ms -> m ∈ pw_masters w) -> (forall x, Q w x) ->
  holds w (ask_masters command ms) Q.
Proof.
  intros Hl Hms HQ. revert Q HQ. induction ms as [|m ms IH]; intros Q HQ; cbn [ask_masters]; [by apply holds_ret|].
  assert (forall x, x ∈ ms -> x ∈ pw_masters w) as Hms' by (intros x Hx; apply Hms; by right).
  destruct (str_empty_spec (sm_ID m)) as [|Hne]; [by apply IH|]. destruct w as [known nodes masters acted].
  apply holds_bind; do_call.
  { split; [done|]. split; [done|]. exists m. split; [apply Hms; left|done]. }
  intros x. page_cbn. apply holds_bind, (IH Hms'). intros l. by apply holds_ret.
Qed.
Lemma fetchVMDomains_holds id (Q : page_watch -> list VMListNode -> Prop) w : pw_known w = Some id ->
  (forall w' x, pw_known w' = Some id -> Q w' x) -> holds w (fetchVMDomains true id) Q.
Proof.
  intros Hk HQ. unfold fetchVMDomains. destruct (negb true || str_empty id); [by apply holds_ret, HQ|].
  destruct w as [known nodes masters acted]. cbn [pw_known] in Hk. subst known.
  apply holds_bind; do_call; [done|]. intros ms. page_cbn. rewrite bool_decide_true by done.
  destruct ms as [|m ms]; [by apply holds_ret, HQ|].
  destruct (Marshal (mkNodeCommand "libvirt.domains.list" "")) as [cmd|e] eqn:Em; [|by apply holds_ret, HQ].
  apply ask_masters_holds; [|done|by intros; apply HQ]. apply existsb_exists. exists "libvirt.domains.list".
  split; [by right; right; left|]. rewrite Em. apply str_eqb_refl.
Qed.
Lemma findNode_in nodes raw n : findNode nodes raw = Some n ->
  n ∈ nodes /\ TrimSpace raw = ni_ID n /\ raw <> "".
Proof.
  unfold findNode. destruct (str_empty_spec (TrimSpace raw)) as [|Hne]; [done|].
  intros [Hn E]%List.find_some. split; [by apply list_elem_of_In|]. split.
  - by destruct (str_eqb_spec (ni_ID n) (TrimSpace raw)).
  - by intros ->.
Qed.

(** ** The path *)
Lemma drop_chr_split c l : exists pre, l = pre ++ drop_chr c l /\ Forall (fun a => a = c) pre.
Proof.
  induction l as [|a l [pre [E Hp]]]; [by exists []|]. cbn [drop_chr]. destruct (chr_eqb_spec a c) as [->|_].
  - exists (c :: pre). cbn. rewrite <- E. by split; [|constructor].
  - by exists [].
Qed.
Lemma Trim_chr_split s : exists pre post, s = pre +:+ Trim_chr s SLASH +:+ post /\ slashes pre /\ slashes post.
Proof.
  destruct (drop_chr_split SLASH (bytes_of s)) as (pre & E1 & H1).
  destruct (drop_chr_split SLASH (reverse (drop_chr SLASH (bytes_of s)))) as (post & E2 & H2).
  exists (of_bytes pre), (of_bytes (reverse post)). unfold slashes. rewrite !bytes_of_of.
  split_and!; [|done|by apply Forall_reverse]. apply bytes_of_inj. unfold Trim_chr.
  rewrite !bytes_of_app, !bytes_of_of, <- reverse_app, <- E2, reverse_involutive. exact E1.
Qed.
(** The parts after the first of a path that was split, with what was trimmed at its end. *)
Lemma parts_cut_off ps post : slashes post ->
  cut_off ((match ps with [] => "" | _ => "/" +:+ join (str1 SLASH) ps end) +:+ post).
Proof.
  intros Hp. destruct ps as [|p ps].
  - destruct post as [|a post]; [by left|]. right. exists post. by apply Forall_cons in Hp as [-> _].
  - right. exists (join (str1 SLASH) (p :: ps) +:+ post). by rewrite <- str_app_assoc.
Qed.
Lemma join_cons p ps : join (str1 SLASH) (p :: ps) = p +:+ match ps with [] => "" | _ => "/" +:+ join (str1 SLASH) ps end.
Proof. destruct ps; [by rewrite str_app_nil_r|done]. Qed.

Section Path.
Context (tail : string) (Htail : rq_Path r = "/clusters/" +:+ tail).
Lemma tail_of_path : TrimPrefix (rq_Path r) "/clusters/" = tail.
Proof. rewrite Htail. unfold TrimPrefix. by rewrite str_drop_prefix_app. Qed.
Abbreviation parts := (split_on SLASH (Trim_chr tail SLASH)).
Lemma path_parts : exists pre post, slashes pre /\ slashes post
  /\ rq_Path r = "/clusters/" +:+ pre +:+ join (str1 SLASH) parts +:+ post.
Proof.
  destruct (Trim_chr_split tail) as (pre & post & E & Hpre & Hpost). exists pre, post. split_and!; [done..|].
  by rewrite join_split_on, <- E, Htail.
Qed.
Lemma part_segment i p : parts !! i = Some p -> p <> "" -> segment p.
Proof.
  intros Hp Hne. split; [done|]. pose proof (split_on_parts SLASH (Trim_chr tail SLASH)) as Hall.
  rewrite Forall_forall in Hall. apply Hall. by apply list_elem_of_lookup_2 in Hp.
Qed.
Lemma first_part id : parts !! 0 = Some id -> id <> "" -> names_cluster (rq_Path r) id.
Proof.
  intros Hp Hne. split; [by apply (part_segment 0)|]. destruct path_parts as (pre & post & Hpre & Hpost & ->).
  destruct parts as [|p ps]; [done|]. injection Hp as ->. rewrite join_cons, <- str_app_assoc.
  eexists pre, _. split; [reflexivity|]. split; [done|]. by apply parts_cut_off.
Qed.
Lemma third_part id raw sub : parts = id :: "nodes" :: raw :: sub -> id <> "" -> raw <> "" ->
  names_node (rq_Path r) id (TrimSpace raw).
Proof.
  intros Hp Hid Hraw. split; [by apply (part_segment 0); [rewrite Hp|]|].
  destruct path_parts as (pre & post & Hpre & Hpost & ->). rewrite Hp, !join_cons.
  eexists pre, raw, _. split_and!; [|done|by apply (part_segment 2); [rewrite Hp|]|done|by apply (parts_cut_off sub post)].
  by rewrite <- !str_app_assoc.
Qed.
Lemma cluster_page_holds : holds page_start (cluster_page r) (fun _ _ => True).
Proof.
  unfold cluster_page. rewrite tail_of_path. destruct (str_empty _); [by apply holds_ret|].
  destruct (_ || _); [by apply holds_ret|].
  set (id := default "" (parts !! 0)). destruct (str_empty_spec id) as [|Hid]; [by apply holds_ret|].
  assert (parts !! 0 = Some id) as H0 by (unfold id in *; by destruct (parts !! 0)). clearbody id.
  apply holds_bind; do_call; [by split; [|apply first_part]|]. intros [|]; page_cbn; [|by apply holds_ret]. cbn [negb page_start].
  destruct (cluster_item id parts) as [[[item tmpl] title]|]; [|by apply holds_ret].
  apply holds_bind; do_call; [done|]. intros nodes. page_cbn. apply holds_bind; do_call; [done|]. intros online. page_cbn.
  assert (holds (mkPageWatch (Some id) nodes [] false)
    (do! domains := (if str_eqb item "vms" then fetchVMDomains true id else Ret []) in
     render tmpl (mkViewData title item zero_node "" true [] id online nodes domains zero_docker zero_libvirt)) (fun _ _ => True)) as Hshort.
  { apply holds_bind. destruct (str_eqb item "vms"); [apply fetchVMDomains_holds; [done|]; intros|apply holds_ret]; by apply render_holds. }
  destruct parts as [|p0 [|section [|raw sub]]] eqn:Eparts; try exact Hshort. injection H0 as ->.
  destruct (str_eqb_spec section "nodes") as [->|]; cbn [negb]; [|by apply holds_ret].
  destruct (findNode nodes raw) as [n|] eqn:En; [|by apply holds_ret]. apply findNode_in in En as (Hn & Hraw & Hne).
  apply holds_bind, node_panel_holds; [|done|].
  { split; [done|]. split; [done|]. rewrite <- Hraw. by apply (third_part _ raw sub). }
  intros w' [[[[nodeItem tmpl'] docker] libvirt]|] [Hw' _]; [|by apply holds_ret]. by apply render_holds.
Qed.

(** C4: Looking at a page changes nothing: whatever the registry and the nodes answer, a request that is not a POST with a form that can be read sends only commands that list, and one that is sends at most one other command; only the cluster that the path names is asked about, a command for a node goes only to the node of it that the path names, after the registry has said that it knows the cluster and has the node, and the list of all virtual machines is asked only of the masters of that cluster. *)
Theorem looking_changes_nothing tr pg :
  ran (cluster_page r) tr pg -> obeys (page_allowed r) page_seen page_start tr.
Proof. intros Hr. by destruct (cluster_page_holds tr pg Hr). Qed.
End Path.
End Safe.

(** * An error that requests share

    [ServeWeb] declares [err] once, and the handler of the pages assigns to it the errors of
    [fetchNodeStoragePools] and [fetchNodeNetworks]; [net/http] runs a handler for every
    request in a goroutine of its own.  A request assigns, tests, and then reads the variable
    again for its text. *)
Inductive err_pc :=
  | Assigns (fetched : option string) | Tests | Uses
  | Shows (error : option string) | Panics.
(** One request takes its next step. *)
Definition err_turn (err : option string) (pc : err_pc) : option string * err_pc :=
  match pc with
  | Assigns fetched => (fetched, Tests)
  | Tests => (err, match err with Some _ => Uses | None => Shows None end)
  | Uses => (err, match err with Some e => Shows (Some e) | None => Panics end)
  | Shows _ | Panics => (err, pc)
  end.
Definition err_step (st : option string * list err_pc) (i : nat) : option string * list err_pc :=
  let '(err, pcs) := st in
  match pcs !! i with
  | Some pc => let (err', pc') := err_turn err pc in (err', <[i := pc']> pcs)
  | None => st
  end.
Definition err_run (fetched : list (option string)) (schedule : list nat) : option string * list err_pc :=
  foldl err_step (None, map Assigns fetched) schedule.
(** Alone, a request shows the error of its own fetch. *)
Lemma alone_shows_own fetched : snd (err_run [fetched] [0; 0; 0]) = [Shows fetched].
Proof. by destruct fetched. Qed.
(** Two at once can panic, show the error of the other, or lose theirs. *)
Lemma shared_error_misleads :
  snd (err_run [Some "down"; None] [0; 0; 1; 0]) = [Panics; Tests]
  /\ snd (err_run [None; Some "down"] [0; 1; 0; 0; 1; 1]) = [Shows (Some "down"); Shows (Some "down")]
  /\ snd (err_run [Some "down"; None] [0; 1; 0; 1]) = [Shows None; Shows None].
Proof. split_and!; reflexivity. Qed.

(** * Examples *)
(** A host for a page that asks the orchestrator, for a way to ask with a time-out. *)
Definition page_host (way : Z -> TargetRequest -> RawMessage -> result (string * CommandReply)) (o : op web) (u : unit)
  : answer web o * unit :=
  (match o as o return web_answer o with
   | IsKnownCluster _ | IsClusterOnline _ => true
   | ActiveClusters => []
   | NodesForCluster _ => [mkNodeInfo "n1" "" ""; mkNodeInfo "n2" "two" ""]
   | MastersForCluster _ => []
   | SendClusterCommandWait req command secs => way (secs * Second)%Z req command
   | SendMasterCommandWait _ _ _ => Err "no master"
   end, u).
Abbreviation ex_post := (mkRequest "POST" "/clusters/west/nodes/n2/" (Ok (fun k => if str_eqb k "action" then "start" else " c1 "))).
Abbreviation ex_page way := (run (page_host way) (cluster_page ex_post) tt).
Definition ex_ok_way (_ : Z) (_ : TargetRequest) (_ : RawMessage) : result (string * CommandReply) := Ok ("m", mkCommandReply "n2" "ok" "" "[]").
Example pages :
  match out (ex_page ex_ok_way) with
  | Rendered tmpl data => tmpl = tmpl_node /\ v_Title data = "Node: two" /\ v_Docker data = mkDockerView [] [] "" "start" ""
  | NotFound => False
  end
  /\ out (run (page_host ex_ok_way) (cluster_page (mkRequest "GET" "/clusters/west/x" (Err "no form"))) tt) = NotFound
  /\ out (run (page_host ex_ok_way) (cluster_page (mkRequest "GET" "/clusters/west/nodes/n3" (Err "no form"))) tt) = NotFound.
Proof. vm_compute. split_and!; reflexivity. Qed.
Lemma looking_changes_nothing_witness :
  length (trace (ex_page ex_ok_way)) = 7
  /\ obeys (page_allowed ex_post) page_seen page_start (trace (ex_page ex_ok_way)).
Proof.
  split; [vm_compute; reflexivity|]. eapply (looking_changes_nothing ex_post "west/nodes/n2/" eq_refl). apply run_ran.
Defined.
