(* ===== verification/GoPortal.v ===== *)
(** What a form of the web interface means: the request that a user makes of a node, and that
    the command a page sends for it ([orchestrator/web/main.go]) is read as that request by
    the handler of its action ([slave/handlers]); and the way of a click from the page to the
    slave and back. *)
From stdpp Require Import base gmap strings list sorting.
From Stdlib Require Import Lia ZArith Ascii.
From S2P Require Import Prelude GoStrings GoJson GoTypes GoProtocol GoHandshake GoRegistry GoServer GoStruct GoWire GoDispatch GoCommands GoMaster GoSession GoCluster GoEffect GoVM GoDocker GoSlave GoForm GoWeb.
Local Open Scope prog_scope.

(** * Requests *)
Inductive node_request :=
  | VMCreate (p : LibvirtVMCreateParams)
  | VMPower (command : string) (p : LibvirtVMActionParams)
  | VMAutostart (p : LibvirtVMSetAutostartParams)
  | VMAttachISO (p : LibvirtVMAttachISOParams)
  | VMDelete (p : LibvirtVMDeleteParams)
  | DockerCreate (p : DockerContainerCreateParams)
  | DockerStart (p : DockerContainerStartParams)
  | DockerStop (p : DockerContainerStopParams)
  | DockerRestart (p : DockerContainerRestartParams)
  | DockerRemove (p : DockerContainerRemoveParams)
  | DockerPull (p : DockerImagePullParams)
  | DockerRemoveImage (p : DockerImageRemoveParams).
Definition request_action (q : node_request) : string :=
  match q with
  | VMCreate _ => "libvirt.domain.create"
  | VMPower command _ => command
  | VMAutostart _ => "libvirt.domain.autostart"
  | VMAttachISO _ => "libvirt.domain.iso.attach"
  | VMDelete _ => "libvirt.domain.delete"
  | DockerCreate _ => "docker.container.create"
  | DockerStart _ => "docker.container.start"
  | DockerStop _ => "docker.container.stop"
  | DockerRestart _ => "docker.container.restart"
  | DockerRemove _ => "docker.container.remove"
  | DockerPull _ => "docker.image.pull"
  | DockerRemoveImage _ => "docker.image.remove"
  end.
(** A command that the handler of its action reads as the request, whatever text it gives the
    error. *)
Definition reads_as (cmd : NodeCommand) (q : node_request) : Prop :=
  nc_Action cmd = request_action q /\ forall msg,
  match q with
  | VMCreate p => Params LibvirtVMCreateParams msg cmd = Ok p
  | VMPower _ p => Params LibvirtVMActionParams msg cmd = Ok p
  | VMAutostart p => Params LibvirtVMSetAutostartParams msg cmd = Ok p
  | VMAttachISO p => Params LibvirtVMAttachISOParams msg cmd = Ok p
  | VMDelete p => Params LibvirtVMDeleteParams msg cmd = Ok p
  | DockerCreate p => Params DockerContainerCreateParams msg cmd = Ok p
  | DockerStart p => Params DockerContainerStartParams msg cmd = Ok p
  | DockerStop p => Params DockerContainerStopParams msg cmd = Ok p
  | DockerRestart p => Params DockerContainerRestartParams msg cmd = Ok p
  | DockerRemove p => Params DockerContainerRemoveParams msg cmd = Ok p
  | DockerPull p => Params DockerImagePullParams msg cmd = Ok p
  | DockerRemoveImage p => Params DockerImageRemoveParams msg cmd = Ok p
  end.

(** ** What a form asks for *)
(** The pages of a node on which a form can be sent. *)
Inductive panel := Virtualization | Containers | Images.
Definition when (b : bool) (msg : string) {A} (r : result A) : result A := if b then r else Err msg.
Definition named (name : string) (q : node_request) : result node_request :=
  when (negb (str_empty name)) "vm name is required" (Ok q).
Definition vm_request (action : string) (r : form) : result node_request :=
  let name := TrimSpace (r "vm_name") in
  let power := [("start", "libvirt.domain.start"); ("shutdown", "libvirt.domain.shutdown");
    ("reboot", "libvirt.domain.reboot"); ("destroy", "libvirt.domain.destroy");
    ("detach-iso", "libvirt.domain.iso.detach")] in
  match List.find (fun c => str_eqb action (fst c)) power with
  | Some (_, command) => named name (VMPower command (mkLibvirtVMActionParams name))
  | None =>
      if str_eqb action "create" then
        (let? memory := form_number r "memory_mb" 2048 "invalid memory value" in
         let? vcpus := form_number r "vcpus" 2 "invalid vcpu value" in
         let? size := form_number r "disk_size_gb" 20 "invalid disk size value" in
         named name (VMCreate (mkLibvirtVMCreateParams name memory vcpus (TrimSpace (r "disk_pool"))
           (TrimSpace (r "disk_name")) size (TrimSpace (r "network")) (TrimSpace (r "iso_path"))
           (formValueBool r "autostart") (formValueBool r "start"))))%res
      else if str_eqb action "autostart-enable" then named name (VMAutostart (mkLibvirtVMSetAutostartParams name true))
      else if str_eqb action "autostart-disable" then named name (VMAutostart (mkLibvirtVMSetAutostartParams name false))
      else if str_eqb action "attach-iso" then
        when (negb (str_empty name) && negb (str_empty (TrimSpace (r "iso_path")))) "vm name and iso path are required"
          (Ok (VMAttachISO (mkLibvirtVMAttachISOParams name (TrimSpace (r "iso_path")))))
      else if str_eqb action "delete" then
        named name (VMDelete (mkLibvirtVMDeleteParams name (formValueBool r "force_stop") (formValueBool r "remove_volumes")))
      else Err (if str_empty action then "action is required" else "unknown action")
  end.
(** The time-out of a form, when it is a number that is not negative. *)
Definition form_timeout (r : form) : option Z := parsePositiveInt (TrimSpace (r "timeout")).
Definition container_request (action : string) (r : form) : result node_request :=
  let id := TrimSpace (r "container_id") in
  let image := TrimSpace (r "image") in
  if str_eqb action "create" then
    when (negb (str_empty image)) "image is required"
      (Ok (DockerCreate (mkDockerContainerCreateParams image (TrimSpace (r "name")) (TrimSpace (r "command"))
        (TrimSpace (r "entrypoint")) (TrimSpace (r "working_dir")) (splitLines (r "env")) (splitCSV (r "ports"))
        (formValueBool r "publish_all") (formValueBool r "auto_remove") (TrimSpace (r "restart_policy"))
        (formValueBool r "start"))))
  else
    when (negb (str_empty id)) "container id is required"
      (if str_eqb action "start" then Ok (DockerStart (mkDockerContainerStartParams id))
       else if str_eqb action "stop" then Ok (DockerStop (mkDockerContainerStopParams id (form_timeout r)))
       else if str_eqb action "restart" then Ok (DockerRestart (mkDockerContainerRestartParams id (form_timeout r)))
       else if str_eqb action "remove" then
         Ok (DockerRemove (mkDockerContainerRemoveParams id (formValueBool r "force") (formValueBool r "remove_volumes")))
       else Err "unknown action").
Definition image_request (action : string) (r : form) : result node_request :=
  let image := TrimSpace (r "image") in
  when (negb (str_empty image)) "image is required"
    (if str_eqb action "pull" then Ok (DockerPull (mkDockerImagePullParams image))
     else if str_eqb action "remove" then
       Ok (DockerRemoveImage (mkDockerImageRemoveParams image (formValueBool r "force") (formValueBool r "prune_children")))
     else Err "unknown action").
Definition request_of (p : panel) (action : string) (r : form) : result node_request :=
  match p with
  | Virtualization => vm_request (TrimSpace action) r
  | Containers => container_request action r
  | Images => image_request action r
  end.
Definition handle (p : panel) : string -> string -> string -> form -> GoEffect.prog web string :=
  match p with
  | Virtualization => handleNodeVirtualizationAction true
  | Containers => handleDockerContainersAction true
  | Images => handleDockerImagesAction true
  end.

(** * Commands arrive *)
(** A text that is compact JSON, written into the parameters of a command, comes out again. *)
Lemma params_arrive action t : utf8_str action -> compact t = Some t ->
  exists text, Marshal (mkNodeCommand action t) = Ok text /\ compact text = Some text
    /\ UnmarshalText (wire NodeCommand) text = Ok (mkNodeCommand action t).
Proof.
  intros Ha Ht. assert (good (wire NodeCommand) (mkNodeCommand action t)) as Hg.
  { split; [done|]. split; [|done]. right. by exists t. }
  destruct (marshal_lawful _ _ Hg) as (text & Hm & Hc & _). exists text. split; [done|]. split; [done|].
  rewrite (text_roundtrip _ _ _ Hg Hm), arr_NodeCommand. f_equal. f_equal. unfold relay_raw.
  pose proof (compact_not_empty _ _ Ht). destruct (str_empty_spec t) as [|_]; [done|]. cbn [andb]. by rewrite Ht.
Qed.
Lemma typed_params {A} `{WireLaws A} `{!LawfulFields (ws_fields (A := A))} `{!ExactFields (ws_fields (A := A))} (p : A) :
  good (wire A) p -> exists t, Marshal p = Ok t /\ compact t = Some t /\ UnmarshalText (wire A) t = Ok p.
Proof.
  intros Hg. destruct (marshal_lawful _ _ Hg) as (t & Hm & Hc & _). exists t. split; [done|]. split; [done|].
  rewrite (text_roundtrip _ _ _ Hg Hm). f_equal. apply (arr_id (c := wire A)).
Qed.
(** Members in any order are set one by one. *)
Lemma map_params {A} `{WireStruct A} (p : A) fs vs :
  Forall2 good_field fs vs -> Forall (fun f => clean f.2) fs ->
  foldl (set_member ws_fields) (ws_to (ws_of (zeros ws_fields)), false) (zip_with member_of fs vs) = (ws_to p, false) ->
  ws_of (ws_to p) = p ->
  let t := of_bytes (object_text fs) in compact t = Some t /\ UnmarshalText (wire A) t = Ok p.
Proof.
  intros Hg Hc Hf Hp t. pose proof (good_fields_token _ _ Hg Hc) as Ht. split; [by apply token_settled|].
  assert (parse t = Some (JObj (zip_with member_of fs vs))) as Hparse by (by apply token_parse, object_reads_all).
  unfold UnmarshalText. rewrite Hparse. unfold UnmarshalAs. cbn [c_read c_zero wire]. by rewrite Hf, Hp.
Qed.
(** The maps that are sent, with their keys in order. *)
Lemma map_json_1 k v : map_json {[k := v]} = of_bytes (object_text [(k, v)]).
Proof. unfold map_json. by rewrite map_to_list_singleton. Qed.
Lemma map_json_timeout i t :
  map_json (<["timeout_seconds" := t]> {["id" := i]}) = of_bytes (object_text [("id", i); ("timeout_seconds", t)]).
Proof. vm_compute. reflexivity. Qed.
Lemma map_json_remove i f v :
  map_json (<["remove_volumes" := v]> (<["force" := f]> {["id" := i]}))
  = of_bytes (object_text [("force", f); ("id", i); ("remove_volumes", v)]).
Proof. vm_compute. reflexivity. Qed.
Lemma map_json_image i f v :
  map_json (<["prune_children" := v]> (<["force" := f]> {["image" := i]}))
  = of_bytes (object_text [("force", f); ("image", i); ("prune_children", v)]).
Proof. vm_compute. reflexivity. Qed.
Lemma str_field k s : utf8_str k -> utf8_str s -> good_field (k, text_str s) (JStr s) /\ clean (text_str s).
Proof. intros Hk Hs. split; [split; [done|by apply text_str_reads]|apply text_str_clean]. Qed.
Lemma bool_field k b : utf8_str k -> good_field (k, bool_text b) (JBool b) /\ clean (bool_text b).
Proof.
  intros Hk. split; [split; [done|]; cbn [snd]; apply keyword_reads; destruct b; auto|].
  destruct b; [by apply (word_text_token "true")|by apply (word_text_token "false")].
Qed.
Lemma int_field k n : utf8_str k -> good_field (k, bytes_of (print_int n)) (JNum (print_int n)) /\ clean (bytes_of (print_int n)).
Proof. intros Hk. destruct (print_int_reads n). done. Qed.
Ltac fields_good := repeat match goal with
  | |- Forall2 _ [] [] => constructor
  | |- Forall2 _ (_ :: _) (_ :: _) => constructor
  | |- Forall _ [] => constructor
  | |- Forall _ (_ :: _) => constructor
  | |- good_field (_, text_str _) _ => apply str_field; [utf8_name|done]
  | |- good_field (_, bool_text _) _ => apply bool_field; utf8_name
  | |- good_field (_, bytes_of (print_int _)) _ => apply int_field; utf8_name
  | |- clean _ => cbn [snd]; first [eapply (str_field ""); [utf8_name|done] | eapply (bool_field ""); utf8_name | eapply (int_field ""); utf8_name]
  end.
(** What the handler reads from a map that was sent to it. *)
Section Maps.
Context (id : string) (Hid : utf8_str id).
Definition sent_as {A} `{WireStruct A} (p : A) (t : RawMessage) : Prop :=
  compact t = Some t /\ UnmarshalText (wire A) t = Ok p.
Lemma start_params : sent_as (mkDockerContainerStartParams id) (map_json {["id" := text_str id]}).
Proof. rewrite map_json_1. apply (map_params _ _ [JStr id]); [fields_good..|reflexivity|done]. Qed.
Lemma pull_params : sent_as (mkDockerImagePullParams id) (map_json {["image" := text_str id]}).
Proof. rewrite map_json_1. apply (map_params _ _ [JStr id]); [fields_good..|reflexivity|done]. Qed.
Lemma remove_params force volumes : sent_as (mkDockerContainerRemoveParams id force volumes)
  (map_json (<["remove_volumes" := bool_text volumes]> (<["force" := bool_text force]> {["id" := text_str id]}))).
Proof.
  rewrite map_json_remove. apply (map_params _ _ [JBool force; JStr id; JBool volumes]); [fields_good..|reflexivity|done].
Qed.
Lemma remove_image_params force prune : sent_as (mkDockerImageRemoveParams id force prune)
  (map_json (<["prune_children" := bool_text prune]> (<["force" := bool_text force]> {["image" := text_str id]}))).
Proof.
  rewrite map_json_image. apply (map_params _ _ [JBool force; JStr id; JBool prune]); [fields_good..|reflexivity|done].
Qed.
(** The two structs with a time-out have the same fields. *)
Lemma timeout_params r (P : RawMessage -> Prop) :
  (forall fs vs o, Forall2 good_field fs vs -> Forall (fun f => clean f.2) fs -> o = form_timeout r ->
     zip_with member_of fs vs = ("id", of_bytes (text_str id), JStr id) ::
       match o with Some n => [("timeout_seconds", of_bytes (bytes_of (print_int n)), JNum (print_int n))] | None => [] end ->
     P (of_bytes (object_text fs))) ->
  P (map_json (with_timeout r {["id" := text_str id]})).
Proof.
  intros HP. unfold with_timeout.
  assert (P (map_json {["id" := text_str id]}) \/ exists n, form_timeout r = Some n) as Hcases.
  { destruct (form_timeout r) as [n|] eqn:E; [right; by exists n|left]. rewrite map_json_1.
    apply (HP _ [JStr id] None); [fields_good..|done|done]. }
  unfold form_timeout in *. destruct (str_empty_spec (TrimSpace (r "timeout"))) as [E0|_].
  { rewrite E0 in Hcases. by destruct Hcases as [?|[n [=]]]. }
  destruct (parsePositiveInt (TrimSpace (r "timeout"))) as [n|] eqn:E.
  - rewrite map_json_timeout. apply (HP _ [JStr id; JNum (print_int n)] (Some n)); [fields_good..|done|done].
  - by destruct Hcases as [?|[n [=]]].
Qed.
Lemma form_timeout_reads r n : form_timeout r = Some n -> ParseInt 64 (print_int n) = Some n.
Proof. intros Hn%parsePositiveInt_range. apply ParseInt_print. change (64 - 1)%Z with 63%Z. lia. Qed.
Lemma stop_params r : sent_as (mkDockerContainerStopParams id (form_timeout r)) (map_json (with_timeout r {["id" := text_str id]})).
Proof.
  apply timeout_params. intros fs vs o Hg Hc -> Hz. eapply map_params; [done..| |done]. rewrite Hz.
  destruct (form_timeout r) as [n|] eqn:En; [|done].
  assert (set_member (ws_fields (A := DockerContainerStopParams)) ((id, (None, tt)), false)
    ("timeout_seconds", of_bytes (bytes_of (print_int n)), JNum (print_int n)) = ((id, (Some n, tt)), false)) as E.
  { cbn -[ParseInt print_int]. by rewrite (form_timeout_reads r n En). }
  exact E.
Qed.
Lemma restart_params r : sent_as (mkDockerContainerRestartParams id (form_timeout r)) (map_json (with_timeout r {["id" := text_str id]})).
Proof.
  apply timeout_params. intros fs vs o Hg Hc -> Hz. eapply map_params; [done..| |done]. rewrite Hz.
  destruct (form_timeout r) as [n|] eqn:En; [|done].
  assert (set_member (ws_fields (A := DockerContainerRestartParams)) ((id, (None, tt)), false)
    ("timeout_seconds", of_bytes (bytes_of (print_int n)), JNum (print_int n)) = ((id, (Some n, tt)), false)) as E.
  { cbn -[ParseInt print_int]. by rewrite (form_timeout_reads r n En). }
  exact E.
Qed.
End Maps.

(** * A form is understood *)
(** The text of a command that is read as a request. *)
Definition carries (command : RawMessage) (q : node_request) : Prop :=
  compact command = Some command
  /\ exists cmd, UnmarshalText (wire NodeCommand) command = Ok cmd /\ reads_as cmd q.
Definition shown (answer : result (string * CommandReply)) : string :=
  reply_text (match answer with Ok a => Ok (snd a) | Err e => Err e end).
(** How many seconds the page waits for a request. *)
Definition patience (q : node_request) : Z :=
  match q with
  | VMCreate _ => 90
  | VMDelete _ => 60
  | VMPower _ _ => 45
  | VMAutostart _ => 20
  | _ => 30
  end.
(** One command is sent, and what is shown is what comes back. *)
Definition asks (clusterID nodeID : string) (q : node_request) (m : GoEffect.prog web string) : Prop :=
  forall tr text, ran m tr text -> exists command answer,
    tr = [mkEvent (E := web) (SendClusterCommandWait (by_node clusterID nodeID) command (patience q)) answer]
    /\ carries command q /\ text = shown answer.
Lemma known_action action : action ∈ command_actions -> utf8_str action /\ TrimSpace action = action /\ action <> "".
Proof.
  intros Ha. assert (Forall (fun a => utf8_str a /\ TrimSpace a = a /\ a <> "") command_actions) as Hall.
  { repeat constructor; try (by utf8_name); try done; by vm_compute. }
  rewrite Forall_forall in Hall. by apply Hall.
Qed.
Lemma carried q t : request_action q ∈ command_actions -> compact t = Some t ->
  reads_as (mkNodeCommand (request_action q) t) q ->
  exists command, Marshal (mkNodeCommand (request_action q) t) = Ok command /\ carries command q.
Proof.
  intros (Hu & _ & _)%known_action Ht Hr. destruct (params_arrive _ _ Hu Ht) as (command & Hm & Hc & Hd).
  exists command. split; [done|]. split; [done|]. by eexists.
Qed.
Lemma asks_node c n q action t secs : request_action q = action -> action ∈ command_actions -> compact t = Some t ->
  reads_as (mkNodeCommand action t) q -> patience q = secs ->
  asks c n q (do! reply := sendNodeCommand true c n action (Some (Ok t)) secs in Ret (reply_text reply)).
Proof.
  intros <- Ha Ht Hr <- tr text. destruct (carried q t Ha Ht Hr) as (command & Hm & Hc).
  destruct (known_action _ Ha) as (_ & Htrim & Hne). unfold sendNodeCommand. cbn [negb]. rewrite Htrim.
  destruct (str_empty_spec (request_action q)) as [|_]; [done|]. cbn [ptry pbind]. rewrite Hm. cbn [ptry pbind].
  intros (tr1 & tr2 & a & -> & H1 & [-> ->])%ran_bind. apply ran_bind in H1 as (t1 & t2 & answer & -> & H1 & H2).
  apply (ran_call (E := web)) in H1 as ->.
  exists command, answer. rewrite app_nil_r. destruct answer as [[id reply]|e]; destruct H2 as [-> ->]; done.
Qed.
Lemma asks_docker c n q action t payload command_msg : request_action q = action -> action ∈ command_actions ->
  compact t = Some t -> patience q = 30%Z -> reads_as (mkNodeCommand action t) q ->
  asks c n q (send_docker c n action (Ok t) payload command_msg).
Proof.
  intros <- Ha Ht Hp Hr tr text. destruct (carried q t Ha Ht Hr) as (command & Hm & Hc). unfold send_docker. cbn [or_text].
  rewrite Hm. cbn [or_text]. intros (tr1 & tr2 & answer & -> & H1 & [-> ->])%ran_bind. apply (ran_call (E := web)) in H1 as ->.
  exists command, answer. by rewrite Hp.
Qed.

Ltac known := match goal with |- _ ∈ command_actions => apply mem_str_elem; reflexivity end.
(** Typed parameters. *)
Lemma asks_typed {A} `{WireLaws A} `{!LawfulFields (ws_fields (A := A))} `{!ExactFields (ws_fields (A := A))}
  c n q action (p : A) secs : request_action q = action -> action ∈ command_actions -> good (wire A) p ->
  (forall t, UnmarshalText (wire A) t = Ok p -> reads_as (mkNodeCommand action t) q) -> patience q = secs ->
  asks c n q (do! reply := sendNodeCommand true c n action (Some (Marshal p)) secs in Ret (reply_text reply)).
Proof.
  intros Hq Ha Hg Hr Hs. destruct (typed_params p Hg) as (t & -> & Ht & Hd). apply asks_node; auto.
Qed.
Definition understood (c n : string) (wanted : result node_request) (m : GoEffect.prog web string) : Prop :=
  match wanted with
  | Err msg => m = Ret msg
  | Ok q => request_action q ∈ command_actions /\ asks c n q m
  end.
Section Understood.
Context (c n : string) (Hc : c <> "") (Hn : n <> "") (r : form) (Hr : forall k, utf8_str (r k)).
Lemma field_utf8 k : utf8_str (TrimSpace (r k)).
Proof. by apply utf8_TrimSpace. Qed.
Hint Resolve field_utf8 : core.
Lemma target_given : no_target true c n = false.
Proof.
  unfold no_target. destruct (str_empty_spec c) as [|_]; [done|]. by destruct (str_empty_spec n) as [|_].
Qed.
Lemma form_number_range k d msg x : (0 <= d < 2 ^ 64)%Z -> form_number r k d msg = Ok x -> (0 <= x < 2 ^ 64)%Z.
Proof.
  unfold form_number. destruct (str_empty (TrimSpace (r k))); [by intros ? [= <-]|].
  destruct (parsePositiveUint64 (TrimSpace (r k))) as [y|] eqn:E; [|done]. intros _ [= <-]. by eapply parsePositiveUint64_range.
Qed.
Ltac reads_docker Hd := split; [done|]; intros msg; unfold Params; cbn [nc_Params]; by rewrite Hd.
Lemma images_understood action : understood c n (image_request action r) (handleDockerImagesAction true c n action r).
Proof.
  unfold handleDockerImagesAction, image_request. rewrite target_given. set (image := TrimSpace (r "image")).
  destruct (str_empty image); [done|]. cbn [negb when].
  destruct (str_eqb action "pull"); [|destruct (str_eqb action "remove"); [|done]].
  - destruct (pull_params image (field_utf8 _)) as [Ht Hd]. split; [known|]. apply asks_docker; [done|known|done|done|].
    reads_docker Hd.
  - destruct (remove_image_params image (field_utf8 _) (formValueBool r "force") (formValueBool r "prune_children")) as [Ht Hd].
    split; [known|]. apply asks_docker; [done|known|done|done|]. reads_docker Hd.
Qed.
Lemma containers_understood action :
  understood c n (container_request action r) (handleDockerContainersAction true c n action r).
Proof.
  unfold handleDockerContainersAction, container_request. rewrite target_given.
  set (id := TrimSpace (r "container_id")). destruct (str_eqb action "create").
  - cbn [cc_Image]. destruct (str_empty (TrimSpace (r "image"))); [done|]. cbn [negb when].
    set (p := mkDockerContainerCreateParams _ _ _ _ _ _ _ _ _ _ _).
    assert (good (wire DockerContainerCreateParams) p) as Hg.
    { repeat split; try apply field_utf8; apply utf8_split_trimmed; try apply Hr; by apply Nat.ltb_lt. }
    destruct (typed_params p Hg) as (t & -> & Ht & Hd). split; [known|].
    apply asks_docker; [done|known|done|done|reads_docker Hd].
  - destruct (str_empty id); [done|]. cbn [negb when].
    destruct (str_eqb action "start"); [|destruct (str_eqb action "stop"); [|destruct (str_eqb action "restart");
      [|destruct (str_eqb action "remove"); [|done]]]].
    + destruct (start_params id (field_utf8 _)) as [Ht Hd]. split; [known|]. apply asks_docker; [done|known|done|done|reads_docker Hd].
    + destruct (stop_params id (field_utf8 _) r) as [Ht Hd]. split; [known|]. apply asks_docker; [done|known|done|done|reads_docker Hd].
    + destruct (restart_params id (field_utf8 _) r) as [Ht Hd]. split; [known|]. apply asks_docker; [done|known|done|done|reads_docker Hd].
    + destruct (remove_params id (field_utf8 _) (formValueBool r "force") (formValueBool r "remove_volumes")) as [Ht Hd].
      split; [known|]. apply asks_docker; [done|known|done|done|reads_docker Hd].
Qed.
Ltac reads_typed := let t := fresh in let Hd := fresh in intros t Hd; reads_docker Hd.
Ltac typed := split; [known|]; apply asks_typed; [done|known|by repeat split; try apply field_utf8|reads_typed|done].
Lemma vm_understood action :
  understood c n (vm_request (TrimSpace action) r) (handleNodeVirtualizationAction true c n action r).
Proof.
  unfold handleNodeVirtualizationAction, vm_request. rewrite target_given. set (act := TrimSpace action).
  set (name := TrimSpace (r "vm_name")). assert (utf8_str name) as Hname by apply field_utf8.
  destruct (str_empty_spec act) as [->|_]; [done|]. cbn [List.find fst].
  destruct (str_eqb_spec act "create") as [->|_].
  { cbn [str_eqb]. change (str_eqb "create" _) with false. cbv iota.
    destruct (form_number r "memory_mb" _ _) as [memory|] eqn:Em; [|done].
    destruct (form_number r "vcpus" _ _) as [vcpus|] eqn:Ev; [|done].
    destruct (form_number r "disk_size_gb" _ _) as [size|] eqn:Es; [|done]. cbn [or_text res_bind]. unfold named.
    destruct (str_empty name); [done|]. cbn [negb when].
    apply form_number_range in Em, Ev, Es; try lia.
    split; [known|]. apply asks_typed; [done|known| |reads_typed|done].
    repeat split; cbn [vc_MemoryMB vc_VCPUs vc_DiskSizeGB]; try apply field_utf8; lia. }
  unfold power_command, named.
  destruct (str_eqb act "start"); [destruct (str_empty name); [done|]; cbn [negb when]; typed|].
  destruct (str_eqb act "shutdown"); [destruct (str_empty name); [done|]; cbn [negb when]; typed|].
  destruct (str_eqb act "reboot"); [destruct (str_empty name); [done|]; cbn [negb when]; typed|].
  destruct (str_eqb act "destroy"); [destruct (str_empty name); [done|]; cbn [negb when]; typed|].
  destruct (str_eqb act "detach-iso"); [destruct (str_empty name); [done|]; cbn [negb when]; typed|].
  cbn [mem_str]. destruct (str_eqb act "autostart-enable"); [destruct (str_empty name); [done|]; cbn [negb when]; typed|].
  destruct (str_eqb act "autostart-disable"); [destruct (str_empty name); [done|]; cbn [negb when]; typed|]. cbn [orb].
  destruct (str_eqb act "attach-iso").
  { destruct (str_empty name); [done|]. destruct (str_empty (TrimSpace (r "iso_path"))); [done|]. cbn [negb when andb orb]. typed. }
  destruct (str_eqb act "delete"); [destruct (str_empty name); [done|]; cbn [negb when]; typed|done].
Qed.
End Understood.

(** What a page sends for a form. *)
Lemma form_sent p clusterID nodeID action r tr text :
  clusterID <> "" -> nodeID <> "" -> (forall k, utf8_str (r k)) ->
  ran (handle p clusterID nodeID action r) tr text ->
  match request_of p action r with
  | Err msg => tr = [] /\ text = msg
  | Ok q =>
      request_action q ∈ command_actions
      /\ exists command answer,
           tr = [mkEvent (E := web) (SendClusterCommandWait (by_node clusterID nodeID) command (patience q)) answer]
           /\ carries command q /\ text = shown answer
  end.
Proof.
  intros Hc Hn Hr Hran.
  assert (understood clusterID nodeID (request_of p action r) (handle p clusterID nodeID action r)) as Hu.
  { destruct p; [by apply vm_understood|by apply containers_understood|by apply images_understood]. }
  unfold understood in Hu. destruct (request_of p action r) as [q|msg].
  - destruct Hu as [Ha Hu]. split; [done|]. by apply Hu.
  - rewrite Hu in Hran. by destruct Hran.
Qed.

(** C3: What a user asks for on a page of a node is what the slave reads: a form that makes no sense is answered with what is wrong and nothing is sent; for any other exactly one command is sent, to the node, with an action that slaves know, and after its way through JSON the handler of that action reads from it the very parameters that the form stands for; the page shows nothing when the reply is good, and else the reason. *)
Theorem form_is_understood p clusterID nodeID action r tr text :
  clusterID <> "" -> nodeID <> "" -> (forall k, utf8_str (r k)) ->
  ran (handle p clusterID nodeID action r) tr text ->
  match request_of p action r with
  | Err msg => tr = [] /\ text = msg
  | Ok q =>
      request_action q ∈ command_actions
      /\ exists command secs answer,
           tr = [mkEvent (E := web) (SendClusterCommandWait (by_node clusterID nodeID) command secs) answer]
           /\ carries command q /\ text = shown answer
  end.
Proof.
  intros Hc Hn Hr Hran. pose proof (form_sent p clusterID nodeID action r tr text Hc Hn Hr Hran) as Hs.
  destruct (request_of p action r) as [q|msg]; [|done]. destruct Hs as (Ha & command & answer & Hs).
  split; [done|]. by exists command, (patience q), answer.
Qed.

(** * From a click to the slave and back *)
Section Click.
Context {D : Type} `{ClusterDB D}.
Context (sha256 : list ascii -> list ascii) (cfg : master_config) (pub : list ascii).
Hypothesis (Hd : digest_law sha256) (Hpub : length pub = PublicKeySize).
Hypothesis (Hh : utf8_hello (auth_hello sha256 cfg pub)).
Abbreviation mi := (buildMasterInfo sha256 cfg pub).
Abbreviation Host := (string -> NodeCommand -> result RawMessage).
Context (random_o random_m : list ascii) (heartbeat : result string) (order_ids : list string).
Context (node_takes master_takes : Z).
Context (conns : gmap string (gmap string Host)) (nodes : gmap string Host).
Context {Conn Dom Pool Net Vol Cli Pull Port S T : Type} `{Countable Port}.
Context (unicode_name : list ascii -> bool).
Context (ParsePort : string -> result Port) (ValidateRestartPolicy : string -> result unit).
Context (libvirt_host : forall o, S -> answer (libvirt Conn Dom Pool Net Vol) o * S).
Context (docker_host : forall o, T -> answer (docker Cli Pull Port) o * T).
Abbreviation handlers := (slave_handlers (Conn := Conn) (Dom := Dom) (Pool := Pool) (Net := Net) (Vol := Vol) (Cli := Cli)
  (Pull := Pull) unicode_name ParsePort ValidateRestartPolicy).
Abbreviation slave := (slave_host unicode_name ParsePort ValidateRestartPolicy libvirt_host docker_host).

(** The orchestrator behind the page answers a command with a way to ask, given a time-out. *)
Definition answered (way : Z -> TargetRequest -> RawMessage -> result (string * CommandReply)) (e : event web) : Prop :=
  match ev_op e as o return web_answer o -> Prop with
  | SendClusterCommandWait req command secs => fun x => x = way (secs * Second)%Z req command
  | _ => fun _ => True
  end (ev_answer e).

(** What the page shows of what the caller is told. *)
Lemma told_shown id timeout node r :
  shown (told node_takes master_takes id timeout node r)
  = if bool_decide (10 * Second < node_takes \/ timeout < master_takes)%Z then "timeout waiting for reply"
    else reply_text (Ok r).
Proof.
  unfold told, outcome. destruct (Z.ltb_spec timeout master_takes) as [Hm|Hm].
  - rewrite bool_decide_eq_true_2 by auto. reflexivity.
  - destruct (Z.ltb_spec (10 * Second) node_takes) as [Hn|Hn].
    + rewrite bool_decide_eq_true_2 by auto. reflexivity.
    + rewrite bool_decide_eq_false_2 by lia. reflexivity.
Qed.

(** C2: A click is carried out, from the page to the virtual machine or container and back: once the orchestrator has read an announcement of a master, and for as long as it is fresh, what a user asks for on a page of a node that the master announced, and that no other live master of the cluster claims, is handed there to the handler of the action, which reads the parameters that the form stands for; when the node answers within the 10 seconds that the master waits for it, and the master within the seconds that the page waits, the page shows nothing when the handler succeeded, and the text of its error when it failed; when either takes longer the page shows that the time is over, although the handler is at work all the same. *)
Theorem click_is_carried_out ty nodeIDs pkt now now' o order node s p action r q tr text :
  admits sha256 cfg pub (o_store o) ->
  ty = PacketMasterRegister \/ ty = PacketMasterHeartbeat -> Forall utf8_str nodeIDs ->
  update_packet sha256 cfg pub ty nodeIDs = Ok pkt ->
  let store := announced sha256 cfg pub now pkt o in
  let cluster := mi_Cluster (mi []) in
  (time_Sub now' now <= st_ttl (o_store o))%Z -> enumerates order (mastersByID store) ->
  node ∈ nodeIDs -> TrimSpace node = node -> node <> "" ->
  (forall k m, mastersByID store !! k = Some m -> k <> mi_ID (mi []) -> live now' store m ->
    sm_Cluster m = cluster -> MasterHasNode m node = false) ->
  random_o <> [] -> random_m <> [] -> conns !! mi_ID (mi []) = Some nodes -> nodes !! node = Some (slave s) ->
  (forall k, utf8_str (r k)) -> request_of p action r = Ok q ->
  ran (handle p cluster node action r) tr text ->
  Forall (answered (fun timeout => GoDispatch.SendClusterCommandWait conns
    (ask_master random_o random_m heartbeat order_ids node_takes master_takes timeout) Marshal Unmarshal
    (NewID random_o) now' (Some store) order)) tr ->
  let late := bool_decide (10 * Second < node_takes \/ patience q * Second < master_takes)%Z in
  exists cmd h, reads_as cmd q /\ handlers (request_action q) = Some h
    /\ match out (run (host_sum libvirt_host docker_host) (h cmd) s) with
       | Ok _ => text = if late then "timeout waiting for reply" else ""
       | Err e => utf8_str e -> text = if late then "timeout waiting for reply" else e
       end.
Proof.
  intros Ha Hty Hl Hp store cluster Hlive Ho Hin Ht Hne Hothers Hro Hrm Hconn Hnode Hr Hq Hran Hans late.
  assert (cluster <> "") as Hcl by apply cluster_trimmed.
  pose proof (form_sent p cluster node action r tr text Hcl Hne Hr Hran) as Hs. rewrite Hq in Hs.
  destruct Hs as (Hknown & command & answer & -> & (Hc & cmd & Hcmd & Hreads) & ->).
  assert (0 < patience q * Second)%Z as Htime by (apply Z.mul_pos_pos; [by destruct q|done]).
  apply Forall_cons in Hans as [Hans _]. cbn in Hans. rewrite Hans.
  destruct (known_action _ Hknown) as (_ & Htrim & _). destruct Hreads as [Hact Hparams].
  destruct (slave_host_known unicode_name ParsePort ValidateRestartPolicy libvirt_host docker_host s (request_action q))
    as (h & Hh' & Hslave); [by apply mem_str_elem|].
  exists cmd, h. split; [by split|]. split; [done|].
  pose proof (announced_served sha256 cfg pub Hd Hpub Hh random_o random_m heartbeat order_ids node_takes master_takes conns nodes (slave s)
    ty nodeIDs pkt now now' o order (patience q * Second) node command command cmd Htime Ha Hty Hl Hp Hlive Ho Hin Ht Hne Hothers Hro Hrm Hconn Hnode Hc Hcmd) as Hw.
  cbv zeta in Hw. rewrite Hact, Htrim in Hw. fold store in Hw. rewrite Hslave in Hw.
  pose proof (slave_host_json unicode_name ParsePort ValidateRestartPolicy libvirt_host docker_host s (request_action q) cmd) as Hjson.
  assert (slave s (request_action q) cmd = out (run (host_sum libvirt_host docker_host) (h cmd) s)) as Hrun
    by (unfold slave_host; by rewrite Hh').
  rewrite Hrun in Hw, Hjson. destruct (out (run (host_sum libvirt_host docker_host) (h cmd) s)) as [t|e].
  - specialize (Hw (Hjson t eq_refl)). apply (f_equal shown) in Hw. etrans; [exact Hw|by apply told_shown].
  - intros He. specialize (Hw He). apply (f_equal shown) in Hw. etrans; [exact Hw|by apply told_shown].
Qed.
End Click.

(** * Examples *)
Section Examples.
Import MemDB.
Lemma page_host_answered {A} way (m : GoEffect.prog web A) u : Forall (answered way) (trace (run (page_host way) m u)).
Proof.
  revert u. induction m as [a|o k IH]; intros u; [constructor|]. cbn [run].
  destruct (page_host way o u) as [x u'] eqn:E. specialize (IH x u').
  destruct (run (page_host way) (k x) u') as [[a u2] tr]. constructor; [|done].
  injection E as <- _. by destruct o.
Qed.
Abbreviation ex_slave := (slave_host (Conn := unit) (Dom := unit) (Pool := string) (Net := unit) (Vol := string) (Cli := unit)
  (Pull := string) ascii_only toy_port toy_policy toy_host toy_docker_host (created, mkToyDocker [] false)).
Abbreviation ex_conns := {[mi_ID ex_master := {["n1" := ex_slave]}]}.
Abbreviation ex_announced := (announced toy_digest ex_config toy_key 5 ex_announcement (mkOrch GoSession.ex_store ∅)).
(** A node and a master that take so many seconds. *)
Abbreviation ex_way node_takes master_takes := (fun timeout => GoDispatch.SendClusterCommandWait ex_conns
  (ask_master toy_random toy_random (Ok "{}") [] (node_takes * Second) (master_takes * Second) timeout) Marshal Unmarshal
  (NewID toy_random) (50 * Second) (Some ex_announced) (map_to_list (mastersByID ex_announced))).
Definition ex_form (force : string) (k : string) : string :=
  if str_eqb k "vm_name" then " a " else if str_eqb k "force_stop" then force
  else if str_eqb k "remove_volumes" then "ON" else "".
Lemma ex_form_utf8 force : utf8_str force -> forall k, utf8_str (ex_form force k).
Proof. intros Hf k. unfold ex_form. repeat case_match; [utf8_name|done|utf8_name..]. Qed.
Abbreviation ex_click node_takes master_takes force := (run (page_host (ex_way node_takes master_takes)) (handle Virtualization (mi_Cluster ex_master) "n1" "delete" (ex_form force)) tt).

Example clicks : out (ex_click 3 4 "1") = "" /\ out (ex_click 3 4 "no") = "domain is running; force stop first"
  /\ out (ex_click 12 11 "1") = "timeout waiting for reply" /\ out (ex_click 3 61 "1") = "timeout waiting for reply".
Proof. split_and!; vm_compute; reflexivity. Qed.
Lemma form_is_understood_witness :
  request_of Containers "stop" (fun _ => " 5 ") = Ok (DockerStop (mkDockerContainerStopParams "5" (Some 5%Z)))
  /\ exists command secs answer,
       trace (run (page_host (ex_way 1 2)) (handle Containers "west" "n1" "stop" (fun _ => " 5 ")) tt)
       = [mkEvent (E := web) (SendClusterCommandWait (by_node "west" "n1") command secs) answer]
       /\ carries command (DockerStop (mkDockerContainerStopParams "5" (Some 5%Z))).
Proof.
  split; [vm_compute; reflexivity|].
  destruct (form_is_understood Containers "west" "n1" "stop" (fun _ => " 5 ") _ _ ltac:(discriminate) ltac:(discriminate)
    (fun _ => ltac:(utf8_name)) (run_ran (page_host (ex_way 1 2)) _ tt)) as (_ & command & secs & answer & Ht & Hc & _).
  exists command, secs, answer. split; [exact Ht|exact Hc].
Defined.
Lemma click_is_carried_out_witness :
  exists cmd h, reads_as cmd (VMDelete (mkLibvirtVMDeleteParams "a" true true))
    /\ toy_slave_handlers "libvirt.domain.delete" = Some h
    /\ match out (run (host_sum toy_host toy_docker_host) (h cmd) (created, mkToyDocker [] false)) with
       | Ok _ => out (ex_click 3 4 "1") = ""
       | Err e => utf8_str e -> out (ex_click 3 4 "1") = e
       end.
Proof.
  destruct (click_is_carried_out toy_digest ex_config toy_key toy_digest_law eq_refl ex_config_utf8
    toy_random toy_random (Ok "{}") [] (3 * Second)%Z (4 * Second)%Z ex_conns {["n1" := ex_slave]} ascii_only toy_port toy_policy toy_host toy_docker_host
    PacketMasterHeartbeat ["n1"; "n2"] ex_announcement 5 (50 * Second)%Z (mkOrch GoSession.ex_store ∅)
    (map_to_list (mastersByID ex_announced)) "n1" (created, mkToyDocker [] false) Virtualization "delete" (ex_form "1")
    (VMDelete (mkLibvirtVMDeleteParams "a" true true)) (trace (ex_click 3 4 "1")) (out (ex_click 3 4 "1")) ex_admits)
    as (cmd & h & Hr & Hh & Hshown).
  - by right.
  - constructor; [utf8_name|constructor; [utf8_name|constructor]].
  - vm_compute. reflexivity.
  - vm_compute. discriminate.
  - apply enumerates_map_to_list.
  - left.
  - reflexivity.
  - discriminate.
  - intros k m Hk Hne. exfalso.
    assert (mastersByID ex_announced = {[toy_id := default (mkStoredMaster (mkMasterInfo "" "" "" "" "" []) 0)
      (mastersByID ex_announced !! toy_id)]}) as E by (vm_compute; reflexivity).
    rewrite E in Hk.
    apply lookup_singleton_Some in Hk as [<- _]. apply Hne. vm_compute. reflexivity.
  - discriminate.
  - discriminate.
  - reflexivity.
  - reflexivity.
  - apply ex_form_utf8. utf8_name.
  - vm_compute. reflexivity.
  - apply run_ran.
  - apply page_host_answered.
  - exists cmd, h. split; [exact Hr|]. split; [exact Hh|exact Hshown].
Defined.
End Examples.
