(* ===== verification/GoHost.v ===== *)
(** What else a slave does to its host: [slave/firewall/firewall.go] and
    [slave/hardware/hardware.go].

    A rule set is what the code hands to nftables, as data; what the kernel does with it is
    not modelled.  A panic is [None]. *)
From stdpp Require Import base strings list.
From Stdlib Require Import Lia ZArith Ascii.
From S2P Require Import Prelude GoStrings GoJson GoStruct GoEffect.
Local Open Scope prog_scope.

(** * [net.ParseIP] of a text without a colon, and [To4] *)
(** One number of a dotted address: up to three digits, no leading zero, at most 255. *)
Definition octet (s : string) : option Z :=
  match parse_nat s with
  | Some n =>
      if (n <=? 255)%Z && (String.length s <=? 3) && (str_eqb s (print_nat n)) then Some n else None
  | None => None
  end.
Definition ParseIPv4 (s : string) : option (list Z) :=
  match split_on "."%char s with
  | [a; b; c; d] =>
      match octet a, octet b, octet c, octet d with
      | Some a, Some b, Some c, Some d => Some [a; b; c; d]
      | _, _, _, _ => None
      end
  | _ => None
  end.

(** * The rules *)
Inductive meta_key := IIFNAME | L4PROTO.
Inductive payload_base := NetworkHeader | TransportHeader.
(** Values are compared for equality with register 1; [None] is a nil slice. *)
Inductive expr :=
  | Meta (key : meta_key)
  | Cmp (data : option (list Z))
  | Payload (base : payload_base) (offset len : nat)
  | Accept.
Inductive policy := PolicyDrop.
Inductive nft_op :=
  | NftNew | FlushRuleset | AddTable (name : string) | AddChain (name table : string) (p : policy)
  | AddRule (table chain : string) (exprs : list expr) | NftFlush.
Definition nft_answer (o : nft_op) : Type := match o with NftNew | NftFlush => result unit | _ => unit end.
Definition nft : signature := mkSignature nft_op nft_answer.
Definition loopback_rule : list expr := [Meta IIFNAME; Cmp (Some [108; 111; 0]%Z); Accept].
Definition source_rule (address : option (list Z)) : list expr := [Payload NetworkHeader 12 4; Cmp address; Accept].
Definition ssh_rule : list expr :=
  [Meta L4PROTO; Cmp (Some [6]%Z); Payload TransportHeader 2 2; Cmp (Some [0; 22]%Z); Accept].
(** [net.ParseIP(strings.Split(master, ":")[1]).To4()] *)
Definition master_address (master : string) : option (option (list Z)) :=
  match split_on ":"%char master !! 1 with Some part => Some (ParseIPv4 part) | None => None end.
Definition SetupFirewall (master : string) : prog nft (option (result unit)) :=
  do! r := call (E := nft) NftNew in
  match r with
  | Err e => Ret (Some (Err e))
  | Ok _ =>
      do! _ := call (E := nft) FlushRuleset in
      do! _ := call (E := nft) (AddTable "filter") in
      do! _ := call (E := nft) (AddChain "input" "filter" PolicyDrop) in
      do! _ := call (E := nft) (AddRule "filter" "input" loopback_rule) in
      match master_address master with
      | None => Ret None
      | Some address =>
          do! _ := call (E := nft) (AddRule "filter" "input" (source_rule address)) in
          do! _ := call (E := nft) (AddRule "filter" "input" ssh_rule) in
          do! r := call (E := nft) NftFlush in
          Ret (Some r)
      end
  end.

Lemma split_on_count c s t : str_mem_chr c s = false -> split_on c (s +:+ str1 c +:+ t) !! 1 = split_on c t !! 0.
Proof. intros Hs. rewrite split_on_app by done. by destruct (split_on c t). Qed.
Lemma port_is_no_address port : Forall (fun a => is_digit a = true) (bytes_of port) -> ParseIPv4 port = None.
Proof.
  intros Hp. unfold ParseIPv4. rewrite split_on_no_sep; [done|].
  assert (forall s, Forall (fun a => is_digit a = true) (bytes_of s) -> str_mem_chr "."%char s = false) as Hdots; [|by apply Hdots].
  clear. induction s as [|a s IH]; [done|]. change (bytes_of (String a s)) with (a :: bytes_of s).
  intros [Ha Hs]%Forall_cons. cbn [str_mem_chr]. rewrite IH by done. destruct (chr_eqb_spec a "."%char) as [->|_]; [|done].
  by vm_compute in Ha.
Qed.
Lemma digits_no_colon port : Forall (fun a => is_digit a = true) (bytes_of port) -> split_on ":"%char port = [port].
Proof.
  intros Hp. apply split_on_no_sep. revert Hp. induction port as [|a s IH]; [done|].
  change (bytes_of (String a s)) with (a :: bytes_of s). intros [Ha Hs]%Forall_cons. cbn [str_mem_chr].
  rewrite IH by done. destruct (chr_eqb_spec a ":"%char) as [->|_]; [|done]. by vm_compute in Ha.
Qed.
(** The rule that is meant to let the master in never has its address: of "host:port" the code
    takes the port, which is no address, and compares with nothing; the chain then accepts
    only the loopback interface and ssh, and drops what the master sends.  A master without a
    port ends the slave. *)
Lemma firewall_shuts_master_out host port :
  str_mem_chr ":"%char host = false -> Forall (fun a => is_digit a = true) (bytes_of port) ->
  master_address (host +:+ ":" +:+ port) = Some None /\ master_address host = None.
Proof.
  intros Hh Hp. unfold master_address. split.
  - change ":" with (str1 ":"%char). rewrite split_on_count by done. rewrite digits_no_colon by done.
    cbn [lookup list_lookup]. by rewrite port_is_no_address.
  - by rewrite split_on_no_sep.
Qed.
Example master_out :
  master_address "10.0.0.1:49149" = Some None /\ master_address "master" = None
  /\ ParseIPv4 "10.0.0.1" = Some [10; 0; 0; 1]%Z /\ ParseIPv4 "10.0.0.01" = None /\ ParseIPv4 "10.0.0.256" = None.
Proof. by vm_compute. Qed.

(** * Hardware *)
Section Hardware.
Context {Float : Type} (zero : Float).
Record VirtualMemoryStat := mkVirtualMemoryStat { ms_Free : Z; ms_Total : Z; ms_UsedPercent : Float }.
Record HardwareInfo := mkHardwareInfo { hw_RAM : VirtualMemoryStat; hw_CPU : Float; hw_CPUCores : Z }.
(** What gopsutil answers: the memory, the usage of the processors, which is empty on an
    error, and their number, which is 0 on one. *)
Definition GetHardwareInfo (memory : result VirtualMemoryStat) (percent : list Float) (cores : result Z)
  : option HardwareInfo :=
  let ram := match memory with Ok m => m | Err _ => mkVirtualMemoryStat 0 0 zero end in
  match percent with
  | [] => None
  | usage :: _ => Some (mkHardwareInfo ram usage (match cores with Ok n => n | Err _ => 0%Z end))
  end.
(** Only the usage of the processors can end the slave: the other two have a way out. *)
Lemma hardware_panics memory percent cores : GetHardwareInfo memory percent cores = None <-> percent = [].
Proof. by destruct percent. Qed.
End Hardware.
