(* ===== verification/JsObj.v ===== *)
(** JavaScript objects used as maps.  An object is the list of its own properties in the
    order [Object.keys] gives them: the array-index keys first, in ascending order, then
    the other keys in the order they were created.  Strings are lists of code units
    below 256; properties inherited from [Object.prototype] are not modelled. *)
From stdpp Require Import base strings list sorting.
From Stdlib Require Import Lia ZArith Ascii.
From S2P Require Import Prelude GoStrings.

Definition obj (A : Type) : Type := list (string * A).

(** The value of an array-index key: a canonical decimal below 2^32 - 1. *)
Definition index_of_key (k : string) : option Z :=
  match parse_nat k with
  | Some n => if str_eqb (print_nat n) k && (n <? 4294967295)%Z then Some n else None
  | None => None
  end.

(** Whether key [k] is enumerated before the existing key [k']. *)
Definition before_key (k k' : string) : bool :=
  match index_of_key k, index_of_key k' with
  | Some i, Some j => (i <? j)%Z
  | Some _, None => true
  | None, _ => false
  end.

Section Obj.
Context {A : Type}.
Implicit Types (o : obj A) (k : string) (v : A).

(** [o[k]] *)
Fixpoint get k o : option A :=
  match o with
  | [] => None
  | (k', v) :: o' => if str_eqb k' k then Some v else get k o'
  end.

(** [k in o] *)
Definition has k o : bool := match get k o with Some _ => true | None => false end.

(** A new property, at its place in the enumeration order. *)
Fixpoint insert_key k v o : obj A :=
  match o with
  | [] => [(k, v)]
  | (k', v') :: o' => if before_key k k' then (k, v) :: o else (k', v') :: insert_key k v o'
  end.

Fixpoint replace_key k v o : obj A :=
  match o with
  | [] => []
  | (k', v') :: o' => if str_eqb k' k then (k', v) :: o' else (k', v') :: replace_key k v o'
  end.

(** [o[k] = v] *)
Definition set k v o : obj A := if has k o then replace_key k v o else insert_key k v o.

(** [Object.keys(o)] *)
Definition keys o : list string := o.*1.

(** [_objectSpread2(o1, o2)]: the properties of [o2], in order, set on [o1]. *)
Definition spread (o1 o2 : obj A) : obj A := fold_left (fun o kv => set (fst kv) (snd kv) o) o2 o1.

(** An object literal. *)
Definition literal (l : list (string * A)) : obj A := spread [] l.

(** [fastReduceObject] with an initial value: the reducer meets the properties in order. *)
Definition reduce {B : Type} (o : obj A) (f : B -> A -> string -> B) (b : B) : B :=
  fold_left (fun acc kv => f acc (snd kv) (fst kv)) o b.
End Obj.

(** [o[k] || {}] *)
Definition get_obj {A} (k : string) (o : obj (obj A)) : obj A := default [] (get k o).

(** * Laws *)
Section ObjLaws.
Context {A : Type}.
Implicit Types (o : obj A) (k : string) (v : A).

Lemma get_insert_key k v o k' :
  get k o = None -> get k' (insert_key k v o) = if str_eqb k k' then Some v else get k' o.
Proof.
  induction o as [|[k1 v1] o IH]; cbn; [done|].
  destruct (str_eqb_spec k1 k) as [->|H1]; [done|]. intros H. destruct (before_key k k1); cbn.
  - done.
  - rewrite IH by done. destruct (str_eqb_spec k1 k') as [->|]; [|done].
    by rewrite (proj2 (str_eqb_neq k k')) by congruence.
Qed.

Lemma get_replace_key k v o k' :
  has k o = true -> get k' (replace_key k v o) = if str_eqb k k' then Some v else get k' o.
Proof.
  unfold has. induction o as [|[k1 v1] o IH]; cbn; [done|].
  destruct (str_eqb_spec k1 k) as [->|H1]; cbn.
  - by destruct (str_eqb k k').
  - intros H. rewrite IH by done. destruct (str_eqb_spec k1 k') as [->|]; [|done].
    by rewrite (proj2 (str_eqb_neq k k')) by congruence.
Qed.

Lemma get_set k v o k' : get k' (set k v o) = if str_eqb k k' then Some v else get k' o.
Proof.
  unfold set. destruct (has k o) eqn:E; [by apply get_replace_key|].
  apply get_insert_key. unfold has in E. by destruct (get k o).
Qed.

Lemma get_set_eq k v o : get k (set k v o) = Some v.
Proof. by rewrite get_set, str_eqb_refl. Qed.
Lemma get_set_ne k k' v o : k <> k' -> get k' (set k v o) = get k' o.
Proof. intros H. by rewrite get_set, (proj2 (str_eqb_neq k k') H). Qed.

Lemma has_get k o : has k o = true <-> exists v, get k o = Some v.
Proof. unfold has. destruct (get k o); naive_solver. Qed.

Lemma get_Some_elem k v o : get k o = Some v -> (k, v) ∈ o.
Proof.
  induction o as [|[k1 v1] o IH]; cbn; [done|]. destruct (str_eqb_spec k1 k) as [->|].
  - intros [= ->]. left.
  - intros H. right. auto.
Qed.

Lemma get_None_keys k o : get k o = None <-> k ∉ keys o.
Proof.
  unfold keys. induction o as [|[k1 v1] o IH]; cbn.
  - split; [by intros _ ?%elem_of_nil|done].
  - rewrite not_elem_of_cons. destruct (str_eqb_spec k1 k); naive_solver.
Qed.

Lemma has_keys k o : has k o = true <-> k ∈ keys o.
Proof.
  pose proof (get_None_keys k o) as H. unfold has. destruct (get k o); [|naive_solver].
  split; [|done]. intros _. destruct (decide (k ∈ keys o)); naive_solver.
Qed.

Lemma elem_get k v o : NoDup (keys o) -> (k, v) ∈ o -> get k o = Some v.
Proof.
  unfold keys. induction o as [|[k1 v1] o IH]; cbn; [by intros _ ?%elem_of_nil|].
  intros [Hn Hd]%NoDup_cons [[= -> ->]|H]%elem_of_cons; [by rewrite str_eqb_refl|].
  destruct (str_eqb_spec k1 k) as [->|]; [|by apply IH].
  destruct Hn. change k with (fst (k, v)). by apply list_elem_of_fmap_2.
Qed.

Lemma keys_insert_key k v o : keys (insert_key k v o) ≡ₚ k :: keys o.
Proof.
  unfold keys. induction o as [|[k1 v1] o IH]; cbn; [done|]. destruct (before_key k k1); cbn; [done|].
  rewrite IH. apply Permutation_swap.
Qed.

Lemma keys_replace_key k v o : keys (replace_key k v o) = keys o.
Proof.
  unfold keys. induction o as [|[k1 v1] o IH]; cbn; [done|].
  destruct (str_eqb k1 k); cbn; by rewrite ?IH.
Qed.

Lemma elem_of_keys_set k v o k' : k' ∈ keys (set k v o) <-> k' = k \/ k' ∈ keys o.
Proof.
  unfold set. destruct (has k o) eqn:E.
  - rewrite keys_replace_key. apply has_keys in E. naive_solver.
  - by rewrite keys_insert_key, elem_of_cons.
Qed.

(** No key is enumerated twice, whatever is set. *)
Lemma NoDup_set k v o : NoDup (keys o) -> NoDup (keys (set k v o)).
Proof.
  unfold set. destruct (has k o) eqn:E; [by rewrite keys_replace_key|].
  rewrite keys_insert_key. intros H. constructor; [|done].
  rewrite <- has_keys, E. done.
Qed.

Lemma NoDup_spread o1 o2 : NoDup (keys o1) -> NoDup (keys (spread o1 o2)).
Proof.
  unfold spread. revert o1. induction o2 as [|[k v] o2 IH]; intros o1 H; cbn; [done|].
  apply IH. by apply NoDup_set.
Qed.

Lemma NoDup_literal (l : list (string * A)) : NoDup (keys (literal l)).
Proof. apply NoDup_spread. constructor. Qed.

Lemma get_spread_not_in k o1 o2 : k ∉ keys o2 -> get k (spread o1 o2) = get k o1.
Proof.
  unfold spread, keys. revert o1. induction o2 as [|[k2 v2] o2 IH]; intros o1; cbn; [done|].
  intros [? ?]%not_elem_of_cons. rewrite IH by done. by apply get_set_ne.
Qed.

(** Spreading: the later object wins. *)
Lemma get_spread k o1 o2 :
  NoDup (keys o2) -> get k (spread o1 o2) = match get k o2 with Some v => Some v | None => get k o1 end.
Proof.
  unfold spread. revert o1. induction o2 as [|[k2 v2] o2 IH]; intros o1; cbn; [done|].
  unfold keys in *. cbn. intros [Hn Hd]%NoDup_cons. destruct (str_eqb_spec k2 k) as [->|Hk].
  - fold (spread (set k v2 o1) o2). rewrite get_spread_not_in by done. apply get_set_eq.
  - rewrite IH by done. by rewrite get_set_ne.
Qed.

Lemma keys_spread k o1 o2 : k ∈ keys (spread o1 o2) <-> k ∈ keys o1 \/ k ∈ keys o2.
Proof.
  unfold spread. revert o1.
  induction o2 as [|[k2 v2] o2 IH]; intros o1; cbn [fold_left fst snd].
  - split; [auto|]. by intros [?|?%elem_of_nil].
  - rewrite IH, elem_of_keys_set. unfold keys. cbn. rewrite elem_of_cons. naive_solver.
Qed.

End ObjLaws.
#[export] Hint Resolve NoDup_set NoDup_spread NoDup_literal : core.

(** Filling an object from the properties of another one. *)
Lemma get_fold_set {A B : Type} (f : A -> B) (l : obj A) (o : obj B) k :
  NoDup (keys l) ->
  get k (fold_left (fun o kv => set (fst kv) (f (snd kv)) o) l o) =
  match get k l with Some v => Some (f v) | None => get k o end.
Proof.
  revert o. unfold keys. induction l as [|[k1 v1] l IH]; intros o;
    cbn [fold_left fst snd get fmap list_fmap]; [done|].
  intros [Hn Hd]%NoDup_cons. rewrite IH by done. rewrite get_set.
  destruct (str_eqb_spec k1 k) as [->|Hk]; [|by destruct (get k l)].
  by rewrite (proj2 (get_None_keys k l) Hn).
Qed.

Lemma keys_fold_set {A B : Type} (f : A -> B) (l : obj A) (o : obj B) :
  NoDup (keys o) -> NoDup (keys (fold_left (fun o kv => set (fst kv) (f (snd kv)) o) l o)).
Proof.
  revert o. induction l as [|[k v] l IH]; intros o H; cbn [fold_left fst snd]; [done|].
  apply IH. by apply NoDup_set.
Qed.
