(* ===== verification/FaTables.v ===== *)
(** The family, style and weight tables of [fontawesome.js] (two bundled packages of
    metadata; the second copy has the suffix [_1] where the source has [$1]). *)
From stdpp Require Import base strings list.
From Stdlib Require Import ZArith Ascii.
From S2P Require Import Prelude GoStrings JsObj.

(** Family and style class to style name. *)
Definition Q : obj (obj string) :=
  Eval vm_compute in literal [
  ("classic", literal [("fa", "solid"); ("fas", "solid"); ("fa-solid", "solid"); ("far", "regular");
       ("fa-regular", "regular"); ("fal", "light"); ("fa-light", "light"); ("fat", "thin");
       ("fa-thin", "thin"); ("fab", "brands"); ("fa-brands", "brands")]);
  ("duotone", literal [("fa", "solid"); ("fad", "solid"); ("fa-solid", "solid"); ("fa-duotone", "solid");
       ("fadr", "regular"); ("fa-regular", "regular"); ("fadl", "light");
       ("fa-light", "light"); ("fadt", "thin"); ("fa-thin", "thin")]);
  ("sharp", literal [("fa", "solid"); ("fass", "solid"); ("fa-solid", "solid"); ("fasr", "regular");
       ("fa-regular", "regular"); ("fasl", "light"); ("fa-light", "light"); ("fast", "thin");
       ("fa-thin", "thin")]);
  ("sharp-duotone", literal [("fa", "solid"); ("fasds", "solid"); ("fa-solid", "solid"); ("fasdr", "regular");
       ("fa-regular", "regular"); ("fasdl", "light"); ("fa-light", "light");
       ("fasdt", "thin"); ("fa-thin", "thin")]);
  ("slab", literal [("fa-regular", "regular"); ("faslr", "regular")]);
  ("slab-press", literal [("fa-regular", "regular"); ("faslpr", "regular")]);
  ("thumbprint", literal [("fa-light", "light"); ("fatl", "light")]);
  ("whiteboard", literal [("fa-semibold", "semibold"); ("fawsb", "semibold")]);
  ("notdog", literal [("fa-solid", "solid"); ("fans", "solid")]);
  ("notdog-duo", literal [("fa-solid", "solid"); ("fands", "solid")]);
  ("etch", literal [("fa-solid", "solid"); ("faes", "solid")]);
  ("graphite", literal [("fa-thin", "thin"); ("fagt", "thin")]);
  ("jelly", literal [("fa-regular", "regular"); ("fajr", "regular")]);
  ("jelly-fill", literal [("fa-regular", "regular"); ("fajfr", "regular")]);
  ("jelly-duo", literal [("fa-regular", "regular"); ("fajdr", "regular")]);
  ("chisel", literal [("fa-regular", "regular"); ("facr", "regular")]);
  ("utility", literal [("fa-semibold", "semibold"); ("fausb", "semibold")]);
  ("utility-duo", literal [("fa-semibold", "semibold"); ("faudsb", "semibold")]);
  ("utility-fill", literal [("fa-semibold", "semibold"); ("faufsb", "semibold")])].

Definition X : obj string :=
  Eval vm_compute in literal [("GROUP", "duotone-group"); ("SWAP_OPACITY", "swap-opacity"); ("PRIMARY", "primary");
     ("SECONDARY", "secondary")].

(** The family classes (the constant [Z]). *)
Definition Z_families : list string :=
  ["fa-classic"; "fa-duotone"; "fa-sharp"; "fa-sharp-duotone"; "fa-thumbprint";
   "fa-whiteboard"; "fa-notdog"; "fa-notdog-duo"; "fa-chisel"; "fa-etch"; "fa-graphite";
   "fa-jelly"; "fa-jelly-fill"; "fa-jelly-duo"; "fa-slab"; "fa-slab-press"; "fa-utility";
   "fa-utility-duo"; "fa-utility-fill"].

(** The family ids (the constants [i], [t], [d], ... of the source). *)
Definition dt : list string :=
  ["classic"; "duotone"; "sharp"; "sharp-duotone"; "chisel"; "etch"; "graphite"; "jelly";
   "jelly-duo"; "jelly-fill"; "notdog"; "notdog-duo"; "slab"; "slab-press"; "thumbprint";
   "utility"; "utility-duo"; "utility-fill"; "whiteboard"].

(** Family id to the name shown. *)
Definition ht : obj string :=
  Eval vm_compute in literal [("classic", "Classic"); ("duotone", "Duotone"); ("sharp", "Sharp");
     ("sharp-duotone", "Sharp Duotone"); ("chisel", "Chisel"); ("etch", "Etch");
     ("graphite", "Graphite"); ("jelly", "Jelly"); ("jelly-duo", "Jelly Duo");
     ("jelly-fill", "Jelly Fill"); ("notdog", "Notdog"); ("notdog-duo", "Notdog Duo");
     ("slab", "Slab"); ("slab-press", "Slab Press"); ("thumbprint", "Thumbprint");
     ("utility", "Utility"); ("utility-duo", "Utility Duo");
     ("utility-fill", "Utility Fill"); ("whiteboard", "Whiteboard")].

(** Font weight to prefix. *)
Definition yt : obj (obj string) :=
  Eval vm_compute in literal [
  ("classic", literal [("900", "fas"); ("400", "far"); ("normal", "far"); ("300", "fal"); ("100", "fat")]);
  ("duotone", literal [("900", "fad"); ("400", "fadr"); ("300", "fadl"); ("100", "fadt")]);
  ("sharp", literal [("900", "fass"); ("400", "fasr"); ("300", "fasl"); ("100", "fast")]);
  ("sharp-duotone", literal [("900", "fasds"); ("400", "fasdr"); ("300", "fasdl"); ("100", "fasdt")]);
  ("slab", literal [("400", "faslr")]);
  ("slab-press", literal [("400", "faslpr")]);
  ("whiteboard", literal [("600", "fawsb")]);
  ("thumbprint", literal [("300", "fatl")]);
  ("notdog", literal [("900", "fans")]);
  ("notdog-duo", literal [("900", "fands")]);
  ("etch", literal [("900", "faes")]);
  ("graphite", literal [("100", "fagt")]);
  ("chisel", literal [("400", "facr")]);
  ("jelly", literal [("400", "fajr")]);
  ("jelly-fill", literal [("400", "fajfr")]);
  ("jelly-duo", literal [("400", "fajdr")]);
  ("utility", literal [("600", "fausb")]);
  ("utility-duo", literal [("600", "faudsb")]);
  ("utility-fill", literal [("600", "faufsb")])].

(** CSS font family and weight to prefix. *)
Definition Kt : obj (obj string) :=
  Eval vm_compute in literal [
  ("Font Awesome 7 Free", literal [("900", "fas"); ("400", "far")]);
  ("Font Awesome 7 Pro", literal [("900", "fas"); ("400", "far"); ("normal", "far"); ("300", "fal"); ("100", "fat")]);
  ("Font Awesome 7 Brands", literal [("400", "fab"); ("normal", "fab")]);
  ("Font Awesome 7 Duotone", literal [("900", "fad"); ("400", "fadr"); ("normal", "fadr"); ("300", "fadl"); ("100", "fadt")]);
  ("Font Awesome 7 Sharp", literal [("900", "fass"); ("400", "fasr"); ("normal", "fasr"); ("300", "fasl"); ("100", "fast")]);
  ("Font Awesome 7 Sharp Duotone", literal [("900", "fasds"); ("400", "fasdr"); ("normal", "fasdr"); ("300", "fasdl");
       ("100", "fasdt")]);
  ("Font Awesome 7 Jelly", literal [("400", "fajr"); ("normal", "fajr")]);
  ("Font Awesome 7 Jelly Fill", literal [("400", "fajfr"); ("normal", "fajfr")]);
  ("Font Awesome 7 Jelly Duo", literal [("400", "fajdr"); ("normal", "fajdr")]);
  ("Font Awesome 7 Slab", literal [("400", "faslr"); ("normal", "faslr")]);
  ("Font Awesome 7 Slab Press", literal [("400", "faslpr"); ("normal", "faslpr")]);
  ("Font Awesome 7 Thumbprint", literal [("300", "fatl"); ("normal", "fatl")]);
  ("Font Awesome 7 Notdog", literal [("900", "fans"); ("normal", "fans")]);
  ("Font Awesome 7 Notdog Duo", literal [("900", "fands"); ("normal", "fands")]);
  ("Font Awesome 7 Etch", literal [("900", "faes"); ("normal", "faes")]);
  ("Font Awesome 7 Graphite", literal [("100", "fagt"); ("normal", "fagt")]);
  ("Font Awesome 7 Chisel", literal [("400", "facr"); ("normal", "facr")]);
  ("Font Awesome 7 Whiteboard", literal [("600", "fawsb"); ("normal", "fawsb")]);
  ("Font Awesome 7 Utility", literal [("600", "fausb"); ("normal", "fausb")]);
  ("Font Awesome 7 Utility Duo", literal [("600", "faudsb"); ("normal", "faudsb")]);
  ("Font Awesome 7 Utility Fill", literal [("600", "faufsb"); ("normal", "faufsb")])].

Record FamilyMeta := mkFamilyMeta {
  defaultShortPrefixId : string;
  defaultStyleId : string;
  styleIds : list string;
  futureStyleIds : list string;
  defaultFontWeight : Z }.

(** The [Map] of families, in insertion order. *)
Definition Et : list (string * FamilyMeta) :=
  [("classic", mkFamilyMeta "fas" "solid" ["solid"; "regular"; "light"; "thin"; "brands"] [] 900%Z);
   ("duotone", mkFamilyMeta "fad" "solid" ["solid"; "regular"; "light"; "thin"] [] 900%Z);
   ("sharp", mkFamilyMeta "fass" "solid" ["solid"; "regular"; "light"; "thin"] [] 900%Z);
   ("sharp-duotone", mkFamilyMeta "fasds" "solid" ["solid"; "regular"; "light"; "thin"] [] 900%Z);
   ("chisel", mkFamilyMeta "facr" "regular" ["regular"] [] 400%Z);
   ("etch", mkFamilyMeta "faes" "solid" ["solid"] [] 900%Z);
   ("graphite", mkFamilyMeta "fagt" "thin" ["thin"] [] 100%Z);
   ("jelly", mkFamilyMeta "fajr" "regular" ["regular"] [] 400%Z);
   ("jelly-duo", mkFamilyMeta "fajdr" "regular" ["regular"] [] 400%Z);
   ("jelly-fill", mkFamilyMeta "fajfr" "regular" ["regular"] [] 400%Z);
   ("notdog", mkFamilyMeta "fans" "solid" ["solid"] [] 900%Z);
   ("notdog-duo", mkFamilyMeta "fands" "solid" ["solid"] [] 900%Z);
   ("slab", mkFamilyMeta "faslr" "regular" ["regular"] [] 400%Z);
   ("slab-press", mkFamilyMeta "faslpr" "regular" ["regular"] [] 400%Z);
   ("thumbprint", mkFamilyMeta "fatl" "light" ["light"] [] 300%Z);
   ("utility", mkFamilyMeta "fausb" "semibold" ["semibold"] [] 600%Z);
   ("utility-duo", mkFamilyMeta "faudsb" "semibold" ["semibold"] [] 600%Z);
   ("utility-fill", mkFamilyMeta "faufsb" "semibold" ["semibold"] [] 600%Z);
   ("whiteboard", mkFamilyMeta "fawsb" "semibold" ["semibold"] [] 600%Z)].

(** Style name to short prefix. *)
Definition Mt : obj (obj string) :=
  Eval vm_compute in literal [
  ("chisel", literal [("regular", "facr")]);
  ("classic", literal [("brands", "fab"); ("light", "fal"); ("regular", "far"); ("solid", "fas");
       ("thin", "fat")]);
  ("duotone", literal [("light", "fadl"); ("regular", "fadr"); ("solid", "fad"); ("thin", "fadt")]);
  ("etch", literal [("solid", "faes")]);
  ("graphite", literal [("thin", "fagt")]);
  ("jelly", literal [("regular", "fajr")]);
  ("jelly-duo", literal [("regular", "fajdr")]);
  ("jelly-fill", literal [("regular", "fajfr")]);
  ("notdog", literal [("solid", "fans")]);
  ("notdog-duo", literal [("solid", "fands")]);
  ("sharp", literal [("light", "fasl"); ("regular", "fasr"); ("solid", "fass"); ("thin", "fast")]);
  ("sharp-duotone", literal [("light", "fasdl"); ("regular", "fasdr"); ("solid", "fasds"); ("thin", "fasdt")]);
  ("slab", literal [("regular", "faslr")]);
  ("slab-press", literal [("regular", "faslpr")]);
  ("thumbprint", literal [("light", "fatl")]);
  ("utility", literal [("semibold", "fausb")]);
  ("utility-duo", literal [("semibold", "faudsb")]);
  ("utility-fill", literal [("semibold", "faufsb")]);
  ("whiteboard", literal [("semibold", "fawsb")])].

Definition Ht : list string :=
  ["fak"; "fa-kit"; "fakd"; "fa-kit-duotone"].

Definition Qt : obj (obj string) :=
  Eval vm_compute in literal [
  ("kit", literal [("fak", "kit"); ("fa-kit", "kit")]);
  ("kit-duotone", literal [("fakd", "kit-duotone"); ("fa-kit-duotone", "kit-duotone")])].

Definition Xt : list string :=
  ["kit"].

Definition ll : obj string :=
  Eval vm_compute in literal [("kit", "Kit"); ("kit-duotone", "Kit Duotone")].

Definition sl : obj (obj string) :=
  Eval vm_compute in literal [
  ("kit", literal [("fa-kit", "fak")]);
  ("kit-duotone", literal [("fa-kit-duotone", "fakd")])].

Definition hl : obj (obj string) :=
  Eval vm_compute in literal [
  ("Font Awesome Kit", literal [("400", "fak"); ("normal", "fak")]);
  ("Font Awesome Kit Duotone", literal [("400", "fakd"); ("normal", "fakd")])].

Definition nl : obj (obj string) :=
  Eval vm_compute in literal [
  ("kit", literal [("fak", "fa-kit")]);
  ("kit-duotone", literal [("fakd", "fa-kit-duotone")])].

Definition ml : obj (obj string) :=
  Eval vm_compute in literal [
  ("kit", literal [("kit", "fak")]);
  ("kit-duotone", literal [("kit-duotone", "fakd")])].

Definition t_1 : obj string :=
  Eval vm_compute in literal [("GROUP", "duotone-group"); ("SWAP_OPACITY", "swap-opacity"); ("PRIMARY", "primary");
     ("SECONDARY", "secondary")].

Definition f_1 : list string :=
  ["fa-classic"; "fa-duotone"; "fa-sharp"; "fa-sharp-duotone"; "fa-thumbprint";
   "fa-whiteboard"; "fa-notdog"; "fa-notdog-duo"; "fa-chisel"; "fa-etch"; "fa-graphite";
   "fa-jelly"; "fa-jelly-fill"; "fa-jelly-duo"; "fa-slab"; "fa-slab-press"; "fa-utility";
   "fa-utility-duo"; "fa-utility-fill"].

(** A second copy of the same constants, from a second bundled package. *)
Definition wt_1 : obj string :=
  Eval vm_compute in literal [("classic", "Classic"); ("duotone", "Duotone"); ("sharp", "Sharp");
     ("sharp-duotone", "Sharp Duotone"); ("chisel", "Chisel"); ("etch", "Etch");
     ("graphite", "Graphite"); ("jelly", "Jelly"); ("jelly-duo", "Jelly Duo");
     ("jelly-fill", "Jelly Fill"); ("notdog", "Notdog"); ("notdog-duo", "Notdog Duo");
     ("slab", "Slab"); ("slab-press", "Slab Press"); ("thumbprint", "Thumbprint");
     ("utility", "Utility"); ("utility-duo", "Utility Duo");
     ("utility-fill", "Utility Fill"); ("whiteboard", "Whiteboard")].

Definition dl_1 : obj string :=
  Eval vm_compute in literal [("kit", "Kit"); ("kit-duotone", "Kit Duotone")].

(** Long style class to short prefix. *)
Definition Hl : obj (obj string) :=
  Eval vm_compute in literal [
  ("classic", literal [("fa-brands", "fab"); ("fa-duotone", "fad"); ("fa-light", "fal");
       ("fa-regular", "far"); ("fa-solid", "fas"); ("fa-thin", "fat")]);
  ("duotone", literal [("fa-regular", "fadr"); ("fa-light", "fadl"); ("fa-thin", "fadt")]);
  ("sharp", literal [("fa-solid", "fass"); ("fa-regular", "fasr"); ("fa-light", "fasl");
       ("fa-thin", "fast")]);
  ("sharp-duotone", literal [("fa-solid", "fasds"); ("fa-regular", "fasdr"); ("fa-light", "fasdl");
       ("fa-thin", "fasdt")]);
  ("slab", literal [("fa-regular", "faslr")]);
  ("slab-press", literal [("fa-regular", "faslpr")]);
  ("whiteboard", literal [("fa-semibold", "fawsb")]);
  ("thumbprint", literal [("fa-light", "fatl")]);
  ("notdog", literal [("fa-solid", "fans")]);
  ("notdog-duo", literal [("fa-solid", "fands")]);
  ("etch", literal [("fa-solid", "faes")]);
  ("graphite", literal [("fa-thin", "fagt")]);
  ("jelly", literal [("fa-regular", "fajr")]);
  ("jelly-fill", literal [("fa-regular", "fajfr")]);
  ("jelly-duo", literal [("fa-regular", "fajdr")]);
  ("chisel", literal [("fa-regular", "facr")]);
  ("utility", literal [("fa-semibold", "fausb")]);
  ("utility-duo", literal [("fa-semibold", "faudsb")]);
  ("utility-fill", literal [("fa-semibold", "faufsb")])].

(** The short prefixes of a family. *)
Definition Y_1 : obj (list string) :=
  Eval vm_compute in literal [("classic", ["fas"; "far"; "fal"; "fat"; "fad"]); ("duotone", ["fadr"; "fadl";
     "fadt"]); ("sharp", ["fass"; "fasr"; "fasl"; "fast"]); ("sharp-duotone", ["fasds";
     "fasdr"; "fasdl"; "fasdt"]); ("slab", ["faslr"]); ("slab-press", ["faslpr"]);
     ("whiteboard", ["fawsb"]); ("thumbprint", ["fatl"]); ("notdog", ["fans"]);
     ("notdog-duo", ["fands"]); ("etch", ["faes"]); ("graphite", ["fagt"]);
     ("jelly", ["fajr"]); ("jelly-fill", ["fajfr"]); ("jelly-duo", ["fajdr"]);
     ("chisel", ["facr"]); ("utility", ["fausb"]); ("utility-duo", ["faudsb"]);
     ("utility-fill", ["faufsb"])].

(** Short prefix to long style class. *)
Definition Xl : obj (obj string) :=
  Eval vm_compute in literal [
  ("classic", literal [("fab", "fa-brands"); ("fad", "fa-duotone"); ("fal", "fa-light");
       ("far", "fa-regular"); ("fas", "fa-solid"); ("fat", "fa-thin")]);
  ("duotone", literal [("fadr", "fa-regular"); ("fadl", "fa-light"); ("fadt", "fa-thin")]);
  ("sharp", literal [("fass", "fa-solid"); ("fasr", "fa-regular"); ("fasl", "fa-light");
       ("fast", "fa-thin")]);
  ("sharp-duotone", literal [("fasds", "fa-solid"); ("fasdr", "fa-regular"); ("fasdl", "fa-light");
       ("fasdt", "fa-thin")]);
  ("slab", literal [("faslr", "fa-regular")]);
  ("slab-press", literal [("faslpr", "fa-regular")]);
  ("whiteboard", literal [("fawsb", "fa-semibold")]);
  ("thumbprint", literal [("fatl", "fa-light")]);
  ("notdog", literal [("fans", "fa-solid")]);
  ("notdog-duo", literal [("fands", "fa-solid")]);
  ("etch", literal [("faes", "fa-solid")]);
  ("graphite", literal [("fagt", "fa-thin")]);
  ("jelly", literal [("fajr", "fa-regular")]);
  ("jelly-fill", literal [("fajfr", "fa-regular")]);
  ("jelly-duo", literal [("fajdr", "fa-regular")]);
  ("chisel", literal [("facr", "fa-regular")]);
  ("utility", literal [("fausb", "fa-semibold")]);
  ("utility-duo", literal [("faudsb", "fa-semibold")]);
  ("utility-fill", literal [("faufsb", "fa-semibold")])].

Definition V_1 : list string :=
  ["fa-solid"; "fa-regular"; "fa-light"; "fa-thin"; "fa-duotone"; "fa-brands";
   "fa-semibold"].

(** Every style and family class. *)
Definition lo : list string :=
  Eval vm_compute in ["fa"; "fas"; "far"; "fal"; "fat"; "fad"; "fadr"; "fadl"; "fadt"; "fab"; "fass"; "fasr";
   "fasl"; "fast"; "fasds"; "fasdr"; "fasdl"; "fasdt"; "faslr"; "faslpr"; "fawsb"; "fatl";
   "fans"; "fands"; "faes"; "fagt"; "fajr"; "fajfr"; "fajdr"; "facr"; "fausb"; "faudsb";
   "faufsb"] ++ f_1 ++ V_1.

(** The constant [$]. *)
Definition style_names : list string :=
  ["solid"; "regular"; "light"; "thin"; "duotone"; "brands"; "semibold"].

Definition z_1 : list Z :=
  [1; 2; 3; 4; 5; 6; 7; 8; 9; 10]%Z.

Definition q_1 : list Z :=
  Eval vm_compute in z_1 ++ [11; 12; 13; 14; 15; 16; 17; 18; 19; 20]%Z.

Definition H_1 : list string :=
  ["aw"; "fw"; "pull-left"; "pull-right"].

(** The names that are classes of the toolkit and no icons. *)
Definition so : list string :=
  Eval vm_compute in keys Y_1 ++ style_names ++ H_1 ++
  ["2xs"; "xs"; "sm"; "lg"; "xl"; "2xl"; "beat"; "border"; "fade"; "beat-fade"; "bounce";
   "flip-both"; "flip-horizontal"; "flip-vertical"; "flip"; "inverse"; "layers";
   "layers-bottom-left"; "layers-bottom-right"; "layers-counter"; "layers-text";
   "layers-top-left"; "layers-top-right"; "li"; "pull-end"; "pull-start"; "pulse";
   "rotate-180"; "rotate-270"; "rotate-90"; "rotate-by"; "shake"; "spin-pulse";
   "spin-reverse"; "spin"; "stack-1x"; "stack-2x"; "stack"; "ul"; "width-auto";
   "width-fixed"] ++
  (map snd t_1) ++ map (fun n => print_int n +:+ "x") z_1 ++ map (fun n => "w-" +:+ print_int n) q_1.

Definition fo : obj (obj string) :=
  Eval vm_compute in literal [
  ("Font Awesome 5 Free", literal [("900", "fas"); ("400", "far")]);
  ("Font Awesome 5 Pro", literal [("900", "fas"); ("400", "far"); ("normal", "far"); ("300", "fal")]);
  ("Font Awesome 5 Brands", literal [("400", "fab"); ("normal", "fab")]);
  ("Font Awesome 5 Duotone", literal [("900", "fad")])].
