(* ===== verification/FaMeta.v ===== *)
(** The constants of [fontawesome.js] and the maps it derives from the tables: style to
    prefix and back, in short and long form, for each family, with the classic family
    as the default of an unknown one. *)
From stdpp Require Import base strings list.
From Stdlib Require Import ZArith Ascii.
From S2P Require Import Prelude GoStrings JsObj FaTables.

Definition UNITS_IN_GRID : Z := 16.
Definition DEFAULT_CSS_PREFIX : string := "fa".
Definition DEFAULT_REPLACEMENT_CLASS : string := "svg-inline--fa".
Definition DATA_FA_I2SVG : string := "data-fa-i2svg".
Definition DATA_FA_PSEUDO_ELEMENT : string := "data-fa-pseudo-element".
Definition DATA_FA_PSEUDO_ELEMENT_PENDING : string := "data-fa-pseudo-element-pending".
Definition DATA_PREFIX : string := "data-prefix".
Definition DATA_ICON : string := "data-icon".
Definition HTML_CLASS_I2SVG_BASE_CLASS : string := "fontawesome-i2svg".
Definition MUTATION_APPROACH_ASYNC : string := "async".
Definition TAGNAMES_TO_SKIP_FOR_PSEUDOELEMENTS : list string := ["HTML"; "HEAD"; "STYLE"; "SCRIPT"].
Definition PSEUDO_ELEMENTS : list string := ["::before"; "::after"; ":before"; ":after"].
Definition LAYERS_TEXT_CLASSNAME : string := "fa-layers-text".
Definition ATTRIBUTES_WATCHED_FOR_MUTATION : list string :=
  ["class"; "data-prefix"; "data-icon"; "data-fa-transform"; "data-fa-mask"].
Definition DUOTONE_CLASSES : obj string := X.
Definition RESERVED_CLASSES : list string := Eval vm_compute in Xt ++ so.

(** Reading a property of [familyProxy(o)]: the classic family stands in for a missing
    one. *)
Definition familyProxy {A} (o : obj (obj A)) (prop : string) : obj A :=
  match get prop o with Some v => v | None => get_obj "classic" o end.

Definition _PREFIX_TO_STYLE : obj (obj string) :=
  Eval vm_compute in let o := spread [] Q in
  set "classic"
    (spread (spread (spread (spread [] (literal [("fa-duotone", "duotone")])) (get_obj "classic" Q))
       (get_obj "kit" Qt)) (get_obj "kit-duotone" Qt)) o.
Definition PREFIX_TO_STYLE : string -> obj string := familyProxy _PREFIX_TO_STYLE.

Definition _STYLE_TO_PREFIX : obj (obj string) :=
  Eval vm_compute in let o := spread [] Mt in
  set "classic"
    (spread (spread (spread (spread [] (literal [("duotone", "fad")])) (get_obj "classic" o))
       (get_obj "kit" ml)) (get_obj "kit-duotone" ml)) o.
Definition STYLE_TO_PREFIX : string -> obj string := familyProxy _STYLE_TO_PREFIX.

Definition _PREFIX_TO_LONG_STYLE : obj (obj string) :=
  Eval vm_compute in let o := spread [] Xl in
  set "classic" (spread (spread [] (get_obj "classic" o)) (get_obj "kit" nl)) o.
Definition PREFIX_TO_LONG_STYLE : string -> obj string := familyProxy _PREFIX_TO_LONG_STYLE.

Definition _LONG_STYLE_TO_PREFIX : obj (obj string) :=
  Eval vm_compute in let o := spread [] Hl in
  set "classic" (spread (spread [] (get_obj "classic" o)) (get_obj "kit" sl)) o.
Definition LONG_STYLE_TO_PREFIX : string -> obj string := familyProxy _LONG_STYLE_TO_PREFIX.

Definition _FONT_WEIGHT_TO_PREFIX : obj (obj string) := Eval vm_compute in spread [] yt.
Definition FONT_WEIGHT_TO_PREFIX : string -> obj string := familyProxy _FONT_WEIGHT_TO_PREFIX.

Definition FAMILY_NAMES : list string := Eval vm_compute in keys _PREFIX_TO_LONG_STYLE.
Definition PREFIXES_FOR_FAMILY : obj (list string) :=
  Eval vm_compute in fold_left (fun acc familyId => set familyId (keys (PREFIX_TO_LONG_STYLE familyId)) acc)
    FAMILY_NAMES [].

Definition _faCombinedClasses : list string := Eval vm_compute in lo ++ Ht.
Definition newCanonicalFamilies : list string :=
  Eval vm_compute in filter (fun familyId => familyId <> "classic" \/ familyId <> "duotone") dt.
Definition newCanonicalStyles : list string :=
  Eval vm_compute in concat (map (fun key => keys (get_obj key Xl)) (filter (fun key => key <> "classic") (keys Xl))).

(** [Et.get(family)] *)
Definition family_meta (family : string) : option FamilyMeta := get family Et.

(** * The tables agree with each other *)

(** Check a property of every entry of a table of tables. *)
Definition all_entries (o : obj (obj string)) (P : string -> string -> string -> bool) : bool :=
  forallb (fun e => forallb (fun kv => P (fst e) (fst kv) (snd kv)) (snd e)) o.

Lemma all_entries_spec o P f k v :
  all_entries o P = true -> get k (get_obj f o) = Some v -> P f k v = true.
Proof.
  unfold all_entries, get_obj. intros H Hg. destruct (get f o) as [r|] eqn:E; [|done].
  apply get_Some_elem in E. apply get_Some_elem in Hg.
  rewrite forallb_forall in H. specialize (H (f, r) (proj1 (list_elem_of_In _ _) E)). cbn in H.
  rewrite forallb_forall in H. exact (H (k, v) (proj1 (list_elem_of_In _ _) Hg)).
Qed.

Definition opt_is (o : option string) (s : string) : bool := bool_decide (o = Some s).

(** The tables have no family beyond [FAMILY_NAMES]: an unknown one reads as classic. *)
Definition families_within {A} (o : obj (obj A)) : bool :=
  forallb (fun f => mem_str f FAMILY_NAMES) (keys o).

Lemma familyProxy_unknown {A} (o : obj (obj A)) f :
  families_within o = true -> f ∉ FAMILY_NAMES -> familyProxy o f = get_obj "classic" o.
Proof.
  intros H Hf. unfold familyProxy. destruct (get f o) eqn:E; [|done]. destruct Hf.
  unfold families_within in H. rewrite forallb_forall in H. apply mem_str_elem, H.
  apply list_elem_of_In, has_keys, has_get. eauto.
Qed.

Lemma familyProxy_known {A} (o : obj (obj A)) f : has f o = true -> familyProxy o f = get_obj f o.
Proof. intros [v E]%has_get. unfold familyProxy, get_obj. by rewrite E. Qed.

(** The family whose row the proxies read. *)
Definition row (f : string) : string := if mem_str f FAMILY_NAMES then f else "classic".

Lemma row_known f : row f ∈ FAMILY_NAMES.
Proof.
  unfold row. destruct (mem_str f FAMILY_NAMES) eqn:E; [exact (proj1 (mem_str_elem f _) E)|].
  apply (proj1 (mem_str_elem "classic" FAMILY_NAMES)). vm_compute. reflexivity.
Qed.

Lemma familyProxy_row {A} (o : obj (obj A)) f :
  families_within o = true -> forallb (fun f => has f o) FAMILY_NAMES = true ->
  familyProxy o f = get_obj (row f) o.
Proof.
  intros Hw Ha. unfold row. destruct (mem_str f FAMILY_NAMES) eqn:E.
  - apply familyProxy_known. rewrite forallb_forall in Ha.
    exact (Ha f (proj1 (list_elem_of_In _ f) (proj1 (mem_str_elem f _) E))).
  - exact (familyProxy_unknown o f Hw (proj1 (mem_str_not_elem f _) E)).
Qed.

Lemma proxies_row f :
  STYLE_TO_PREFIX f = get_obj (row f) _STYLE_TO_PREFIX
  /\ PREFIX_TO_STYLE f = get_obj (row f) _PREFIX_TO_STYLE
  /\ PREFIX_TO_LONG_STYLE f = get_obj (row f) _PREFIX_TO_LONG_STYLE
  /\ LONG_STYLE_TO_PREFIX f = get_obj (row f) _LONG_STYLE_TO_PREFIX
  /\ FONT_WEIGHT_TO_PREFIX f = get_obj (row f) _FONT_WEIGHT_TO_PREFIX.
Proof.
  unfold STYLE_TO_PREFIX, PREFIX_TO_STYLE, PREFIX_TO_LONG_STYLE, LONG_STYLE_TO_PREFIX,
    FONT_WEIGHT_TO_PREFIX.
  repeat match goal with |- _ /\ _ => split end; apply familyProxy_row; vm_compute; reflexivity.
Qed.

(** A property of every entry of a table, by evaluation. *)
Ltac by_entries o P Hg H :=
  let Ha := fresh in
  assert (all_entries o P = true) as Ha by (vm_compute; reflexivity);
  pose proof (all_entries_spec o P _ _ _ Ha Hg) as H; cbn beta in H; clear Ha.

(** The style of the prefix of a style is that style, for every family (an unknown
    one included); the one exception is the style [duotone] of the classic family,
    whose prefix [fad] belongs to the duotone family. *)
Theorem style_prefix_roundtrip f s p :
  get s (STYLE_TO_PREFIX f) = Some p -> s <> "duotone" -> get p (PREFIX_TO_STYLE f) = Some s.
Proof.
  destruct (proxies_row f) as (-> & -> & _). intros Hg Hs.
  by_entries _STYLE_TO_PREFIX
    (fun f s p => str_eqb s "duotone" || opt_is (get p (get_obj f _PREFIX_TO_STYLE)) s) Hg H.
  rewrite (proj2 (str_eqb_neq _ _) Hs) in H. by apply bool_decide_eq_true in H.
Qed.

Lemma style_prefix_roundtrip_witness : get "fass" (PREFIX_TO_STYLE "sharp") = Some "solid".
Proof. apply style_prefix_roundtrip; [vm_compute; reflexivity|discriminate]. Defined.

(** The long and the short names of a prefix are two ways to write the same thing:
    within a family each map is the inverse of the other. *)
Theorem long_short_inverse f p l :
  get p (PREFIX_TO_LONG_STYLE f) = Some l <-> get l (LONG_STYLE_TO_PREFIX f) = Some p.
Proof.
  destruct (proxies_row f) as (_ & _ & -> & -> & _). split; intros Hg.
  - by_entries _PREFIX_TO_LONG_STYLE
      (fun f p l => opt_is (get l (get_obj f _LONG_STYLE_TO_PREFIX)) p) Hg H.
    by apply bool_decide_eq_true in H.
  - by_entries _LONG_STYLE_TO_PREFIX
      (fun f l p => opt_is (get p (get_obj f _PREFIX_TO_LONG_STYLE)) l) Hg H.
    by apply bool_decide_eq_true in H.
Qed.

Lemma family_meta_elem f m : family_meta f = Some m -> (f, m) ∈ Et.
Proof. apply get_Some_elem. Qed.

Definition meta_coherent (f : string) (m : FamilyMeta) : bool :=
  opt_is (get (defaultStyleId m) (STYLE_TO_PREFIX f)) (defaultShortPrefixId m)
  && opt_is (get (print_int (defaultFontWeight m)) (FONT_WEIGHT_TO_PREFIX f)) (defaultShortPrefixId m)
  && mem_str (defaultStyleId m) (styleIds m)
  && forallb (fun s => has s (STYLE_TO_PREFIX f)) (styleIds m).

(** The metadata of a family agrees with the tables: its default style is one of its
    styles, its default prefix is the prefix of its default style and of its default
    weight, and each of its styles has a prefix. *)
Theorem family_metadata_coherent f m :
  family_meta f = Some m ->
  defaultStyleId m ∈ styleIds m
  /\ get (defaultStyleId m) (STYLE_TO_PREFIX f) = Some (defaultShortPrefixId m)
  /\ get (print_int (defaultFontWeight m)) (FONT_WEIGHT_TO_PREFIX f) = Some (defaultShortPrefixId m)
  /\ forall s, s ∈ styleIds m -> exists p, get s (STYLE_TO_PREFIX f) = Some p.
Proof.
  intros H%family_meta_elem.
  assert (forallb (fun e => meta_coherent (fst e) (snd e)) Et = true) as Ha
    by (vm_compute; reflexivity).
  rewrite forallb_forall in Ha. specialize (Ha (f, m) (proj1 (list_elem_of_In _ _) H)).
  cbn -[meta_coherent] in Ha. unfold meta_coherent, opt_is in Ha.
  rewrite !andb_true_iff, !bool_decide_eq_true in Ha. destruct Ha as [[[H1 H2] H3] H4].
  split_and!; [by apply mem_str_elem|done|done|]. intros s Hs.
  rewrite forallb_forall in H4. apply has_get, H4. by apply list_elem_of_In.
Qed.

Lemma family_metadata_coherent_witness :
  exists m, family_meta "etch" = Some m
    /\ get (defaultStyleId m) (STYLE_TO_PREFIX "etch") = Some (defaultShortPrefixId m).
Proof.
  eexists. split; [vm_compute; reflexivity|].
  apply (family_metadata_coherent "etch"). vm_compute. reflexivity.
Defined.

(** The families a prefix belongs to. *)
Definition families_of (p : string) : list string :=
  List.filter (fun f => mem_str p (default [] (get f PREFIXES_FOR_FAMILY))) dt.

Lemma families_of_unique f p l :
  get p (get_obj f _PREFIX_TO_LONG_STYLE) = Some l -> families_of p = [f].
Proof.
  intros Hg. by_entries _PREFIX_TO_LONG_STYLE
    (fun f p (_ : string) => bool_decide (families_of p = [f])) Hg H.
  by apply bool_decide_eq_true in H.
Qed.
