(* ===== verification/FaConfig.v ===== *)
(** The configuration of [fontawesome.js]: how it is read from the page, its defaults,
    the properties of the [config] object and the callbacks a change runs. *)
From stdpp Require Import base strings list.
From Stdlib Require Import Lia ZArith Ascii.
From S2P Require Import Prelude GoStrings JsObj FaTables FaMeta.

(** Primitive JavaScript values a setting can have. *)
Inductive jsval : Type :=
  | VUndefined
  | VNull
  | VBool (b : bool)
  | VNum (n : Z)
  | VStr (s : string).
#[export] Instance jsval_eq_dec : EqDecision jsval.
Proof. solve_decision. Defined.

Definition truthy (v : jsval) : bool :=
  match v with
  | VUndefined | VNull => false
  | VBool b => b
  | VNum n => negb (n =? 0)%Z
  | VStr s => negb (str_empty s)
  end.

(** The conversion to a string of [concat] and of a property key. *)
Definition to_str (v : jsval) : string :=
  match v with
  | VUndefined => "undefined"
  | VNull => "null"
  | VBool true => "true"
  | VBool false => "false"
  | VNum n => print_int n
  | VStr s => s
  end.

(** [v === s] for a string [s]. *)
Definition is_str (v : jsval) (s : string) : bool := bool_decide (v = VStr s).

(** Reading a property: [undefined] when there is none. *)
Definition read (k : string) (o : obj jsval) : jsval := default VUndefined (get k o).

(** * Reading the page *)
Definition coerce (val : jsval) : jsval :=
  match val with
  | VStr s =>
      if str_eqb s "" then VBool true
      else if str_eqb s "false" then VBool false
      else if str_eqb s "true" then VBool true
      else val
  | _ => val
  end.

Definition attrs : list (string * string) := [
  ("data-family-prefix", "familyPrefix"); ("data-css-prefix", "cssPrefix");
  ("data-family-default", "familyDefault"); ("data-style-default", "styleDefault");
  ("data-replacement-class", "replacementClass"); ("data-auto-replace-svg", "autoReplaceSvg");
  ("data-auto-add-css", "autoAddCss"); ("data-search-pseudo-elements", "searchPseudoElements");
  ("data-search-pseudo-elements-warnings", "searchPseudoElementsWarnings");
  ("data-search-pseudo-elements-full-scan", "searchPseudoElementsFullScan");
  ("data-observe-mutations", "observeMutations"); ("data-mutate-approach", "mutateApproach");
  ("data-keep-original-source", "keepOriginalSource");
  ("data-measure-performance", "measurePerformance");
  ("data-show-missing-icons", "showMissingIcons")].

Definition _default : obj jsval := Eval vm_compute in literal [
  ("styleDefault", VStr "solid"); ("familyDefault", VStr "classic");
  ("cssPrefix", VStr DEFAULT_CSS_PREFIX); ("replacementClass", VStr DEFAULT_REPLACEMENT_CLASS);
  ("autoReplaceSvg", VBool true); ("autoAddCss", VBool true);
  ("searchPseudoElements", VBool false); ("searchPseudoElementsWarnings", VBool true);
  ("searchPseudoElementsFullScan", VBool false); ("observeMutations", VBool true);
  ("mutateApproach", VStr "async"); ("keepOriginalSource", VBool true);
  ("measurePerformance", VBool false); ("showMissingIcons", VBool true)].

Section Init.
(** [script attr]: the attribute of the first [<script>] that has it. *)
Variable script : string -> option string.

Definition getAttrConfig (attr : string) : jsval :=
  match script attr with Some s => VStr s | None => VUndefined end.

Fixpoint read_attrs (l : list (string * string)) (initial : obj jsval) : obj jsval :=
  match l with
  | [] => initial
  | (attr, key) :: l =>
      let val := coerce (getAttrConfig attr) in
      let defined := match val with VUndefined | VNull => false | _ => true end in
      read_attrs l (if defined then set key val initial else initial)
  end.

(** The initial value of [_config]; [initial] is [window.FontAwesomeConfig]. *)
Definition init_config (initial : obj jsval) : obj jsval :=
  let initial := read_attrs attrs initial in
  let initial :=
    if truthy (read "familyPrefix" initial)
    then set "cssPrefix" (read "familyPrefix" initial) initial else initial in
  let c := spread (spread [] _default) initial in
  if truthy (read "autoReplaceSvg" c) then c else set "observeMutations" (VBool false) c.
End Init.

(** * The [config] object *)

(** The setters: [familyPrefix] writes [cssPrefix]; a name that is no setting has no
    setter. *)
Definition config_key (key : string) : option string :=
  if str_eqb key "familyPrefix" then Some "cssPrefix"
  else if has key _default then Some key else None.

Definition config_get (c : obj jsval) (key : string) : jsval :=
  match config_key key with Some k => read k c | None => VUndefined end.

Definition config_put (c : obj jsval) (key : string) (val : jsval) : obj jsval :=
  match config_key key with Some k => set k val c | None => c end.

(** * Change callbacks

    A callback is a name for a function value; [indexOf] compares names. *)
Definition callbacks := list nat.

Fixpoint index_of (cb : nat) (l : callbacks) : Z :=
  match l with
  | [] => -1
  | c :: l => if (c =? cb)%nat then 0 else let i := index_of cb l in if (i <? 0)%Z then -1 else i + 1
  end%Z.

(** [l.splice(i, 1)]: a negative index counts from the end. *)
Definition splice1 {A} (i : Z) (l : list A) : list A :=
  let n := Z.of_nat (length l) in
  let start := if (i <? 0)%Z then Z.max 0 (n + i) else Z.min i n in
  take (Z.to_nat start) l ++ drop (S (Z.to_nat start)) l.

Definition onChange (cb : nat) (l : callbacks) : callbacks := l ++ [cb].
(** The function [onChange] returns. *)
Definition unsubscribe (cb : nat) (l : callbacks) : callbacks := splice1 (index_of cb l) l.

(** * Theorems *)
Lemma read_set k v o k' : read k' (set k v o) = if str_eqb k k' then v else read k' o.
Proof. unfold read. rewrite get_set. by destruct (str_eqb k k'). Qed.

Lemma read_attrs_other script l initial k :
  k ∉ l.*2 -> get k (read_attrs script l initial) = get k initial.
Proof.
  revert initial. induction l as [|[a k1] l IH]; intros initial; cbn; [done|].
  intros [Hk Hl]%not_elem_of_cons. rewrite IH by done.
  destruct (coerce _); rewrite ?get_set_ne by congruence; done.
Qed.

Lemma coerce_defined s : coerce (VStr s) <> VUndefined /\ coerce (VStr s) <> VNull.
Proof. cbn. by repeat case_match. Qed.

Lemma read_attrs_get script l initial a k :
  NoDup l.*2 -> (a, k) ∈ l ->
  get k (read_attrs script l initial) =
  match script a with Some s => Some (coerce (VStr s)) | None => get k initial end.
Proof.
  revert initial. induction l as [|[a1 k1] l IH]; intros initial; cbn -[coerce].
  { by intros _ ?%elem_of_nil. }
  intros [Hn Hd]%NoDup_cons [[= -> ->]|Hl]%elem_of_cons.
  - rewrite read_attrs_other by done. unfold getAttrConfig. destruct (script a1) as [s|]; [|done].
    pose proof (coerce_defined s). destruct (coerce (VStr s)) eqn:E; try (by rewrite get_set_eq);
      naive_solver.
  - rewrite IH by done. destruct (script a); [done|].
    assert (k1 <> k) by (intros ->; destruct Hn; by apply (list_elem_of_fmap_2 snd l (a, k))).
    destruct (coerce _); rewrite ?get_set_ne by done; done.
Qed.

Lemma NoDup_read_attrs script l initial :
  NoDup (keys initial) -> NoDup (keys (read_attrs script l initial)).
Proof.
  revert initial. induction l as [|[a k] l IH]; intros initial H; cbn; [done|].
  apply IH. destruct (coerce _); auto.
Qed.

(** Where a setting comes from: the attribute of a script element wins over the
    page's [FontAwesomeConfig], which wins over the default.  [cssPrefix], its old name
    and [observeMutations] have rules of their own (below, and in [init_config]). *)
Theorem setting_precedence script initial attr key :
  NoDup (keys initial) -> (attr, key) ∈ attrs ->
  key <> "cssPrefix" -> key <> "familyPrefix" -> key <> "observeMutations" ->
  read key (init_config script initial) =
  match script attr with
  | Some s => coerce (VStr s)
  | None => match get key initial with Some v => v | None => read key _default end
  end.
Proof.
  intros Hi Ha H1 H2 H3. unfold init_config.
  assert (NoDup attrs.*2) as Hd by (by_decide).
  pose proof (read_attrs_get script attrs initial attr key Hd Ha) as Hg.
  pose proof (NoDup_read_attrs script attrs initial Hi) as Hn.
  set (i1 := read_attrs script attrs initial) in *.
  assert (forall i2, (i2 = i1 \/ i2 = set "cssPrefix" (read "familyPrefix" i1) i1) ->
    read key (spread (spread [] _default) i2) =
    match script attr with
    | Some s => coerce (VStr s)
    | None => match get key initial with Some v => v | None => read key _default end
    end) as K.
  { intros i2 H. assert (NoDup (keys i2)) as Hn2 by (destruct H as [-> | ->]; auto).
    assert (get key i2 = get key i1) as Hg2
      by (destruct H as [-> | ->]; [done|]; by rewrite get_set_ne).
    unfold read. rewrite get_spread by done. rewrite Hg2, Hg.
    destruct (script attr); [done|]. destruct (get key initial); [done|].
    by rewrite (get_spread key [] _default) by (by_decide);
      destruct (get key _default). }
  destruct (truthy (read "familyPrefix" i1)); destruct (truthy _);
    rewrite ?read_set, ?(proj2 (str_eqb_neq "observeMutations" key)) by congruence;
    apply K; auto.
Qed.

Lemma setting_precedence_witness :
  read "styleDefault" (init_config (fun a => if str_eqb a "data-style-default" then Some "duotone"
    else None) [("styleDefault", VStr "light")]) = VStr "duotone".
Proof.
  rewrite (setting_precedence _ _ "data-style-default" "styleDefault");
    [vm_compute; reflexivity|by_decide
    |by_decide|discriminate..].
Defined.

Lemma config_key_default k : k ∈ keys _default -> k <> "familyPrefix" -> config_key k = Some k.
Proof.
  intros Hk Hf. unfold config_key. rewrite (proj2 (str_eqb_neq _ _) Hf).
  by rewrite (proj2 (has_keys k _default) Hk).
Qed.

Lemma index_of_not_in cb l : cb ∉ l -> index_of cb l = (-1)%Z.
Proof.
  induction l as [|c l IH]; cbn; [done|]. intros [Hc Hl]%not_elem_of_cons.
  rewrite (proj2 (Nat.eqb_neq c cb)) by congruence. by rewrite IH.
Qed.

Lemma index_of_in cb l1 l2 : cb ∉ l1 -> index_of cb (l1 ++ cb :: l2) = Z.of_nat (length l1).
Proof.
  induction l1 as [|c l1 IH]; cbn; [by rewrite Nat.eqb_refl|]. intros [Hc Hl]%not_elem_of_cons.
  rewrite (proj2 (Nat.eqb_neq c cb)) by congruence. rewrite IH by done.
  destruct (Z.ltb_spec (Z.of_nat (length l1)) 0); lia.
Qed.

Lemma unsubscribe_once cb l1 l2 : cb ∉ l1 -> unsubscribe cb (l1 ++ cb :: l2) = l1 ++ l2.
Proof.
  intros H. unfold unsubscribe, splice1. rewrite index_of_in by done. rewrite length_app. cbn.
  destruct (Z.ltb_spec (Z.of_nat (length l1)) 0); [lia|].
  rewrite Z.min_l by lia. rewrite Nat2Z.id. f_equal.
  - by rewrite take_app_length.
  - replace (S (length l1)) with (length (l1 ++ [cb])) by (rewrite length_app; cbn; lia).
    rewrite (app_assoc l1 [cb] l2 : l1 ++ cb :: l2 = _). by rewrite drop_app_length.
Qed.

Lemma unsubscribe_missing cb c l : cb ∉ l ++ [c] -> unsubscribe cb (l ++ [c]) = l.
Proof.
  intros H. unfold unsubscribe, splice1. rewrite index_of_not_in by done.
  rewrite length_app. cbn [length].
  change (-1 <? 0)%Z with true. cbn iota.
  replace (Z.max 0 (Z.of_nat (length l + 1) + -1)) with (Z.of_nat (length l)) by lia.
  rewrite Nat2Z.id. rewrite take_app_length, drop_ge, app_nil_r; [done|]. rewrite length_app. cbn. lia.
Qed.

(** A subscription and its removal: the first call of the function [onChange]
    returned removes exactly the callback that was added, but a second call removes
    the last remaining callback, whoever added it. *)
Theorem unsubscribe_twice cb c l :
  cb ∉ l ++ [c] ->
  unsubscribe cb (onChange cb (l ++ [c])) = l ++ [c]
  /\ unsubscribe cb (unsubscribe cb (onChange cb (l ++ [c]))) = l.
Proof.
  intros H. unfold onChange. rewrite unsubscribe_once by done. rewrite app_nil_r.
  split; [done|]. by apply unsubscribe_missing.
Qed.

Lemma unsubscribe_twice_witness :
  3 ∉ [1] ++ [2]
  /\ unsubscribe 3 (unsubscribe 3 (onChange 3 [1; 2])) = [1].
Proof.
  assert (3 ∉ [1] ++ [2]) as H by by_decide.
  split; [exact H|]. exact (proj2 (unsubscribe_twice 3 2 [1] H)).
Defined.
