(* ===== verification/FaRegistry.v ===== *)
(** The icon registry of [fontawesome.js]: the packs of icons, the lookup tables [build]
    derives from them, the resolution of class names to a canonical icon, the library
    and the hooks other bundles call.

    [fa] is the state of the closure and of [window.___FONT_AWESOME___]; [replaced]
    records the calls of [dom.i2svg] that [autoReplace] makes.  A name that is [null] is
    [None]. *)
From stdpp Require Import base strings list sorting relations.
From Stdlib Require Import Lia ZArith Ascii.
From S2P Require Import Prelude GoStrings JsObj FaTables FaMeta FaConfig.

(** * Icons *)

(** An alias is a name or a code point. *)
Inductive alias : Type := ANum (n : Z) | AStr (s : string).
Inductive pathdata : Type := PathOne (d : string) | PathTwo (d : list string).

(** [[width, height, aliases, unicode, path]] *)
Record icon := mkIcon {
  width : Z; height : Z; aliases : list alias; unicode : string; svgPathData : pathdata }.
#[export] Instance alias_eq_dec : EqDecision alias.
Proof. solve_decision. Defined.
#[export] Instance pathdata_eq_dec : EqDecision pathdata.
Proof. solve_decision. Defined.
#[export] Instance icon_eq_dec : EqDecision icon.
Proof. solve_decision. Defined.

Record IconDefinition := mkIconDefinition { d_prefix : string; d_iconName : string; d_icon : icon }.

(** What a pack maps a name to: an icon, or an expanded definition. *)
Inductive entry : Type := EIcon (i : icon) | EDef (d : IconDefinition).

(** [[nameOrUnicode, prefix, iconName]] *)
Record shim := mkShim { sh_key : alias; sh_prefix : option string; sh_iconName : option string }.

Record iconLookup := mkLookup { l_prefix : option string; l_iconName : option string }.
Definition null_lookup : iconLookup := mkLookup None None.

(** The key of a property read with a name that may be [null]. *)
Definition okey (o : option string) : string := default "null" o.

(** [a || b] on strings that may be [null] or [undefined]. *)
Definition js_or (a b : option string) : option string :=
  match a with Some s => if str_empty s then b else a | None => b end.
Definition otruthy (o : option string) : bool :=
  match o with Some s => negb (str_empty s) | None => false end.

(** [n.toString(16)] for a natural number. *)
Definition hex_digit (d : Z) : ascii := if (d <? 10)%Z then chr (48 + Z.to_nat d) else chr (87 + Z.to_nat d).
Fixpoint hex_digits (fuel : nat) (n : Z) (acc : string) : string :=
  match fuel with
  | O => acc
  | S f =>
      let acc := String (hex_digit (n mod 16)) acc in
      if (n <? 16)%Z then acc else hex_digits f (n / 16) acc
  end.
Definition print_hex (n : Z) : string := hex_digits (S (Z.to_nat (Z.log2 n))) n "".

Definition alias_key (a : alias) : string :=
  match a with ANum n => print_int n | AStr s => s end.
Definition hex_aliases (l : list alias) : list string :=
  omap (fun a => match a with ANum n => Some (print_hex n) | AStr _ => None end) l.
Definition name_aliases (l : list alias) : list string :=
  omap (fun a => match a with AStr s => Some s | ANum _ => None end) l.

(** * Packs *)
Definition normalize_step (acc : obj icon) (iconName : string) (e : entry) : obj icon :=
  match e with
  | EDef d => set (d_iconName d) (d_icon d) acc
  | EIcon i => set iconName i acc
  end.
Definition normalizeIcons (icons : obj entry) : obj icon :=
  reduce icons (fun acc e iconName => normalize_step acc iconName e) [].

(** * The state *)
Inductive root : Type := Document | Node (id : nat).

Record fa := mkFA {
  config : obj jsval;
  autoFetchSvg : bool;
  is_dom : bool;
  styles : obj (obj icon);
  shims : list shim;
  addPack_installed : bool;
  definitions : obj (obj icon);
  _byUnicode : obj (obj string);
  _byLigature : obj (obj string);
  _byAlias : obj (obj string);
  _byOldName : obj iconLookup;
  _byOldUnicode : obj iconLookup;
  _defaultUsablePrefix : option string;
  replaced : list root }.

Definition with_styles (st : obj (obj icon)) (s : fa) : fa :=
  mkFA (config s) (autoFetchSvg s) (is_dom s) st (shims s) (addPack_installed s) (definitions s)
    (_byUnicode s) (_byLigature s) (_byAlias s) (_byOldName s) (_byOldUnicode s)
    (_defaultUsablePrefix s) (replaced s).
Definition with_shims (l : list shim) (s : fa) : fa :=
  mkFA (config s) (autoFetchSvg s) (is_dom s) (styles s) l (addPack_installed s) (definitions s)
    (_byUnicode s) (_byLigature s) (_byAlias s) (_byOldName s) (_byOldUnicode s)
    (_defaultUsablePrefix s) (replaced s).
Definition with_definitions (d : obj (obj icon)) (s : fa) : fa :=
  mkFA (config s) (autoFetchSvg s) (is_dom s) (styles s) (shims s) (addPack_installed s) d
    (_byUnicode s) (_byLigature s) (_byAlias s) (_byOldName s) (_byOldUnicode s)
    (_defaultUsablePrefix s) (replaced s).
Definition with_default (p : option string) (s : fa) : fa :=
  mkFA (config s) (autoFetchSvg s) (is_dom s) (styles s) (shims s) (addPack_installed s)
    (definitions s) (_byUnicode s) (_byLigature s) (_byAlias s) (_byOldName s) (_byOldUnicode s)
    p (replaced s).
Definition with_config (c : obj jsval) (s : fa) : fa :=
  mkFA c (autoFetchSvg s) (is_dom s) (styles s) (shims s) (addPack_installed s) (definitions s)
    (_byUnicode s) (_byLigature s) (_byAlias s) (_byOldName s) (_byOldUnicode s)
    (_defaultUsablePrefix s) (replaced s).
Definition with_hooks (s : fa) : fa :=
  mkFA (config s) (autoFetchSvg s) (is_dom s) (styles s) (shims s) true (definitions s)
    (_byUnicode s) (_byLigature s) (_byAlias s) (_byOldName s) (_byOldUnicode s)
    (_defaultUsablePrefix s) (replaced s).
Definition with_replaced (r : root) (s : fa) : fa :=
  mkFA (config s) (autoFetchSvg s) (is_dom s) (styles s) (shims s) (addPack_installed s)
    (definitions s) (_byUnicode s) (_byLigature s) (_byAlias s) (_byOldName s) (_byOldUnicode s)
    (_defaultUsablePrefix s) (replaced s ++ [r]).

(** * Names and prefixes *)
Definition isReserved (name : string) : bool := mem_str name RESERVED_CLASSES.

Definition DASH : ascii := chr 45.
Definition dash : string := str1 DASH.

Definition getIconName (cssPrefix : jsval) (cls : string) : option string :=
  match split_on DASH cls with
  | [] => None
  | prefix :: parts =>
      let iconName := join dash parts in
      if is_str cssPrefix prefix && negb (str_empty iconName) && negb (isReserved iconName)
      then Some iconName else None
  end.

(** [familyId]s are tried in the order of [dt]; the last one that matches wins. *)
Definition getFamilyId (c : obj jsval) (values : list string) : string :=
  let cssPrefix := to_str (config_get c "cssPrefix") in
  fold_left (fun family familyId =>
    if mem_str (cssPrefix +:+ dash +:+ familyId) values
       || existsb (fun v => mem_str v (default [] (get familyId PREFIXES_FOR_FAMILY))) values
    then familyId else family) dt "classic".

(** [family] is a string already; an [undefined] family is ["classic"]. *)
Definition getCanonicalPrefix (styles : obj (obj icon)) (styleOrPrefix : jsval) (family : string)
  : option string :=
  let key := to_str styleOrPrefix in
  let style := get key (PREFIX_TO_STYLE family) in
  if str_eqb family "duotone" && negb (truthy styleOrPrefix) then Some "fad"
  else
    let prefix := js_or (get key (STYLE_TO_PREFIX family))
                        (get (default "undefined" style) (STYLE_TO_PREFIX family)) in
    let defined := if has key styles && truthy styleOrPrefix then Some key else None in
    js_or prefix defined.

(** An [undefined] option of the configuration takes the default of the parameter. *)
Definition family_arg (v : jsval) : string :=
  match v with VUndefined => "classic" | _ => to_str v end.

Definition default_prefix (c : obj jsval) (st : obj (obj icon)) : option string :=
  getCanonicalPrefix st (config_get c "styleDefault") (family_arg (config_get c "familyDefault")).

(** * build *)
Definition lookup_table (styles : obj (obj icon)) (reducer : obj string -> icon -> string -> obj string)
  : obj (obj string) :=
  reduce styles (fun o style prefix => set prefix (reduce style reducer []) o) [].

Definition set_all (ks : list string) (v : string) (acc : obj string) : obj string :=
  fold_left (fun acc k => set k v acc) ks acc.

Definition unicode_step (acc : obj string) (i : icon) (iconName : string) : obj string :=
  let acc := if str_empty (unicode i) then acc else set (unicode i) iconName acc in
  set_all (hex_aliases (aliases i)) iconName acc.
Definition ligature_step (acc : obj string) (i : icon) (iconName : string) : obj string :=
  set_all (name_aliases (aliases i)) iconName (set iconName iconName acc).
Definition alias_step (acc : obj string) (i : icon) (iconName : string) : obj string :=
  set_all (map alias_key (aliases i)) iconName (set iconName iconName acc).

Definition shim_step (hasRegular : bool) (acc : obj iconLookup * obj iconLookup) (sh : shim)
  : obj iconLookup * obj iconLookup :=
  let prefix := if bool_decide (sh_prefix sh = Some "far") && negb hasRegular
                then Some "fas" else sh_prefix sh in
  let l := mkLookup prefix (sh_iconName sh) in
  match sh_key sh with
  | AStr n => (set n l (fst acc), snd acc)
  | ANum u => (fst acc, set (print_hex u) l (snd acc))
  end.

Definition build (s : fa) : fa :=
  let hasRegular := has "far" (styles s) || autoFetchSvg s in
  let old := fold_left (shim_step hasRegular) (shims s) ([], []) in
  mkFA (config s) (autoFetchSvg s) (is_dom s) (styles s) (shims s) (addPack_installed s)
    (definitions s)
    (lookup_table (styles s) unicode_step) (lookup_table (styles s) ligature_step)
    (lookup_table (styles s) alias_step) (fst old) (snd old)
    (default_prefix (config s) (styles s)) (replaced s).

(** The setter of a configuration key: the value, then the change callback of the
    registry. *)
Definition set_config (key : string) (val : jsval) (s : fa) : fa :=
  match config_key key with
  | None => s
  | Some _ =>
      let c := config_put (config s) key val in
      with_default (default_prefix c (styles s)) (with_config c s)
  end.

(** * Lookups *)
Definition byUnicode (s : fa) (prefix unicode : string) : option string :=
  get unicode (get_obj prefix (_byUnicode s)).
Definition byLigature (s : fa) (prefix ligature : string) : option string :=
  get ligature (get_obj prefix (_byLigature s)).
Definition byAlias (s : fa) (prefix : option string) (al : option string) : option string :=
  get (okey al) (get_obj (okey prefix) (_byAlias s)).
Definition byOldName (s : fa) (name : string) : iconLookup :=
  default null_lookup (get name (_byOldName s)).
Definition byOldUnicode (s : fa) (unicode : string) : iconLookup :=
  match get unicode (_byOldUnicode s) with
  | Some l => l
  | None =>
      match byUnicode s "fas" unicode with
      | Some n => if str_empty n then null_lookup else mkLookup (Some "fas") (Some n)
      | None => null_lookup
      end
  end.
Definition getDefaultUsablePrefix (s : fa) : option string := _defaultUsablePrefix s.

(** * From class names to an icon *)
Record canonical := mkCanonical {
  c_prefix : option string; c_iconName : option string; c_rest : list string }.
Definition emptyCanonicalIcon : canonical := mkCanonical None None [].

Definition moveNonFaClassesToRest (cssPrefix : jsval) (classNames : list string)
  : option string * list string :=
  fold_left (fun acc cls =>
    match getIconName cssPrefix cls with
    | Some n => (Some n, snd acc)
    | None => if str_empty cls then acc else (fst acc, snd acc ++ [cls])
    end) classNames (None, []).

(** Keep the first occurrence of each value. *)
Fixpoint first_occurrences (seen l : list string) : list string :=
  match l with
  | [] => []
  | v :: l => if mem_str v seen then first_occurrences seen l else v :: first_occurrences (v :: seen) l
  end.
(** [Array.prototype.sort] compares code units. *)
Definition sortedUniqueValues (arr : list string) : list string :=
  first_occurrences [] (merge_sort String.le arr).

Definition is_fa_class (cls : string) : bool := mem_str cls _faCombinedClasses.

Definition getDefaultCanonicalPrefix (s : fa) (values : list string) (family : string)
  (canon : canonical) (givenPrefix : option string) : result canonical :=
  let config_duotone := is_str (config_get (config s) "familyDefault") "duotone" in
  let valuesHasDuotone := mem_str "fa-duotone" values || mem_str "fad" values in
  let prefixIsDuotone := bool_decide (c_prefix canon = Some "fad")
                         || bool_decide (c_prefix canon = Some "fa-duotone") in
  let p1 := if negb (str_eqb family "duotone")
               && (valuesHasDuotone || config_duotone || prefixIsDuotone)
            then Some "fad" else c_prefix canon in
  let p2 := if mem_str "fa-brands" values || mem_str "fab" values then Some "fab" else p1 in
  let c2 := mkCanonical p2 (c_iconName canon) (c_rest canon) in
  let use_default :=
    negb (otruthy p2) && mem_str family newCanonicalFamilies
    && (existsb (fun key => mem_str key newCanonicalStyles && negb (str_empty key)) (keys (styles s))
        || autoFetchSvg s) in
  let c3 :=
    if use_default then
      match family_meta family with
      | None => Err "TypeError"
      | Some m =>
          let p := Some (defaultShortPrefixId m) in
          Ok (mkCanonical p (js_or (byAlias s p (c_iconName c2)) (c_iconName c2)) (c_rest c2))
      end
    else Ok c2 in
  res_map (fun c3 =>
    if bool_decide (c_prefix c3 = Some "fa") || bool_decide (givenPrefix = Some "fa")
    then mkCanonical (js_or (getDefaultUsablePrefix s) (Some "fas")) (c_iconName c3) (c_rest c3)
    else c3) c3.

Definition applyShimAndAlias (s : fa) (skipLookups : bool) (givenPrefix : option string)
  (canon : canonical) : iconLookup :=
  let prefix := c_prefix canon in
  let iconName := c_iconName canon in
  match iconName with
  | None => mkLookup prefix iconName
  | Some n =>
      if skipLookups || negb (otruthy prefix) || str_empty n then mkLookup prefix iconName
      else
        let sh := if bool_decide (givenPrefix = Some "fa") then byOldName s n else null_lookup in
        let aliasIconName := byAlias s prefix iconName in
        let iconName := js_or (js_or (l_iconName sh) aliasIconName) iconName in
        let prefix := js_or (l_prefix sh) prefix in
        let prefix :=
          if bool_decide (prefix = Some "far") && negb (has "far" (styles s))
             && has "fas" (styles s) && negb (autoFetchSvg s)
          then Some "fas" else prefix in
        mkLookup prefix iconName
  end.

Definition getCanonicalIcon (s : fa) (values : list string) (skipLookups : bool) : result canonical :=
  let faStyleOrFamilyClasses := sortedUniqueValues (List.filter is_fa_class values) in
  let nonStyleOrFamilyClasses :=
    sortedUniqueValues (List.filter (fun cls => negb (is_fa_class cls)) values) in
  let givenPrefix := last faStyleOrFamilyClasses in
  let faStyles := List.filter (fun cls => negb (mem_str cls Z_families)) faStyleOrFamilyClasses in
  let styleFromValues := match faStyles with [] => VNull | st :: _ => VStr st end in
  let family := getFamilyId (config s) faStyleOrFamilyClasses in
  let '(iconName, rest) :=
    moveNonFaClassesToRest (config_get (config s) "cssPrefix") nonStyleOrFamilyClasses in
  let canon := mkCanonical (getCanonicalPrefix (styles s) styleFromValues family) iconName rest in
  res_map (fun canon' =>
    let l := applyShimAndAlias s skipLookups givenPrefix canon' in
    mkCanonical (l_prefix l) (l_iconName l) (c_rest canon'))
    (getDefaultCanonicalPrefix s values family canon givenPrefix).

(** * Defining icons *)
Definition autoReplace (s : fa) : fa :=
  if (negb (bool_decide (keys (styles s) = [])) || autoFetchSvg s) && is_dom s
     && truthy (config_get (config s) "autoReplaceSvg")
  then with_replaced Document s else s.

Definition add_style (prefix : string) (icons : obj icon) (s : fa) : fa :=
  with_styles (set prefix (spread (spread [] (get_obj prefix (styles s))) icons) (styles s)) s.

(** The hooks [bootstrap] installs. *)
Definition addPack (prefix : string) (icons : obj icon) (s : fa) : fa :=
  autoReplace (build (add_style prefix icons s)).
Definition addPacks (packs : list (string * obj icon)) (s : fa) : fa :=
  autoReplace (build (fold_left (fun s p => add_style (fst p) (snd p) s) packs s)).
Definition addShims (l : list shim) (s : fa) : fa :=
  autoReplace (build (with_shims (shims s ++ l) s)).

(** One call of [defineIcons], without the recursive one. *)
Definition define_one (prefix : string) (icons : obj entry) (skipHooks : bool) (s : fa) : fa :=
  if addPack_installed s && negb skipHooks then addPack prefix (normalizeIcons icons) s
  else add_style prefix (normalizeIcons icons) s.
Definition defineIcons (prefix : string) (icons : obj entry) (skipHooks : bool) (s : fa) : fa :=
  let s := define_one prefix icons skipHooks s in
  if str_eqb prefix "fas" then define_one "fa" icons false s else s.

(** * The library *)
Inductive addition : Type := AddIcon (d : IconDefinition) | AddPack (pack : obj IconDefinition).

Definition add_definition (prefix name : string) (i : icon) (additions : obj (obj icon))
  : obj (obj icon) := set prefix (set name i (get_obj prefix additions)) additions.

Definition pull_one (additions : obj (obj icon)) (d : IconDefinition) : obj (obj icon) :=
  let additions := if has (d_prefix d) additions then additions else set (d_prefix d) [] additions in
  let additions := fold_left (fun acc al => add_definition (d_prefix d) al (d_icon d) acc)
                     (name_aliases (aliases (d_icon d))) additions in
  add_definition (d_prefix d) (d_iconName d) (d_icon d) additions.

(** A definition whose prefix or name is empty is taken for a pack of definitions, and
    its fields for the definitions: reading their parts throws. *)
Definition _pullDefinitions (additions : obj (obj icon)) (a : addition) : result (obj (obj icon)) :=
  match a with
  | AddIcon d =>
      if str_empty (d_prefix d) || str_empty (d_iconName d) then Err "TypeError"
      else Ok (pull_one additions d)
  | AddPack p => Ok (fold_left (fun acc kv => pull_one acc (snd kv)) p additions)
  end.

Fixpoint pull_all (additions : obj (obj icon)) (l : list addition) : result (obj (obj icon)) :=
  match l with
  | [] => Ok additions
  | a :: l => res_bind (_pullDefinitions additions a) (fun acc => pull_all acc l)
  end.

Definition add_key (additions : obj (obj icon)) (s : fa) (key : string) : fa :=
  let added := get_obj key additions in
  let defs := set key (spread (spread [] (get_obj key (definitions s))) added) (definitions s) in
  let s := with_definitions defs s in
  let s := defineIcons key (map (fun kv => (fst kv, EIcon (snd kv))) added) false s in
  let s := match get key (PREFIX_TO_LONG_STYLE "classic") with
           | Some longPrefix =>
               defineIcons longPrefix (map (fun kv => (fst kv, EIcon (snd kv))) added) false s
           | None => s
           end in
  build s.

Definition library_add (l : list addition) (s : fa) : result fa :=
  res_map (fun additions => fold_left (add_key additions) (keys additions) s) (pull_all [] l).
Definition library_reset (s : fa) : fa := with_definitions [] s.

Definition iconFromMapping (mapping : obj (obj icon)) (prefix : option string) (iconName : string)
  : option (option string * string * icon) :=
  match get (okey prefix) mapping with
  | Some m => match get iconName m with Some i => Some (prefix, iconName, i) | None => None end
  | None => None
  end.

(** [findIconDefinition], with the lookup object it writes back to. *)
Definition findIconDefinition (s : fa) (l : iconLookup)
  : option (option string * string * icon) * iconLookup :=
  let l := if bool_decide (l_prefix l = Some "fa") then mkLookup (Some "fas") (l_iconName l) else l in
  let prefix := js_or (l_prefix l) (getDefaultUsablePrefix s) in
  let found :=
    match l_iconName l with
    | None => None
    | Some n =>
        if str_empty n then None
        else
          let n := match js_or (byAlias s prefix (Some n)) (Some n) with Some n => n | None => n end in
          match iconFromMapping (definitions s) prefix n with
          | Some d => Some d
          | None => iconFromMapping (styles s) prefix n
          end
    end in
  (found, l).

(** * [parse.icon] *)
Inductive icon_spec : Type :=
  | SpecNull
  | SpecObj (prefix iconName : option string)
  | SpecArr (l : list string)
  | SpecStr (s : string).
Inductive parsed : Type := PUndefined | PNull | PIcon (l : iconLookup).

(** The alternatives of [ICON_SELECTION_SYNTAX_PATTERN] between [fa] and the separator. *)
Definition G_styles : list string :=
  ["k"; "kd"; "s"; "r"; "l"; "t"; "d"; "dr"; "dl"; "dt"; "b"; "slr"; "slpr"; "wsb"; "tl"; "ns"; "nds";
   "es"; "gt"; "jr"; "jfr"; "jdr"; "usb"; "ufsb"; "udsb"; "cr"; "ss"; "sr"; "sl"; "st"; "sds"; "sdr";
   "sdl"; "sdt"; ""].
Definition G_sep (s : string) : bool :=
  match s with String a _ => chr_eqb a DASH || chr_eqb a " "%char | EmptyString => false end.
Definition G_here (s : string) : bool :=
  match str_drop_prefix "fa" s with
  | Some r => existsb (fun p => match str_drop_prefix p r with Some r' => G_sep r' | None => false end) G_styles
  | None => false
  end.
Fixpoint matches_G (s : string) : bool :=
  G_here s || match s with EmptyString => false | String _ s' => matches_G s' end.

Definition parse_icon (s : fa) (ic : icon_spec) : result parsed :=
  match ic with
  | SpecNull => Ok PNull
  | SpecObj prefix iconName =>
      if otruthy prefix && otruthy iconName
      then Ok (PIcon (mkLookup prefix (js_or (byAlias s prefix iconName) iconName)))
      else Ok PUndefined
  | SpecArr [a; b] =>
      let iconName := default b (str_drop_prefix "fa-" b) in
      let prefix := getCanonicalPrefix (styles s) (VStr a) "classic" in
      Ok (PIcon (mkLookup prefix (js_or (byAlias s prefix (Some iconName)) (Some iconName))))
  | SpecArr _ => Ok PUndefined
  | SpecStr str =>
      if str_contains (to_str (config_get (config s) "cssPrefix") +:+ dash) str || matches_G str then
        res_map (fun c =>
          PIcon (mkLookup (js_or (c_prefix c) (getDefaultUsablePrefix s))
                          (js_or (byAlias s (c_prefix c) (c_iconName c)) (c_iconName c))))
          (getCanonicalIcon s (split_on " "%char str) true)
      else
        let prefix := getDefaultUsablePrefix s in
        Ok (PIcon (mkLookup prefix (js_or (byAlias s prefix (Some str)) (Some str))))
  end.

(** * Lookup tables *)
Lemma get_lookup_table st r p :
  NoDup (keys st) ->
  get p (lookup_table st r) = match get p st with Some style => Some (reduce style r []) | None => None end.
Proof.
  intros H. unfold lookup_table, reduce at 1.
  rewrite (get_fold_set (fun style => reduce style r []) st [] p H). by destruct (get p st).
Qed.

Lemma get_set_all ks v acc k :
  get k (set_all ks v acc) = if mem_str k ks then Some v else get k acc.
Proof.
  unfold set_all. revert acc. induction ks as [|k1 ks IH]; intros acc; cbn [fold_left mem_str]; [done|].
  rewrite IH, get_set. destruct (mem_str k ks) eqn:E; [by rewrite orb_true_r|].
  rewrite orb_false_r. destruct (str_eqb_spec k1 k) as [->|Hk].
  - by rewrite str_eqb_refl.
  - by rewrite (proj2 (str_eqb_neq k k1)) by congruence.
Qed.

(** The keys an icon answers to. *)
Definition claims (a : string) (n : string) (i : icon) : Prop :=
  a = n \/ a ∈ map alias_key (aliases i).
#[export] Instance claims_dec a n i : Decision (claims a n i).
Proof. unfold claims. apply _. Defined.

Lemma get_alias_step acc i n a :
  get a (alias_step acc i n) = if decide (claims a n i) then Some n else get a acc.
Proof.
  unfold alias_step. rewrite get_set_all, get_set.
  destruct (mem_str a (map alias_key (aliases i))) eqn:E.
  - rewrite decide_True; [done|]. right. by apply mem_str_elem.
  - apply mem_str_not_elem in E. destruct (str_eqb_spec n a) as [->|Hn].
    + by rewrite decide_True by (by left).
    + rewrite decide_False; [done|]. intros [?|?]; congruence.
Qed.

(** The last icon of the pack that claims a key has it. *)
Fixpoint claimant (a : string) (l : obj icon) : option string :=
  match l with
  | [] => None
  | (n, i) :: l =>
      match claimant a l with
      | Some n' => Some n'
      | None => if decide (claims a n i) then Some n else None
      end
  end.

Lemma get_alias_table style a : get a (reduce style alias_step []) = claimant a style.
Proof.
  assert (forall acc, get a (reduce style alias_step acc) =
    match claimant a style with Some n => Some n | None => get a acc end) as H.
  { unfold reduce. induction style as [|[n i] style IH]; intros acc; cbn [fold_left fst snd claimant];
      [done|]. rewrite IH. destruct (claimant a style); [done|]. rewrite get_alias_step.
    by destruct (decide (claims a n i)). }
  rewrite H. by destruct (claimant a style).
Qed.

Lemma claimant_Some a l n : claimant a l = Some n -> exists i, (n, i) ∈ l /\ claims a n i.
Proof.
  induction l as [|[n1 i1] l IH]; cbn; [done|]. destruct (claimant a l).
  - intros [= ->]. destruct IH as (i & ? & ?); [done|]. exists i. split; [by right|done].
  - destruct (decide (claims a n1 i1)); [|done]. intros [= ->]. exists i1. split; [by left|done].
Qed.

Lemma claimant_None a l : claimant a l = None <-> forall n i, (n, i) ∈ l -> ~ claims a n i.
Proof.
  induction l as [|[n1 i1] l IH]; cbn.
  { split; [|done]. by intros _ n i ?%elem_of_nil. }
  destruct (claimant a l) as [n|] eqn:E.
  - split; [done|]. intros H. apply claimant_Some in E as (i & ? & ?).
    destruct (H n i); [by right|done].
  - destruct (decide (claims a n1 i1)) as [Hc|Hc].
    + split; [done|]. intros H. destruct (H n1 i1); [by left|done].
    + split; [|done]. intros _ n i [[= -> ->]|Hl]%elem_of_cons; [done|].
      by apply (proj1 IH eq_refl).
Qed.

(** * States *)

(** The lookup tables are the ones [build] makes, and no key is listed twice. *)
Record coherent (s : fa) : Prop := {
  coh_build : build s = s;
  coh_styles : NoDup (keys (styles s));
  coh_packs : forall p st, get p (styles s) = Some st -> NoDup (keys st);
  coh_defs : forall p st, get p (definitions s) = Some st -> NoDup (keys st) }.

Definition packs_wf (o : obj (obj icon)) : Prop :=
  NoDup (keys o) /\ forall p st, get p o = Some st -> NoDup (keys st).

Lemma get_obj_wf (o : obj (obj icon)) p :
  (forall p st, get p o = Some st -> NoDup (keys st)) -> NoDup (keys (get_obj p o)).
Proof. intros H. unfold get_obj. destruct (get p o) eqn:E; [by eapply H|]. constructor. Qed.

Lemma packs_wf_set o p st : packs_wf o -> NoDup (keys st) -> packs_wf (set p st o).
Proof.
  intros [Hk Hp] Hs. split; [by apply NoDup_set|]. intros q st'. rewrite get_set.
  destruct (str_eqb p q); [by intros [= <-]|apply Hp].
Qed.

Lemma build_idem s : build (build s) = build s.
Proof. by destruct s. Qed.

Lemma build_coherent s :
  packs_wf (styles s) -> packs_wf (definitions s) -> coherent (build s).
Proof. intros [? ?] [? ?]. split; cbn; [apply build_idem|done..]. Qed.

(** What the operations keep, before the final [build]. *)
Definition wf (s : fa) : Prop := packs_wf (styles s) /\ packs_wf (definitions s).

Lemma wf_add_style p icons s : wf s -> wf (add_style p icons s).
Proof.
  intros [Hs Hd]. split; [|done]. apply packs_wf_set; [done|].
  apply NoDup_spread, NoDup_spread. constructor.
Qed.
Lemma wf_build s : wf s -> wf (build s).
Proof. done. Qed.
Lemma wf_autoReplace s : wf s -> wf (autoReplace s).
Proof. unfold autoReplace. intros H. by case_match. Qed.
Lemma wf_define_one p icons h s : wf s -> wf (define_one p icons h s).
Proof.
  intros H. unfold define_one, addPack. case_match; [|by apply wf_add_style].
  apply wf_autoReplace, wf_build, wf_add_style, H.
Qed.
Lemma wf_defineIcons p icons h s : wf s -> wf (defineIcons p icons h s).
Proof. intros H. unfold defineIcons. case_match; auto using wf_define_one. Qed.
Lemma wf_add_key additions s k : wf s -> wf (add_key additions s k).
Proof.
  intros [Hs Hd]. unfold add_key. apply wf_build.
  assert (wf (with_definitions
    (set k (spread (spread [] (get_obj k (definitions s))) (get_obj k additions)) (definitions s)) s)) as H.
  { split; [done|]. apply packs_wf_set; [done|]. apply NoDup_spread, NoDup_spread. constructor. }
  case_match; auto using wf_defineIcons.
Qed.
#[export] Hint Resolve wf_add_style wf_build wf_autoReplace wf_define_one wf_defineIcons
  wf_add_key : registry.

Lemma build_autoReplace s : build s = s -> build (autoReplace s) = autoReplace s.
Proof. unfold autoReplace. intros H. case_match; [|done]. 
  destruct s. unfold build, with_replaced in *. cbn in *. injection H. intros. congruence.
Qed.

(** * Runs of the registry *)

(** The state after the script has run; icon packs loaded before it are in [st]. *)
Definition init_fa (c : obj jsval) (af dom : bool) (st : obj (obj icon)) (sh : list shim)
  (hooked : bool) : fa :=
  build (mkFA c af dom st sh hooked [] [] [] [] [] [] None []).

(** What the page can do with the registry afterwards. *)
Inductive fa_step (s : fa) : fa -> Prop :=
  | step_add l s' : library_add l s = Ok s' -> fa_step s s'
  | step_reset : fa_step s (library_reset s)
  | step_config key val : fa_step s (set_config key val s)
  | step_bootstrap : fa_step s (with_hooks s)
  | step_addPack prefix icons : fa_step s (addPack prefix icons s)
  | step_addPacks packs : fa_step s (addPacks packs s)
  | step_addShims l : fa_step s (addShims l s).

Definition started (s0 : fa) : Prop :=
  exists c af dom st sh hooked, packs_wf st /\ s0 = init_fa c af dom st sh hooked.
Definition reachable (s : fa) : Prop := exists s0, started s0 /\ rtc fa_step s0 s.

Definition ok_state (s : fa) : Prop := build s = s /\ wf s.

(** A change of parts [build] reads nothing from. *)
Ltac same_tables H :=
  unfold library_reset, build, with_hooks, with_definitions, with_replaced in *; cbn in *;
  injection H; intros; congruence.

Lemma fold_add_key_ok additions ks s : ok_state s -> ok_state (fold_left (add_key additions) ks s).
Proof.
  revert s. induction ks as [|k ks IH]; intros s [Hb Hw]; cbn [fold_left]; [done|].
  apply IH. split; [apply build_idem|by apply wf_add_key].
Qed.

Lemma wf_fold_add_style packs s :
  wf s -> wf (fold_left (fun s p => add_style (fst p) (snd p) s) packs s).
Proof. revert s. induction packs; cbn [fold_left]; auto with registry. Qed.

Lemma autoReplace_ok s : build s = s -> wf s -> ok_state (autoReplace s).
Proof. intros Hb Hw. split; [by apply build_autoReplace|by apply wf_autoReplace]. Qed.

Lemma set_config_ok key val s : ok_state s -> ok_state (set_config key val s).
Proof.
  intros [Hb Hw]. unfold set_config. destruct (config_key key); [|done].
  split; [|done]. destruct s. unfold build, with_default, with_config in *. cbn in *.
  injection Hb. intros. congruence.
Qed.

Lemma fa_step_ok s s' : fa_step s s' -> ok_state s -> ok_state s'.
Proof.
  intros Hs [Hb Hw]. destruct Hs as [l s' Hl| | | |p icons|packs|l].
  - unfold library_add in Hl. destruct (pull_all [] l) as [additions|]; [|done].
    injection Hl as <-. by apply fold_add_key_ok.
  - split; [destruct s; same_tables Hb|]. split; [apply Hw|]. split; [constructor|]. cbn. done.
  - by apply set_config_ok.
  - split; [destruct s; same_tables Hb|done].
  - apply autoReplace_ok; auto using build_idem, wf_build, wf_add_style.
  - apply autoReplace_ok; auto using build_idem, wf_build, wf_fold_add_style.
  - apply autoReplace_ok; auto using build_idem, wf_build.
Qed.

Lemma reachable_ok s : reachable s -> ok_state s.
Proof.
  intros (s0 & (c & af & dom & st & sh & hk & Hst & ->) & Hr).
  assert (ok_state (init_fa c af dom st sh hk)) as H0.
  { split; [apply build_idem|]. split; [done|]. split; [constructor|]. cbn. done. }
  revert H0. induction Hr as [|s1 s2 s3 Hs _ IH]; [done|]. intros H. eauto using fa_step_ok.
Qed.

Lemma byAlias_claimant s p a :
  ok_state s -> byAlias s (Some p) (Some a) = claimant a (get_obj p (styles s)).
Proof.
  intros [Hb [[Hk _] _]].
  assert (_byAlias s = lookup_table (styles s) alias_step) as E by (by rewrite <- Hb at 1).
  unfold byAlias, okey, get_obj. cbn [from_option id]. rewrite E, get_lookup_table by done.
  destruct (get p (styles s)); [apply get_alias_table|done].
Qed.

(** C17: whatever the page does with the registry (adding icons one by one or in packs,
    shims, changing settings, resetting the library), the lookup tables are always the
    ones [build] would make: no operation leaves them stale. *)
Theorem tables_never_stale s : reachable s -> build s = s.
Proof. intros H. apply (reachable_ok s H). Qed.

(** C12: alias lookup is sound and complete: what [byAlias] answers is the name of an icon
    of the pack that has the alias, and every name and alias of an icon of the pack
    gets an answer. *)
Theorem byAlias_correct s p a :
  reachable s ->
  (forall n, byAlias s (Some p) (Some a) = Some n ->
     exists i, get n (get_obj p (styles s)) = Some i /\ claims a n i)
  /\ (forall n i, get n (get_obj p (styles s)) = Some i -> claims a n i ->
     exists n', byAlias s (Some p) (Some a) = Some n').
Proof.
  intros Hr. pose proof (reachable_ok s Hr) as Hok. rewrite byAlias_claimant by done.
  assert (NoDup (keys (get_obj p (styles s)))) as Hd by (apply get_obj_wf, Hok).
  split.
  - intros n (i & Hi & Hc)%claimant_Some. exists i. split; [by apply elem_get|done].
  - intros n i Hi Hc. destruct (claimant a (get_obj p (styles s))) as [n'|] eqn:E; [eauto|].
    destruct (proj1 (claimant_None _ _) E n i); [by apply get_Some_elem|done].
Qed.

(** * Class names *)
Lemma join_cons_dash p ps : join dash (p :: ps) = p +:+ match ps with [] => "" | _ => dash +:+ join dash ps end.
Proof. destruct ps; [by rewrite str_app_nil_r|done]. Qed.

Lemma getIconName_app cssPrefix n :
  str_mem_chr DASH cssPrefix = false -> n <> "" -> n ∉ RESERVED_CLASSES ->
  getIconName (VStr cssPrefix) (cssPrefix +:+ dash +:+ n) = Some n.
Proof.
  intros Hp Hn Hr. unfold getIconName, is_str, isReserved, dash at 1. rewrite split_on_app by done.
  rewrite bool_decide_eq_true_2 by done. cbn [andb].
  unfold dash. rewrite join_split_on. unfold str_empty.
  rewrite (proj2 (str_eqb_neq n "") Hn), (proj2 (mem_str_not_elem n _) Hr). done.
Qed.

(** An icon class is the prefix, a dash and the name: [getIconName] finds exactly
    the names that are not empty and not reserved for styles, sizes and animations. *)
Theorem getIconName_spec cssPrefix cls n :
  str_mem_chr DASH cssPrefix = false ->
  getIconName (VStr cssPrefix) cls = Some n <->
  cls = cssPrefix +:+ dash +:+ n /\ n <> "" /\ n ∉ RESERVED_CLASSES.
Proof.
  intros Hp. split.
  - unfold getIconName, is_str, isReserved. pose proof (join_split_on DASH cls) as Hj. fold dash in Hj.
    destruct (split_on DASH cls) as [|q ps]; [done|].
    case_bool_decide as Hq; [|done]. injection Hq as <-. cbn [andb].
    destruct (str_eqb_spec (join dash ps) "") as [E|E]; unfold str_empty;
      [by rewrite E|]. rewrite (proj2 (str_eqb_neq _ _) E). cbn [negb andb].
    destruct (mem_str (join dash ps) RESERVED_CLASSES) eqn:Er; cbn [negb]; [done|].
    intros [= <-]. split_and!; [|done|exact (proj1 (mem_str_not_elem _ _) Er)].
    rewrite <- Hj, join_cons_dash. by destruct ps.
  - intros (-> & Hn & Hr). by apply getIconName_app.
Qed.

Lemma elem_of_first_occurrences x seen l :
  x ∈ first_occurrences seen l <-> x ∈ l /\ x ∉ seen.
Proof.
  revert seen. induction l as [|v l IH]; intros seen; cbn [first_occurrences].
  { split; [by intros ?%elem_of_nil|by intros [?%elem_of_nil _]]. }
  destruct (mem_str v seen) eqn:E.
  - apply mem_str_elem in E. rewrite IH, elem_of_cons. naive_solver.
  - apply mem_str_not_elem in E. rewrite !elem_of_cons, IH, not_elem_of_cons.
    destruct (decide (x = v)); naive_solver.
Qed.

Lemma NoDup_first_occurrences seen l : NoDup (first_occurrences seen l).
Proof.
  revert seen. induction l as [|v l IH]; intros seen; cbn [first_occurrences]; [constructor|].
  case_match; [done|]. constructor; [|done]. rewrite elem_of_first_occurrences, elem_of_cons. naive_solver.
Qed.

Lemma sorted_first_occurrences seen l :
  StronglySorted String.le l -> StronglySorted String.le (first_occurrences seen l).
Proof.
  intros H. revert seen. induction H as [|v l Hs IH Hf]; intros seen; cbn [first_occurrences];
    [constructor|]. case_match; [done|]. constructor; [done|].
  rewrite Forall_forall in *. intros x [Hx _]%elem_of_first_occurrences. auto.
Qed.

Lemma elem_of_sortedUnique x l : x ∈ sortedUniqueValues l <-> x ∈ l.
Proof.
  unfold sortedUniqueValues. rewrite elem_of_first_occurrences, merge_sort_Permutation.
  split; [naive_solver|]. intros H. split; [done|]. by intros ?%elem_of_nil.
Qed.

(** Sorting without repetition sees only which values there are. *)
Lemma sortedUnique_ext l1 l2 :
  (forall x, x ∈ l1 <-> x ∈ l2) -> sortedUniqueValues l1 = sortedUniqueValues l2.
Proof.
  intros H. apply (StronglySorted_unique String.le).
  - apply sorted_first_occurrences, Sorted_StronglySorted, Sorted_merge_sort; apply _.
  - apply sorted_first_occurrences, Sorted_StronglySorted, Sorted_merge_sort; apply _.
  - apply NoDup_Permutation; [apply NoDup_first_occurrences..|].
    intros x. by rewrite !elem_of_sortedUnique.
Qed.

Lemma mem_str_ext x l1 l2 : (forall x, x ∈ l1 <-> x ∈ l2) -> mem_str x l1 = mem_str x l2.
Proof.
  intros H. apply eq_true_iff_eq. rewrite !mem_str_elem. apply H.
Qed.

Lemma elem_of_filter_bool (P : string -> bool) l x :
  x ∈ List.filter P l <-> x ∈ l /\ P x = true.
Proof. rewrite !list_elem_of_In. apply filter_In. Qed.

(** C32: the icon an element shows depends only on the set of its classes: neither their
    order nor repetitions matter. *)
Theorem classes_order_irrelevant s v1 v2 skipLookups :
  (forall x, x ∈ v1 <-> x ∈ v2) ->
  getCanonicalIcon s v1 skipLookups = getCanonicalIcon s v2 skipLookups.
Proof.
  intros H. unfold getCanonicalIcon.
  rewrite (sortedUnique_ext (List.filter is_fa_class v1) (List.filter is_fa_class v2))
    by (intros x; rewrite !elem_of_filter_bool; naive_solver).
  rewrite (sortedUnique_ext (List.filter (fun cls => negb (is_fa_class cls)) v1)
             (List.filter (fun cls => negb (is_fa_class cls)) v2))
    by (intros x; rewrite !elem_of_filter_bool; naive_solver).
  unfold getDefaultCanonicalPrefix. by rewrite !(fun x => mem_str_ext x v1 v2 H).
Qed.

Lemma getFamilyId_dt c values : getFamilyId c values ∈ dt.
Proof.
  unfold getFamilyId.
  assert (forall P l f, f ∈ dt -> (forall x, x ∈ l -> x ∈ dt) ->
    fold_left (fun family familyId : string => if P familyId : bool then familyId else family) l f ∈ dt)
    as K.
  { intros P l. induction l as [|a l IH]; intros f Hf Hl; cbn [fold_left]; [done|].
    apply IH; [|intros x Hx; apply Hl; by right]. case_match; [apply Hl; by left|done]. }
  apply (K (fun familyId => _)); [|done]. by_decide.
Qed.

Lemma family_meta_dt f : f ∈ dt -> exists m, family_meta f = Some m.
Proof.
  intros H. apply has_get.
  assert (forallb (fun f => has f Et) dt = true) as Ha by (vm_compute; reflexivity).
  rewrite forallb_forall in Ha. apply Ha. by apply (proj1 (list_elem_of_In _ _)).
Qed.

Lemma getDefault_total s values family canon given :
  family ∈ dt -> exists c, getDefaultCanonicalPrefix s values family canon given = Ok c.
Proof.
  intros [m Hm]%family_meta_dt. unfold getDefaultCanonicalPrefix. cbv zeta. rewrite Hm.
  match goal with |- context [if ?b then Ok _ else Ok _] => destruct b end;
    eexists; reflexivity.
Qed.

Lemma getCanonicalIcon_ok s values skipLookups :
  exists c, getCanonicalIcon s values skipLookups = Ok c.
Proof.
  unfold getCanonicalIcon. cbv zeta. destruct (moveNonFaClassesToRest _ _) as [iconName rest].
  match goal with |- context [getDefaultCanonicalPrefix s values ?f ?c ?g] =>
    destruct (getDefault_total s values f c g (getFamilyId_dt _ _)) as [c' E]; rewrite E
  end.
  eexists. reflexivity.
Qed.

(** Resolving class names never throws, whatever the classes, the settings and the
    packs are: every family the classes can select has metadata. *)
Theorem getCanonicalIcon_total s values skipLookups :
  exists c, getCanonicalIcon s values skipLookups = Ok c.
Proof. apply getCanonicalIcon_ok. Qed.

(** ** The words of the class vocabulary *)

(** A name an icon class can carry: no name of a style, size or animation. *)
Definition icon_word (n : string) : Prop :=
  n <> "" /\ n ∉ RESERVED_CLASSES /\ n <> "kit-duotone".
Definition icon_class (n : string) : string := "fa" +:+ dash +:+ n.

Lemma icon_class_not_fa n : icon_word n -> is_fa_class (icon_class n) = false.
Proof.
  intros (_ & Hr & Hk). unfold is_fa_class. apply mem_str_not_elem. intros Hin.
  assert (forallb (fun c => match str_drop_prefix "fa-" c with
    | Some r => isReserved r || str_eqb r "kit-duotone" | None => true end) _faCombinedClasses = true)
    as Ha by (vm_compute; reflexivity).
  rewrite forallb_forall in Ha. specialize (Ha _ (proj1 (list_elem_of_In _ _) Hin)).
  rewrite (str_drop_prefix_app "fa-" n : str_drop_prefix "fa-" (icon_class n) = Some n) in Ha.
  apply orb_true_iff in Ha as [H%mem_str_elem|H%str_eqb_eq]; congruence.
Qed.

Lemma mem_str_app x l1 l2 : mem_str x (l1 ++ l2) = mem_str x l1 || mem_str x l2.
Proof. induction l1 as [|y l1 IH]; cbn; [done|]. by rewrite IH, orb_assoc. Qed.

Lemma mem_fa_class_app x vs n :
  icon_word n -> is_fa_class x = true -> mem_str x (vs ++ [icon_class n]) = mem_str x vs.
Proof.
  intros Hn Hx. rewrite mem_str_app. cbn [mem_str]. rewrite orb_false_r.
  destruct (str_eqb_spec x (icon_class n)) as [->|]; [by rewrite icon_class_not_fa in Hx|].
  apply orb_false_r.
Qed.

Definition fa_config : obj jsval := [("cssPrefix", VStr "fa")].

(** The style and family words [vs] select the family [f] and the prefix [p]. *)
Definition words_ok (f p : string) (vs : list string) : bool :=
  let cls := sortedUniqueValues vs in
  forallb is_fa_class vs
  && negb (bool_decide (last cls = Some "fa"))
  && match List.filter (fun c => negb (mem_str c Z_families)) cls with
     | [] => false
     | st :: _ => bool_decide (getCanonicalPrefix [] (VStr st) f = Some p)
     end
  && str_eqb (getFamilyId fa_config cls) f
  && (str_eqb f "duotone" || negb (mem_str "fa-duotone" vs || mem_str "fad" vs))
  && (str_eqb p "fab" || negb (mem_str "fa-brands" vs || mem_str "fab" vs))
  && negb (mem_str p [""; "fa"; "fad"; "fa-duotone"]).

Lemma getCanonicalPrefix_styles st v f p :
  p <> "" -> getCanonicalPrefix [] v f = Some p -> getCanonicalPrefix st v f = Some p.
Proof.
  intros Hp. unfold getCanonicalPrefix. cbv zeta. destruct (str_eqb f "duotone" && _); [done|].
  cbn [has get andb]. generalize (js_or (get (to_str v) (STYLE_TO_PREFIX f))
    (get (default "undefined" (get (to_str v) (PREFIX_TO_STYLE f))) (STYLE_TO_PREFIX f))).
  intros [q|]; cbn; [|done]. by destruct (str_empty q).
Qed.

Lemma filter_all {A} (P : A -> bool) l : forallb P l = true -> List.filter P l = l.
Proof. induction l as [|a l IH]; cbn; [done|]. intros [-> H]%andb_true_iff. by rewrite IH. Qed.
Lemma filter_none {A} (P : A -> bool) l : forallb P l = true -> List.filter (fun a => negb (P a)) l = [].
Proof. induction l as [|a l IH]; cbn; [done|]. intros [-> H]%andb_true_iff. by rewrite IH. Qed.

Lemma getFamilyId_config c vs :
  config_get c "cssPrefix" = VStr "fa" -> getFamilyId c vs = getFamilyId fa_config vs.
Proof. unfold getFamilyId. by intros ->. Qed.

Lemma default_prefix_keeps s vs f p given n :
  is_str (config_get (config s) "familyDefault") "duotone" = false ->
  words_ok f p vs = true -> icon_word n -> given <> Some "fa" ->
  let canon := mkCanonical (Some p) (Some n) [] in
  getDefaultCanonicalPrefix s (vs ++ [icon_class n]) f canon given = Ok canon.
Proof.
  intros Hd Hw Hn Hg canon. unfold getDefaultCanonicalPrefix. cbv zeta.
  rewrite !mem_fa_class_app by (done || vm_compute; reflexivity). rewrite Hd, orb_false_r.
  unfold words_ok in Hw. rewrite !andb_true_iff in Hw. destruct Hw as [[[_ Hdu] Hbr] Hp].
  cbn in Hp. rewrite !negb_true_iff, !orb_false_iff, !str_eqb_neq in Hp.
  destruct Hp as (Hp1 & Hp2 & Hp3 & Hp4 & _). subst canon. cbn [c_prefix].
  rewrite (bool_decide_eq_false_2 (Some p = Some "fad")) by congruence.
  rewrite (bool_decide_eq_false_2 (Some p = Some "fa-duotone")) by congruence.
  rewrite orb_false_r.
  assert (negb (str_eqb f "duotone") && (mem_str "fa-duotone" vs || mem_str "fad" vs) = false) as ->.
  { apply orb_true_iff in Hdu as [->|Hdu]; [done|]. apply negb_true_iff in Hdu. rewrite Hdu.
    apply andb_false_r. }
  assert ((if mem_str "fa-brands" vs || mem_str "fab" vs then Some "fab" else Some p) = Some p) as ->.
  { apply orb_true_iff in Hbr as [->%str_eqb_eq|Hbr]; [by case_match|].
    apply negb_true_iff in Hbr. by rewrite Hbr. }
  cbn [otruthy]. unfold str_empty. rewrite (proj2 (str_eqb_neq p "") Hp1). cbn [negb andb res_map].
  cbn [c_prefix]. rewrite (bool_decide_eq_false_2 (Some p = Some "fa")) by congruence.
  by rewrite (bool_decide_eq_false_2 (given = Some "fa")).
Qed.

Lemma shim_only_for_fa s skip given c :
  given <> Some "fa" -> applyShimAndAlias s skip given c = applyShimAndAlias s skip None c.
Proof. intros H. unfold applyShimAndAlias. by rewrite (bool_decide_eq_false_2 _ H). Qed.

(** The icon of the words [vs] and the icon class of [n]. *)
Definition icon_of_words (s : fa) (skip : bool) (p n : string) : result canonical :=
  let l := applyShimAndAlias s skip None (mkCanonical (Some p) (Some n) []) in
  Ok (mkCanonical (l_prefix l) (l_iconName l) []).

Lemma canonical_of_words s vs f p n skip :
  config_get (config s) "cssPrefix" = VStr "fa" ->
  is_str (config_get (config s) "familyDefault") "duotone" = false ->
  words_ok f p vs = true -> icon_word n ->
  getCanonicalIcon s (vs ++ [icon_class n]) skip = icon_of_words s skip p n.
Proof.
  intros Hc Hd Hw Hn. pose proof Hw as Hw'. unfold words_ok in Hw'.
  rewrite !andb_true_iff in Hw'. destruct Hw' as [[[[[[Hfa Hl] Hst] Hf%str_eqb_eq] _] _] Hp].
  apply negb_true_iff, bool_decide_eq_false in Hl.
  apply negb_true_iff, mem_str_not_elem in Hp. apply not_elem_of_cons in Hp as [Hp _].
  unfold getCanonicalIcon. rewrite !List.filter_app, (filter_all is_fa_class vs Hfa), (filter_none is_fa_class vs Hfa).
  cbn [List.filter]. rewrite icon_class_not_fa by done. cbn [negb app]. rewrite app_nil_r.
  change (sortedUniqueValues [icon_class n]) with [icon_class n].
  rewrite Hc, (getFamilyId_config _ _ Hc), Hf. cbn [moveNonFaClassesToRest fold_left].
  destruct Hn as (Hn1 & Hn2 & Hn3).
  rewrite (getIconName_app "fa" n eq_refl Hn1 Hn2 : getIconName (VStr "fa") (icon_class n) = Some n).
  cbn [snd]. destruct (List.filter _ (sortedUniqueValues vs)) as [|st l]; [done|].
  apply bool_decide_eq_true in Hst. rewrite (getCanonicalPrefix_styles _ _ _ _ Hp Hst).
  rewrite default_prefix_keeps by done. cbn [res_map c_rest]. by rewrite shim_only_for_fa.
Qed.

(** C26: the short class of a style and the pair of long classes mean the same: for every
    family and style of the tables, [far fa-x] and [fa-classic fa-regular fa-x] resolve
    to the same prefix and icon, namely that of the short class.  The prefix [fad] is
    the exception: it stands in the classic table but selects the duotone family. *)
Theorem short_and_long_classes_agree s f p l n skip :
  config_get (config s) "cssPrefix" = VStr "fa" ->
  config_get (config s) "familyDefault" <> VStr "duotone" ->
  get p (get_obj f _PREFIX_TO_LONG_STYLE) = Some l -> p <> "fad" -> icon_word n ->
  getCanonicalIcon s [p; icon_class n] skip = icon_of_words s skip p n
  /\ getCanonicalIcon s ["fa" +:+ dash +:+ f; l; icon_class n] skip = icon_of_words s skip p n.
Proof.
  intros Hc Hd Hg Hp Hn.
  by_entries _PREFIX_TO_LONG_STYLE (fun f p l => str_eqb p "fad"
    || words_ok f p [p] && words_ok f p ["fa" +:+ dash +:+ f; l]) Hg H.
  rewrite (proj2 (str_eqb_neq _ _) Hp) in H. apply andb_true_iff in H as [H1 H2].
  assert (is_str (config_get (config s) "familyDefault") "duotone" = false) as Hd'
    by (by apply bool_decide_eq_false).
  split.
  - exact (canonical_of_words s [p] f p n skip Hc Hd' H1 Hn).
  - exact (canonical_of_words s ["fa" +:+ dash +:+ f; l] f p n skip Hc Hd' H2 Hn).
Qed.

(** * Adding to the library and finding again *)
Lemma styles_autoReplace s : styles (autoReplace s) = styles s.
Proof. unfold autoReplace. by case_match. Qed.
Lemma definitions_autoReplace s : definitions (autoReplace s) = definitions s.
Proof. unfold autoReplace. by case_match. Qed.

Lemma styles_define_one p icons h s :
  styles (define_one p icons h s) =
  set p (spread (spread [] (get_obj p (styles s))) (normalizeIcons icons)) (styles s).
Proof. unfold define_one, addPack. case_match; [by rewrite styles_autoReplace|done]. Qed.
Lemma definitions_define_one p icons h s : definitions (define_one p icons h s) = definitions s.
Proof. unfold define_one, addPack. case_match; [by rewrite definitions_autoReplace|done]. Qed.
#[local] Hint Rewrite styles_define_one definitions_define_one : registry.

Lemma definitions_defineIcons p icons h s : definitions (defineIcons p icons h s) = definitions s.
Proof. unfold defineIcons. case_match; by autorewrite with registry. Qed.

Lemma get_styles_defineIcons q p icons h s :
  q <> "fa" ->
  get q (styles (defineIcons p icons h s)) =
  if str_eqb p q then Some (spread (spread [] (get_obj p (styles s))) (normalizeIcons icons))
  else get q (styles s).
Proof.
  intros Hq. unfold defineIcons. destruct (str_eqb p "fas"); autorewrite with registry; rewrite ?get_set.
  - by rewrite (proj2 (str_eqb_neq "fa" q)) by congruence.
  - done.
Qed.

Definition plain (o : obj icon) : obj entry := map (fun kv => (fst kv, EIcon (snd kv))) o.

Lemma get_normalize_plain o k : NoDup (keys o) -> get k (normalizeIcons (plain o)) = get k o.
Proof.
  intros H. unfold normalizeIcons, reduce, plain.
  transitivity (get k (fold_left (fun acc kv => set (fst kv) (id (snd kv)) acc) o [])).
  - f_equal. generalize (@nil (string * icon)). clear H.
    induction o as [|[n i] o IH]; intros acc; cbn; [done|]. apply IH.
  - rewrite get_fold_set by done. by destruct (get k o).
Qed.

Lemma NoDup_normalize icons : NoDup (keys (normalizeIcons icons)).
Proof.
  unfold normalizeIcons, reduce.
  assert (forall acc, NoDup (keys acc) -> NoDup (keys (fold_left
    (fun acc kv => normalize_step acc (fst kv) (snd kv)) icons acc))) as H; [|by apply H; constructor].
  induction icons as [|[n e] icons IH]; intros acc Ha; cbn [fold_left fst snd]; [done|].
  apply IH. destruct e; by apply NoDup_set.
Qed.

(** The names a definition is entered under. *)
Definition names (d : IconDefinition) : list string := name_aliases (aliases (d_icon d)) ++ [d_iconName d].

Lemma pull_one_nil d :
  pull_one [] d = [(d_prefix d, fold_left (fun o n => set n (d_icon d) o) (names d) [])].
Proof.
  unfold pull_one, names. cbn [has get]. unfold set at 1. cbn [has get].
  unfold insert_key. rewrite fold_left_app. cbn [fold_left].
  assert (forall l o, fold_left (fun acc al => add_definition (d_prefix d) al (d_icon d) acc) l
    [(d_prefix d, o)] = [(d_prefix d, fold_left (fun o n => set n (d_icon d) o) l o)]) as ->.
  { induction l as [|n l IH]; intros o; cbn [fold_left]; [done|]. rewrite <- IH. f_equal.
    unfold add_definition, get_obj, set at 1, has. cbn [get replace_key]. by rewrite str_eqb_refl. }
  unfold add_definition, get_obj, set at 1, has. cbn [get replace_key]. by rewrite str_eqb_refl.
Qed.

Lemma get_fold_names (l : list string) (i : icon) o k :
  get k (fold_left (fun o n => set n i o) l o) = if mem_str k l then Some i else get k o.
Proof.
  revert o. induction l as [|n l IH]; intros o; cbn [fold_left mem_str]; [done|].
  rewrite IH, get_set. destruct (mem_str k l); [by rewrite orb_true_r|]. rewrite orb_false_r.
  destruct (str_eqb_spec n k) as [->|]; [by rewrite str_eqb_refl|].
  by rewrite (proj2 (str_eqb_neq k n)) by congruence.
Qed.

Lemma NoDup_fold_names (l : list string) (i : icon) o :
  NoDup (keys o) -> NoDup (keys (fold_left (fun o n => set n i o) l o)).
Proof. revert o. induction l as [|n l IH]; intros o H; cbn [fold_left]; [done|]. by apply IH, NoDup_set. Qed.

Lemma long_prefix_ne p lp : get p (PREFIX_TO_LONG_STYLE "classic") = Some lp -> lp <> p.
Proof.
  assert (PREFIX_TO_LONG_STYLE "classic" = get_obj "classic" _PREFIX_TO_LONG_STYLE) as ->
    by (apply familyProxy_known; vm_compute; reflexivity).
  intros Hg. by_entries _PREFIX_TO_LONG_STYLE (fun (_ p lp : string) => negb (str_eqb lp p)) Hg H.
  by apply negb_true_iff, str_eqb_neq in H.
Qed.

Lemma get_after_add d s n :
  wf s -> d_prefix d <> "fa" ->
  let s' := add_key (pull_one [] d) s (d_prefix d) in
  get n (get_obj (d_prefix d) (styles s')) =
    (if mem_str n (names d) then Some (d_icon d) else get n (get_obj (d_prefix d) (styles s)))
  /\ get n (get_obj (d_prefix d) (definitions s')) =
    (if mem_str n (names d) then Some (d_icon d) else get n (get_obj (d_prefix d) (definitions s))).
Proof.
  intros [[_ Hs] [_ Hd]] Hp. cbn zeta. unfold add_key. rewrite pull_one_nil.
  set (o := fold_left (fun o n => set n (d_icon d) o) (names d) []).
  assert (get_obj (d_prefix d) [(d_prefix d, o)] = o) as -> by (unfold get_obj; cbn; by rewrite str_eqb_refl).
  assert (NoDup (keys o)) as Ho by (apply NoDup_fold_names; constructor).
  assert (forall n, get n o = if mem_str n (names d) then Some (d_icon d) else None) as Hgo
    by (intros n'; apply get_fold_names).
  assert (forall old, NoDup (keys old) -> get n (spread (spread [] old) o) =
    if mem_str n (names d) then Some (d_icon d) else get n old) as Hspread.
  { intros old Hold. rewrite !get_spread, Hgo by done. destruct (mem_str n (names d)); [done|].
    by destruct (get n old). }
  fold (plain o). set (s1 := with_definitions _ s). cbn [build styles definitions].
  set (s2 := match get (d_prefix d) (PREFIX_TO_LONG_STYLE "classic") with Some _ => _ | None => _ end).
  assert (get (d_prefix d) (styles s2) =
    Some (spread (spread [] (get_obj (d_prefix d) (styles s))) (normalizeIcons (plain o)))) as E1.
  { subst s2. destruct (get (d_prefix d) (PREFIX_TO_LONG_STYLE "classic")) as [lp|] eqn:El.
    - apply long_prefix_ne in El. rewrite get_styles_defineIcons by done.
      rewrite (proj2 (str_eqb_neq _ _) El), get_styles_defineIcons by done. by rewrite str_eqb_refl.
    - rewrite get_styles_defineIcons by done. by rewrite str_eqb_refl. }
  assert (definitions s2 = definitions s1) as E2.
  { subst s2. case_match; by rewrite !definitions_defineIcons. }
  unfold get_obj at 1 3. rewrite E1, E2. cbn [from_option id]. split.
  - rewrite get_spread by apply NoDup_normalize. rewrite get_normalize_plain, Hgo by done.
    destruct (mem_str n (names d)); [done|]. rewrite get_spread by (by apply get_obj_wf).
    by destruct (get n _).
  - subst s1. cbn [with_definitions definitions]. rewrite get_set_eq. cbn [from_option id].
    apply Hspread. by apply get_obj_wf.
Qed.

(** C23: what is added to the library is found again: after [library.add(d)] a search for
    the name of [d], or for one of its named aliases, returns the icon of [d], provided
    no other icon of the pack lays claim to that word. *)
Theorem library_add_find s s' d q :
  reachable s -> library_add [AddIcon d] s = Ok s' -> d_prefix d <> "fa" -> q <> "" ->
  q ∈ names d ->
  (forall n i, get n (get_obj (d_prefix d) (styles s)) = Some i -> n ∉ names d -> ~ claims q n i) ->
  exists n, fst (findIconDefinition s' (mkLookup (Some (d_prefix d)) (Some q)))
            = Some (Some (d_prefix d), n, d_icon d).
Proof.
  intros Hr Ha Hp Hq Hn Hother.
  pose proof (fa_step_ok _ _ (step_add _ _ _ Ha) (reachable_ok s Hr)) as Hok'.
  unfold library_add in Ha. cbn [pull_all _pullDefinitions] in Ha.
  destruct (str_empty (d_prefix d)) eqn:Ee; [done|].
  destruct (str_empty (d_iconName d)); [done|]. cbn [orb res_bind res_map] in Ha.
  rewrite (pull_one_nil d : _ = [(d_prefix d, _)]) in Ha at 2. cbn [keys fmap list_fmap fst fold_left] in Ha.
  injection Ha as <-. set (s' := add_key _ s _) in *.
  assert (forall n, _ /\ _) as Hget by (intros n; exact (get_after_add d s n (proj2 (reachable_ok s Hr)) Hp)).
  cbn zeta in Hget. fold s' in Hget.
  assert (exists n, claimant q (get_obj (d_prefix d) (styles s')) = Some n /\ n ∈ names d) as (n & Hc & Hin).
  { destruct (claimant q (get_obj (d_prefix d) (styles s'))) as [n|] eqn:E.
    - exists n. split; [done|]. apply claimant_Some in E as (i & Hi & Hcl).
      apply elem_get in Hi; [|apply get_obj_wf, Hok']. rewrite (proj1 (Hget n)) in Hi.
      destruct (mem_str n (names d)) eqn:Em; [by apply mem_str_elem|].
      apply mem_str_not_elem in Em. by destruct (Hother n i Hi Em).
    - pose proof (proj1 (claimant_None _ _) E q (d_icon d)) as Hno.
      destruct Hno; [|by left]. apply get_Some_elem. rewrite (proj1 (Hget q)).
      by rewrite (proj2 (mem_str_elem _ _) Hn). }
  (* the name that is looked up in the two mappings *)
  exists (if str_empty n then q else n). unfold findIconDefinition. cbn [l_prefix l_iconName].
  rewrite bool_decide_eq_false_2 by congruence. cbn [l_prefix l_iconName js_or fst]. rewrite Ee.
  unfold str_empty at 1. rewrite (proj2 (str_eqb_neq q "") Hq).
  rewrite byAlias_claimant, Hc by done. cbn [js_or].
  assert ((if str_empty n then Some q else Some n) = Some (if str_empty n then q else n)) as ->
    by (by destruct (str_empty n)).
  set (m := if str_empty n then q else n).
  assert (m ∈ names d) as Hm by (subst m; by destruct (str_empty n)).
  pose proof (proj2 (Hget m)) as Hd. rewrite (proj2 (mem_str_elem _ _) Hm) in Hd.
  unfold iconFromMapping, okey. cbn [from_option id].
  unfold get_obj in Hd. destruct (get (d_prefix d) (definitions s')); [|done]. cbn in Hd. by rewrite Hd.
Qed.

(** * Examples *)

(** A page with the solid pack of one icon, [house], alias [home], U+F015. *)
Definition ex_house : icon := mkIcon 576 512 [ANum 127968; AStr "home"] "f015" (PathOne "M0 0").
Definition ex_fa : fa := init_fa _default false true [("fas", [("house", ex_house)])] [] false.
Definition ex_gear : IconDefinition :=
  mkIconDefinition "fas" "gear" (mkIcon 512 512 [AStr "cog"] "f013" (PathOne "M1 1")).

Lemma ex_fa_reachable : reachable ex_fa.
Proof.
  exists ex_fa. split; [|done]. exists _default, false, true, [("fas", [("house", ex_house)])], [], false.
  split; [|done]. split; [by_decide|]. cbn. intros p st. destruct (str_eqb "fas" p); [|done].
  intros [= <-]. by_decide.
Qed.

Lemma tables_never_stale_witness : build ex_fa = ex_fa /\ byUnicode ex_fa "fas" "f015" = Some "house".
Proof. split; [exact (tables_never_stale ex_fa ex_fa_reachable)|vm_compute; reflexivity]. Defined.

Lemma byAlias_correct_witness :
  exists n, byAlias ex_fa (Some "fas") (Some "home") = Some n.
Proof.
  apply (proj2 (byAlias_correct ex_fa "fas" "home" ex_fa_reachable) "house" ex_house).
  - vm_compute. reflexivity.
  - right. by_decide.
Defined.

Lemma getIconName_spec_witness : getIconName (VStr "fa") "fa-house-chimney" = Some "house-chimney".
Proof.
  apply (getIconName_spec "fa" "fa-house-chimney" "house-chimney"); [reflexivity|].
  split_and!; [reflexivity|discriminate|by_decide].
Defined.

Lemma classes_order_irrelevant_witness :
  getCanonicalIcon ex_fa ["fa-home"; "fas"; "big"] false
  = getCanonicalIcon ex_fa ["big"; "fas"; "fa-home"; "fas"] false.
Proof. apply classes_order_irrelevant. intros x. rewrite !elem_of_cons. intuition. Defined.

Lemma ex_house_word : icon_word "house".
Proof. split_and!; [discriminate|by_decide|discriminate]. Qed.

Lemma short_and_long_classes_agree_witness :
  getCanonicalIcon ex_fa ["far"; icon_class "house"] false = icon_of_words ex_fa false "far" "house"
  /\ icon_of_words ex_fa false "far" "house" = Ok (mkCanonical (Some "fas") (Some "house") []).
Proof.
  split; [|vm_compute; reflexivity].
  apply (short_and_long_classes_agree ex_fa "classic" "far" "fa-regular" "house" false);
    [reflexivity|discriminate|vm_compute; reflexivity|discriminate|exact ex_house_word].
Defined.

Lemma library_add_find_witness :
  exists s', library_add [AddIcon ex_gear] ex_fa = Ok s'
    /\ exists n, fst (findIconDefinition s' (mkLookup (Some "fas") (Some "cog")))
                 = Some (Some "fas", n, d_icon ex_gear).
Proof.
  eexists. split; [vm_compute; reflexivity|].
  apply (library_add_find ex_fa _ ex_gear "cog" ex_fa_reachable);
    [vm_compute; reflexivity|discriminate|discriminate|by_decide|].
  intros n i. change (get_obj (d_prefix ex_gear) (styles ex_fa)) with [("house", ex_house)].
  cbn [get]. destruct (str_eqb "house" n) eqn:E; [|discriminate].
  apply str_eqb_eq in E as <-. intros [= <-] _. apply (bool_decide_unpack _). vm_compute. exact I.
Defined.
