(* ===== verification/JsInt.v ===== *)
(** JavaScript's 32-bit integer operators on numbers that are integers, and arrays of
    numbers.  [undefined] counts as 0 for every operator here, so an array is the list
    of its elements with 0 for a hole. *)
From stdpp Require Import base list.
From Stdlib Require Import Lia ZArith.
From S2P Require Import Prelude.
#[local] Open Scope Z_scope.

Definition B32 : Z := 2 ^ 32.
(** The 32-bit pattern of a number, unsigned and signed ([ToUint32], [ToInt32]). *)
Definition u32 (x : Z) : Z := x mod B32.
Definition i32 (x : Z) : Z := let u := u32 x in if u <? 2 ^ 31 then u else u - B32.

(** [x & y], [x | y], [x ^ y], [~x], [x << n], [x >> n], [x >>> n] *)
Definition js_and (x y : Z) : Z := Z.land (i32 x) (i32 y).
Definition js_or32 (x y : Z) : Z := Z.lor (i32 x) (i32 y).
Definition js_xor (x y : Z) : Z := Z.lxor (i32 x) (i32 y).
Definition js_not (x : Z) : Z := Z.lnot (i32 x).
Definition js_shl (x n : Z) : Z := i32 (Z.shiftl (i32 x) (n mod 32)).
Definition js_shr (x n : Z) : Z := Z.shiftr (i32 x) (n mod 32).
Definition js_ushr (x n : Z) : Z := Z.shiftr (u32 x) (n mod 32).

(** * The bit pattern of a result *)
Lemma u32_range x : 0 <= u32 x < B32.
Proof. apply Z.mod_pos_bound. reflexivity. Qed.
Lemma u32_small x : 0 <= x < B32 -> u32 x = x.
Proof. apply Z.mod_small. Qed.
Lemma u32_idem x : u32 (u32 x) = u32 x.
Proof. apply u32_small, u32_range. Qed.
Lemma u32_i32 x : u32 (i32 x) = u32 x.
Proof.
  unfold i32. case_match; [apply u32_idem|]. unfold u32 at 1.
  rewrite <- (Z.mod_add _ 1) by (unfold B32; lia). replace (u32 x - B32 + 1 * B32) with (u32 x) by lia.
  apply u32_idem.
Qed.
Lemma u32_add_l x y : u32 (u32 x + y) = u32 (x + y).
Proof. apply Zplus_mod_idemp_l. Qed.
Lemma u32_add_r x y : u32 (x + u32 y) = u32 (x + y).
Proof. apply Zplus_mod_idemp_r. Qed.

Lemma u32_testbit x n : 0 <= n -> Z.testbit (u32 x) n = if n <? 32 then Z.testbit x n else false.
Proof.
  intros Hn. unfold u32, B32. destruct (Z.ltb_spec n 32).
  - by apply Z.mod_pow2_bits_low.
  - apply Z.mod_pow2_bits_high. lia.
Qed.

(** Two numbers with the same 32 low bits. *)
Lemma u32_eq_bits x y :
  (forall n, 0 <= n < 32 -> Z.testbit x n = Z.testbit y n) -> u32 x = u32 y.
Proof.
  intros H. apply Z.bits_inj'. intros n Hn. rewrite !u32_testbit by done.
  destruct (Z.ltb_spec n 32); [apply H; lia|done].
Qed.

Lemma i32_testbit x n : 0 <= n < 32 -> Z.testbit (i32 x) n = Z.testbit x n.
Proof.
  intros Hn. transitivity (Z.testbit (u32 (i32 x)) n).
  - rewrite u32_testbit by lia. by rewrite (proj2 (Z.ltb_lt n 32)) by lia.
  - rewrite u32_i32, u32_testbit by lia. by rewrite (proj2 (Z.ltb_lt n 32)) by lia.
Qed.

Lemma u32_bits_of x n : 0 <= n < 32 -> Z.testbit (u32 x) n = Z.testbit x n.
Proof. intros Hn. rewrite u32_testbit by lia. by rewrite (proj2 (Z.ltb_lt n 32)) by lia. Qed.

(** Reduce an equation of patterns to one of bits. *)
Ltac bitwise :=
  apply u32_eq_bits; let n := fresh "n" in let Hn := fresh "Hn" in intros n Hn;
  repeat first
    [ rewrite Z.land_spec | rewrite Z.lor_spec | rewrite Z.lxor_spec | rewrite Z.lnot_spec by lia
    | rewrite i32_testbit by lia | rewrite u32_bits_of by lia ].

Lemma u32_and x y : u32 (js_and x y) = Z.land (u32 x) (u32 y).
Proof.
  transitivity (u32 (Z.land (u32 x) (u32 y))); [unfold js_and; bitwise; done|].
  apply u32_small. split; [apply Z.land_nonneg; left; apply u32_range|].
  destruct (Z.eq_dec (Z.land (u32 x) (u32 y)) 0) as [->|Hne]; [done|].
  apply Z.log2_lt_pow2; [assert (0 <= Z.land (u32 x) (u32 y)) by (apply Z.land_nonneg; left; apply u32_range); lia|].
  eapply Z.le_lt_trans; [apply Z.log2_land; apply u32_range|]. apply Z.min_lt_iff. left.
  pose proof (u32_range x). destruct (Z.eq_dec (u32 x) 0) as [->|]; [done|].
  apply Z.log2_lt_pow2; unfold B32 in *; lia.
Qed.

Lemma u32_or_congr x y x' y' : u32 x = u32 x' -> u32 y = u32 y' -> u32 (Z.lor x y) = u32 (Z.lor x' y').
Proof.
  intros Hx Hy. bitwise. rewrite <- (u32_bits_of x), <- (u32_bits_of y), Hx, Hy by done.
  by rewrite !u32_bits_of.
Qed.

(** * Arrays *)
Definition arr_get (x : list Z) (i : Z) : Z := if i <? 0 then 0 else nth (Z.to_nat i) x 0.
(** A write past the end makes the array longer; one below 0 adds a property that is no
    element. *)
Definition arr_set (x : list Z) (i v : Z) : list Z :=
  if i <? 0 then x
  else
    let n := Z.to_nat i in
    take n x ++ repeat 0 (n - length x) ++ v :: drop (S n) x.

Lemma arr_get_nat x j : arr_get x (Z.of_nat j) = nth j x 0.
Proof. unfold arr_get. rewrite (proj2 (Z.ltb_ge _ 0)) by lia. by rewrite Nat2Z.id. Qed.

Lemma arr_set_length x i v :
  0 <= i -> Z.of_nat (length (arr_set x i v)) = Z.max (Z.of_nat (length x)) (i + 1).
Proof.
  intros Hi. unfold arr_set. rewrite (proj2 (Z.ltb_ge i 0)) by done.
  rewrite !length_app. cbn [length]. rewrite length_take, repeat_length, length_drop. lia.
Qed.

Lemma nth_repeat0 k n : nth k (repeat 0 n) 0 = 0.
Proof. revert k. induction n as [|n IH]; intros [|k]; cbn; auto. Qed.

Lemma nth_drop (x : list Z) n k : nth k (drop n x) 0 = nth (n + k) x 0.
Proof.
  revert x. induction n as [|n IH]; intros x; [done|]. destruct x; [by destruct k|]. apply IH.
Qed.

Lemma arr_get_set x i v j : 0 <= i -> 0 <= j -> arr_get (arr_set x i v) j = if j =? i then v else arr_get x j.
Proof.
  intros Hi Hj. unfold arr_get, arr_set. rewrite !(proj2 (Z.ltb_ge _ 0)) by done.
  set (n := Z.to_nat i). set (k := Z.to_nat j).
  assert (length (take n x ++ repeat 0 (n - length x)%nat) = n) as Hl
    by (rewrite length_app, length_take, repeat_length; lia).
  rewrite app_assoc. destruct (Z.eqb_spec j i) as [->|Hne].
  - subst k. rewrite app_nth2 by lia. rewrite Hl, Nat.sub_diag. done.
  - destruct (Nat.lt_ge_cases k n) as [Hk|Hk].
    + rewrite app_nth1 by lia. destruct (Nat.lt_ge_cases k (length x)) as [Hx|Hx].
      * rewrite app_nth1 by (rewrite length_take; lia).
        rewrite <- (take_drop n x) at 2. rewrite app_nth1; [done|]. rewrite length_take. lia.
      * rewrite app_nth2 by (rewrite length_take; lia).
        rewrite nth_repeat0. by rewrite nth_overflow by lia.
    + rewrite app_nth2 by lia. rewrite Hl. assert (k <> n) by (subst k n; lia).
      destruct (k - n)%nat as [|m] eqn:Em; [lia|]. cbn [nth]. rewrite nth_drop. f_equal. lia.
Qed.

(** * Sums and shifts *)
Lemma i32_small x : 0 <= x < 2 ^ 31 -> i32 x = x.
Proof.
  intros Hx. unfold i32. rewrite u32_small by (unfold B32; lia).
  by rewrite (proj2 (Z.ltb_lt x (2 ^ 31))) by lia.
Qed.

Lemma u32_shl x n : 0 <= n < 32 -> u32 (js_shl x n) = u32 (Z.shiftl x n).
Proof.
  intros Hn. unfold js_shl. rewrite u32_i32, Z.mod_small by lia. bitwise.
  rewrite !Z.shiftl_spec by lia. destruct (Z.ltb_spec n0 n).
  - rewrite !Z.testbit_neg_r by lia. done.
  - apply i32_testbit. lia.
Qed.

Lemma lor_disjoint_add m y k : 0 <= k -> 0 <= y < 2 ^ k -> Z.lor (Z.shiftl m k) y = Z.shiftl m k + y.
Proof.
  intros Hk Hy. assert (Z.land (Z.shiftl m k) y = 0) as H.
  { apply Z.bits_inj'. intros n Hn. rewrite Z.land_spec, Z.bits_0.
    destruct (Z.ltb_spec n k).
    - rewrite Z.shiftl_spec_low by lia. done.
    - rewrite <- (Z.mod_small y (2 ^ k)) by done. rewrite Z.mod_pow2_bits_high by lia.
      apply andb_false_r. }
  rewrite Z.add_nocarry_lxor by done. symmetry. by apply Z.lxor_lor.
Qed.

Lemma js_and_low x : js_and x 0xffff = i32 x mod 2 ^ 16.
Proof. unfold js_and. change (i32 0xffff) with (Z.ones 16). by rewrite Z.land_ones. Qed.
Lemma js_and_byte x : js_and x 0xff = i32 x mod 2 ^ 8.
Proof. unfold js_and. change (i32 0xff) with (Z.ones 8). by rewrite Z.land_ones. Qed.
Lemma i32_mod x k : 0 <= k <= 32 -> i32 x mod 2 ^ k = x mod 2 ^ k.
Proof.
  intros Hk. apply Z.bits_inj'. intros n Hn. destruct (Z.ltb_spec n k).
  - rewrite !Z.mod_pow2_bits_low by lia. apply i32_testbit. lia.
  - by rewrite !Z.mod_pow2_bits_high by lia.
Qed.

(** * Equality of patterns, an equivalence the sums respect *)
Definition eqm (x y : Z) : Prop := u32 x = u32 y.
#[export] Instance eqm_equiv : Equivalence eqm.
Proof. split; unfold eqm; congruence. Qed.
#[export] Instance u32_proper : Proper (eqm ==> eq) u32.
Proof. intros x y H. exact H. Qed.
#[export] Instance add_proper : Proper (eqm ==> eqm ==> eqm) Z.add.
Proof.
  intros x x' Hx y y' Hy. unfold eqm. rewrite <- (u32_add_l x), <- (u32_add_r _ y), Hx, Hy.
  by rewrite u32_add_r, u32_add_l.
Qed.
#[export] Instance lor_proper : Proper (eqm ==> eqm ==> eqm) Z.lor.
Proof. intros x x' Hx y y' Hy. by apply u32_or_congr. Qed.
Lemma u32_eqm x : eqm (u32 x) x.
Proof. apply u32_idem. Qed.
Lemma i32_eqm x : eqm (i32 x) x.
Proof. apply u32_i32. Qed.
