(* ===== verification/ConflictMd5.v ===== *)
(** The MD5 library of [conflict-detection.js], in the 32-bit operators of the language,
    and the proof that it computes MD5 as RFC 1321 defines it (and HMAC-MD5 as RFC 2104
    does).

    A raw string is the list of its code units, each below 256. *)
From stdpp Require Import base strings list.
From Stdlib Require Import Lia ZArith.
From S2P Require Import Prelude JsInt.
#[local] Open Scope Z_scope.

(** * The code *)
Definition safeAdd (x y : Z) : Z :=
  let lsw := js_and x 0xffff + js_and y 0xffff in
  let msw := js_shr x 16 + js_shr y 16 + js_shr lsw 16 in
  js_or32 (js_shl msw 16) (js_and lsw 0xffff).

Definition bitRotateLeft (num cnt : Z) : Z := js_or32 (js_shl num cnt) (js_ushr num (32 - cnt)).

Definition md5cmn (q a b x s t : Z) : Z :=
  safeAdd (bitRotateLeft (safeAdd (safeAdd a q) (safeAdd x t)) s) b.
Definition md5ff (a b c d x s t : Z) : Z :=
  md5cmn (js_or32 (js_and b c) (js_and (js_not b) d)) a b x s t.
Definition md5gg (a b c d x s t : Z) : Z :=
  md5cmn (js_or32 (js_and b d) (js_and c (js_not d))) a b x s t.
Definition md5hh (a b c d x s t : Z) : Z := md5cmn (js_xor (js_xor b c) d) a b x s t.
Definition md5ii (a b c d x s t : Z) : Z := md5cmn (js_xor c (js_or32 b (js_not d))) a b x s t.

(** The 64 assignments of the loop body.  [(r, f, k, s, t)] is the line
    [r = f(r, ..., x[i + k], s, t)], whose other arguments are the registers that follow
    [r] in the cycle a, b, c, d. *)
Inductive reg : Type := a | b | c | d.
Record regs := mkRegs { ra : Z; rb : Z; rc : Z; rd : Z }.
Definition round_fun : Type := Z -> Z -> Z -> Z -> Z -> Z -> Z -> Z.
Definition line : Type := reg * round_fun * Z * Z * Z.

Definition exec (x : list Z) (i : Z) (st : regs) (l : line) : regs :=
  let '(r, f, k, s, t) := l in
  let v := arr_get x (i + k) in
  let 'mkRegs a' b' c' d' := st in
  match r with
  | a => mkRegs (f a' b' c' d' v s t) b' c' d'
  | d => mkRegs a' b' c' (f d' a' b' c' v s t)
  | c => mkRegs a' b' (f c' d' a' b' v s t) d'
  | b => mkRegs a' (f b' c' d' a' v s t) c' d'
  end.

Definition loop_body : list line :=
  [(a, md5ff, 0, 7, -680876936); (d, md5ff, 1, 12, -389564586);
   (c, md5ff, 2, 17, 606105819); (b, md5ff, 3, 22, -1044525330);
   (a, md5ff, 4, 7, -176418897); (d, md5ff, 5, 12, 1200080426);
   (c, md5ff, 6, 17, -1473231341); (b, md5ff, 7, 22, -45705983);
   (a, md5ff, 8, 7, 1770035416); (d, md5ff, 9, 12, -1958414417);
   (c, md5ff, 10, 17, -42063); (b, md5ff, 11, 22, -1990404162);
   (a, md5ff, 12, 7, 1804603682); (d, md5ff, 13, 12, -40341101);
   (c, md5ff, 14, 17, -1502002290); (b, md5ff, 15, 22, 1236535329);
   (a, md5gg, 1, 5, -165796510); (d, md5gg, 6, 9, -1069501632);
   (c, md5gg, 11, 14, 643717713); (b, md5gg, 0, 20, -373897302);
   (a, md5gg, 5, 5, -701558691); (d, md5gg, 10, 9, 38016083);
   (c, md5gg, 15, 14, -660478335); (b, md5gg, 4, 20, -405537848);
   (a, md5gg, 9, 5, 568446438); (d, md5gg, 14, 9, -1019803690);
   (c, md5gg, 3, 14, -187363961); (b, md5gg, 8, 20, 1163531501);
   (a, md5gg, 13, 5, -1444681467); (d, md5gg, 2, 9, -51403784);
   (c, md5gg, 7, 14, 1735328473); (b, md5gg, 12, 20, -1926607734);
   (a, md5hh, 5, 4, -378558); (d, md5hh, 8, 11, -2022574463);
   (c, md5hh, 11, 16, 1839030562); (b, md5hh, 14, 23, -35309556);
   (a, md5hh, 1, 4, -1530992060); (d, md5hh, 4, 11, 1272893353);
   (c, md5hh, 7, 16, -155497632); (b, md5hh, 10, 23, -1094730640);
   (a, md5hh, 13, 4, 681279174); (d, md5hh, 0, 11, -358537222);
   (c, md5hh, 3, 16, -722521979); (b, md5hh, 6, 23, 76029189);
   (a, md5hh, 9, 4, -640364487); (d, md5hh, 12, 11, -421815835);
   (c, md5hh, 15, 16, 530742520); (b, md5hh, 2, 23, -995338651);
   (a, md5ii, 0, 6, -198630844); (d, md5ii, 7, 10, 1126891415);
   (c, md5ii, 14, 15, -1416354905); (b, md5ii, 5, 21, -57434055);
   (a, md5ii, 12, 6, 1700485571); (d, md5ii, 3, 10, -1894986606);
   (c, md5ii, 10, 15, -1051523); (b, md5ii, 1, 21, -2054922799);
   (a, md5ii, 8, 6, 1873313359); (d, md5ii, 15, 10, -30611744);
   (c, md5ii, 6, 15, -1560198380); (b, md5ii, 13, 21, 1309151649);
   (a, md5ii, 4, 6, -145523070); (d, md5ii, 11, 10, -1120210379);
   (c, md5ii, 2, 15, 718787259); (b, md5ii, 9, 21, -343485551)].

(** One iteration for [i], and the loop [for (i = 0; i < x.length; i += 16)]. *)
Definition block (x : list Z) (i : Z) (st : regs) : regs :=
  let st' := fold_left (exec x i) loop_body st in
  mkRegs (safeAdd (ra st') (ra st)) (safeAdd (rb st') (rb st))
         (safeAdd (rc st') (rc st)) (safeAdd (rd st') (rd st)).

Fixpoint blocks (fuel : nat) (x : list Z) (i : Z) (st : regs) : regs :=
  match fuel with
  | O => st
  | S f => if i <? Z.of_nat (length x) then blocks f x (i + 16) (block x i st) else st
  end.

Definition init_regs : regs := mkRegs 1732584193 (-271733879) (-1732584194) 271733878.

(** The length of the array bounds the number of iterations. *)
Definition binlMD5 (x : list Z) (len : Z) : list Z :=
  let p := js_shr len 5 in
  let x := arr_set x p (js_or32 (arr_get x p) (js_shl 0x80 (len mod 32))) in
  let x := arr_set x (js_shl (js_ushr (len + 64) 9) 4 + 14) len in
  let st := blocks (length x) x 0 init_regs in
  [ra st; rb st; rc st; rd st].

Definition binl2rstr (input : list Z) : list Z :=
  map (fun j : nat => let i := 8 * Z.of_nat j in js_and (js_ushr (arr_get input (js_shr i 5)) (i mod 32)) 0xff)
    (seq 0 (4 * length input)).

(** One step of the second loop of [rstr2binl], for the [j]th character [ch]. *)
Definition put_char (output : list Z) (j : nat) (ch : Z) : list Z :=
  let i := 8 * Z.of_nat j in
  let p := js_shr i 5 in
  arr_set output p (js_or32 (arr_get output p) (js_shl (js_and ch 0xff) (i mod 32))).
Fixpoint put_chars (output : list Z) (j : nat) (input : list Z) : list Z :=
  match input with [] => output | ch :: input => put_chars (put_char output j ch) (S j) input end.
Definition rstr2binl (input : list Z) : list Z :=
  put_chars (repeat 0 (Z.to_nat (js_shr (Z.of_nat (length input)) 2))) 0 input.

Definition rstrMD5 (s : list Z) : list Z := binl2rstr (binlMD5 (rstr2binl s) (Z.of_nat (length s) * 8)).

Definition rstrHMACMD5 (key data : list Z) : list Z :=
  let bkey := rstr2binl key in
  let bkey := if (16 <? length bkey)%nat then binlMD5 bkey (Z.of_nat (length key) * 8) else bkey in
  let ipad := map (fun i => js_xor (arr_get bkey (Z.of_nat i)) 0x36363636) (seq 0 16) in
  let opad := map (fun i => js_xor (arr_get bkey (Z.of_nat i)) 0x5c5c5c5c) (seq 0 16) in
  let hash := binlMD5 (ipad ++ rstr2binl data) (512 + Z.of_nat (length data) * 8) in
  binl2rstr (binlMD5 (opad ++ hash) (512 + 128)).

Definition hexTab : list Z := [48; 49; 50; 51; 52; 53; 54; 55; 56; 57; 97; 98; 99; 100; 101; 102].
Definition rstr2hex (input : list Z) : list Z :=
  concat (map (fun x => [arr_get hexTab (js_and (js_ushr x 4) 0x0f); arr_get hexTab (js_and x 0x0f)]) input).

(** [unescape(encodeURIComponent(s))]: UTF-8 of a sequence of code units; a surrogate
    without its partner throws. *)
Definition is_lead (u : Z) : bool := (0xd800 <=? u) && (u <=? 0xdbff).
Definition is_trail (u : Z) : bool := (0xdc00 <=? u) && (u <=? 0xdfff).
Definition utf8_bytes (r : Z) : list Z :=
  if r <? 0x80 then [r]
  else if r <? 0x800 then [0xc0 + r / 64; 0x80 + r mod 64]
  else if r <? 0x10000 then [0xe0 + r / 4096; 0x80 + (r / 64) mod 64; 0x80 + r mod 64]
  else [0xf0 + r / 262144; 0x80 + (r / 4096) mod 64; 0x80 + (r / 64) mod 64; 0x80 + r mod 64].
Fixpoint str2rstrUTF8 (l : list Z) : result (list Z) :=
  match l with
  | [] => Ok []
  | u :: l1 =>
      if is_trail u then Err "URIError"
      else if is_lead u then
        match l1 with
        | v :: l2 =>
            if is_trail v
            then res_map (app (utf8_bytes (0x10000 + (u - 0xd800) * 0x400 + (v - 0xdc00)))) (str2rstrUTF8 l2)
            else Err "URIError"
        | [] => Err "URIError"
        end
      else res_map (app (utf8_bytes u)) (str2rstrUTF8 l1)
  end.

Definition rawMD5 (s : list Z) : result (list Z) := res_map rstrMD5 (str2rstrUTF8 s).
Definition hexMD5 (s : list Z) : result (list Z) := res_map rstr2hex (rawMD5 s).
Definition rawHMACMD5 (k s : list Z) : result (list Z) :=
  res_bind (str2rstrUTF8 k) (fun k => res_map (rstrHMACMD5 k) (str2rstrUTF8 s)).
Definition hexHMACMD5 (k s : list Z) : result (list Z) := res_map rstr2hex (rawHMACMD5 k s).

(** [md5(string, key, raw)]; an absent or empty key is falsy. *)
Definition md5 (s : list Z) (key : list Z) (raw : bool) : result (list Z) :=
  match key with
  | [] => if raw then rawMD5 s else hexMD5 s
  | _ => if raw then rawHMACMD5 key s else hexHMACMD5 key s
  end.

(** * MD5 as RFC 1321 defines it

    Words are numbers below 2^32; the message is a list of bytes. *)
Module Rfc1321.
Definition rotl (x s : Z) : Z := Z.lor (u32 (Z.shiftl x s)) (Z.shiftr x (32 - s)).
Definition not32 (x : Z) : Z := u32 (Z.lnot x).
Definition F (X Y Z_ : Z) : Z := Z.lor (Z.land X Y) (Z.land (not32 X) Z_).
Definition G (X Y Z_ : Z) : Z := Z.lor (Z.land X Z_) (Z.land Y (not32 Z_)).
Definition H (X Y Z_ : Z) : Z := Z.lxor (Z.lxor X Y) Z_.
Definition I (X Y Z_ : Z) : Z := Z.lxor Y (Z.lor X (not32 Z_)).

(** The table T: the integer part of 2^32 |sin(i)|. *)
Definition T : list Z :=
  [0xd76aa478; 0xe8c7b756; 0x242070db; 0xc1bdceee; 0xf57c0faf; 0x4787c62a; 0xa8304613;
   0xfd469501; 0x698098d8; 0x8b44f7af; 0xffff5bb1; 0x895cd7be; 0x6b901122; 0xfd987193;
   0xa679438e; 0x49b40821; 0xf61e2562; 0xc040b340; 0x265e5a51; 0xe9b6c7aa; 0xd62f105d;
   0x02441453; 0xd8a1e681; 0xe7d3fbc8; 0x21e1cde6; 0xc33707d6; 0xf4d50d87; 0x455a14ed;
   0xa9e3e905; 0xfcefa3f8; 0x676f02d9; 0x8d2a4c8a; 0xfffa3942; 0x8771f681; 0x6d9d6122;
   0xfde5380c; 0xa4beea44; 0x4bdecfa9; 0xf6bb4b60; 0xbebfbc70; 0x289b7ec6; 0xeaa127fa;
   0xd4ef3085; 0x04881d05; 0xd9d4d039; 0xe6db99e5; 0x1fa27cf8; 0xc4ac5665; 0xf4292244;
   0x432aff97; 0xab9423a7; 0xfc93a039; 0x655b59c3; 0x8f0ccc92; 0xffeff47d; 0x85845dd1;
   0x6fa87e4f; 0xfe2ce6e0; 0xa3014314; 0x4e0811a1; 0xf7537e82; 0xbd3af235; 0x2ad7d2bb;
   0xeb86d391].
Definition round_of (i : nat) : Z -> Z -> Z -> Z :=
  if (i <? 16)%nat then F else if (i <? 32)%nat then G else if (i <? 48)%nat then H else I.
(** The word each step reads, and its shift. *)
Definition word_of (i : nat) : nat :=
  (if i <? 16 then i else if i <? 32 then (5 * i + 1) mod 16
   else if i <? 48 then (3 * i + 5) mod 16 else (7 * i) mod 16)%nat.
Definition shifts (i : nat) : list Z :=
  if (i <? 16)%nat then [7; 12; 17; 22] else if (i <? 32)%nat then [5; 9; 14; 20]
  else if (i <? 48)%nat then [4; 11; 16; 23] else [6; 10; 15; 21].
Definition shift_of (i : nat) : Z := nth (i mod 4) (shifts i) 0.

Definition step (M : nat -> Z) (st : Z * Z * Z * Z) (i : nat) : Z * Z * Z * Z :=
  let '(A, B, C, D) := st in
  (D, u32 (B + rotl (u32 (A + round_of i B C D + M (word_of i) + nth i T 0)) (shift_of i)), B, C).
Definition compress (M : nat -> Z) (st : Z * Z * Z * Z) : Z * Z * Z * Z :=
  let '(A, B, C, D) := st in
  let '(A', B', C', D') := fold_left (step M) (seq 0 64) st in
  (u32 (A' + A), u32 (B' + B), u32 (C' + C), u32 (D' + D)).

(** The padded message: a 1 bit, zeros, and the length in bits in 64 bits. *)
Definition le_bytes (n : nat) (v : Z) : list Z := map (fun k => Z.shiftr v (8 * Z.of_nat k) mod 256) (seq 0 n).
Definition zeros (n : nat) : nat := Z.to_nat ((55 - Z.of_nat n) mod 64).
Definition pad (m : list Z) : list Z :=
  m ++ [128] ++ repeat 0 (zeros (length m)) ++ le_bytes 8 (8 * Z.of_nat (length m)).
Definition word (m : list Z) (j : nat) : Z :=
  nth (4 * j) m 0 + 2 ^ 8 * nth (4 * j + 1) m 0 + 2 ^ 16 * nth (4 * j + 2) m 0 + 2 ^ 24 * nth (4 * j + 3) m 0.

Definition init : Z * Z * Z * Z := (0x67452301, 0xefcdab89, 0x98badcfe, 0x10325476).
Definition digest_words (m : list Z) : Z * Z * Z * Z :=
  fold_left (fun st k => compress (fun j => word (pad m) (16 * k + j)) st)
    (seq 0 (length (pad m) / 64)) init.
Definition digest (m : list Z) : list Z :=
  let '(A, B, C, D) := digest_words m in le_bytes 4 A ++ le_bytes 4 B ++ le_bytes 4 C ++ le_bytes 4 D.

(** HMAC (RFC 2104) with blocks of 64 bytes. *)
Definition hmac_key (key : list Z) : list Z :=
  let k := if (64 <? length key)%nat then digest key else key in
  k ++ repeat 0 (64 - length k).
Definition hmac (key data : list Z) : list Z :=
  let k := hmac_key key in
  digest (map (Z.lxor 0x5c) k ++ digest (map (Z.lxor 0x36) k ++ data)).
End Rfc1321.

Import Rfc1321.

(** * The operators compute on patterns of 32 bits *)
Lemma u32_safeAdd x y : u32 (safeAdd x y) = u32 (x + y).
Proof.
  unfold safeAdd. cbv zeta. rewrite !js_and_low. unfold js_shr. rewrite !Z.mod_small by lia.
  set (X := i32 x). set (Y := i32 y). set (lsw := X mod 2 ^ 16 + Y mod 2 ^ 16).
  assert (0 <= lsw < 2 ^ 17) as Hl.
  { pose proof (Z.mod_pos_bound X (2 ^ 16) ltac:(lia)).
    pose proof (Z.mod_pos_bound Y (2 ^ 16) ltac:(lia)). unfold lsw. lia. }
  rewrite (i32_small lsw) by lia. rewrite !Z.shiftr_div_pow2 by lia.
  set (msw := X / 2 ^ 16 + Y / 2 ^ 16 + lsw / 2 ^ 16).
  transitivity (u32 (Z.lor (Z.shiftl msw 16) (lsw mod 2 ^ 16))).
  { unfold js_or32. apply u32_or_congr; rewrite u32_i32; [by apply u32_shl|done]. }
  rewrite lor_disjoint_add by (try lia; apply Z.mod_pos_bound; lia).
  rewrite Z.shiftl_mul_pow2 by lia.
  replace (msw * 2 ^ 16 + lsw mod 2 ^ 16) with (X + Y).
  - subst X Y. rewrite <- u32_add_l, u32_i32, u32_add_l.
    by rewrite <- u32_add_r, u32_i32, u32_add_r.
  - pose proof (Z.div_mod X (2 ^ 16) ltac:(lia)). pose proof (Z.div_mod Y (2 ^ 16) ltac:(lia)).
    pose proof (Z.div_mod lsw (2 ^ 16) ltac:(lia)). unfold msw, lsw in *. lia.
Qed.

Lemma rotl_range x s : 0 <= x < B32 -> 0 < s < 32 -> 0 <= rotl x s < B32.
Proof.
  intros Hx Hs. unfold rotl. pose proof (u32_range (Z.shiftl x s)).
  assert (0 <= Z.shiftr x (32 - s) < B32) as Hr.
  { rewrite Z.shiftr_div_pow2 by lia. split; [apply Z.div_pos; lia|].
    apply Z.div_lt_upper_bound; [lia|]. assert (1 < 2 ^ (32 - s)) by (apply Z.pow_gt_1; lia).
    unfold B32 in *. nia. }
  split; [apply Z.lor_nonneg; lia|].
  destruct (Z.eq_dec (Z.lor (u32 (Z.shiftl x s)) (Z.shiftr x (32 - s))) 0) as [->|Hne]; [done|].
  apply Z.log2_lt_pow2; [assert (0 <= Z.lor (u32 (Z.shiftl x s)) (Z.shiftr x (32 - s))) by (apply Z.lor_nonneg; lia); lia|].
  rewrite Z.log2_lor by lia. apply Z.max_lub_lt; (eapply Z.le_lt_trans;
    [apply Z.log2_le_mono, (Z.lt_le_pred _ B32); lia|reflexivity]).
Qed.

Lemma u32_rotate x s : 0 < s < 32 -> u32 (bitRotateLeft x s) = rotl (u32 x) s.
Proof.
  intros Hs. rewrite <- (u32_small (rotl (u32 x) s)) by (apply rotl_range; [apply u32_range|done]).
  unfold bitRotateLeft, js_or32, rotl. apply u32_or_congr.
  - rewrite u32_i32, u32_shl, u32_idem by lia. bitwise. rewrite !Z.shiftl_spec by lia.
    destruct (Z.ltb_spec n s); [by rewrite !Z.testbit_neg_r by lia|].
    symmetry. apply u32_bits_of. lia.
  - rewrite u32_i32. unfold js_ushr. by rewrite Z.mod_small by lia.
Qed.

(** The functions of the rounds, on patterns. *)
Definition same_round (f : round_fun) (g : Z -> Z -> Z -> Z) : Prop :=
  forall a b c d x s t, 0 < s < 32 ->
  u32 (f a b c d x s t) =
  u32 (u32 b + rotl (u32 (u32 a + g (u32 b) (u32 c) (u32 d) + u32 x + u32 t)) s).

Lemma safeAdd_eqm x y : eqm (safeAdd x y) (x + y).
Proof. apply u32_safeAdd. Qed.

Lemma u32_md5cmn q g a b x s t :
  0 < s < 32 -> eqm q g ->
  u32 (md5cmn q a b x s t) = u32 (u32 b + rotl (u32 (u32 a + g + u32 x + u32 t)) s).
Proof.
  intros Hs Hq. unfold md5cmn. rewrite safeAdd_eqm, Z.add_comm.
  assert (eqm (bitRotateLeft (safeAdd (safeAdd a q) (safeAdd x t)) s)
    (rotl (u32 (u32 a + g + u32 x + u32 t)) s)) as ->; [|by rewrite (u32_eqm b)].
  transitivity (rotl (u32 (safeAdd (safeAdd a q) (safeAdd x t))) s).
  - unfold eqm. rewrite u32_rotate by done.
    symmetry. apply u32_small, rotl_range; [apply u32_range|done].
  - rewrite !safeAdd_eqm, Hq, (u32_eqm a), (u32_eqm x), (u32_eqm t). by rewrite Z.add_assoc.
Qed.

(** An equation of patterns in which every operand is reduced. *)
Ltac bits_of_words := unfold js_or32, js_xor, js_and, js_not, F, G, H, I, not32; bitwise; reflexivity.

Lemma round_ff : same_round md5ff F.
Proof. intros a b c d x s t Hs. apply u32_md5cmn; [done|bits_of_words]. Qed.
Lemma round_gg : same_round md5gg G.
Proof. intros a b c d x s t Hs. apply u32_md5cmn; [done|bits_of_words]. Qed.
Lemma round_hh : same_round md5hh H.
Proof. intros a b c d x s t Hs. apply u32_md5cmn; [done|bits_of_words]. Qed.
Lemma round_ii : same_round md5ii I.
Proof. intros a b c d x s t Hs. apply u32_md5cmn; [done|bits_of_words]. Qed.

(** * The loop body is the 64 steps of the compression function *)

(** The registers in the order of the arguments of a line that assigns [r]. *)
Definition view (r : reg) (st : regs) : Z * Z * Z * Z :=
  let 'mkRegs a' b' c' d' := st in
  let '(A, B, C, D) := match r with
    | a => (a', b', c', d') | d => (d', a', b', c') | c => (c', d', a', b') | b => (b', c', d', a')
    end in
  (u32 A, u32 B, u32 C, u32 D).
Definition next (r : reg) : reg := match r with a => d | d => c | c => b | b => a end.

(** The line that does step [i]. *)
Definition line_ok (i : nat) (l : line) : Prop :=
  let '(r, f, k, s, t) := l in
  r = nth (i mod 4) [a; d; c; b] a /\ same_round f (round_of i) /\ k = Z.of_nat (word_of i)
  /\ s = shift_of i /\ 0 < s < 32 /\ u32 t = nth i T 0.

Lemma exec_step x i0 st i l (M : nat -> Z) :
  line_ok i l -> u32 (arr_get x (i0 + Z.of_nat (word_of i))) = M (word_of i) ->
  let r := nth (i mod 4) [a; d; c; b] a in
  view (next r) (exec x i0 st l) = step M (view r st) i.
Proof.
  destruct l as [[[[r f] k] s] t]. intros (-> & Hf & -> & -> & Hs & Ht) HM.
  destruct st as [a' b' c' d']. unfold exec, step.
  destruct (nth (i mod 4) [a; d; c; b] a); cbn [view next]; by rewrite Hf, HM, Ht.
Qed.

(** A stretch of lines, from step [i] on. *)
Lemma exec_steps x i0 (M : nat -> Z) ls :
  (forall k, (k < 16)%nat -> u32 (arr_get x (i0 + Z.of_nat k)) = M k) ->
  forall i st, (forall j l, ls !! j = Some l -> line_ok (i + j) l /\ (word_of (i + j) < 16)%nat) ->
  view (nth ((i + length ls) mod 4) [a; d; c; b] a) (fold_left (exec x i0) ls st) =
  fold_left (step M) (seq i (length ls)) (view (nth (i mod 4) [a; d; c; b] a) st).
Proof.
  intros HM. induction ls as [|l ls IH]; intros i st Hl; cbn [fold_left seq length].
  { by rewrite Nat.add_0_r. }
  destruct (Hl 0%nat l eq_refl) as [Hok Hw]. rewrite Nat.add_0_r in Hok, Hw.
  rewrite <- (exec_step x i0 st i l M Hok (HM _ Hw)).
  replace (next (nth (i mod 4) [a; d; c; b] a)) with (nth (S i mod 4) [a; d; c; b] a).
  - rewrite <- IH; [by rewrite Nat.add_succ_comm|]. intros j l' Hj. replace (S i + j)%nat with (i + S j)%nat by lia.
    by apply Hl.
  - replace (S i) with (1 + i)%nat by lia. rewrite <- Nat.Div0.add_mod_idemp_r.
    assert (i mod 4 < 4)%nat by (by apply Nat.mod_upper_bound).
    by destruct (i mod 4)%nat as [|[|[|[|?]]]]; [..|lia].
Qed.

Lemma loop_body_ok j l : loop_body !! j = Some l -> line_ok j l /\ (word_of j < 16)%nat.
Proof.
  unfold loop_body.
  do 64 (destruct j as [|j];
    [intros [= <-]; split; [|cbv; lia]; repeat split;
       first [exact round_ff|exact round_gg|exact round_hh|exact round_ii|reflexivity]|]).
  done.
Qed.

Lemma block_compress x i st (M : nat -> Z) :
  (forall k, (k < 16)%nat -> u32 (arr_get x (i + Z.of_nat k)) = M k) ->
  view a (block x i st) = compress M (view a st).
Proof.
  intros HM. pose proof (exec_steps x i M loop_body HM 0%nat st
    (fun j l Hj => loop_body_ok j l Hj)) as Hs.
  change (length loop_body) with 64%nat in Hs. change ((0 + 64) mod 4)%nat with 0%nat in Hs.
  change (0 mod 4)%nat with 0%nat in Hs. cbn [nth] in Hs.
  unfold block, compress. destruct (fold_left (exec x i) loop_body st) as [a1 b1 c1 d1].
  destruct st as [a0 b0 c0 d0]. cbn [view ra rb rc rd] in *. rewrite <- Hs.
  by rewrite !u32_safeAdd, !u32_add_l, !u32_add_r.
Qed.

(** * Arrays of words and the bytes they stand for *)
Definition byte (z : Z) : Prop := 0 <= z < 256.
Definition represents (x m : list Z) : Prop :=
  forall j, u32 (arr_get x (Z.of_nat j)) = word m j.

Lemma byte_nth m k : Forall byte m -> byte (nth k m 0).
Proof.
  intros Hm. destruct (nth_in_or_default k m 0) as [Hin| ->]; [|unfold byte; lia].
  rewrite Forall_forall in Hm. apply Hm. by apply list_elem_of_In.
Qed.

Lemma nth_snoc m ch k : nth k (m ++ [ch]) 0 = if (k =? length m)%nat then ch else nth k m 0.
Proof.
  destruct (Nat.eqb_spec k (length m)) as [->|Hk].
  - rewrite app_nth2 by lia. by rewrite Nat.sub_diag.
  - destruct (Nat.lt_ge_cases k (length m)); [by rewrite app_nth1|].
    rewrite !nth_overflow; [done|lia|]. rewrite length_app. cbn. lia.
Qed.

Lemma word_range m j : Forall byte m -> 0 <= word m j < B32.
Proof.
  intros Hm. unfold word. pose proof (byte_nth m (4 * j) Hm). pose proof (byte_nth m (4 * j + 1) Hm).
  pose proof (byte_nth m (4 * j + 2) Hm). pose proof (byte_nth m (4 * j + 3) Hm).
  unfold byte, B32 in *. lia.
Qed.

Lemma word_snoc m ch j :
  word (m ++ [ch]) j =
  if (j =? length m / 4)%nat
  then word m j + 2 ^ (8 * Z.of_nat (length m mod 4)) * ch else word m j.
Proof.
  pose proof (Nat.div_mod_eq (length m) 4) as Hd.
  pose proof (Nat.mod_upper_bound (length m) 4 ltac:(lia)) as Hr.
  unfold word. rewrite !nth_snoc. set (q := (length m / 4)%nat) in *. set (r := (length m mod 4)%nat) in *.
  assert (forall k, (length m <= k)%nat -> nth k m 0 = 0) as Hz by (intros k Hk; by apply nth_overflow).
  destruct (Nat.eqb_spec j q) as [->|Hj].
  - rewrite Hd. destruct r as [|[|[|[|r]]]]; [| | | |lia];
      repeat match goal with |- context [(?x =? ?y)%nat] =>
        destruct (Nat.eqb_spec x y); [try lia|try lia] end;
      rewrite ?(Hz (4 * q)%nat), ?(Hz (4 * q + 1)%nat), ?(Hz (4 * q + 2)%nat), ?(Hz (4 * q + 3)%nat) by lia;
      change (8 * Z.of_nat 0) with 0; change (8 * Z.of_nat 1) with 8; change (8 * Z.of_nat 2) with 16;
      change (8 * Z.of_nat 3) with 24; lia.
  - repeat match goal with |- context [(?x =? ?y)%nat] =>
        destruct (Nat.eqb_spec x y); [lia|] end. done.
Qed.

(** The bytes of the last word that are not there yet are zero. *)
Lemma word_partial m :
  Forall byte m -> 0 <= word m (length m / 4) < 2 ^ (8 * Z.of_nat (length m mod 4)).
Proof.
  intros Hm. pose proof (Nat.div_mod_eq (length m) 4) as Hd.
  pose proof (Nat.mod_upper_bound (length m) 4 ltac:(lia)) as Hr.
  unfold word. set (q := (length m / 4)%nat) in *. set (r := (length m mod 4)%nat) in *.
  assert (forall k, (length m <= k)%nat -> nth k m 0 = 0) as Hz by (intros k Hk; by apply nth_overflow).
  pose proof (byte_nth m (4 * q) Hm). pose proof (byte_nth m (4 * q + 1) Hm).
  pose proof (byte_nth m (4 * q + 2) Hm). unfold byte in *.
  destruct r as [|[|[|[|r]]]]; [| | | |lia];
    rewrite ?(Hz (4 * q)%nat), ?(Hz (4 * q + 1)%nat), ?(Hz (4 * q + 2)%nat), ?(Hz (4 * q + 3)%nat) by lia;
    change (8 * Z.of_nat 0) with 0; change (8 * Z.of_nat 1) with 8; change (8 * Z.of_nat 2) with 16;
    change (8 * Z.of_nat 3) with 24; lia.
Qed.

(** The byte positions of the code, for a message that is not too long. *)
Definition short (n : nat) : Prop := 8 * Z.of_nat n < 2 ^ 31.

Lemma char_pos n : short n ->
  js_shr (8 * Z.of_nat n) 5 = Z.of_nat (n / 4)
  /\ 8 * Z.of_nat n mod 32 = 8 * Z.of_nat (n mod 4).
Proof.
  intros Hn. unfold js_shr. unfold short in Hn. rewrite i32_small by lia.
  change (5 mod 32) with 5. rewrite Z.shiftr_div_pow2 by lia. change (2 ^ 5) with (8 * 4).
  rewrite Z.div_mul_cancel_l by lia. change 32 with (8 * 4). rewrite Z.mul_mod_distr_l by lia.
  by rewrite Nat2Z.inj_div, Nat2Z.inj_mod.
Qed.

Lemma put_char_represents x m ch :
  represents x m -> Forall byte m -> short (length m) -> byte ch ->
  represents (put_char x (length m) ch) (m ++ [ch]).
Proof.
  intros Hx Hm Hn Hch j. unfold put_char. cbv zeta. destruct (char_pos _ Hn) as [-> ->].
  rewrite arr_get_set by lia. rewrite word_snoc.
  destruct (Nat.eqb_spec j (length m / 4)) as [->|Hj].
  - rewrite Z.eqb_refl. pose proof (Nat.mod_upper_bound (length m) 4 ltac:(lia)).
    set (k := 8 * Z.of_nat (length m mod 4)). assert (0 <= k < 32) as Hk by lia.
    rewrite js_and_byte, i32_mod, Z.mod_small by (unfold byte in Hch; lia).
    transitivity (u32 (Z.lor (Z.shiftl ch k) (word m (length m / 4)))).
    + unfold js_or32. rewrite Z.lor_comm. apply u32_or_congr; rewrite u32_i32; [by apply u32_shl|].
      rewrite Hx. symmetry. apply u32_small. by apply word_range.
    + rewrite lor_disjoint_add by (try apply word_partial; done || lia).
      rewrite Z.shiftl_mul_pow2 by lia. rewrite Z.add_comm, (Z.mul_comm ch).
      rewrite u32_small; [done|].
      assert (word (m ++ [ch]) (length m / 4) = word m (length m / 4) + 2 ^ k * ch) as <-
        by (by rewrite word_snoc, Nat.eqb_refl).
      apply word_range. apply Forall_app. split; [done|by apply Forall_singleton].
  - rewrite (proj2 (Z.eqb_neq _ _)) by lia. apply Hx.
Qed.

Lemma put_char_length x j ch :
  short j -> length (put_char x j ch) = Nat.max (length x) (j / 4 + 1).
Proof.
  intros Hj. unfold put_char. cbv zeta. destruct (char_pos _ Hj) as [-> _].
  apply Nat2Z.inj. rewrite arr_set_length by lia. lia.
Qed.

Lemma put_chars_spec input x m :
  represents x m -> Forall byte m -> Forall byte input -> short (length (m ++ input)) ->
  represents (put_chars x (length m) input) (m ++ input)
  /\ length (put_chars x (length m) input) =
     match input with [] => length x | _ => Nat.max (length x) ((length (m ++ input) + 3) / 4) end.
Proof.
  revert x m. induction input as [|ch input IH]; intros x m Hx Hm Hi Hs; cbn [put_chars].
  { by rewrite app_nil_r. }
  apply Forall_cons in Hi as [Hch Hi].
  assert (short (length m)) as Hsm by (unfold short in *; rewrite length_app in Hs; lia).
  specialize (IH (put_char x (length m) ch) (m ++ [ch])).
  rewrite <- app_assoc in IH. cbn [app] in IH.
  replace (length (m ++ [ch])) with (S (length m)) in IH by (rewrite length_app; cbn; lia).
  destruct IH as [H1 H2]; [by apply put_char_represents|apply Forall_app; split; [done|by apply Forall_singleton]|done|done|].
  split; [done|]. rewrite H2, put_char_length by done. rewrite length_app in *. cbn [length].
  destruct input as [|ch' input]; cbn [length] in *.
  - replace (length m + 1 + 3)%nat with (length m + 1 * 4)%nat by lia. rewrite Nat.div_add by lia. lia.
  - assert (length m / 4 + 1 <= (length m + S (S (length input)) + 3) / 4)%nat; [|lia].
    transitivity ((length m + 1 * 4) / 4)%nat; [rewrite Nat.div_add by lia; lia|].
    apply Nat.Div0.div_le_mono. lia.
Qed.

Lemma zeros_represent n : represents (repeat 0 n) [].
Proof.
  intros j. unfold arr_get. rewrite (proj2 (Z.ltb_ge _ 0)) by lia.
  rewrite nth_repeat0. unfold word. by rewrite !nth_overflow by (cbn; lia).
Qed.

Lemma rstr2binl_spec m :
  Forall byte m -> short (length m) ->
  represents (rstr2binl m) m /\ length (rstr2binl m) = ((length m + 3) / 4)%nat.
Proof.
  intros Hm Hs. unfold rstr2binl.
  destruct (put_chars_spec m (repeat 0 (Z.to_nat (js_shr (Z.of_nat (length m)) 2))) []
    (zeros_represent _) (Forall_nil_2 _) Hm Hs) as [H1 H2].
  split; [exact H1|]. cbn [app length] in *. rewrite H2, repeat_length.
  unfold short in Hs. unfold js_shr. rewrite i32_small by lia. change (2 mod 32) with 2.
  rewrite Z.shiftr_div_pow2 by lia. change (2 ^ 2) with (Z.of_nat 4).
  rewrite <- Nat2Z.inj_div, Nat2Z.id.
  assert (length m / 4 <= (length m + 3) / 4)%nat by (apply Nat.Div0.div_le_mono; lia).
  destruct m; cbn [length] in *; [done|lia].
Qed.

(** * Padding *)
Definition last_block (n : nat) : nat := (n + 8) / 64.

Lemma zeros_end n : (n + 1 + zeros n = 64 * last_block n + 56)%nat.
Proof.
  unfold zeros, last_block. apply Nat2Z.inj.
  pose proof (Z.mod_pos_bound (55 - Z.of_nat n) 64 ltac:(lia)).
  pose proof (Z.div_mod (55 - Z.of_nat n) 64 ltac:(lia)).
  rewrite !Nat2Z.inj_add, Nat2Z.inj_mul, Nat2Z.inj_div, Z2Nat.id, Nat2Z.inj_add by lia.
  assert ((Z.of_nat n + Z.of_nat 8) / Z.of_nat 64 = - ((55 - Z.of_nat n) / 64)) as ->; [|lia].
  symmetry. apply (Z.div_unique _ _ _ (63 - (55 - Z.of_nat n) mod 64)); lia.
Qed.

Lemma length_pad m : length (pad m) = (64 * S (last_block (length m)))%nat.
Proof.
  unfold pad. rewrite !length_app, repeat_length. unfold le_bytes. rewrite length_map, length_seq.
  cbn [length]. pose proof (zeros_end (length m)). lia.
Qed.

Lemma nth_app0 (l1 l2 : list Z) k :
  nth k (l1 ++ l2) 0 = if (k <? length l1)%nat then nth k l1 0 else nth (k - length l1) l2 0.
Proof.
  destruct (Nat.ltb_spec k (length l1)); [by apply app_nth1|by apply app_nth2].
Qed.

Lemma nth_le_bytes n v k :
  nth k (le_bytes n v) 0 = if (k <? n)%nat then Z.shiftr v (8 * Z.of_nat k) mod 256 else 0.
Proof.
  unfold le_bytes. destruct (Nat.ltb_spec k n).
  - rewrite (nth_indep _ 0 ((fun k => Z.shiftr v (8 * Z.of_nat k) mod 256) 0%nat))
      by (by rewrite length_map, length_seq).
    rewrite (map_nth (fun k => Z.shiftr v (8 * Z.of_nat k) mod 256)). by rewrite seq_nth.
  - apply nth_overflow. by rewrite length_map, length_seq.
Qed.

(** A byte of the padded message. *)
Lemma nth_pad m k :
  short (length m) ->
  nth k (pad m) 0 =
  if (k <? 64 * last_block (length m) + 56)%nat then nth k (m ++ [128]) 0
  else if (k <? 64 * last_block (length m) + 60)%nat
  then Z.shiftr (8 * Z.of_nat (length m)) (8 * Z.of_nat (k - (64 * last_block (length m) + 56))) mod 256
  else 0.
Proof.
  intros Hs. unfold pad. rewrite !app_assoc, <- app_assoc. rewrite (nth_app0 (m ++ [128])).
  pose proof (zeros_end (length m)) as Hz. rewrite length_app. cbn [length].
  rewrite (nth_app0 (repeat 0 _)), repeat_length. set (e := (64 * last_block (length m) + 56)%nat) in *.
  destruct (Nat.ltb_spec k (length m + 1)).
  { rewrite (proj2 (Nat.ltb_lt k e)) by lia. done. }
  destruct (Nat.ltb_spec (k - (length m + 1)) (zeros (length m))).
  { rewrite (proj2 (Nat.ltb_lt k e)) by lia. rewrite nth_repeat0.
    symmetry. apply nth_overflow. rewrite length_app. cbn. lia. }
  rewrite (proj2 (Nat.ltb_ge k e)) by lia.
  replace (k - (length m + 1) - zeros (length m))%nat with (k - e)%nat by lia.
  rewrite nth_le_bytes. replace (64 * last_block (length m) + 60)%nat with (e + 4)%nat by lia.
  destruct (Nat.ltb_spec k (e + 4)).
  { by rewrite (proj2 (Nat.ltb_lt (k - e) 8)) by lia. }
  case_match; [|done]. unfold short in Hs. rewrite Z.shiftr_div_pow2 by lia.
  rewrite Z.div_small; [done|]. split; [lia|].
  eapply Z.lt_le_trans; [exact Hs|]. apply Z.pow_le_mono_r; lia.
Qed.

(** A number below 2^32 is the word of its four bytes. *)
Lemma le_word v : 0 <= v < B32 ->
  v mod 256 + 2 ^ 8 * (Z.shiftr v 8 mod 256) + 2 ^ 16 * (Z.shiftr v 16 mod 256)
  + 2 ^ 24 * (Z.shiftr v 24 mod 256) = v.
Proof.
  intros Hv. rewrite !Z.shiftr_div_pow2 by lia. unfold B32 in Hv.
  change (2 ^ 8) with 256. change (2 ^ 16) with (256 * 256). change (2 ^ 24) with (256 * 256 * 256).
  rewrite <- !Z.div_div by lia.
  pose proof (Z.div_mod v 256 ltac:(lia)). pose proof (Z.div_mod (v / 256) 256 ltac:(lia)).
  pose proof (Z.div_mod (v / 256 / 256) 256 ltac:(lia)).
  assert (v / 256 / 256 / 256 < 256) by (repeat apply Z.div_lt_upper_bound; lia).
  assert (0 <= v / 256 / 256 / 256) by (repeat apply Z.div_pos; lia).
  rewrite (Z.mod_small (v / 256 / 256 / 256)) by lia. lia.
Qed.

Lemma word_pad m j :
  Forall byte m -> short (length m) ->
  word (pad m) j = if (j =? 16 * last_block (length m) + 14)%nat then 8 * Z.of_nat (length m)
                   else word (m ++ [128]) j.
Proof.
  intros Hm Hs. unfold word. rewrite !nth_pad by done.
  pose proof (zeros_end (length m)). set (q := last_block (length m)) in *.
  destruct (Nat.eqb_spec j (16 * q + 14)) as [->|Hj].
  - repeat match goal with |- context [(?x <? ?y)%nat] =>
      destruct (Nat.ltb_spec x y); [try lia|try lia] end.
    replace (4 * (16 * q + 14) - (64 * q + 56))%nat with 0%nat by lia.
    replace (4 * (16 * q + 14) + 1 - (64 * q + 56))%nat with 1%nat by lia.
    replace (4 * (16 * q + 14) + 2 - (64 * q + 56))%nat with 2%nat by lia.
    replace (4 * (16 * q + 14) + 3 - (64 * q + 56))%nat with 3%nat by lia.
    change (8 * Z.of_nat 0) with 0. change (8 * Z.of_nat 1) with 8. change (8 * Z.of_nat 2) with 16.
    change (8 * Z.of_nat 3) with 24. rewrite Z.shiftr_0_r. apply le_word. unfold short, B32 in *. lia.
  - assert (forall k, (length m < k)%nat -> nth k (m ++ [128]) 0 = 0) as Hz
      by (intros k Hk; apply nth_overflow; rewrite length_app; cbn; lia).
    repeat match goal with |- context [(?x <? ?y)%nat] => destruct (Nat.ltb_spec x y); [try done|] end;
      try lia; by rewrite !Hz by lia.
Qed.

(** What the two writes of [binlMD5] make of the array. *)
Definition padded (x : list Z) (len : Z) : list Z :=
  let p := js_shr len 5 in
  let x := arr_set x p (js_or32 (arr_get x p) (js_shl 0x80 (len mod 32))) in
  arr_set x (js_shl (js_ushr (len + 64) 9) 4 + 14) len.

Lemma padded_spec x m :
  represents x m -> Forall byte m -> short (length m + 8) -> (length x <= (length m + 3) / 4)%nat ->
  represents (padded x (8 * Z.of_nat (length m))) (pad m)
  /\ length (padded x (8 * Z.of_nat (length m))) = (16 * last_block (length m) + 15)%nat.
Proof.
  intros Hx Hm Hs Hl. assert (short (length m)) as Hs' by (unfold short in *; lia).
  set (n := length m) in *.
  assert (padded x (8 * Z.of_nat n) =
    arr_set (put_char x n 128) (js_shl (js_ushr (8 * Z.of_nat n + 64) 9) 4 + 14) (8 * Z.of_nat n)) as ->
    by reflexivity.
  assert (js_shl (js_ushr (8 * Z.of_nat n + 64) 9) 4 + 14 = Z.of_nat (16 * last_block n + 14)) as ->.
  { unfold short in Hs. unfold js_ushr. change (9 mod 32) with 9. rewrite u32_small by (unfold B32; lia).
    rewrite Z.shiftr_div_pow2 by lia. replace (8 * Z.of_nat n + 64) with (8 * Z.of_nat (n + 8)) by lia.
    change (2 ^ 9) with (8 * Z.of_nat 64). rewrite Z.div_mul_cancel_l by lia.
    rewrite <- Nat2Z.inj_div. fold (last_block n).
    assert (last_block n <= n + 8)%nat by (apply Nat.Div0.div_le_upper_bound; lia).
    unfold js_shl. change (4 mod 32) with 4. rewrite (i32_small (Z.of_nat _)) by lia. rewrite Z.shiftl_mul_pow2 by lia.
    assert (64 * last_block n <= n + 8)%nat by (apply Nat.Div0.mul_div_le).
    rewrite i32_small by lia. lia. }
  assert (represents (put_char x n 128) (m ++ [128])) as Hp
    by (apply put_char_represents; try done; unfold byte; lia).
  split.
  - intros j. rewrite arr_get_set by lia. rewrite word_pad by done. fold n.
    destruct (Nat.eqb_spec j (16 * last_block n + 14)) as [->|Hj].
    + rewrite Z.eqb_refl. apply u32_small. unfold short, B32 in *. lia.
    + rewrite (proj2 (Z.eqb_neq _ _)) by lia. apply Hp.
  - apply Nat2Z.inj. rewrite arr_set_length, put_char_length by (done || lia).
    pose proof (zeros_end n). 
    assert (n / 4 < 16 * last_block n + 15)%nat by (apply Nat.Div0.div_lt_upper_bound; lia).
    assert ((n + 3) / 4 <= n / 4 + 1)%nat; [|lia].
    transitivity ((n + 1 * 4) / 4)%nat; [apply Nat.Div0.div_le_mono; lia|].
    rewrite Nat.div_add by lia. lia.
Qed.

(** * The whole digest *)
Definition block_words (m : list Z) (k : nat) : nat -> Z := fun j => word (pad m) (16 * k + j).

Lemma fold_compress x m q :
  represents x (pad m) -> length x = (16 * q + 15)%nat ->
  forall f k st, (q + 1 - k <= f)%nat -> (k <= q + 1)%nat ->
  view a (blocks f x (16 * Z.of_nat k) st) =
  fold_left (fun st k => compress (block_words m k) st) (seq k (q + 1 - k)) (view a st).
Proof.
  intros Hx Hl. induction f as [|f IH]; intros k st Hf Hk; cbn [blocks].
  { replace (q + 1 - k)%nat with 0%nat by lia. done. }
  destruct (Z.ltb_spec (16 * Z.of_nat k) (Z.of_nat (length x))) as [Hlt|Hge].
  - assert (k <= q)%nat by lia. replace (q + 1 - k)%nat with (S (q + 1 - S k)) by lia.
    cbn [seq fold_left]. replace (16 * Z.of_nat k + 16) with (16 * Z.of_nat (S k)) by lia.
    rewrite IH by lia. f_equal. apply block_compress. intros j Hj.
    replace (16 * Z.of_nat k + Z.of_nat j) with (Z.of_nat (16 * k + j)) by lia. apply Hx.
  - replace (q + 1 - k)%nat with 0%nat by lia. done.
Qed.

Definition words_of (st : Z * Z * Z * Z) : list Z := let '(A, B, C, D) := st in [A; B; C; D].

Lemma binlMD5_spec x m :
  represents x m -> Forall byte m -> short (length m + 8) -> (length x <= (length m + 3) / 4)%nat ->
  map u32 (binlMD5 x (8 * Z.of_nat (length m))) = words_of (digest_words m).
Proof.
  intros Hx Hm Hs Hl. destruct (padded_spec x m Hx Hm Hs Hl) as [Hp Hlen].
  unfold binlMD5. fold (padded x (8 * Z.of_nat (length m))).
  set (x' := padded x (8 * Z.of_nat (length m))) in *. set (q := last_block (length m)) in *.
  pose proof (fold_compress x' m q Hp Hlen (length x') 0%nat init_regs ltac:(lia) ltac:(lia)) as Hf.
  rewrite Nat.sub_0_r in Hf. change (16 * Z.of_nat 0) with 0 in Hf.
  unfold digest_words. rewrite length_pad. fold q. rewrite Nat.mul_comm, Nat.div_mul by lia.
  replace (S q) with (q + 1)%nat by lia. change init with (view a init_regs).
  transitivity (words_of (view a (blocks (length x') x' 0 init_regs)));
    [by destruct (blocks _ _ _ _)|]. f_equal. exact Hf.
Qed.

Lemma byte_of_word w t :
  0 <= t < 32 -> js_and (js_ushr w t) 0xff = Z.shiftr (u32 w) t mod 256.
Proof.
  intros Ht. rewrite js_and_byte, i32_mod by lia. unfold js_ushr. by rewrite (Z.mod_small t) by lia.
Qed.

Lemma binl2rstr_words w0 w1 w2 w3 :
  binl2rstr [w0; w1; w2; w3] = concat (map (fun w => le_bytes 4 (u32 w)) [w0; w1; w2; w3]).
Proof.
  unfold binl2rstr, le_bytes. cbn [length Nat.mul Nat.add seq map concat app].
  repeat first [f_equal; [apply byte_of_word; vm_compute; split; congruence|]
               |f_equal; apply byte_of_word; vm_compute; split; congruence].
Qed.

Lemma write_digest x m : map u32 x = words_of (digest_words m) -> binl2rstr x = digest m.
Proof.
  intros H. unfold digest. destruct (digest_words m) as [[[A B] C] D].
  destruct x as [|w0 [|w1 [|w2 [|w3 [|]]]]]; try done.
  rewrite binl2rstr_words. cbn [map words_of] in H. injection H as <- <- <- <-.
  cbn [map concat]. by rewrite app_nil_r.
Qed.

Lemma rstrMD5_digest m : Forall byte m -> short (length m + 8) -> rstrMD5 m = digest m.
Proof.
  intros Hm Hs. assert (short (length m)) as Hs' by (unfold short in *; lia).
  destruct (rstr2binl_spec m Hm Hs') as [Hr Hl].
  unfold rstrMD5. rewrite Z.mul_comm. apply write_digest, binlMD5_spec; [done..|lia].
Qed.

(** * HMAC *)
Lemma lxor_byte p h p' h' :
  byte p -> byte p' -> Z.lxor (p + 256 * h) (p' + 256 * h') = Z.lxor p p' + 256 * Z.lxor h h'.
Proof.
  intros Hp Hp'. unfold byte in *.
  assert (forall q k, 0 <= q < 256 -> q + 256 * k = Z.lxor (Z.shiftl k 8) q) as E.
  { intros q k Hq. assert (q + 256 * k = Z.shiftl k 8 + q) as -> by (rewrite Z.shiftl_mul_pow2; lia).
    rewrite <- lor_disjoint_add by lia. symmetry. apply Z.lxor_lor.
    apply Z.bits_inj'. intros n Hn. rewrite Z.land_spec, Z.bits_0. destruct (Z.ltb_spec n 8).
    - by rewrite Z.shiftl_spec_low by lia.
    - rewrite <- (Z.mod_small q (2 ^ 8)) by lia. rewrite Z.mod_pow2_bits_high by lia. apply andb_false_r. }
  assert (0 <= Z.lxor p p' < 256) as Hx.
  { split; [apply Z.lxor_nonneg; lia|]. destruct (Z.eq_dec (Z.lxor p p') 0) as [->|]; [lia|].
    apply (Z.log2_lt_pow2 _ 8); [pose proof (proj2 (Z.lxor_nonneg p p')); lia|].
    eapply Z.le_lt_trans; [apply Z.log2_lxor; lia|].
    apply Z.max_lub_lt; (eapply Z.le_lt_trans; [apply (Z.log2_le_mono _ 255); lia|reflexivity]). }
  rewrite !E by lia. rewrite Z.shiftl_lxor, !Z.lxor_assoc. f_equal.
  rewrite <- !Z.lxor_assoc. f_equal. apply Z.lxor_comm.
Qed.

Lemma nth_map_xor v l k : (k < length l)%nat -> nth k (map (Z.lxor v) l) 0 = Z.lxor v (nth k l 0).
Proof.
  intros Hk. rewrite (nth_indep _ 0 (Z.lxor v 0)) by (by rewrite length_map). apply map_nth.
Qed.

Lemma word_xor v l j :
  Forall byte l -> byte v -> (4 * j + 3 < length l)%nat ->
  word (map (Z.lxor v) l) j = Z.lxor (word l j) (v + 2 ^ 8 * v + 2 ^ 16 * v + 2 ^ 24 * v).
Proof.
  intros Hl Hv Hj. unfold word. rewrite !nth_map_xor by lia.
  pose proof (byte_nth l (4 * j) Hl) as H0. pose proof (byte_nth l (4 * j + 1) Hl) as H1.
  pose proof (byte_nth l (4 * j + 2) Hl) as H2. pose proof (byte_nth l (4 * j + 3) Hl) as H3.
  set (p0 := nth (4 * j) l 0) in *. set (p1 := nth (4 * j + 1) l 0) in *.
  set (p2 := nth (4 * j + 2) l 0) in *. set (p3 := nth (4 * j + 3) l 0) in *.
  replace (p0 + 2 ^ 8 * p1 + 2 ^ 16 * p2 + 2 ^ 24 * p3) with (p0 + 256 * (p1 + 256 * (p2 + 256 * p3))) by lia.
  replace (v + 2 ^ 8 * v + 2 ^ 16 * v + 2 ^ 24 * v) with (v + 256 * (v + 256 * (v + 256 * v))) by lia.
  rewrite !lxor_byte by done. rewrite !(Z.lxor_comm v). lia.
Qed.

Lemma u32_xor x y : u32 (js_xor x y) = Z.lxor (u32 x) (u32 y).
Proof.
  apply Z.bits_inj'. intros n Hn. unfold js_xor. rewrite Z.lxor_spec, !u32_testbit by done.
  destruct (Z.ltb_spec n 32); [|done]. rewrite Z.lxor_spec. by rewrite !i32_testbit by lia.
Qed.

(** The words of a key pad. *)
Definition pad_words (bkey : list Z) (C : Z) : list Z :=
  map (fun i => js_xor (arr_get bkey (Z.of_nat i)) C) (seq 0 16).

Lemma pad_words_represent bkey l v :
  represents bkey l -> Forall byte l -> length l = 64%nat -> byte v ->
  represents (pad_words bkey (v + 2 ^ 8 * v + 2 ^ 16 * v + 2 ^ 24 * v)) (map (Z.lxor v) l).
Proof.
  intros Hr Hl Hn Hv j. rewrite arr_get_nat.
  destruct (Nat.lt_ge_cases j 16) as [Hj|Hj].
  - rewrite word_xor by (done || lia). unfold pad_words.
    set (f := fun i : nat => js_xor (arr_get bkey (Z.of_nat i)) (v + 2 ^ 8 * v + 2 ^ 16 * v + 2 ^ 24 * v)).
    rewrite (nth_indep _ 0 (f 0%nat)) by (by rewrite length_map, length_seq).
    rewrite (map_nth f), seq_nth by done. unfold f. rewrite u32_xor, Hr.
    by rewrite (u32_small (v + _ + _ + _)) by (unfold byte, B32 in *; lia).
  - rewrite nth_overflow by (unfold pad_words; by rewrite length_map, length_seq).
    unfold word. by rewrite !nth_overflow by (rewrite length_map; lia).
Qed.

Lemma represents_app x1 m1 x2 m2 :
  represents x1 m1 -> represents x2 m2 -> length m1 = (4 * length x1)%nat ->
  represents (x1 ++ x2) (m1 ++ m2).
Proof.
  intros H1 H2 Hl j. specialize (H1 j). specialize (H2 (j - length x1)%nat).
  rewrite arr_get_nat in *.
  unfold word in *. rewrite !nth_app0. destruct (Nat.ltb_spec j (length x1)).
  - rewrite H1. by rewrite !(proj2 (Nat.ltb_lt _ (length m1))) by lia.
  - rewrite !(proj2 (Nat.ltb_ge _ (length m1))) by lia. rewrite H2, Hl.
    repeat (f_equal; try lia).
Qed.

Lemma represents_zeros x m n : represents x m -> represents x (m ++ repeat 0 n).
Proof.
  intros H j. rewrite H. unfold word. 
  assert (forall k, nth k (m ++ repeat 0 n) 0 = nth k m 0) as E; [|by rewrite !E].
  intros k. rewrite nth_app0. destruct (Nat.ltb_spec k (length m)); [done|].
  by rewrite nth_repeat0, nth_overflow.
Qed.

Lemma length_le_bytes n v : length (le_bytes n v) = n.
Proof. unfold le_bytes. by rewrite length_map, length_seq. Qed.
Lemma le_bytes_byte n v : Forall byte (le_bytes n v).
Proof.
  apply Forall_forall. intros z (k & -> & _)%list_elem_of_fmap. by apply Z.mod_pos_bound.
Qed.
Lemma length_digest m : length (digest m) = 16%nat.
Proof. unfold digest. destruct (digest_words m) as [[[A B] C] D]. by rewrite !length_app, !length_le_bytes. Qed.
Lemma digest_byte m : Forall byte (digest m).
Proof.
  unfold digest. destruct (digest_words m) as [[[A B] C] D].
  repeat (apply Forall_app; split); apply le_bytes_byte.
Qed.

Lemma word_le_bytes v : 0 <= v < B32 -> represents [v] (le_bytes 4 v).
Proof.
  intros Hv j. rewrite arr_get_nat.
  unfold word. rewrite !nth_le_bytes. destruct j as [|j].
  - cbn [nth Nat.mul Nat.add]. change ((0 <? 4)%nat) with true. change ((1 <? 4)%nat) with true.
    change ((2 <? 4)%nat) with true. change ((3 <? 4)%nat) with true. cbn iota.
    change (8 * Z.of_nat 0) with 0. change (8 * Z.of_nat 1) with 8. change (8 * Z.of_nat 2) with 16.
    change (8 * Z.of_nat 3) with 24. rewrite Z.shiftr_0_r, le_word by done. by apply u32_small.
  - rewrite !(proj2 (Nat.ltb_ge _ 4)) by lia. by destruct j.
Qed.

(** The array of a hash represents the digest. *)
Lemma hash_represents x m :
  represents x m -> Forall byte m -> short (length m + 8) -> (length x <= (length m + 3) / 4)%nat ->
  represents (binlMD5 x (8 * Z.of_nat (length m))) (digest m)
  /\ length (binlMD5 x (8 * Z.of_nat (length m))) = 4%nat.
Proof.
  intros Hx Hm Hs Hl. pose proof (binlMD5_spec x m Hx Hm Hs Hl) as H. unfold digest.
  destruct (binlMD5 x _) as [|w0 [|w1 [|w2 [|w3 [|]]]]] eqn:E;
    try (by destruct (digest_words m) as [[[] ]]).
  split; [|done]. destruct (digest_words m) as [[[A B] C] D].
  cbn [map words_of] in H. injection H as <- <- <- <-.
  assert (forall w, represents [w] (le_bytes 4 (u32 w))) as Hw.
  { intros w j. rewrite <- (word_le_bytes (u32 w) (u32_range w) j).
    rewrite !arr_get_nat. destruct j as [|[|?]]; cbn; by rewrite ?u32_idem. }
  change [w0; w1; w2; w3] with ([w0] ++ [w1] ++ [w2] ++ [w3]).
  repeat (apply represents_app; [apply Hw| |by rewrite length_le_bytes]). apply Hw.
Qed.

Lemma zeros_byte n : Forall byte (repeat 0 n).
Proof. induction n as [|n IH]; cbn; constructor; [unfold byte; lia|done]. Qed.

Lemma xor_byte v l : Forall byte l -> byte v -> Forall byte (map (Z.lxor v) l).
Proof.
  intros Hl Hv. apply Forall_map. eapply Forall_impl; [exact Hl|]. intros z Hz. unfold byte in *. cbn beta.
  split; [apply Z.lxor_nonneg; lia|]. destruct (Z.eq_dec (Z.lxor v z) 0) as [->|]; [lia|].
  apply (Z.log2_lt_pow2 _ 8); [pose proof (proj2 (Z.lxor_nonneg v z)); lia|].
  eapply Z.le_lt_trans; [apply Z.log2_lxor; lia|].
  apply Z.max_lub_lt; (eapply Z.le_lt_trans; [apply (Z.log2_le_mono _ 255); lia|reflexivity]).
Qed.

Lemma rstrHMACMD5_hmac key data :
  Forall byte key -> Forall byte data -> short (length key + 8) -> short (64 + length data + 8) ->
  rstrHMACMD5 key data = hmac key data.
Proof.
  intros Hk Hd Hsk Hsd. assert (short (length key)) as Hsk' by (unfold short in *; lia).
  assert (short (length data)) as Hsd' by (unfold short in *; lia).
  destruct (rstr2binl_spec key Hk Hsk') as [Hr Hl]. destruct (rstr2binl_spec data Hd Hsd') as [Hrd Hld].
  unfold rstrHMACMD5, hmac. cbv zeta.
  set (bkey := if (16 <? _)%nat then _ else _). set (k := hmac_key key).
  assert (represents bkey k /\ Forall byte k /\ length k = 64%nat) as (Hrk & Hbk & Hlk).
  { subst bkey k. unfold hmac_key. rewrite Hl.
    assert ((16 <? (length key + 3) / 4)%nat = (64 <? length key)%nat) as ->.
    { apply eq_true_iff_eq. rewrite !Nat.ltb_lt. split; intros H.
      - destruct (Nat.lt_ge_cases 64 (length key)); [done|].
        assert ((length key + 3) / 4 <= 67 / 4)%nat by (apply Nat.Div0.div_le_mono; lia).
        change (67 / 4)%nat with 16%nat in *. lia.
      - assert (68 / 4 <= (length key + 3) / 4)%nat by (apply Nat.Div0.div_le_mono; lia).
        change (68 / 4)%nat with 17%nat in *. lia. }
    destruct (Nat.ltb_spec 64 (length key)).
    - rewrite Z.mul_comm. destruct (hash_represents _ _ Hr Hk Hsk ltac:(lia)) as [Hh _].
      split_and!; [by apply represents_zeros| |].
      + apply Forall_app. split; [apply digest_byte|apply zeros_byte].
      + rewrite length_app, repeat_length, length_digest. lia.
    - split_and!; [by apply represents_zeros| |].
      + apply Forall_app. split; [done|apply zeros_byte].
      + rewrite length_app, repeat_length. lia. }
  fold (pad_words bkey 0x36363636) (pad_words bkey 0x5c5c5c5c).
  set (im := map (Z.lxor 0x36) k). set (om := map (Z.lxor 0x5c) k).
  assert (length im = 64%nat /\ length om = 64%nat) as [Hli Hlo] by (subst im om; by rewrite !length_map).
  assert (Forall byte im /\ Forall byte om) as [Hbi Hbo] by (split; apply xor_byte; (done || (unfold byte; lia))).
  pose proof (pad_words_represent bkey k 0x36 Hrk Hbk Hlk ltac:(unfold byte; lia)) as Hi.
  pose proof (pad_words_represent bkey k 0x5c Hrk Hbk Hlk ltac:(unfold byte; lia)) as Ho.
  fold im in Hi. fold om in Ho.
  assert (length (im ++ data) = (64 + length data)%nat) as Hlm by (rewrite length_app; lia).
  destruct (hash_represents (pad_words bkey 0x36363636 ++ rstr2binl data) (im ++ data)) as [Hin Hin4].
  { apply represents_app; [exact Hi|done|]. by rewrite Hli. }
  { by apply Forall_app. }
  { by rewrite Hlm. }
  { rewrite Hlm, length_app, Hld. unfold pad_words. rewrite length_map, length_seq.
    replace (64 + length data + 3)%nat with (length data + 3 + 16 * 4)%nat by lia.
    rewrite Nat.div_add by lia. lia. }
  rewrite Hlm in Hin, Hin4. replace (8 * Z.of_nat (64 + length data)) with (512 + Z.of_nat (length data) * 8) in * by lia.
  set (hash := binlMD5 _ (512 + _)) in *.
  assert (length (om ++ digest (im ++ data)) = 80%nat) as Hl2 by (rewrite length_app, length_digest; lia).
  apply write_digest.
  assert (512 + 128 = 8 * Z.of_nat (length (om ++ digest (im ++ data)))) as -> by (by rewrite Hl2).
  apply binlMD5_spec.
  { apply represents_app; [exact Ho|done|]. by rewrite Hlo. }
  { apply Forall_app. split; [done|apply digest_byte]. }
  { rewrite Hl2. unfold short. lia. }
  { rewrite Hl2, length_app, Hin4. unfold pad_words. rewrite length_map, length_seq. cbn. lia. }
Qed.

(** * Strings *)
Definition code_unit (u : Z) : Prop := 0 <= u < 0x10000.

#[export] Instance code_unit_dec u : Decision (code_unit u).
Proof. unfold code_unit. apply _. Defined.

Lemma utf8_bytes_byte r : 0 <= r < 0x110000 -> Forall byte (utf8_bytes r).
Proof.
  intros Hr. unfold utf8_bytes.
  repeat (case_match; [repeat (apply Forall_cons; split)|]); repeat (apply Forall_cons; split);
    try apply Forall_nil; unfold byte;
    repeat match goal with
    | H : (_ <? _) = true |- _ => apply Z.ltb_lt in H
    | H : (_ <? _) = false |- _ => apply Z.ltb_ge in H
    end; try lia;
    repeat match goal with |- context [?x mod 64] =>
      pose proof (Z.mod_pos_bound x 64 ltac:(lia)); generalize dependent (x mod 64); intros end;
    repeat match goal with |- context [?x / ?y] =>
      assert (0 <= x / y) by (apply Z.div_pos; lia);
      pose proof (Z.mul_div_le x y ltac:(lia)); generalize dependent (x / y); intros end; lia.
Qed.

Lemma str2rstrUTF8_byte s bytes :
  Forall code_unit s -> str2rstrUTF8 s = Ok bytes -> Forall byte bytes.
Proof.
  remember (length s) as n eqn:En. revert s bytes En.
  induction n as [n IH] using lt_wf_ind. intros [|u l] bytes -> Hs; cbn [str2rstrUTF8].
  { intros [= <-]. constructor. }
  apply Forall_cons in Hs as [Hu Hl]. unfold code_unit in Hu.
  destruct (is_trail u) eqn:Et; [done|]. destruct (is_lead u) eqn:El.
  - destruct l as [|v l]; [done|]. apply Forall_cons in Hl as [Hv Hl]. unfold code_unit in Hv.
    destruct (is_trail v) eqn:Ev; [|done].
    destruct (str2rstrUTF8 l) as [bs|] eqn:E; [|done]. intros [= <-]. apply Forall_app. split.
    + apply utf8_bytes_byte. unfold is_trail, is_lead in *.
      apply andb_true_iff in El as [?%Z.leb_le ?%Z.leb_le].
      apply andb_true_iff in Ev as [?%Z.leb_le ?%Z.leb_le]. lia.
    + eapply (IH (length l)); [cbn; lia|done..].
  - destruct (str2rstrUTF8 l) as [bs|] eqn:E; [|done]. intros [= <-]. apply Forall_app. split.
    + apply utf8_bytes_byte. lia.
    + eapply (IH (length l)); [cbn; lia|done..].
Qed.

(** C25: the library computes MD5: for a string below 256 MB its result is the hexadecimal
    text of the RFC 1321 digest of the string's UTF-8 encoding. *)
Theorem md5_is_rfc1321 s bytes :
  Forall code_unit s -> str2rstrUTF8 s = Ok bytes -> 8 * (Z.of_nat (length bytes) + 8) < 2 ^ 31 ->
  md5 s [] false = Ok (rstr2hex (digest bytes)) /\ md5 s [] true = Ok (digest bytes).
Proof.
  intros Hs Hb Hn. pose proof (str2rstrUTF8_byte s bytes Hs Hb) as Hbb.
  unfold md5, hexMD5, rawMD5. rewrite Hb. cbn [res_map].
  rewrite rstrMD5_digest by (done || (unfold short; lia)). done.
Qed.

Definition ascii_codes : string -> list Z := fun s => map (fun x => Z.of_nat (Ascii.nat_of_ascii x)) (bytes_of s).

Lemma md5_is_rfc1321_witness :
  md5 (ascii_codes "fa-kit") [] false = Ok (rstr2hex (digest (ascii_codes "fa-kit"))).
Proof.
  apply (md5_is_rfc1321 (ascii_codes "fa-kit") (ascii_codes "fa-kit"));
    [by_decide|vm_compute; reflexivity|vm_compute; reflexivity].
Defined.

(** C39: with a key the library computes HMAC-MD5 (RFC 2104), keys longer than a block
    included. *)
Theorem hmac_is_rfc2104 key s kbytes bytes :
  key <> [] -> Forall code_unit key -> Forall code_unit s ->
  str2rstrUTF8 key = Ok kbytes -> str2rstrUTF8 s = Ok bytes ->
  8 * (Z.of_nat (length kbytes) + 8) < 2 ^ 31 -> 8 * (Z.of_nat (length bytes) + 72) < 2 ^ 31 ->
  md5 s key false = Ok (rstr2hex (hmac kbytes bytes)) /\ md5 s key true = Ok (hmac kbytes bytes).
Proof.
  intros Hne Hck Hcs Hk Hb Hlk Hlb. pose proof (str2rstrUTF8_byte _ _ Hck Hk) as Hkb.
  pose proof (str2rstrUTF8_byte _ _ Hcs Hb) as Hbb.
  destruct key as [|k0 key]; [done|]. unfold md5, hexHMACMD5, rawHMACMD5.
  rewrite Hk, Hb. cbn [res_bind res_map].
  rewrite rstrHMACMD5_hmac by (done || (unfold short; lia)). done.
Qed.

Lemma hmac_is_rfc2104_witness :
  md5 (ascii_codes "data") (ascii_codes "key") true
  = Ok (hmac (ascii_codes "key") (ascii_codes "data")).
Proof.
  apply (hmac_is_rfc2104 (ascii_codes "key") (ascii_codes "data") (ascii_codes "key") (ascii_codes "data"));
    [discriminate|by_decide|by_decide|vm_compute; reflexivity|vm_compute; reflexivity
    |vm_compute; reflexivity|vm_compute; reflexivity].
Defined.

(** [safeAdd] is addition modulo 2^32 and [bitRotateLeft] the rotation of 32 bits,
    whatever the signs of their arguments. *)
Theorem words_wrap x y n :
  0 < n < 32 ->
  u32 (safeAdd x y) = (x + y) mod 2 ^ 32
  /\ forall i, 0 <= i < 32 ->
     Z.testbit (u32 (bitRotateLeft x n)) i = Z.testbit (u32 x) ((i - n) mod 32).
Proof.
  intros Hn. split; [apply u32_safeAdd|]. intros i Hi. rewrite u32_rotate by done. unfold rotl.
  rewrite Z.lor_spec, u32_testbit, Z.shiftr_spec by lia. rewrite (proj2 (Z.ltb_lt i 32)) by lia.
  destruct (Z.ltb_spec i n).
  - rewrite Z.shiftl_spec_low by lia. cbn [orb].
    rewrite <- (Z.mod_add _ 1) by lia. rewrite Z.mod_small by lia. f_equal. lia.
  - rewrite Z.shiftl_spec by lia. rewrite (Z.mod_small (i - n)) by lia.
    rewrite (u32_testbit x (i + (32 - n))) by lia. rewrite (proj2 (Z.ltb_ge _ 32)) by lia.
    apply orb_false_r.
Qed.

Lemma words_wrap_witness : u32 (safeAdd (-1) 2147483647) = 2147483646.
Proof. rewrite (proj1 (words_wrap (-1) 2147483647 7 ltac:(lia))). reflexivity. Defined.
