(* ===== verification/ConflictDetect.v ===== *)
(** The detector of [conflict-detection.js]: which nodes of a page it tests, the frames
    it tests them in, the polling loops, the messages it collects and the report.

    Texts are lists of code units below 256.  Durations are whole milliseconds; a
    setting that is no number is [NaN].  The document is given by its link, style and
    script elements; a frame's answer depends on what its poll function sees, which is
    an argument. *)
From stdpp Require Import base strings list relations.
From Stdlib Require Import Lia ZArith Ascii.
From S2P Require Import Prelude GoStrings JsObj JsInt ConflictMd5.
#[local] Open Scope Z_scope.

(** * Nodes *)

(** An element of the page, or the data of a message: a property that is missing is
    [None].  [ident] tells elements apart. *)
Record node := mkNode {
  ident : nat; tagName : string; src : option string; href : option string; rel : string;
  innerText : option string; ignored : bool }.

Definition text_or (o : option string) : bool :=
  match o with Some s => negb (str_empty s) | None => false end.

Definition codes (s : string) : list Z := map (fun x => Z.of_nat (nat_of_ascii x)) (bytes_of s).
Definition of_codes (l : list Z) : string := of_bytes (map (fun n => ascii_of_nat (Z.to_nat n)) l).
(** [md5(text)] on a text; without surrogates it cannot throw. *)
Definition md5_text (s : string) : option string :=
  match md5 (codes s) [] false with Ok l => Some (of_codes l) | Err _ => None end.

Definition md5ForNode (n : node) : option string :=
  if text_or (src n) then md5_text (default "" (src n))
  else if text_or (href n) then md5_text (default "" (href n))
  else if text_or (innerText n) then md5_text (default "" (innerText n))
  else None.
(** The property key of an MD5 that may be [undefined]. *)
Definition md5_key (o : option string) : string := default "undefined" o.

Definition diagScriptId : string := "fa-kits-diag".
Definition nodeUnderTestId : string := "fa-kits-node-under-test".
Definition md5Attr : string := "data-md5".
Definition detectionIgnoreAttr : string := "data-fa-detection-ignore".
Definition timeoutAttr : string := "data-fa-detection-timeout".
Definition resultsCollectionMaxWaitAttr : string := "data-fa-detection-results-collection-max-wait".

(** * Polling *)
Inductive duration : Type := NaN | Ms (z : Z).
Definition within (z : Z) (max : duration) : bool :=
  match max with NaN => false | Ms m => z <=? m end.

(** How the promise settles, after how many calls of [fn], and the delays between them. *)
Record settled := mkSettled { resolved : bool; calls : nat; waits : list Z }.

(** [poll(duration, cumulative)]; [fn k] is what the [k]th call answers. *)
Fixpoint poll (fuel : nat) (fn : nat -> bool) (max : duration) (k : nat) (dur cumulative : Z)
  (ws : list Z) : option settled :=
  match fuel with
  | O => None
  | S f =>
      let ws := ws ++ [dur] in
      if fn k then Some (mkSettled true (S k) ws)
      else
        let nextDuration := 250 in
        let nextCumulative := nextDuration + cumulative in
        if within nextCumulative max then poll f fn max (S k) nextDuration nextCumulative ws
        else Some (mkSettled false (S k) ws)
  end.
(** The number of calls a poll can make. *)
Definition max_calls (max : duration) : nat :=
  match max with NaN => 1 | Ms m => S (Z.to_nat (m / 250)) end.
Definition pollUntil (fn : nat -> bool) (initialDuration : Z) (max : duration) : option settled :=
  poll (max_calls max) fn max 0 initialDuration 0 [].

(** * The frames *)
Inductive technology : Type := Webfont | Js.
#[export] Instance technology_eq_dec : EqDecision technology.
Proof. solve_decision. Defined.
Record frame := mkFrame {
  f_tech : technology; f_md5 : option string; f_node : node; f_call : list string }.

Section Page.
(** [window.location.origin] and the [replacementClass] of a loaded toolkit. *)
Variables (origin : string) (replacementClass : option string).

Definition parentOrigin : string := if str_eqb origin "file://" then "*" else origin.

Definition testable_link (t : node) : bool := negb (ignored t).
(** The pattern is the text [svg:not(:root).<class>]; the class has no character that
    is special in a regular expression. *)
Definition testable_style (t : node) : bool :=
  if ignored t then false
  else match replacementClass with
       | Some cls => negb (str_contains ("svg:not(:root)." +:+ cls) (default "" (innerText t)))
       | None => true
       end.

Definition webfont_frame (n : node) (md5 : option string) : frame :=
  let key := md5_key md5 in
  mkFrame Webfont md5 n [nodeUnderTestId; "fa-test-icon-" +:+ key; key; parentOrigin].

Definition link_copy (t : node) : node :=
  mkNode (ident t) "LINK" None (Some (default "undefined" (href t))) (rel t) (Some "") false.
Definition style_copy (t : node) : node :=
  mkNode (ident t) "STYLE" None None "" (Some (default "undefined" (innerText t))) false.

Definition detectWebfontConflicts (links style_tags : list node) : obj node * list frame :=
  let linkTags := List.filter testable_link links in
  let styleTags := List.filter testable_style style_tags in
  let step copy acc t :=
    let md5 := md5ForNode t in
    (set (md5_key md5) t (fst acc), snd acc ++ [webfont_frame (copy t) md5]) in
  fold_left (step style_copy) styleTags (fold_left (step link_copy) linkTags ([], [])).

Definition testable_script (currentScript : nat) (t : node) : bool :=
  negb (ignored t) && negb (ident t =? currentScript)%nat.
Definition script_copy (t : node) : node :=
  mkNode (ident t) "SCRIPT"
    (Some (if bool_decide (src t = Some "") then "" else default "undefined" (src t))) None ""
    (Some (if bool_decide (innerText t = Some "") then "" else default "undefined" (innerText t))) false.
Definition js_frame (n : node) (md5 : option string) : frame :=
  mkFrame Js md5 n [nodeUnderTestId; md5_key md5; parentOrigin].
Definition detectSvgConflicts (currentScript : nat) (scripts : list node) : obj node * list frame :=
  fold_left (fun acc t =>
    let md5 := md5ForNode t in
    (set (md5_key md5) t (fst acc), snd acc ++ [js_frame (script_copy t) md5]))
    (List.filter (testable_script currentScript) scripts) ([], []).

(** * Messages *)
Record message := mkMessage { m_origin : string; m_type : string; m_md5 : string; m_data : node }.

(** What the script in a frame posts when its poll settles. *)
Definition frame_message (f : frame) (conflict : bool) : message :=
  let n := f_node f in
  let data :=
    match f_tech f, conflict with
    | Webfont, true => mkNode (ident n) (tagName n) None (href n) (rel n) (innerText n) false
    | Webfont, false => mkNode (ident n) (tagName n) None (src n) (rel n) (innerText n) false
    | Js, _ => mkNode (ident n) (tagName n) (src n) None (rel n) (innerText n) false
    end in
  mkMessage origin (if conflict then "fontawesome-conflict" else "no-conflict") (md5_key (f_md5 f)) data.

(** The test of a webfont frame: the computed font family of an [fa fa-coffee] icon. *)
Definition fa_font (fontFamily : string) : bool :=
  str_contains "FontAwesome" fontFamily
  || (str_contains "Font Awesome 5" fontFamily || str_contains "Font Awesome 6" fontFamily).

Record tested := mkTested { conflict : obj node; noConflict : obj node }.

(** [window.onmessage] *)
Definition onmessage (t : tested) (m : message) : tested :=
  if str_eqb origin "file://" || str_eqb (m_origin m) origin then
    if str_eqb (m_type m) "fontawesome-conflict"
    then mkTested (set (m_md5 m) (m_data m) (conflict t)) (noConflict t)
    else if str_eqb (m_type m) "no-conflict"
    then mkTested (conflict t) (set (m_md5 m) (m_data m) (noConflict t))
    else t
  else t.

(** * The report *)
Inductive console : Type :=
  | Info (s : string)
  | Table (rows : obj (string * string * string)).

Fixpoint str_take (n : nat) (s : string) : string :=
  match n, s with
  | S n, String x s => String x (str_take n s)
  | _, _ => EmptyString
  end.
Definition row (n : node) : string * string * string :=
  (tagName n,
   (if text_or (src n) then default "" (src n) else if text_or (href n) then default "" (href n) else "n/a"),
   if text_or (innerText n) then str_take 200 (default "" (innerText n)) +:+ "..." else "(empty)").
Definition rows (o : obj node) : obj (string * string * string) :=
  reduce o (fun acc n k => set k (row n) acc) [].

Definition timedOut (t : tested) (found : obj node) : obj node :=
  reduce found (fun acc n k =>
    if negb (has k (conflict t) || has k (noConflict t)) then set k n acc else acc) [].

Definition section (o : obj node) (title : string) : list console :=
  match o with [] => [] | _ => [Info title; Table (rows o)] end.
Definition these (o : obj node) : string := if (length o =? 1)%nat then "this" else "these".

Definition report (t : tested) (found : obj node) : list console :=
  section (conflict t) ("%cConflict" +:+ (if (1 <? length (conflict t))%nat then "s" else "") +:+ " found:")
  ++ section (noConflict t) ("%cNo conflict" +:+ (if (1 <? length (noConflict t))%nat then "s" else "")
       +:+ " found with " +:+ these (noConflict t) +:+ ":")
  ++ section (timedOut t found)
       ("%cLeftovers--we timed out before collecting test results for " +:+ these (timedOut t found) +:+ ":").

(** * The detector *)
(** A poll that waits for its timer: the calls made before, [cumulativeDuration], and
    the time its [setTimeout] is due. *)
Record pending := mkPending { p_calls : nat; p_cumulative : Z; p_due : Z }.
Record detector := mkDetector {
  d_tested : tested;
  d_found : obj node;
  d_testCount : nat;
  d_max : duration;
  (** the time since the detector started *)
  d_clock : Z;
  d_poll : option pending;
  d_done : bool;
  d_reported : option (list console) }.

Definition add_duration (x y : duration) : duration :=
  match x, y with Ms m, Ms n => Ms (m + n) | _, _ => NaN end.

(** [conflictDetection(report)] up to the first timer, with the frames it creates. *)
Definition conflictDetection (currentScript : nat) (scripts links style_tags : list node)
  (timeout maxWait : duration) : detector * list frame :=
  let '(scriptsToTest, fs1) := detectSvgConflicts currentScript scripts in
  let '(cssToTest, fs2) := detectWebfontConflicts links style_tags in
  let nodesFound := spread (spread [] scriptsToTest) cssToTest in
  let testCount := (length (keys scriptsToTest) + length (keys cssToTest))%nat in
  let initialDuration := 1 in
  (mkDetector (mkTested [] []) nodesFound testCount (add_duration timeout maxWait) 0
     (if (testCount =? 0)%nat then None else Some (mkPending 0 0 initialDuration)) false None, fs1 ++ fs2).

Definition all_in (d : detector) : bool :=
  (d_testCount d <=? length (keys (conflict (d_tested d))) + length (keys (noConflict (d_tested d))))%nat.

(** [setDoneResults] and the report, in either branch of the promise. *)
Definition finish (d : detector) : detector :=
  mkDetector (d_tested d) (d_found d) (d_testCount d) (d_max d) (d_clock d) None true
    (Some (report (d_tested d) (d_found d))).

(** A timer fires: the promise settles, or [poll] asks for the next timer. *)
Definition fire (k : nat) (cumulative : Z) (d : detector) : detector :=
  if all_in d then finish d
  else
    let nextDuration := 250 in
    let nextCumulative := nextDuration + cumulative in
    if within nextCumulative (d_max d)
    then mkDetector (d_tested d) (d_found d) (d_testCount d) (d_max d) (d_clock d)
           (Some (mkPending (S k) nextCumulative (d_clock d + nextDuration))) (d_done d) (d_reported d)
    else finish d.

(** A message comes in, or [ms] milliseconds go by and the browser then runs the timer
    if it is due; a browser that is busy runs it late. *)
Inductive event : Type := Msg (m : message) | Pass (ms : Z).

Definition on_event (d : detector) (e : event) : detector :=
  match e with
  | Msg m =>
      mkDetector (onmessage (d_tested d) m) (d_found d) (d_testCount d) (d_max d) (d_clock d) (d_poll d)
        (d_done d) (d_reported d)
  | Pass ms =>
      let d := mkDetector (d_tested d) (d_found d) (d_testCount d) (d_max d) (d_clock d + ms) (d_poll d)
                 (d_done d) (d_reported d) in
      match d_poll d with
      | None => d
      | Some p => if p_due p <=? d_clock d then fire (p_calls p) (p_cumulative p) d else d
      end
  end.
Definition run (d : detector) (es : list event) : detector := fold_left on_event es d.
End Page.

(** * Polling terminates *)
Lemma within_calls k max : within (250 + 250 * Z.of_nat k) max = (S (S k) <=? max_calls max)%nat.
Proof.
  apply eq_true_iff_eq. rewrite Nat.leb_le. destruct max as [|m]; cbn [within max_calls].
  - split; [done|lia].
  - rewrite Z.leb_le. pose proof (Z.div_mod m 250 ltac:(lia)).
    pose proof (Z.mod_pos_bound m 250 ltac:(lia)). split; intros H'.
    + assert (Z.of_nat k + 1 <= m / 250) by (apply Z.div_le_lower_bound; lia). lia.
    + assert (Z.of_nat (S k) <= m / 250) by (destruct (Z.le_gt_cases 0 (m / 250)); lia).
      lia.
Qed.

Lemma poll_spec fn max k dur ws :
  (k < max_calls max)%nat ->
  let first := List.find fn (seq k (max_calls max - k)) in
  exists r, poll (max_calls max - k) fn max k dur (250 * Z.of_nat k) ws = Some r
  /\ match first with
     | Some j => resolved r = true /\ calls r = S j
     | None => resolved r = false /\ calls r = max_calls max
     end
  /\ waits r = ws ++ dur :: repeat 250 (calls r - S k).
Proof.
  remember (max_calls max - k)%nat as n eqn:En. revert k dur ws En.
  induction n as [|n IH]; intros k dur ws En Hk; [lia|]. cbn [poll seq List.find].
  destruct (fn k) eqn:E.
  { eexists. split; [done|]. cbn [resolved calls waits]. by rewrite Nat.sub_diag. }
  rewrite within_calls. destruct (Nat.leb_spec (S (S k)) (max_calls max)) as [Hle|Hgt].
  - replace (250 + 250 * Z.of_nat k) with (250 * Z.of_nat (S k)) by lia.
    destruct (IH (S k) 250 (ws ++ [dur]) ltac:(lia) ltac:(lia)) as (r & Hr & Hm & Hw).
    exists r. split; [done|]. split; [done|].
    assert (S k < calls r \/ calls r = S k)%nat as Hc.
    { destruct (List.find fn (seq (S k) n)) as [j|] eqn:Ef; [|lia].
      apply find_some in Ef as [Hin%in_seq _]. lia. }
    assert (S (S k) <= calls r)%nat as Hc'.
    { destruct (List.find fn (seq (S k) n)) as [j|] eqn:Ef; [|lia].
      apply find_some in Ef as [Hin%in_seq _]. lia. }
    rewrite Hw, <- app_assoc. cbn [app]. f_equal. f_equal.
    replace (calls r - S k)%nat with (S (calls r - S (S k))) by lia. done.
  - assert (n = 0%nat) as -> by lia. eexists. split; [done|].
    cbn [seq List.find resolved calls waits]. split; [split; [done|lia]|]. by rewrite Nat.sub_diag.
Qed.

(** Polling always settles: the promise resolves at the first call that succeeds, and
    rejects after [max_calls] calls when none of them does; it waits the initial
    duration once and 250 ms before each further call. *)
Theorem pollUntil_settles fn initialDuration max :
  exists r, pollUntil fn initialDuration max = Some r
  /\ match List.find fn (seq 0 (max_calls max)) with
     | Some j => resolved r = true /\ calls r = S j
     | None => resolved r = false /\ calls r = max_calls max
     end
  /\ waits r = initialDuration :: repeat 250 (calls r - 1).
Proof.
  destruct (poll_spec fn max 0 initialDuration []) as (r & Hr & Hm & Hw).
  { destruct max; cbn; lia. }
  rewrite Nat.sub_0_r in *. exists r. split; [exact Hr|]. split; [exact Hm|exact Hw].
Qed.

(** * Messages *)
Section Detector.
Variable origin : string.

Lemma fire_cases k cu d :
  fire k cu d = finish d /\ (all_in d = true \/ within (250 + cu) (d_max d) = false)
  \/ within (250 + cu) (d_max d) = true
     /\ fire k cu d = mkDetector (d_tested d) (d_found d) (d_testCount d) (d_max d) (d_clock d)
          (Some (mkPending (S k) (250 + cu) (d_clock d + 250))) (d_done d) (d_reported d).
Proof. unfold fire. destruct (all_in d); [by auto|]. cbv zeta. destruct (within _ _); auto. Qed.

Lemma on_event_const d e :
  d_found (on_event origin d e) = d_found d /\ d_testCount (on_event origin d e) = d_testCount d
  /\ d_max (on_event origin d e) = d_max d
  /\ d_tested (on_event origin d e) = match e with Msg m => onmessage origin (d_tested d) m | Pass _ => d_tested d end
  /\ d_clock (on_event origin d e) = match e with Msg _ => d_clock d | Pass ms => d_clock d + ms end.
Proof.
  destruct e as [m|ms]; [done|]. cbn [on_event d_poll]. destruct (d_poll d) as [p|]; [|done].
  destruct (p_due p <=? _); [|done].
  match goal with |- context [fire ?k ?c ?d'] => destruct (fire_cases k c d') as [[-> _]|[_ ->]] end; done.
Qed.
Lemma run_cons d e es : run origin d (e :: es) = run origin (on_event origin d e) es.
Proof. done. Qed.
Lemma run_tested d es :
  d_tested (run origin d es) =
  fold_left (onmessage origin) (omap (fun e => match e with Msg m => Some m | Pass _ => None end) es) (d_tested d).
Proof.
  revert d. induction es as [|e es IH]; intros d; [done|]. rewrite run_cons, IH.
  destruct (on_event_const d e) as (_ & _ & _ & -> & _). by destruct e.
Qed.
Lemma run_found d es : d_found (run origin d es) = d_found d.
Proof. revert d. induction es as [|e es IH]; intros d; [done|]. rewrite run_cons, IH. apply on_event_const. Qed.
Lemma run_max d es : d_max (run origin d es) = d_max d.
Proof. revert d. induction es as [|e es IH]; intros d; [done|]. rewrite run_cons, IH. apply on_event_const. Qed.
(** A detector that waits for no timer does nothing any more. *)
Lemma run_idle d es : d_poll d = None ->
  d_done (run origin d es) = d_done d /\ d_reported (run origin d es) = d_reported d.
Proof.
  revert d. induction es as [|e es IH]; intros d Hp; [done|]. rewrite run_cons.
  destruct e as [m|ms]; [by destruct (IH (on_event origin d (Msg m)) Hp)|].
  cbn [on_event d_poll]. rewrite Hp. by match goal with |- context [run origin ?d' es] => destruct (IH d' eq_refl) end.
Qed.

(** The time that goes by, and a browser that comes to run timers at least every [lag]
    milliseconds. *)
Definition elapsed (es : list event) : Z :=
  fold_right (fun e t => match e with Msg _ => t | Pass ms => ms + t end) 0 es.
Definition prompt (lag : Z) (es : list event) : Prop :=
  Forall (fun e => match e with Msg _ => True | Pass ms => 0 <= ms <= lag end) es.
Lemma run_clock d es : d_clock (run origin d es) = d_clock d + elapsed es.
Proof.
  revert d. induction es as [|e es IH]; intros d; [cbn; lia|]. rewrite run_cons, IH.
  destruct (on_event_const d e) as (_ & _ & _ & _ & ->).
  destruct e; unfold elapsed; cbn [fold_right]; lia.
Qed.

(** Where a detector can be: waiting for its [k]th poll, or finished. *)
Definition polling (lag : Z) (d : detector) : Prop :=
  d_done d = false /\ d_reported d = None
  /\ exists k due, (k < max_calls (d_max d))%nat /\ d_poll d = Some (mkPending k (250 * Z.of_nat k) due)
     /\ d_clock d < due /\ 1 + 250 * Z.of_nat k <= due <= 1 + Z.of_nat k * (250 + lag).
Definition finished (log : list console) (d : detector) : Prop :=
  d_done d = true /\ d_poll d = None /\ d_reported d = Some log.

Lemma finished_stays log d es : finished log d -> finished log (run origin d es).
Proof.
  revert d. induction es as [|e es IH]; intros d H; [done|]. rewrite run_cons. apply IH.
  destruct H as (H1 & H2 & H3), e; cbn [on_event d_poll]; [by split_and!|]. by rewrite H2.
Qed.

(** It gives up only when its calls are used up. *)
Definition patient (d : detector) : Prop :=
  all_in d = true \/ 1 + 250 * (Z.of_nat (max_calls (d_max d)) - 1) <= d_clock d.
Lemma polling_step lag d e : polling lag d -> prompt lag [e] ->
  polling lag (on_event origin d e)
  \/ finished (report (d_tested d) (d_found d)) (on_event origin d e)
     /\ d_tested (on_event origin d e) = d_tested d /\ patient (on_event origin d e).
Proof.
  intros (Hd & Hr & k & due & Hk & Hp & Hc & Hl & Hu) He%Forall_inv. destruct e as [m|ms]; cbn [on_event].
  { left. split; [done|]. split; [done|]. by exists k, due. }
  cbn [d_poll]. rewrite Hp. cbn [p_due p_calls p_cumulative d_clock].
  destruct (Z.leb_spec due (d_clock d + ms)) as [Hdue|Hdue].
  2: { left. split; [done|]. split; [done|]. exists k, due. cbn. split_and!; [done|done|lia|lia|lia]. }
  match goal with |- context [fire ?k ?c ?d'] => destruct (fire_cases k c d') as [[-> Hf]|[Hf ->]] end;
    cbn [d_max] in Hf; rewrite within_calls in Hf.
  - right. split; [done|]. split; [done|]. destruct Hf as [Hf|Hf%Nat.leb_gt]; [by left|right]. cbn. lia.
  - left. apply Nat.leb_le in Hf. split; [done|]. split; [done|]. exists (S k), (d_clock d + ms + 250). cbn [d_max d_poll d_clock].
    rewrite Nat2Z.inj_succ, Z.mul_succ_l.
    split_and!; [lia|do 2 f_equal; lia|lia|lia|lia].
Qed.
Definition deadline (lag : Z) (max : duration) : Z := 1 + (Z.of_nat (max_calls max) - 1) * (250 + lag).
Lemma run_polling lag es : forall d, 0 <= lag -> polling lag d -> prompt lag es ->
  polling lag (run origin d es)
  \/ exists es1 es2 log, es = es1 ++ es2 /\ finished log (run origin d es)
       /\ log = report (d_tested (run origin d es1)) (d_found d) /\ patient (run origin d es1).
Proof.
  induction es as [|e es IH]; intros d Hlag Hp He; [by left|]. apply Forall_cons in He as [He Hes].
  destruct (polling_step lag d e Hp (proj2 (Forall_singleton _ _) He)) as [H|(H & Ht & Hpt)].
  - rewrite run_cons. destruct (IH _ Hlag H Hes) as [|(es1 & es2 & log & -> & Hf & Hl & Hpt)]; [by left|right].
    exists (e :: es1), es2, log. rewrite (proj1 (on_event_const d e)) in Hl. by split_and!.
  - right. exists [e], es, (report (d_tested d) (d_found d)). split; [done|].
    split; [exact (finished_stays _ (on_event origin d e) es H)|]. split; [|exact Hpt].
    change (run origin d [e]) with (on_event origin d e). by rewrite Ht.
Qed.
Lemma run_finishes lag es d : 0 <= lag -> polling lag d -> prompt lag es ->
  deadline lag (d_max d) <= d_clock d + elapsed es ->
  exists es1 es2 log, es = es1 ++ es2 /\ finished log (run origin d es)
    /\ log = report (d_tested (run origin d es1)) (d_found d) /\ patient (run origin d es1).
Proof.
  intros Hlag Hp He Ht. destruct (run_polling lag es d Hlag Hp He) as [(_ & _ & k & due & Hk & _ & Hc & _ & Hu)|H]; [|done].
  exfalso. rewrite run_clock in Hc.
  rewrite run_max in Hk. unfold deadline in Ht. nia.
Qed.

(** The nodes of the document that are to be tested. *)
Definition to_test (rc : option string) (cur : nat) (scripts links style_tags : list node) (t : node) : Prop :=
  t ∈ scripts /\ ignored t = false /\ ident t <> cur
  \/ t ∈ links /\ ignored t = false
  \/ t ∈ style_tags /\ ignored t = false
     /\ forall cls, rc = Some cls -> str_contains ("svg:not(:root)." +:+ cls) (default "" (innerText t)) = false.
(** The loop that makes frames: the nodes by key, and the frames. *)
Lemma frames_loop (mk : node -> frame) (l : list node) (o : obj node) (fs : list frame) :
  (forall t, f_md5 (mk t) = md5ForNode t) -> NoDup (keys o) ->
  let r := fold_left (fun acc t => (set (md5_key (md5ForNode t)) t (fst acc), snd acc ++ [mk t])) l (o, fs) in
  NoDup (keys (fst r))
  /\ (forall k, k ∈ keys (fst r) <->
       k ∈ keys o \/ exists t, t ∈ l /\ k = md5_key (f_md5 (mk t)))
  /\ (forall f, f ∈ snd r <-> f ∈ fs \/ exists t, t ∈ l /\ f = mk t).
Proof.
  intros Hmk. revert o fs. induction l as [|t l IH]; intros o fs Ho; cbn [fold_left fst snd].
  { split; [done|]. split; intros x; (split; [by left|]);
      (intros [?|(? & []%elem_of_nil & _)]; done). }
  destruct (IH (set (md5_key (md5ForNode t)) t o) (fs ++ [mk t]) (NoDup_set _ _ _ Ho)) as (H1 & H2 & H3).
  split; [exact H1|]. split.
  - intros k. rewrite H2, elem_of_keys_set. setoid_rewrite elem_of_cons.
    rewrite <- (Hmk t). naive_solver.
  - intros f. rewrite H3, elem_of_app, list_elem_of_singleton. setoid_rewrite elem_of_cons. naive_solver.
Qed.
Lemma svg_keys cur scripts k :
  k ∈ keys (fst (detectSvgConflicts origin cur scripts)) <->
  exists t, k = md5_key (md5ForNode t) /\ t ∈ scripts /\ ignored t = false /\ ident t <> cur.
Proof.
  unfold detectSvgConflicts.
  destruct (frames_loop (fun t => js_frame origin (script_copy t) (md5ForNode t))
    (List.filter (testable_script cur) scripts) [] [] (fun t => eq_refl) NoDup_nil_2) as (_ & H & _).
  cbv beta zeta in H. rewrite H. split.
  - intros [[]%elem_of_nil|(t & [Ht Hb]%list_elem_of_In%filter_In & ->)]. exists t.
    apply list_elem_of_In in Ht. unfold testable_script in Hb.
    apply andb_true_iff in Hb as [Hi%negb_true_iff Hc%negb_true_iff%Nat.eqb_neq]. done.
  - intros (t & -> & Ht & Hi & Hc). right. exists t. split; [|done]. apply list_elem_of_In, filter_In.
    split; [by apply list_elem_of_In|]. unfold testable_script. rewrite Hi. by apply negb_true_iff, Nat.eqb_neq.
Qed.
Lemma css_keys rc links style_tags k :
  k ∈ keys (fst (detectWebfontConflicts origin rc links style_tags)) <->
  exists t, k = md5_key (md5ForNode t) /\ (t ∈ links /\ ignored t = false
    \/ t ∈ style_tags /\ ignored t = false
       /\ forall cls, rc = Some cls -> str_contains ("svg:not(:root)." +:+ cls) (default "" (innerText t)) = false).
Proof.
  unfold detectWebfontConflicts. cbv zeta.
  destruct (frames_loop (fun t => webfont_frame origin (link_copy t) (md5ForNode t))
    (List.filter testable_link links) [] [] (fun t => eq_refl) NoDup_nil_2) as (N & H & _). cbv beta zeta in *.
  match type of N with NoDup (keys (fst ?r)) => destruct r as [o1 fs1] eqn:E1 end. cbn [fst] in N, H.
  unfold obj in E1 |- *. rewrite E1.
  destruct (frames_loop (fun t => webfont_frame origin (style_copy t) (md5ForNode t))
    (List.filter (testable_style rc) style_tags) o1 fs1 (fun t => eq_refl) N) as (_ & H' & _). cbv beta zeta in H'.
  assert (forall t, t ∈ List.filter testable_link links <-> t ∈ links /\ ignored t = false) as El.
  { intros t. rewrite !list_elem_of_In, filter_In. unfold testable_link. by rewrite negb_true_iff. }
  assert (forall t, t ∈ List.filter (testable_style rc) style_tags <-> t ∈ style_tags /\ ignored t = false
    /\ forall cls, rc = Some cls -> str_contains ("svg:not(:root)." +:+ cls) (default "" (innerText t)) = false) as Es.
  { intros t. rewrite !list_elem_of_In, filter_In. unfold testable_style.
    destruct (ignored t), rc as [cls|]; rewrite ?negb_true_iff; naive_solver. }
  etransitivity; [exact (H' k)|]. rewrite H. setoid_rewrite El. setoid_rewrite Es. rewrite elem_of_nil. naive_solver.
Qed.

(** C30: the detector always comes to an end when there is something to test, that is a script other than its own, a style sheet link or a style element of the page that is not marked to be left alone (and no style element that is the toolkit's own): whatever messages arrive or fail to arrive, when the browser runs timers at least every [lag] milliseconds it is done after at most 1 + n (250 + lag) milliseconds, n being the number of quarters of a second in the two configured times together; its report is made from the answers that had come in by then, covers every node that was to be tested, and comes before all answers are in only when those n quarters of a second have gone by; but when there is nothing to test it never ends. *)
Theorem detector_terminates rc cur scripts links style_tags timeout maxWait lag es d fs :
  conflictDetection origin rc cur scripts links style_tags timeout maxWait = (d, fs) ->
  prompt lag es -> 0 <= lag -> deadline lag (add_duration timeout maxWait) <= elapsed es ->
  ((exists t, to_test rc cur scripts links style_tags t) ->
     d_done (run origin d es) = true
     /\ exists es1 es2, es = es1 ++ es2
          /\ d_reported (run origin d es) = Some (report (d_tested (run origin d es1)) (d_found d))
          /\ (all_in (run origin d es1) = true \/ deadline 0 (add_duration timeout maxWait) <= elapsed es1))
  /\ (forall t, to_test rc cur scripts links style_tags t -> md5_key (md5ForNode t) ∈ keys (d_found d))
  /\ ((forall t, ~ to_test rc cur scripts links style_tags t) ->
     d_done (run origin d es) = false /\ d_reported (run origin d es) = None).
Proof.
  unfold conflictDetection.
  pose proof (svg_keys cur scripts) as Ks. pose proof (css_keys rc links style_tags) as Kc.
  destruct (detectSvgConflicts _ _ _) as [st fs1]. destruct (detectWebfontConflicts _ _ _ _) as [ct fs2].
  cbn [fst] in Ks, Kc. intros [= <- <-] Hes Hlag Ht. cbn [d_found].
  assert (forall t, to_test rc cur scripts links style_tags t ->
    md5_key (md5ForNode t) ∈ keys st \/ md5_key (md5ForNode t) ∈ keys ct) as Hk.
  { intros t [H|H]; [left; apply Ks|right; apply Kc]; eauto. }
  set (n := (length (keys st) + length (keys ct))%nat) in *. split; [|split].
  - intros [t Htt]. assert (n <> 0)%nat as Hn.
    { unfold n. destruct (Hk t Htt) as [H|H]; [destruct (keys st)|destruct (keys ct)]; cbn; [by apply elem_of_nil in H|lia| |lia].
      by apply elem_of_nil in H. }
    rewrite (proj2 (Nat.eqb_neq n 0) Hn).
    match goal with |- context [run origin ?d es] =>
      destruct (run_finishes lag es d Hlag) as (es1 & es2 & log & E & (H1 & _ & H3) & El & Hp); [|done|exact Ht|] end.
    { split; [done|]. split; [done|]. exists 0%nat, 1. cbn [d_max d_clock d_poll].
      split_and!; [destruct (add_duration _ _); cbn; lia|done|lia..]. }
    split; [done|]. exists es1, es2. split; [done|]. split; [by rewrite H3, El|].
    destruct Hp as [Hp|Hp]; [by left|right]. rewrite run_clock, run_max in Hp. cbn [d_clock d_max] in Hp.
    unfold deadline. lia.
  - intros t Htt. rewrite !keys_spread. destruct (Hk t Htt); auto.
  - intros Hnone. assert (n = 0)%nat as Hn.
    { unfold n. destruct (keys st) as [|k l] eqn:E1.
      - destruct (keys ct) as [|k l] eqn:E2; [done|]. destruct (proj1 (Kc k)) as (t & _ & H); [by left|].
        destruct (Hnone t). by right.
      - destruct (proj1 (Ks k)) as (t & _ & H); [by left|]. destruct (Hnone t). by left. }
    rewrite (proj2 (Nat.eqb_eq n 0) Hn). by apply run_idle.
Qed.

(** Only the page itself is heard: messages of another origin change neither what
    was tested nor when the detector ends nor its report. *)
Theorem foreign_messages_ignored d es :
  origin <> "file://" ->
  run origin d (List.filter (fun e => match e with Msg m => str_eqb (m_origin m) origin | Pass _ => true end) es)
  = run origin d es.
Proof.
  intros Ho. unfold run. revert d. induction es as [|e es IH]; intros d; cbn [List.filter fold_left]; [done|].
  destruct e as [m|]; [|apply IH].
  destruct (str_eqb (m_origin m) origin) eqn:E; cbn [fold_left]; rewrite IH; [done|].
  f_equal. cbn [on_event]. unfold onmessage.
  rewrite (proj2 (str_eqb_neq origin "file://") Ho), E. by destruct d.
Qed.

(** * The report accounts for every node *)
Lemma get_timedOut t found k :
  NoDup (keys found) ->
  get k (timedOut t found) =
  if has k (conflict t) || has k (noConflict t) then None else get k found.
Proof.
  intros Hnd. unfold timedOut, reduce.
  assert (forall (l acc : obj node), NoDup (keys l) -> (forall k', k' ∈ keys l -> get k' acc = None) ->
    get k (fold_left (fun (acc : obj node) (kv : string * node) => if negb (has (fst kv) (conflict t) || has (fst kv) (noConflict t))
      then set (fst kv) (snd kv) acc else acc) l acc) =
    match get k l with
    | Some v => if has k (conflict t) || has k (noConflict t) then None else Some v
    | None => get k acc
    end) as K.
  { induction l as [|[k1 v1] l IH]; intros acc Hl Ha; cbn [fold_left fst snd get]; [done|].
    apply NoDup_cons in Hl as [Hn Hl]. rewrite IH; [|done|].
    - destruct (str_eqb_spec k1 k) as [->|Hk].
      + rewrite (proj2 (get_None_keys k l) Hn). destruct (has k (conflict t) || has k (noConflict t)); cbn [negb].
        * apply Ha. by left.
        * apply get_set_eq.
      + destruct (get k l); [done|]. destruct (negb _); [by apply get_set_ne|done].
    - intros k' Hk'. assert (k1 <> k') by (intros ->; done).
      destruct (negb _); rewrite ?get_set_ne by done; apply Ha; by right. }
  rewrite K by done. destruct (get k found); [done|]. by destruct (_ || _).
Qed.

(** the report loses no node: each node that was found is in the section of
    conflicts, in the one of the harmless nodes, or among the leftovers, and a leftover
    is exactly a node nobody reported on. *)
Theorem report_accounts_for_all t found k n :
  NoDup (keys found) -> get k found = Some n ->
  (k ∈ keys (conflict t) \/ k ∈ keys (noConflict t) \/ get k (timedOut t found) = Some n)
  /\ (get k (timedOut t found) = Some n <-> k ∉ keys (conflict t) /\ k ∉ keys (noConflict t)).
Proof.
  intros Hd Hk. rewrite get_timedOut by done. rewrite <- !has_keys.
  destruct (has k (conflict t)), (has k (noConflict t)); cbn; naive_solver.
Qed.
End Detector.

(** * Every frame answers *)
Section Verdicts.
Variables (origin : string) (rc : option string).

Lemma svg_frames cur scripts st fs :
  detectSvgConflicts origin cur scripts = (st, fs) ->
  NoDup (keys st) /\ (forall k, k ∈ keys st <-> exists f, f ∈ fs /\ k = md5_key (f_md5 f))
  /\ (forall f, f ∈ fs -> f_tech f = Js).
Proof.
  unfold detectSvgConflicts. set (l := List.filter _ scripts). intros E.
  destruct (frames_loop (fun t => js_frame origin (script_copy t) (md5ForNode t)) l [] []
    (fun t => eq_refl) (NoDup_nil_2)) as (H1 & H2 & H3). cbv beta zeta in *.
  match type of H1 with NoDup (keys (fst ?r)) => assert (r = (st, fs)) as Er by exact E end.
  rewrite Er in H1, H2, H3. cbn [fst snd] in *. split; [done|]. split.
  - intros k. rewrite H2. setoid_rewrite H3. split.
    + intros [[]%elem_of_nil|(t & Ht & ->)]. eauto 6.
    + intros (f & [[]%elem_of_nil|(t & Ht & ->)] & ->). eauto.
  - intros f [[]%elem_of_nil|(t & _ & ->)]%H3. done.
Qed.

Lemma css_frames links style_tags ct fs :
  detectWebfontConflicts origin rc links style_tags = (ct, fs) ->
  NoDup (keys ct) /\ (forall k, k ∈ keys ct <-> exists f, f ∈ fs /\ k = md5_key (f_md5 f))
  /\ (forall f, f ∈ fs -> f_tech f = Webfont).
Proof.
  unfold detectWebfontConflicts. cbv zeta. set (ls := List.filter _ links). set (ss := List.filter _ style_tags).
  intros E.
  destruct (frames_loop (fun t => webfont_frame origin (link_copy t) (md5ForNode t)) ls [] []
    (fun t => eq_refl) (NoDup_nil_2)) as (H1 & H2 & H3). cbv beta zeta in *.
  match type of H1 with NoDup (keys (fst ?r)) => destruct r as [o1 fs1] eqn:E1 end. cbn [fst snd] in *.
  destruct (frames_loop (fun t => webfont_frame origin (style_copy t) (md5ForNode t)) ss o1 fs1
    (fun t => eq_refl) H1) as (H4 & H5 & H6). cbv beta zeta in *.
  match type of H4 with NoDup (keys (fst ?r)) => assert (r = (ct, fs)) as Er
    by (rewrite <- E; unfold obj in E1 |- *; rewrite E1; reflexivity) end.
  rewrite Er in H4, H5, H6. cbn [fst snd] in *. split; [done|]. split.
  - intros k. rewrite H5, H2. setoid_rewrite H6. setoid_rewrite H3. split.
    + intros [[[]%elem_of_nil|(t & Ht & ->)]|(t & Ht & ->)]; eauto 10.
    + intros (f & [[[]%elem_of_nil|(t & Ht & ->)]|(t & Ht & ->)] & ->); eauto.
  - intros f [[[]%elem_of_nil|(t & _ & ->)]%H3|(t & _ & ->)]%H6; done.
Qed.

Definition heard (t : tested) (k : string) : Prop := k ∈ keys (conflict t) \/ k ∈ keys (noConflict t).

Lemma heard_onmessage t m k : heard t k -> heard (onmessage origin t m) k.
Proof.
  unfold heard, onmessage. intros H. case_match; [|done].
  case_match; [cbn [conflict noConflict]; rewrite elem_of_keys_set; naive_solver|].
  case_match; [cbn [conflict noConflict]; rewrite elem_of_keys_set; naive_solver|done].
Qed.

Lemma heard_frame t f v : heard (onmessage origin t (frame_message origin f v)) (md5_key (f_md5 f)).
Proof.
  unfold heard, onmessage, frame_message. cbn [m_origin m_type m_md5 m_data].
  rewrite str_eqb_refl, orb_true_r. destruct v.
  - rewrite str_eqb_refl. cbn [conflict noConflict]. rewrite elem_of_keys_set. auto.
  - change (str_eqb "no-conflict" "fontawesome-conflict") with false. cbn iota.
    rewrite str_eqb_refl. cbn [conflict noConflict]. rewrite elem_of_keys_set. auto.
Qed.

Lemma run_heard d es k : heard (d_tested d) k -> heard (d_tested (run origin d es)) k.
Proof.
  rewrite run_tested. generalize (d_tested d). induction (omap _ es) as [|m ms IH]; intros t H; [done|].
  cbn. by apply IH, heard_onmessage.
Qed.

Lemma run_hears d es f v :
  Msg (frame_message origin f v) ∈ es -> heard (d_tested (run origin d es)) (md5_key (f_md5 f)).
Proof.
  intros (es1 & es2 & ->)%list_elem_of_split. unfold run. rewrite fold_left_app. cbn [fold_left].
  apply run_heard. apply heard_frame.
Qed.

(** when every frame answers the detector has all it waits for, whatever the order
    of the answers and whatever else arrives, and nothing is left over; the condition
    is that no script has the same text as a style sheet (the results are counted by
    the MD5 of the text, the tests by kind). *)
Theorem all_answers_suffice cur scripts links style_tags timeout maxWait d fs es :
  conflictDetection origin rc cur scripts links style_tags timeout maxWait = (d, fs) ->
  (forall f1 f2, f1 ∈ fs -> f2 ∈ fs -> f_tech f1 = Js -> f_tech f2 = Webfont ->
     md5_key (f_md5 f1) <> md5_key (f_md5 f2)) ->
  (forall f, f ∈ fs -> exists v, Msg (frame_message origin f v) ∈ es) ->
  all_in (run origin d es) = true
  /\ forall k, k ∈ keys (d_found d) -> heard (d_tested (run origin d es)) k.
Proof.
  unfold conflictDetection. destruct (detectSvgConflicts _ _ _) as [st fs1] eqn:E1.
  destruct (detectWebfontConflicts _ _ _ _) as [ct fs2] eqn:E2.
  apply svg_frames in E1 as (N1 & K1 & T1). apply css_frames in E2 as (N2 & K2 & T2).
  intros [= <- <-] Hdis Hans. match goal with |- context [run origin ?d es] => set (d0 := d) end.
  assert (forall k, k ∈ keys st \/ k ∈ keys ct -> heard (d_tested (run origin d0 es)) k) as Hh.
  { intros k [(f & Hf & ->)%K1|(f & Hf & ->)%K2];
      (destruct (Hans f) as [v Hv]; [apply elem_of_app; auto|]); by eapply run_hears. }
  assert (d_testCount (run origin d0 es) = d_testCount d0) as Ec.
  { clearbody d0. clear. revert d0. induction es as [|e es IH]; intros d; [done|].
    unfold run. cbn [fold_left]. fold (run origin (on_event origin d e) es). rewrite IH.
    apply on_event_const. }
  split.
  - unfold all_in. apply Nat.leb_le. rewrite Ec. subst d0. cbn [d_testCount].
    set (t := d_tested _) in *. rewrite <- !length_app.
    assert (NoDup (keys st ++ keys ct)) as Hnd.
    { apply NoDup_app. split_and!; [done| |done]. intros k (f1 & Hf1 & ->)%K1 (f2 & Hf2 & E)%K2.
      apply (Hdis f1 f2); [apply elem_of_app; auto..|by apply T1|by apply T2|done]. }
    apply NoDup_ListNoDup in Hnd. apply (NoDup_incl_length Hnd).
    intros k Hk%list_elem_of_In. apply list_elem_of_In. apply elem_of_app in Hk. apply elem_of_app.
    by apply Hh.
  - intros k Hk. apply Hh. subst d0. cbn [d_found] in Hk. rewrite !keys_spread in Hk.
    destruct Hk as [[[]%elem_of_nil|?]|?]; auto.
Qed.
End Verdicts.

(** * Examples *)
Definition ex_link : node :=
  mkNode 1 "LINK" None (Some "https://kit/fa.css") "stylesheet" (Some "") false.
Definition ex_script : node := mkNode 2 "SCRIPT" (Some "https://kit/fa.js") None "" (Some "") false.
Definition ex_origin : string := "https://page".
Definition ex_page : detector * list frame :=
  conflictDetection ex_origin None 9 [ex_script] [ex_link] [] (Ms 2000) (Ms 5000).
Definition ex_answers : list event :=
  map (fun f => Msg (frame_message ex_origin f (bool_decide (f_tech f = Js)))) (snd ex_page).

Definition ex_quiet : list event := repeat (Pass 10) 760.
Definition ex_sheet : detector * list frame :=
  conflictDetection ex_origin None 9 [] [ex_link] [] (Ms 2000) (Ms 5000).
(** A page with one style sheet, and a browser that runs timers every 10 ms: without any
    answer the detector has reported after 7.6 s. *)
Lemma detector_terminates_witness :
  elapsed ex_quiet = 7600 /\ d_done (run ex_origin (fst ex_sheet) ex_quiet) = true.
Proof.
  split; [vm_compute; reflexivity|].
  apply (detector_terminates ex_origin None 9 [] [ex_link] [] (Ms 2000) (Ms 5000) 10
    ex_quiet (fst ex_sheet) (snd ex_sheet)).
  - reflexivity.
  - apply Forall_forall. intros e ->%list_elem_of_In%repeat_spec. cbn. lia.
  - lia.
  - vm_compute. discriminate.
  - exists ex_link. right. left. split; [left|reflexivity].
Defined.

Lemma foreign_messages_ignored_witness :
  run ex_origin (fst ex_page) [Msg (mkMessage "https://evil" "no-conflict" "x" ex_link); Pass 5]
  = run ex_origin (fst ex_page) [Pass 5].
Proof.
  symmetry. apply (foreign_messages_ignored ex_origin (fst ex_page)
    [Msg (mkMessage "https://evil" "no-conflict" "x" ex_link); Pass 5]). discriminate.
Defined.

Lemma report_accounts_for_all_witness :
  get "k" (timedOut (mkTested [("j", ex_link)] []) [("k", ex_script)]) = Some ex_script.
Proof.
  apply (report_accounts_for_all (mkTested [("j", ex_link)] []) [("k", ex_script)] "k" ex_script);
    [by_decide|reflexivity|split; by_decide].
Defined.

Lemma all_answers_suffice_witness : all_in (run ex_origin (fst ex_page) ex_answers) = true.
Proof.
  apply (all_answers_suffice ex_origin None 9 [ex_script] [ex_link] [] (Ms 2000) (Ms 5000)
    (fst ex_page) (snd ex_page)).
  - reflexivity.
  - assert (forallb (fun f1 => forallb (fun f2 => bool_decide (f_tech f1 = Webfont)
      || bool_decide (f_tech f2 = Js) || negb (str_eqb (md5_key (f_md5 f1)) (md5_key (f_md5 f2))))
      (snd ex_page)) (snd ex_page) = true) as H by (vm_compute; reflexivity).
    rewrite forallb_forall in H. intros f1 f2 H1 H2 E1 E2.
    specialize (H f1 (proj1 (list_elem_of_In _ _) H1)). rewrite forallb_forall in H.
    specialize (H f2 (proj1 (list_elem_of_In _ _) H2)). rewrite E1, E2 in H. cbn in H.
    by apply negb_true_iff, str_eqb_neq in H.
  - intros f Hf. eexists. unfold ex_answers. rewrite list_elem_of_fmap. eauto.
Defined.

(** An empty style and an empty script have the same key, so the detector waits in vain. *)
Example same_text_waits :
  let page := conflictDetection ex_origin None 9
    [mkNode 2 "SCRIPT" (Some "") None "" (Some "a{}") false] []
    [mkNode 3 "STYLE" None None "" (Some "a{}") false] (Ms 2000) (Ms 5000) in
  all_in (run ex_origin (fst page)
    (map (fun f => Msg (frame_message ex_origin f false)) (snd page))) = false.
Proof. vm_compute. reflexivity. Qed.

(** The font test knows the families of versions 5 and 6. *)
Example fa7_not_seen : fa_font "Font Awesome 7 Free" = false /\ fa_font "Font Awesome 6 Free" = true.
Proof. split; reflexivity. Qed.
