(* ===== verification/JsNumber.v ===== *)
(** JavaScript numbers (IEEE 754 binary64) as the toolkit uses them: arithmetic from
    the Standard Library's specification of floats, [parseFloat], and the conversion
    to a string (the shortest decimal that reads back as the number). *)
From stdpp Require Import base strings list.
From Stdlib Require Import Lia ZArith Ascii SpecFloat.
From S2P Require Import Prelude GoStrings.
#[local] Open Scope Z_scope.

Definition num : Type := spec_float.
#[export] Instance num_eq_dec : EqDecision num.
Proof. solve_decision. Defined.
Definition num_add : num -> num -> num := SFadd 53 1024.
Definition num_sub : num -> num -> num := SFsub 53 1024.
Definition num_mul : num -> num -> num := SFmul 53 1024.
Definition num_div : num -> num -> num := SFdiv 53 1024.
Definition num_opp : num -> num := SFopp.
(** [x === y] *)
Definition num_eqb : num -> num -> bool := SFeqb.
Definition is_nan (x : num) : bool := match x with S754_nan => true | _ => false end.
(** The number nearest to an integer. *)
Definition num_of (z : Z) : num := binary_normalize 53 1024 z 0 false.
#[global] Arguments num_add : simpl never.
#[global] Arguments num_sub : simpl never.
#[global] Arguments num_mul : simpl never.
#[global] Arguments num_div : simpl never.
#[global] Arguments num_eqb : simpl never.
#[global] Arguments num_of : simpl never.

(** The number nearest to [s * 10^e], for a natural [s]. *)
Definition read_decimal (neg : bool) (s e : Z) : num :=
  match s with
  | Zpos p =>
      if 0 <=? e then
        match s * 10 ^ e with
        | Zpos q => binary_round 53 1024 neg q 0
        | _ => S754_zero neg
        end
      else
        let '(m, e', l) := SFdiv_core_binary 53 1024 s 0 (10 ^ (- e)) 0 in
        binary_round_aux 53 1024 neg m e' l
  | _ => S754_zero neg
  end.

(** * Number.prototype.toString *)

(** The least [n] from [n0] on with [N / D < 10^n]. *)
Definition below_pow10 (N D n : Z) : bool :=
  if 0 <=? n then N <? 10 ^ n * D else N * 10 ^ (- n) <? D.
Fixpoint find_exp (fuel : nat) (N D n : Z) : Z :=
  match fuel with O => n | S f => if below_pow10 N D n then n else find_exp f N D (n + 1) end.

(** Decimal candidates with [k] digits: the numbers of [k] digits next to [N / D]. *)
Definition scaled (N D k n : Z) : Z * Z :=
  let p := k - n in
  if 0 <=? p then (N * 10 ^ p, D) else (N, D * 10 ^ (- p)).
Definition normal (s k n : Z) : Z * Z := if s =? 10 ^ k then (10 ^ (k - 1), n + 1) else (s, n).
Definition reads_back (x : num) (s k n : Z) : bool := num_eqb (read_decimal false s (n - k)) x.
Definition pick (x : num) (N D k n : Z) : option (Z * Z) :=
  let '(A, B) := scaled N D k n in
  let lo := A / B in
  let ok_lo := reads_back x lo k n && (10 ^ (k - 1) <=? lo) in
  let ok_hi := reads_back x (lo + 1) k n in
  let near_lo := 2 * A <? (2 * lo + 1) * B in
  let tie := 2 * A =? (2 * lo + 1) * B in
  if ok_lo && (negb ok_hi || near_lo || (tie && Z.even lo)) then Some (normal lo k n)
  else if ok_hi then Some (normal (lo + 1) k n) else None.
Fixpoint shortest (fuel : nat) (x : num) (N D k n : Z) : Z * Z * Z :=
  match fuel with
  | O => (N / D, k, n)
  | S f => match pick x N D k n with Some (s, n') => (s, k, n') | None => shortest f x N D (k + 1) n end
  end.

Fixpoint zeros (n : nat) : string := match n with O => EmptyString | S n => String "0"%char (zeros n) end.
Fixpoint split_str (n : nat) (s : string) : string * string :=
  match n, s with
  | S n, String a s => let (x, y) := split_str n s in (String a x, y)
  | _, _ => (EmptyString, s)
  end.
(** Digits [s] ([k] of them), the decimal point after the [n]th. *)
Definition layout (s k n : Z) : string :=
  let ds := print_nat s in
  if (k <=? n) && (n <=? 21) then ds +:+ zeros (Z.to_nat (n - k))
  else if (0 <? n) && (n <=? 21) then
    let (x, y) := split_str (Z.to_nat n) ds in x +:+ "." +:+ y
  else if (-6 <? n) && (n <=? 0) then "0." +:+ zeros (Z.to_nat (- n)) +:+ ds
  else
    let e := n - 1 in
    let (x, y) := split_str 1 ds in
    x +:+ (if k =? 1 then "" else "." +:+ y) +:+ "e" +:+ (if e <? 0 then "-" else "+") +:+ print_nat (Z.abs e).

Definition num_to_string (x : num) : string :=
  match x with
  | S754_nan => "NaN"
  | S754_infinity neg => (if neg then "-" else "") +:+ "Infinity"
  | S754_zero _ => "0"
  | S754_finite neg m e =>
      let N := Z.pos m * 2 ^ Z.max 0 e in
      let D := 2 ^ Z.max 0 (- e) in
      let n0 := (Z.log2 N - Z.log2 D) * 30103 / 100000 - 1 in
      let n := find_exp 6 N D n0 in
      let '(s, k, n) := shortest 17 (S754_finite false m e) N D 1 n in
      (if neg then "-" else "") +:+ layout s k n
  end.

(** * White space: [String.prototype.trim] on code units below 256 *)
Definition js_ws (a : ascii) : bool :=
  let n := byte_val a in (((9 <=? n) && (n <=? 13)) || (n =? 32) || (n =? 160))%nat.
Fixpoint js_trim_left (l : list ascii) : list ascii :=
  match l with [] => [] | a :: l' => if js_ws a then js_trim_left l' else l end.
Definition js_trim (s : string) : string :=
  of_bytes (reverse (js_trim_left (reverse (js_trim_left (bytes_of s))))).

Lemma js_trim_left_fix a l : js_ws a = false -> js_trim_left (a :: l) = a :: l.
Proof. cbn. by intros ->. Qed.

(** A blank behind a text that begins and ends with no blank is what is trimmed. *)
Lemma js_trim_tail a l z : js_ws a = false -> js_ws z = false ->
  js_trim (of_bytes (a :: l ++ [z]) +:+ " ") = of_bytes (a :: l ++ [z]).
Proof.
  intros Ha Hz. unfold js_trim. rewrite bytes_of_app, bytes_of_of. f_equal.
  change (bytes_of " ") with [" "%char].
  change ((a :: l ++ [z]) ++ [" "%char]) with (a :: (l ++ [z]) ++ [" "%char]).
  rewrite js_trim_left_fix by done. rewrite app_comm_cons, reverse_snoc.
  rewrite app_comm_cons, reverse_snoc.
  change (js_trim_left (" "%char :: z :: reverse (a :: l))) with (js_trim_left (z :: reverse (a :: l))).
  rewrite js_trim_left_fix by done. by rewrite reverse_cons, reverse_involutive.
Qed.

(** * parseFloat *)
Fixpoint digits_prefix (s : string) (acc : Z) (count : nat) : Z * nat * string :=
  match s with
  | String a s' => match chr_digit a with Some d => digits_prefix s' (10 * acc + d) (S count) | None => (acc, count, s) end
  | EmptyString => (acc, count, s)
  end.
Definition exponent (s : string) : Z :=
  match s with
  | String a s1 =>
      if chr_eqb a "e"%char || chr_eqb a "E"%char then
        let '(neg, s2) := match s1 with
          | String b s2 => if chr_eqb b "-"%char then (true, s2) else if chr_eqb b "+"%char then (false, s2) else (false, s1)
          | EmptyString => (false, s1)
          end in
        let '(v, count, _) := digits_prefix s2 0 0 in
        if (count =? 0)%nat then 0 else if neg then - v else v
      else 0
  | EmptyString => 0
  end.
Definition parse_unsigned (neg : bool) (s : string) : num :=
  match str_drop_prefix "Infinity" s with
  | Some _ => S754_infinity neg
  | None =>
      let '(v, n1, s1) := digits_prefix s 0 0 in
      let '(v2, n2, s2) :=
        match s1 with
        | String a s' => if chr_eqb a "."%char then
            let '(w, c, r) := digits_prefix s' v 0 in if (n1 + c =? 0)%nat then (v, O, s1) else (w, c, r)
            else (v, O, s1)
        | EmptyString => (v, O, s1)
        end in
      if (n1 + n2 =? 0)%nat then S754_nan else read_decimal neg v2 (exponent s2 - Z.of_nat n2)
  end.
Definition parseFloat (s : string) : num :=
  let s := of_bytes (js_trim_left (bytes_of s)) in
  match s with
  | String a s' =>
      if chr_eqb a "-"%char then parse_unsigned true s'
      else if chr_eqb a "+"%char then parse_unsigned false s'
      else parse_unsigned false s
  | EmptyString => S754_nan
  end.
