(* ===== verification/FaHtml.v ===== *)
(** Writing HTML: [htmlEscape], [joinAttributes], [joinStyles] and [toHtml] of
    [fontawesome.js], a reader of the HTML they write, and the proof that what is
    written reads back as what was meant: no text and no attribute value can break out
    of its place. *)
From stdpp Require Import base strings list.
From Stdlib Require Import Lia ZArith Ascii.
From S2P Require Import Prelude GoStrings JsObj FaConfig JsNumber.

(** * Abstract nodes: a text, or an element; a missing tag is [None] *)
Inductive abstract : Type :=
  | AText (s : string)
  | AEl (tag : option string) (attributes : obj jsval) (children : list abstract).

Definition no_element : abstract := AEl None [] [].

(** * Writing *)
(** [l.replace(/c/g, r)] *)
Definition replace_all (c : ascii) (r : string) (l : list ascii) : list ascii :=
  concat (map (fun a => if chr_eqb a c then bytes_of r else [a]) l).
Definition htmlEscape (v : jsval) : string :=
  let l := bytes_of (to_str v) in
  let l := replace_all "&" "&amp;" l in
  let l := replace_all DQ "&quot;" l in
  let l := replace_all "'" "&#39;" l in
  let l := replace_all "<" "&lt;" l in
  of_bytes (replace_all ">" "&gt;" l).

Definition QUOTE : string := str1 DQ.
Definition joinAttributes (attributes : obj jsval) : string :=
  js_trim (reduce attributes (fun acc v k => acc +:+ (k +:+ "=" +:+ QUOTE +:+ htmlEscape v +:+ QUOTE +:+ " ")) "").

Definition joinStyles (styles : obj string) : string :=
  reduce styles (fun acc v k => acc +:+ k +:+ ": " +:+ js_trim v +:+ ";") "".

Fixpoint toHtml (n : abstract) : string :=
  match n with
  | AText s => htmlEscape (VStr s)
  | AEl tag attributes children =>
      let tag := default "undefined" tag in
      "<" +:+ tag +:+ " " +:+ joinAttributes attributes +:+ ">"
      +:+ String.concat "" (map toHtml children)
      +:+ "</" +:+ tag +:+ ">"
  end.

(** * Reading *)
Fixpoint unescape (l : list ascii) : list ascii :=
  match l with
  | "&"%char :: "a"%char :: "m"%char :: "p"%char :: ";"%char :: r => "&"%char :: unescape r
  | "&"%char :: "q"%char :: "u"%char :: "o"%char :: "t"%char :: ";"%char :: r => DQ :: unescape r
  | "&"%char :: "#"%char :: "3"%char :: "9"%char :: ";"%char :: r => "'"%char :: unescape r
  | "&"%char :: "l"%char :: "t"%char :: ";"%char :: r => "<"%char :: unescape r
  | "&"%char :: "g"%char :: "t"%char :: ";"%char :: r => ">"%char :: unescape r
  | a :: r => a :: unescape r
  | [] => []
  end.

(** Up to the first [c], and what follows it. *)
Fixpoint until (c : ascii) (l : list ascii) : option (list ascii * list ascii) :=
  match l with
  | [] => None
  | a :: r => if chr_eqb a c then Some ([], r)
              else match until c r with Some (x, y) => Some (a :: x, y) | None => None end
  end.

Fixpoint read_attributes (fuel : nat) (l : list ascii) : option (list (string * string)) :=
  match fuel, l with
  | _, [] => Some []
  | O, _ => None
  | S f, _ =>
      match until "="%char l with
      | Some (k, q :: l1) =>
          if chr_eqb q DQ then
            match until DQ l1 with
            | Some (v, l2) =>
                let kv := (of_bytes k, of_bytes (unescape v)) in
                match l2 with
                | [] => Some [kv]
                | sp :: l3 =>
                    if chr_eqb sp " "%char then
                      match read_attributes f l3 with Some r => Some (kv :: r) | None => None end
                    else None
                end
            | None => None
            end
          else None
      | _ => None
      end
  end.

(** The tree a reader sees: attribute values are strings. *)
Inductive html : Type :=
  | HText (s : string)
  | HEl (tag : string) (attributes : list (string * string)) (children : list html).

Definition LT : ascii := "<"%char.
Fixpoint text_part (l : list ascii) : list ascii * list ascii :=
  match l with
  | [] => ([], [])
  | a :: r => if chr_eqb a LT then ([], l) else let (x, y) := text_part r in (a :: x, y)
  end.

Fixpoint strip_chars (p l : list ascii) : option (list ascii) :=
  match p, l with
  | [], _ => Some l
  | a :: p', b :: l' => if chr_eqb a b then strip_chars p' l' else None
  | _, _ => None
  end.

Fixpoint read_nodes (fuel : nat) (l : list ascii) : option (list html * list ascii) :=
  match fuel with
  | O => None
  | S f =>
      match l with
      | [] => Some ([], [])
      | a :: l1 =>
          if chr_eqb a LT then
            match l1 with
            | "/"%char :: _ => Some ([], l)
            | _ =>
                match until " "%char l1 with
                | Some (tag, l2) =>
                    match until ">"%char l2 with
                    | Some (at_, l3) =>
                        match read_attributes (length at_) at_, read_nodes f l3 with
                        | Some ats, Some (cs, l4) =>
                            match strip_chars (bytes_of "</" ++ tag ++ [">"%char]) l4 with
                            | Some l5 =>
                                match read_nodes f l5 with
                                | Some (ns, l6) => Some (HEl (of_bytes tag) ats cs :: ns, l6)
                                | None => None
                                end
                            | None => None
                            end
                        | _, _ => None
                        end
                    | None => None
                    end
                | None => None
                end
            end
          else
            let (t, l2) := text_part l in
            match read_nodes f l2 with
            | Some (ns, l3) => Some (HText (of_bytes (unescape t)) :: ns, l3)
            | None => None
            end
      end
  end.
(** A whole text; its length is enough fuel. *)
Definition read_html (s : string) : option (list html) :=
  match read_nodes (S (String.length s)) (bytes_of s) with Some (ns, []) => Some ns | _ => None end.


(** * The five replacements are one pass

    The ampersand is replaced first, so no ampersand that a later replacement writes is
    escaped again. *)
Definition escape_chr (a : ascii) : list ascii :=
  match byte_val a with
  | 38 => bytes_of "&amp;"
  | 34 => bytes_of "&quot;"
  | 39 => bytes_of "&#39;"
  | 60 => bytes_of "&lt;"
  | 62 => bytes_of "&gt;"
  | _ => [a]
  end.
Definition escape (l : list ascii) : list ascii := concat (map escape_chr l).

Lemma replace_all_app c r l1 l2 : replace_all c r (l1 ++ l2) = replace_all c r l1 ++ replace_all c r l2.
Proof. unfold replace_all. by rewrite map_app, concat_app. Qed.

(** Every character, tried one by one. *)
Lemma all_chars (P : ascii -> Prop) {Dec : forall a, Decision (P a)} :
  forallb (fun a => bool_decide (P a)) (map ascii_of_nat (seq 0 256)) = true -> forall a, P a.
Proof.
  intros H a. rewrite forallb_forall in H. apply (bool_decide_unpack _), Is_true_true, H.
  rewrite <- (ascii_nat_embedding a).
  apply in_map, in_seq. pose proof (nat_ascii_bounded a). lia.
Qed.

Definition passes (l : list ascii) : list ascii :=
  replace_all ">" "&gt;" (replace_all "<" "&lt;" (replace_all "'" "&#39;" (replace_all DQ "&quot;"
    (replace_all "&" "&amp;" l)))).

Lemma escape_chr_passes a : passes [a] = escape_chr a.
Proof.
  revert a. apply (all_chars _). vm_compute. reflexivity.
Qed.

Lemma htmlEscape_escape v : htmlEscape v = of_bytes (escape (bytes_of (to_str v))).
Proof.
  unfold htmlEscape. f_equal. generalize (bytes_of (to_str v)) as l.
  intros l. change (passes l = escape l).
  induction l as [|a l IH]; [done|]. change (escape (a :: l)) with (escape_chr a ++ escape l).
  rewrite <- IH, <- escape_chr_passes. unfold passes. by rewrite <- !replace_all_app.
Qed.

Lemma bytes_of_htmlEscape v : bytes_of (htmlEscape v) = escape (bytes_of (to_str v)).
Proof. by rewrite htmlEscape_escape, bytes_of_of. Qed.

(** A character that means something to the reader. *)
Definition is_markup (a : ascii) : bool :=
  chr_eqb a DQ || chr_eqb a "'" || chr_eqb a "<" || chr_eqb a ">".

Lemma escape_chr_plain a : Forall (fun b => is_markup b = false) (escape_chr a).
Proof. revert a. apply (all_chars _). vm_compute. reflexivity. Qed.

Lemma escape_plain l : Forall (fun b => is_markup b = false) (escape l).
Proof.
  induction l as [|a l IH]; [constructor|]. unfold escape. cbn. apply Forall_app. split; [|done].
  apply escape_chr_plain.
Qed.

Lemma escape_chr_cases a :
  (a = "&"%char /\ escape_chr a = bytes_of "&amp;") \/ (a = DQ /\ escape_chr a = bytes_of "&quot;")
  \/ (a = "'"%char /\ escape_chr a = bytes_of "&#39;") \/ (a = "<"%char /\ escape_chr a = bytes_of "&lt;")
  \/ (a = ">"%char /\ escape_chr a = bytes_of "&gt;") \/ (a <> "&"%char /\ escape_chr a = [a]).
Proof.
  revert a. apply (all_chars _). vm_compute. reflexivity.
Qed.

Lemma unescape_plain a l : a <> "&"%char -> unescape (a :: l) = a :: unescape l.
Proof. intros H. cbn. repeat case_match; simplify_eq; done. Qed.

Lemma unescape_escape l : unescape (escape l) = l.
Proof.
  induction l as [|a l IH]; [done|]. change (escape (a :: l)) with (escape_chr a ++ escape l).
  destruct (escape_chr_cases a) as [[-> ->]|[[-> ->]|[[-> ->]|[[-> ->]|[[-> ->]|[H ->]]]]]];
    cbn [bytes_of String.list_ascii_of_string app]; try (cbn; by rewrite IH).
  by rewrite unescape_plain, IH.
Qed.

(** * Reading up to a character *)
Lemma until_app c l1 l2 : c ∉ l1 -> until c (l1 ++ c :: l2) = Some (l1, l2).
Proof.
  induction l1 as [|a l1 IH]; cbn; [by rewrite chr_eqb_refl|].
  intros [Ha Hl]%not_elem_of_cons. rewrite (proj2 (chr_eqb_neq a c)) by congruence. by rewrite IH.
Qed.

Lemma text_part_app l1 l2 : LT ∉ l1 -> text_part (l1 ++ LT :: l2) = (l1, LT :: l2).
Proof.
  induction l1 as [|a l1 IH]; cbn; [by rewrite chr_eqb_refl|].
  intros [Ha Hl]%not_elem_of_cons. rewrite (proj2 (chr_eqb_neq a LT)) by congruence. by rewrite IH.
Qed.
Lemma text_part_all l : LT ∉ l -> text_part l = (l, []).
Proof.
  induction l as [|a l IH]; cbn; [done|].
  intros [Ha Hl]%not_elem_of_cons. rewrite (proj2 (chr_eqb_neq a LT)) by congruence. by rewrite IH.
Qed.

Lemma strip_chars_app p l : strip_chars p (p ++ l) = Some l.
Proof. induction p as [|a p IH]; cbn; [done|]. by rewrite chr_eqb_refl. Qed.

Lemma markup_not_in_escape c l : is_markup c = true -> c ∉ escape l.
Proof. intros Hc Hi. pose proof (escape_plain l) as HF. rewrite Forall_forall in HF. apply HF in Hi. congruence. Qed.

(** * Attributes *)

(** A name that a tag or an attribute can have: no white space, no markup, no [=] and no [/]. *)
Definition name_chr (a : ascii) : bool :=
  negb (js_ws a || is_markup a || chr_eqb a "=" || chr_eqb a "/").
Definition name_ok (s : string) : bool := forallb name_chr (bytes_of s).

Lemma name_ok_not_in c s : name_chr c = false -> name_ok s = true -> c ∉ bytes_of s.
Proof.
  unfold name_ok. intros Hc H Hi. rewrite forallb_forall in H. apply list_elem_of_In, H in Hi. congruence.
Qed.

Definition attr_text (kv : string * jsval) : list ascii :=
  bytes_of (fst kv) ++ "="%char :: DQ :: escape (bytes_of (to_str (snd kv))) ++ [DQ].
Fixpoint attrs_text (o : obj jsval) : list ascii :=
  match o with
  | [] => []
  | [kv] => attr_text kv
  | kv :: o => attr_text kv ++ " "%char :: attrs_text o
  end.

Lemma attrs_text_cons kv o :
  attrs_text (kv :: o) = attr_text kv ++ match o with [] => [] | _ => " "%char :: attrs_text o end.
Proof. destruct o; cbn; by rewrite ?app_nil_r. Qed.

Lemma attrs_text_blank kv o :
  concat (map (fun kv => attr_text kv ++ [" "%char]) (kv :: o)) = attrs_text (kv :: o) ++ [" "%char].
Proof.
  revert kv. induction o as [|kv2 o IH]; intros kv.
  { cbn. by rewrite !app_nil_r. }
  transitivity ((attr_text kv ++ [" "%char])
    ++ concat (map (fun kv => attr_text kv ++ [" "%char]) (kv2 :: o))); [done|].
  rewrite IH, (attrs_text_cons kv), <- !app_assoc. done.
Qed.

Lemma attr_text_ends kv : name_ok (fst kv) = true ->
  exists a l, attr_text kv = a :: l ++ [DQ] /\ js_ws a = false.
Proof.
  destruct kv as [[|a k] v]; cbn [fst snd]; intros H.
  - by exists "="%char, (DQ :: escape (bytes_of (to_str v))).
  - exists a, (bytes_of k ++ "="%char :: DQ :: escape (bytes_of (to_str v))). split.
    + unfold attr_text. cbn. by rewrite <- app_assoc.
    + apply andb_true_iff in H as [H _]. unfold name_chr in H. by destruct (js_ws a).
Qed.

Lemma attrs_text_ends kv o : Forall (fun kv => name_ok (fst kv) = true) (kv :: o) ->
  exists a l, attrs_text (kv :: o) = a :: l ++ [DQ] /\ js_ws a = false.
Proof.
  revert kv. induction o as [|kv2 o IH]; intros kv [Hk Ho]%Forall_cons;
    destruct (attr_text_ends kv Hk) as (a & l & E & Ha); rewrite attrs_text_cons, E.
  - exists a, l. by rewrite app_nil_r.
  - destruct (IH kv2 Ho) as (b & l2 & -> & _).
    exists a, (l ++ DQ :: " "%char :: b :: l2). split; [|done]. cbn. by rewrite <- !app_assoc.
Qed.

Lemma reduce_attributes o acc :
  bytes_of (reduce o (fun acc v k => acc +:+ (k +:+ "=" +:+ QUOTE +:+ htmlEscape v +:+ QUOTE +:+ " ")) acc)
  = bytes_of acc ++ concat (map (fun kv => attr_text kv ++ [" "%char]) o).
Proof.
  unfold reduce. revert acc. induction o as [|[k v] o IH]; intros acc; cbn [fold_left map concat fst snd].
  { by rewrite app_nil_r. }
  rewrite IH, !bytes_of_app, bytes_of_htmlEscape. unfold attr_text. cbn [fst snd].
  rewrite <- !app_assoc. cbn. by rewrite <- !app_assoc.
Qed.

Definition names_ok (o : obj jsval) : Prop := Forall (fun kv => name_ok (fst kv) = true) o.

(** The trailing blank is trimmed, and nothing else. *)
Lemma bytes_of_joinAttributes o : names_ok o -> bytes_of (joinAttributes o) = attrs_text o.
Proof.
  intros H. destruct o as [|kv o]; [done|]. unfold joinAttributes.
  destruct (attrs_text_ends kv o H) as (a & l & E & Ha).
  pose proof (reduce_attributes (kv :: o) "") as R. rewrite attrs_text_blank, E in R.
  set (r := reduce _ _ _) in *. clearbody r.
  assert (r = of_bytes (a :: l ++ [DQ]) +:+ " ") as ->.
  { apply bytes_of_inj. by rewrite R, bytes_of_app, bytes_of_of. }
  rewrite js_trim_tail by done. by rewrite bytes_of_of.
Qed.

Definition attr_pairs (o : obj jsval) : list (string * string) := map (fun kv => (fst kv, to_str (snd kv))) o.

Lemma read_attributes_text o f : names_ok o -> length (attrs_text o) <= f ->
  read_attributes f (attrs_text o) = Some (attr_pairs o).
Proof.
  intros H. revert f. induction H as [|[k v] o Hk Ho IH]; intros f Hf; [by destruct f|].
  rewrite attrs_text_cons in *. set (rest := match o with [] => _ | _ => _ end) in *.
  destruct f as [|f].
  { unfold attr_text in Hf. rewrite !length_app in Hf. cbn in Hf. lia. }
  transitivity (match until "="%char (attr_text (k, v) ++ rest) with
    | Some (k, q :: l1) =>
          if chr_eqb q DQ then
            match until DQ l1 with
            | Some (v, l2) =>
                let kv := (of_bytes k, of_bytes (unescape v)) in
                match l2 with
                | [] => Some [kv]
                | sp :: l3 =>
                    if chr_eqb sp " "%char then
                      match read_attributes f l3 with Some r => Some (kv :: r) | None => None end
                    else None
                end
            | None => None
            end
          else None
      | _ => None
      end).
  { destruct (attr_text (k, v) ++ rest) eqn:E; [|done]. unfold attr_text in E. cbn in E.
    destruct (bytes_of k); discriminate. }
  unfold attr_text in *. cbn [fst snd] in *.
  rewrite <- app_assoc. cbn [app]. rewrite until_app by by apply name_ok_not_in.
  rewrite chr_eqb_refl, <- app_assoc. cbn [app].
  rewrite until_app by by apply markup_not_in_escape.
  rewrite unescape_escape, !of_bytes_of. cbn zeta. subst rest. destruct o as [|kv2 o]; [done|].
  rewrite chr_eqb_refl, IH; [done|].
  rewrite length_app in Hf. cbn [length] in Hf. lia.
Qed.

(** Attributes are written so that they can be read: every name with its value, in order,
    whatever the values hold. *)
Theorem joinAttributes_reads_back o : names_ok o ->
  read_attributes (String.length (joinAttributes o)) (bytes_of (joinAttributes o)) = Some (attr_pairs o).
Proof.
  intros H. rewrite <- (of_bytes_of (joinAttributes o)) at 1. rewrite bytes_of_joinAttributes by done.
  apply read_attributes_text; [done|].
  clear H. induction (attrs_text o); cbn; lia.
Qed.

(** * Trees *)

(** Texts next to each other are one text, and an empty text is none. *)
Fixpoint merge (l : list html) : list html :=
  match l with
  | [] => []
  | HText s :: r =>
      match merge r with
      | HText t :: r' => HText (s +:+ t) :: r'
      | r' => if str_empty s then r' else HText s :: r'
      end
  | h :: r => h :: merge r
  end.

(** What a node means to a reader. *)
Fixpoint reading (n : abstract) : html :=
  match n with
  | AText s => HText s
  | AEl tag attributes children =>
      HEl (default "undefined" tag) (attr_pairs attributes) (merge (map reading children))
  end.

(** Tags and attribute names are names. *)
Fixpoint nodes_ok (n : abstract) : bool :=
  match n with
  | AText _ => true
  | AEl tag attributes children =>
      name_ok (default "undefined" tag) && forallb (fun kv => name_ok (fst kv)) attributes
      && forallb nodes_ok children
  end.

Lemma str_app_empty s t : str_empty (s +:+ t) = str_empty s && str_empty t.
Proof. by destruct s. Qed.

Lemma merge_text_text s t l : merge (HText s :: HText t :: l) = merge (HText (s +:+ t) :: l).
Proof.
  cbn [merge]. destruct (merge l) as [|[u|tg at_ ch] r].
  - rewrite str_app_empty. destruct (str_empty t) eqn:E; [|by rewrite andb_false_r].
    rewrite andb_true_r. apply str_eqb_eq in E as ->. by rewrite str_app_nil_r.
  - by rewrite str_app_assoc.
  - rewrite str_app_empty. destruct (str_empty t) eqn:E; [|by rewrite andb_false_r].
    rewrite andb_true_r. apply str_eqb_eq in E as ->. by rewrite str_app_nil_r.
Qed.

Lemma merge_empty_text l : merge (HText "" :: l) = merge l.
Proof. cbn. by destruct (merge l) as [|[]]. Qed.

Definition out (n : abstract) : list ascii := bytes_of (toHtml n).
Definition outs (l : list abstract) : list ascii := concat (map out l).

Lemma bytes_of_concat l : bytes_of (String.concat "" l) = concat (map bytes_of l).
Proof.
  induction l as [|s l IH]; [done|]. destruct l as [|t l].
  - cbn. by rewrite app_nil_r.
  - change (String.concat "" (s :: t :: l)) with (s +:+ "" +:+ String.concat "" (t :: l)).
    rewrite bytes_of_app. cbn [map concat]. f_equal. exact IH.
Qed.

Definition open_tag (tag : string) (attributes : obj jsval) : list ascii :=
  LT :: bytes_of tag ++ " "%char :: attrs_text attributes ++ [">"%char].
Definition close_tag (tag : string) : list ascii := LT :: "/"%char :: bytes_of tag ++ [">"%char].

Lemma out_el tag attributes children : names_ok attributes ->
  out (AEl tag attributes children) =
  open_tag (default "undefined" tag) attributes ++ outs children ++ close_tag (default "undefined" tag).
Proof.
  intros H. unfold out. cbn [toHtml]. rewrite !bytes_of_app, bytes_of_joinAttributes, bytes_of_concat by done.
  unfold open_tag, close_tag, outs, out. rewrite map_map. cbn. rewrite <- !app_assoc. cbn.
  by rewrite <- !app_assoc.
Qed.
Lemma out_text s : out (AText s) = escape (bytes_of s).
Proof. apply bytes_of_htmlEscape. Qed.
Lemma escape_app l1 l2 : escape (l1 ++ l2) = escape l1 ++ escape l2.
Proof. unfold escape. by rewrite map_app, concat_app. Qed.
Lemma escape_nil_inv l : escape l = [] -> l = [].
Proof.
  destruct l as [|a l]; [done|]. change (escape (a :: l)) with (escape_chr a ++ escape l).
  intros [E _]%app_eq_nil.
  destruct (escape_chr_cases a) as [[-> E']|[[-> E']|[[-> E']|[[-> E']|[[-> E']|[H E']]]]]];
    by rewrite E in E'.
Qed.

(** Where a list of nodes ends. *)
Definition ends (rest : list ascii) : Prop := rest = [] \/ exists r, rest = LT :: "/"%char :: r.

(** A text in front of what is read. *)
Lemma read_nodes_text f s l nodes rest :
  (l = [] \/ exists r, l = LT :: r) -> s <> "" ->
  read_nodes f l = Some (nodes, rest) ->
  read_nodes (S f) (escape (bytes_of s) ++ l) = Some (HText s :: nodes, rest).
Proof.
  intros Hl Hs Hr. set (e := escape (bytes_of s)).
  assert (LT ∉ e) as Hn by by apply markup_not_in_escape.
  assert (text_part (e ++ l) = (e, l)) as Ht.
  { destruct Hl as [->|[r ->]]; [rewrite app_nil_r; by apply text_part_all|by apply text_part_app]. }
  destruct e as [|a e0] eqn:E.
  { apply escape_nil_inv in E. destruct Hs. by apply bytes_of_inj. }
  apply not_elem_of_cons in Hn as [Ha _].
  cbn [read_nodes app]. rewrite (proj2 (chr_eqb_neq a LT)) by congruence.
  change (a :: e0 ++ l) with ((a :: e0) ++ l). rewrite Ht, Hr, <- E. subst e.
  by rewrite unescape_escape, of_bytes_of.
Qed.

(** An element in front of what is read. *)
Lemma read_nodes_el f tag attributes children rest cs ns l6 :
  name_ok tag = true -> names_ok attributes ->
  read_nodes f (children ++ close_tag tag ++ rest) = Some (cs, close_tag tag ++ rest) ->
  read_nodes f rest = Some (ns, l6) ->
  read_nodes (S f) (open_tag tag attributes ++ children ++ close_tag tag ++ rest)
  = Some (HEl tag (attr_pairs attributes) cs :: ns, l6).
Proof.
  intros Ht Ha Hc Hr. unfold open_tag at 1. cbn [app read_nodes].
  rewrite (chr_eqb_refl LT).
  set (l2 := (attrs_text attributes ++ [">"%char]) ++ children ++ close_tag tag ++ rest).
  assert ((bytes_of tag ++ " "%char :: attrs_text attributes ++ [">"%char]) ++ children ++ close_tag tag ++ rest
    = bytes_of tag ++ " "%char :: l2) as ->.
  { unfold l2. rewrite <- !app_assoc. cbn. by rewrite <- !app_assoc. }
  assert (until " "%char (bytes_of tag ++ " "%char :: l2) = Some (bytes_of tag, l2)) as E1
    by (apply until_app; by apply name_ok_not_in).
  assert (until ">"%char l2 = Some (attrs_text attributes, children ++ close_tag tag ++ rest)) as E2.
  { unfold l2. rewrite <- app_assoc. cbn [app]. apply until_app. intros Hi.
    clear - Ha Hi. revert Hi. induction Ha as [|kv o Hk Ho IH]; [by intros ?%elem_of_nil|].
    rewrite attrs_text_cons. unfold attr_text. rewrite !elem_of_app, !elem_of_cons, elem_of_app.
    pose proof (name_ok_not_in ">" (fst kv) eq_refl Hk).
    pose proof (markup_not_in_escape ">" (bytes_of (to_str (snd kv))) eq_refl).
    intros [[?|[?|[?|[?|Hq]]]]|Hi]; try done.
    - by apply list_elem_of_singleton in Hq.
    - destruct o; [by apply elem_of_nil in Hi|]. apply elem_of_cons in Hi as [?|?]; [done|auto]. }
  assert (strip_chars (bytes_of "</" ++ bytes_of tag ++ [">"%char]) (close_tag tag ++ rest) = Some rest) as E3
    by apply strip_chars_app.
  transitivity (match until " "%char (bytes_of tag ++ " "%char :: l2) with
                | Some (tag, l2) =>
                    match until ">"%char l2 with
                    | Some (at_, l3) =>
                        match read_attributes (length at_) at_, read_nodes f l3 with
                        | Some ats, Some (cs, l4) =>
                            match strip_chars (bytes_of "</" ++ tag ++ [">"%char]) l4 with
                            | Some l5 =>
                                match read_nodes f l5 with
                                | Some (ns, l6) => Some (HEl (of_bytes tag) ats cs :: ns, l6)
                                | None => None
                                end
                            | None => None
                            end
                        | _, _ => None
                        end
                    | None => None
                    end
                | None => None
                end).
  { pose proof (name_ok_not_in "/" tag eq_refl Ht) as Hs.
    destruct (bytes_of tag) as [|b t]; [done|]. apply not_elem_of_cons in Hs as [Hs _].
    clear -Hs. cbn. repeat (destruct b as [[] [] [] [] [] [] [] []]; try done). }
  rewrite E1, E2, read_attributes_text, Hc, E3, Hr by done. by rewrite of_bytes_of.
Qed.

Lemma escape_length s : s <> "" -> 0 < length (escape (bytes_of s)).
Proof.
  intros Hs. destruct (escape (bytes_of s)) eqn:E; [|cbn; lia].
  destruct Hs. apply bytes_of_inj. by apply escape_nil_inv.
Qed.

Lemma read_nodes_ends f rest : ends rest -> read_nodes (S f) rest = Some ([], rest).
Proof. intros [->|[r ->]]; [done|]. cbn. by rewrite (chr_eqb_refl LT). Qed.

Definition reads_nodes (f : nat) : Prop := forall ns s rest,
  forallb nodes_ok ns = true -> ends rest ->
  length (escape (bytes_of s) ++ outs ns ++ rest) < f ->
  read_nodes f (escape (bytes_of s) ++ outs ns ++ rest) = Some (merge (HText s :: map reading ns), rest).

Lemma reads_one_el f tag attributes children ns rest :
  reads_nodes f -> nodes_ok (AEl tag attributes children) = true -> forallb nodes_ok ns = true -> ends rest ->
  length (out (AEl tag attributes children) ++ outs ns ++ rest) < S f ->
  read_nodes (S f) (out (AEl tag attributes children) ++ outs ns ++ rest)
  = Some (reading (AEl tag attributes children) :: merge (map reading ns), rest).
Proof.
  intros IH [[Ht Ha]%andb_true_iff Hc]%andb_true_iff Hns Hr Hf.
  assert (names_ok attributes) as Hn by by apply Forall_forall; intros kv Hkv%list_elem_of_In;
    rewrite forallb_forall in Ha; apply Ha.
  set (t := default "undefined" tag) in *.
  rewrite out_el in * by done. fold t in Hf |- *.
  rewrite <- !app_assoc in *. unfold open_tag in Hf at 1.
  repeat (rewrite length_app in Hf || cbn [length] in Hf).
  apply read_nodes_el; [done..| |].
  - pose proof (IH children "" (close_tag t ++ outs ns ++ rest)) as E.
    rewrite merge_empty_text in E. apply E; [done|right; by eexists|].
    rewrite !length_app. change (length (escape (bytes_of ""))) with 0. lia.
  - pose proof (IH ns "" rest) as E. rewrite merge_empty_text in E. apply E; [done..|].
    rewrite !length_app. change (length (escape (bytes_of ""))) with 0. lia.
Qed.

Lemma read_nodes_outs f : reads_nodes f.
Proof.
  induction (lt_wf f) as [f _ IH]. intros ns. induction ns as [|[t|tag attributes children] ns IHns];
    intros s rest Hok Hr Hf.
  - cbn [outs map concat app merge] in *. destruct (str_eqb_spec s "") as [->|Hs].
    + destruct f as [|f]; [lia|]. by apply read_nodes_ends.
    + pose proof (escape_length s Hs). rewrite length_app in Hf. destruct f as [|[|f]]; [lia..|].
      unfold str_empty. rewrite (proj2 (str_eqb_neq _ _) Hs).
      apply read_nodes_text; [|done|by apply read_nodes_ends].
      destruct Hr as [->|[r ->]]; [by left|right; by eexists].
  - unfold outs in *. cbn [map concat reading] in *. rewrite out_text, <- app_assoc in *.
    rewrite merge_text_text, (app_assoc (escape _)), <- escape_app, <- bytes_of_app.
    apply IHns; [done..|]. by rewrite bytes_of_app, escape_app, <- app_assoc.
  - cbn [forallb] in Hok. apply andb_true_iff in Hok as [Ho Hns].
    unfold outs in *. cbn [map concat] in *. fold (outs ns) in *. rewrite <- (app_assoc (out _)) in *.
    destruct (str_eqb_spec s "") as [->|Hs].
    + rewrite merge_empty_text. cbn [bytes_of escape map concat app] in *. destruct f as [|f]; [lia|].
      apply reads_one_el; auto.
    + pose proof (escape_length s Hs). rewrite length_app in Hf. destruct f as [|[|f]]; [lia..|].
      transitivity (Some (HText s :: (reading (AEl tag attributes children) :: merge (map reading ns)), rest)).
      * apply read_nodes_text; [right; rewrite out_el; [by eexists|]|done|].
        { apply andb_true_iff in Ho as [[_ Ha]%andb_true_iff _]. apply Forall_forall.
          intros kv Hkv%list_elem_of_In. rewrite forallb_forall in Ha. by apply Ha. }
        apply reads_one_el; auto; lia.
      * f_equal. f_equal. cbn. unfold str_empty. by rewrite (proj2 (str_eqb_neq _ _) Hs).
Qed.

(** What [toHtml] writes reads back. *)
Lemma toHtml_read n : nodes_ok n = true -> read_html (toHtml n) = Some (merge [reading n]).
Proof.
  intros H. unfold read_html.
  pose proof (read_nodes_outs (S (String.length (toHtml n))) [n] "" []) as E.
  rewrite merge_empty_text in E. cbn [outs map concat bytes_of escape app] in E.
  unfold outs in E. cbn [map concat] in E. rewrite !app_nil_r in E. unfold out in E. rewrite E; [done|..].
  - cbn [forallb]. by rewrite H.
  - by left.
  - clear. induction (toHtml n); cbn in *; lia.
Qed.

(** C13: what [toHtml] writes reads back as the tree it was given: tags, attributes with
    their values, texts and children, whatever characters the texts and the values hold. *)
Theorem toHtml_reads_back n : nodes_ok n = true -> read_html (toHtml n) = Some (merge [reading n]).
Proof. apply toHtml_read. Qed.

Definition sample_node : abstract :=
  AEl (Some "span") [("title", VStr "a <b> & 'c'"); ("width", VNum 12)]
    [AText "1 < 2"; AEl (Some "i") [] []; AText "&amp;"; AText ""].

Lemma joinAttributes_reads_back_witness :
  names_ok [("title", VStr "a <b> & 'c'"); ("width", VNum 12)]
  /\ read_attributes 45 (bytes_of (joinAttributes [("title", VStr "a <b> & 'c'"); ("width", VNum 12)]))
     = Some [("title", "a <b> & 'c'"); ("width", "12")].
Proof.
  assert (names_ok [("title", VStr "a <b> & 'c'"); ("width", VNum 12)]) as H by by_decide.
  split; [exact H|]. exact (joinAttributes_reads_back _ H).
Defined.

Lemma toHtml_reads_back_witness : read_html (toHtml sample_node) = Some [reading sample_node].
Proof. exact (toHtml_reads_back sample_node eq_refl). Defined.
