(* ===== verification/FaTransform.v ===== *)
(** Power transforms of [fontawesome.js]: what [data-fa-transform] says, when it changes
    nothing, and how it is written for SVG and for CSS. *)
From stdpp Require Import base strings list.
From Stdlib Require Import Lia ZArith Ascii SpecFloat.
From S2P Require Import Prelude GoStrings JsObj FaMeta JsNumber.

Record transform := mkTransform {
  size : num; x : num; y : num; rotate : num; flipX : bool; flipY : bool }.
#[export] Instance transform_eq_dec : EqDecision transform.
Proof. solve_decision. Defined.

Definition d_2 : num := num_of UNITS_IN_GRID.
Definition meaninglessTransform : transform :=
  mkTransform (num_of 16) (num_of 0) (num_of 0) (num_of 0) false false.

Definition transformIsMeaningful (t : transform) : bool :=
  negb (num_eqb (size t) (size meaninglessTransform)) || negb (num_eqb (x t) (x meaninglessTransform))
  || negb (num_eqb (y t) (y meaninglessTransform))
  || negb (num_eqb (rotate t) (rotate meaninglessTransform)) || flipX t || flipY t.

(** * Parsing *)

(** [toLowerCase] on code units below 256. *)
Definition js_lower_chr (a : ascii) : ascii :=
  let n := byte_val a in
  if ((65 <=? n) && (n <=? 90) || (192 <=? n) && (n <=? 222) && negb (n =? 215))%nat then chr (n + 32) else a.
Definition toLowerCase (s : string) : string := of_bytes (map js_lower_chr (bytes_of s)).

Definition grow (d : num) (t : transform) : transform :=
  mkTransform (num_add (size t) d) (x t) (y t) (rotate t) (flipX t) (flipY t).
Definition shrink (d : num) (t : transform) : transform :=
  mkTransform (num_sub (size t) d) (x t) (y t) (rotate t) (flipX t) (flipY t).
Definition move_x (v : num) (t : transform) : transform :=
  mkTransform (size t) v (y t) (rotate t) (flipX t) (flipY t).
Definition move_y (v : num) (t : transform) : transform :=
  mkTransform (size t) (x t) v (rotate t) (flipX t) (flipY t).
Definition turn (d : num) (t : transform) : transform :=
  mkTransform (size t) (x t) (y t) (num_add (rotate t) d) (flipX t) (flipY t).
Definition flip_h (t : transform) : transform :=
  mkTransform (size t) (x t) (y t) (rotate t) true (flipY t).
Definition flip_v (t : transform) : transform :=
  mkTransform (size t) (x t) (y t) (rotate t) (flipX t) true.

(** The [switch] on the first part. *)
Definition apply_word (first : string) (d : num) (acc : transform) : transform :=
  if str_eqb first "grow" then grow d acc
  else if str_eqb first "shrink" then shrink d acc
  else if str_eqb first "left" then move_x (num_sub (x acc) d) acc
  else if str_eqb first "right" then move_x (num_add (x acc) d) acc
  else if str_eqb first "up" then move_y (num_sub (y acc) d) acc
  else if str_eqb first "down" then move_y (num_add (y acc) d) acc
  else if str_eqb first "rotate" then turn d acc
  else acc.

Definition word_parts (n : string) : string * string :=
  match split_on "-"%char (toLowerCase n) with
  | first :: rest => (first, join "-" rest)
  | [] => ("", "")
  end.

Definition parse_word (acc : transform) (n : string) : transform :=
  let '(first, rest) := word_parts n in
  if negb (str_empty first) && str_eqb rest "h" then flip_h acc
  else if negb (str_empty first) && str_eqb rest "v" then flip_v acc
  else let d := parseFloat rest in
       if is_nan d then acc else apply_word first d acc.

Definition parseTransformString (transformString : string) : transform :=
  fold_left parse_word (split_on " "%char (toLowerCase transformString))
    (mkTransform (num_of 16) (num_of 0) (num_of 0) (num_of 0) false false).

(** * Writing *)
Definition nstr : num -> string := num_to_string.
Definition TWO : num := num_of 2.
(** [flag ? -1 : 1] *)
Definition sign (flip : bool) : num := if flip then num_of (-1) else num_of 1.

Record svg_transform := mkSvgTransform { outer : string; inner : string; path : string }.

Definition transformForSvg (t : transform) (containerWidth iconWidth : num) : svg_transform :=
  let innerTranslate :=
    "translate(" +:+ nstr (num_mul (x t) (num_of 32)) +:+ ", " +:+ nstr (num_mul (y t) (num_of 32)) +:+ ") " in
  let innerScale :=
    "scale(" +:+ nstr (num_mul (num_div (size t) (num_of 16)) (sign (flipX t))) +:+ ", "
    +:+ nstr (num_mul (num_div (size t) (num_of 16)) (sign (flipY t))) +:+ ") " in
  let innerRotate := "rotate(" +:+ nstr (rotate t) +:+ " 0 0)" in
  mkSvgTransform
    ("translate(" +:+ nstr (num_div containerWidth TWO) +:+ " 256)")
    (innerTranslate +:+ " " +:+ innerScale +:+ " " +:+ innerRotate)
    ("translate(" +:+ nstr (num_mul (num_div iconWidth TWO) (num_of (-1))) +:+ " -256)").

(** A width or height that may be missing: [undefined] is the default, [null] is 0. *)
Inductive dim : Type := DUndefined | DNull | DNum (n : num).
Definition dim_num (d : dim) : num :=
  match d with DUndefined => d_2 | DNull => num_of 0 | DNum n => n end.

Definition transformForCss (is_ie : bool) (t : transform) (width height : dim) (startCentered : bool) : string :=
  let tx := num_div (x t) d_2 in
  let ty := num_div (y t) d_2 in
  let s := num_div (size t) d_2 in
  (if startCentered && is_ie then
     "translate(" +:+ nstr (num_sub tx (num_div (dim_num width) TWO)) +:+ "em, "
     +:+ nstr (num_sub ty (num_div (dim_num height) TWO)) +:+ "em) "
   else if startCentered then
     "translate(calc(-50% + " +:+ nstr tx +:+ "em), calc(-50% + " +:+ nstr ty +:+ "em)) "
   else "translate(" +:+ nstr tx +:+ "em, " +:+ nstr ty +:+ "em) ")
  +:+ "scale(" +:+ nstr (num_mul s (sign (flipX t))) +:+ ", " +:+ nstr (num_mul s (sign (flipY t))) +:+ ") "
  +:+ "rotate(" +:+ nstr (rotate t) +:+ "deg) ".

Example parse_ex : parseTransformString "shrink-6 up-.25 left-4 rotate-45 FLIP-H flip-v" =
  mkTransform (num_of 10) (num_of (-4)) (read_decimal true 25 (-2)) (num_of 45) true true.
Proof. vm_compute. reflexivity. Qed.
Example svg_ex : transformForSvg (parseTransformString "grow-2.5 left-3 flip-h") (num_of 576) (num_of 512)
  = mkSvgTransform "translate(288 256)" "translate(-96, 0)  scale(-1.15625, 1.15625)  rotate(0 0 0)"
      "translate(-256 -256)".
Proof. vm_compute. reflexivity. Qed.

(** * The axes *)
(** The words of a transform, in small letters. *)
Definition transform_words (s : string) : list string := split_on " "%char (toLowerCase s).
(** What a word of the form name-number does to a quantity that listens to these names. *)
Fixpoint amount (names : list (string * (num -> num -> num))) (w : string) : option (num -> num) :=
  match names with
  | [] => None
  | (name, op) :: l =>
      match str_drop_prefix (name +:+ "-") w with
      | Some n => if is_nan (parseFloat n) then None else Some (fun v => op v (parseFloat n))
      | None => amount l w
      end
  end.
(** The words for one quantity, one after the other. *)
Definition along (names : list (string * (num -> num -> num))) (start : num) (ws : list string) : num :=
  fold_left (fun v w => match amount names w with Some f => f v | None => v end) ws start.
(** A word that ends in [-h] or [-v] and has something without a dash in front. *)
Definition says_flip (way w : string) : Prop :=
  exists name, name <> "" /\ str_mem_chr "-"%char name = false /\ w = name +:+ "-" +:+ way.

Definition low (s : string) : Prop := Forall (fun a => js_lower_chr a = a) (bytes_of s).
Lemma lower_low s : low (toLowerCase s).
Proof.
  unfold low, toLowerCase. rewrite bytes_of_of. induction (bytes_of s) as [|a l IH]; constructor; [|exact IH].
  destruct a as [[] [] [] [] [] [] [] []]; reflexivity.
Qed.
Lemma low_lower s : low s -> toLowerCase s = s.
Proof.
  unfold low, toLowerCase. intros H. rewrite <- (of_bytes_of s) at 2. f_equal.
  induction H as [|a l Ha _ IH]; cbn [map]; [done|]. by rewrite Ha, IH.
Qed.
Lemma low_join sep l w : low (join sep l) -> w ∈ l -> low w.
Proof.
  unfold low. induction l as [|p l IH]; intros H Hw; [by apply elem_of_nil in Hw|].
  destruct l as [|q l]; [by apply list_elem_of_singleton in Hw as ->|].
  change (join sep (p :: q :: l)) with (p +:+ sep +:+ join sep (q :: l)) in H.
  rewrite !bytes_of_app, !Forall_app in H. destruct H as (Hp & _ & Hl).
  apply elem_of_cons in Hw as [->|Hw]; [exact Hp|exact (IH Hl Hw)].
Qed.
Lemma words_low s : Forall low (transform_words s).
Proof.
  apply Forall_forall. intros w. unfold transform_words. apply (low_join " ").
  rewrite (join_split_on " "%char). apply lower_low.
Qed.

(** A word is its name and what comes after the first dash. *)
Lemma word_cases w : low w ->
  (str_mem_chr "-"%char w = false /\ word_parts w = (w, ""))
  \/ exists name n, str_mem_chr "-"%char name = false /\ w = name +:+ "-" +:+ n /\ word_parts w = (name, n).
Proof.
  intros Hw. unfold word_parts. rewrite low_lower by done. pose proof (split_on_parts "-"%char w) as Hp.
  pose proof (join_split_on "-"%char w) as Hj. destruct (split_on "-"%char w) as [|name [|q ps]] eqn:E.
  - by apply split_on_not_nil in E.
  - left. cbn in Hj. subst w. apply Forall_inv in Hp. done.
  - right. exists name, (join "-" (q :: ps)). apply Forall_inv in Hp. done.
Qed.
Lemma drop_name name first n : str_mem_chr "-"%char name = false -> str_mem_chr "-"%char first = false ->
  str_drop_prefix (name +:+ "-") (first +:+ "-" +:+ n) = if str_eqb first name then Some n else None.
Proof.
  intros Hn Hf. destruct (str_eqb_spec first name) as [->|Hne].
  - apply str_drop_prefix_Some. by rewrite str_app_assoc.
  - destruct (str_drop_prefix _ _) as [r|] eqn:E; [|done]. apply str_drop_prefix_Some in E. exfalso. apply Hne.
    rewrite <- str_app_assoc in E. revert name E Hn Hf Hne.
    induction first as [|a first IH]; intros [|b name]; cbn; try done.
    + intros [= <- _]. done.
    + intros [= -> _]. done.
    + intros [= -> E] [_ Hn]%orb_false_iff [_ Hf]%orb_false_iff Hne. f_equal. eapply IH; eauto. congruence.
Qed.

Definition size_words := [("grow", num_add); ("shrink", num_sub)].
Definition x_words := [("right", num_add); ("left", num_sub)].
Definition y_words := [("down", num_add); ("up", num_sub)].
Definition rotate_words := [("rotate", num_add)].
Definition no_dashes (names : list (string * (num -> num -> num))) : bool :=
  forallb (fun nf => negb (str_mem_chr "-"%char (fst nf))) names.
Definition after {A} (o : option (A -> A)) (v : A) : A := match o with Some f => f v | None => v end.

Lemma amount_none names w : str_mem_chr "-"%char w = false -> amount names w = None.
Proof.
  intros Hw. induction names as [|[name op] l IH]; cbn [amount]; [done|].
  destruct (str_drop_prefix _ _) as [n|] eqn:E; [|done]. apply str_drop_prefix_Some in E. subst w. exfalso.
  clear -Hw. revert Hw. rewrite <- str_app_assoc. induction name as [|a name IH]; cbn; [done|].
  intros [_ H]%orb_false_iff. auto.
Qed.
Lemma amount_app names first n : no_dashes names = true -> str_mem_chr "-"%char first = false ->
  amount names (first +:+ "-" +:+ n)
  = match List.find (fun nf => str_eqb first (fst nf)) names with
    | Some nf => if is_nan (parseFloat n) then None else Some (fun v => snd nf v (parseFloat n))
    | None => None end.
Proof.
  intros Hn Hf. induction names as [|[name op] l IH]; cbn [amount List.find fst]; [done|].
  cbn [no_dashes forallb fst] in Hn. apply andb_true_iff in Hn as [Hn%negb_true_iff Hl].
  rewrite drop_name by done. destruct (str_eqb first name); [done|by apply IH].
Qed.
Lemma says_flip_app way first n : str_mem_chr "-"%char first = false ->
  says_flip way (first +:+ "-" +:+ n) <-> first <> "" /\ n = way.
Proof.
  intros Hf. split; [intros (name & Hne & Hd & E)|intros [? ->]; by exists first].
  pose proof (drop_name name first n Hd Hf) as H. pose proof (str_drop_prefix_app (name +:+ "-") way) as H'.
  rewrite E, str_app_assoc, H' in H. destruct (str_eqb_spec first name) as [->|]; by simplify_eq.
Qed.

(** One word: what it does to each quantity. *)
Lemma parse_word_axes t w : low w ->
  size (parse_word t w) = after (amount size_words w) (size t)
  /\ x (parse_word t w) = after (amount x_words w) (x t)
  /\ y (parse_word t w) = after (amount y_words w) (y t)
  /\ rotate (parse_word t w) = after (amount rotate_words w) (rotate t)
  /\ (flipX (parse_word t w) = true <-> flipX t = true \/ says_flip "h" w)
  /\ (flipY (parse_word t w) = true <-> flipY t = true \/ says_flip "v" w).
Proof.
  intros Hw. destruct (word_cases w Hw) as [[Hd E]|(first & n & Hd & -> & E)]; unfold parse_word; rewrite E.
  - rewrite !andb_false_r. cbn [str_eqb]. rewrite !amount_none by done.
    assert (forall way, ~ says_flip way w) as Hno.
    { intros way (name & _ & _ & ->). clear -Hd. revert Hd. induction name as [|a name IH]; cbn; [done|].
      intros [_ H]%orb_false_iff. auto. }
    change (is_nan (parseFloat "")) with true. cbn [after]. split_and!; try done; naive_solver.
  - rewrite !amount_app, !says_flip_app by done. unfold str_empty.
    destruct (str_eqb_spec first "") as [->|Hne]; cbn [negb andb];
      [|destruct (str_eqb_spec n "h") as [->|Hh]; [|destruct (str_eqb_spec n "v") as [->|Hv]]].
    + cbn [size_words x_words y_words rotate_words List.find fst]. destruct (is_nan _); cbn; split_and!; try done; intuition congruence.
    + change (is_nan (parseFloat "h")) with true. repeat case_match; cbn; split_and!; try done; intuition congruence.
    + change (is_nan (parseFloat "v")) with true. repeat case_match; cbn; split_and!; try done; intuition congruence.
    + unfold size_words, x_words, y_words, rotate_words, apply_word. cbn [List.find fst].
      destruct (is_nan (parseFloat n)); [repeat case_match; cbn; split_and!; try done; intuition congruence|].
      repeat (match goal with |- context [str_eqb first ?w] => destruct (str_eqb_spec first w) as [->|] end);
        cbn; split_and!; try done; intuition congruence.
Qed.
Lemma fold_words_axes ws : Forall low ws -> forall t,
  let t' := fold_left parse_word ws t in
  size t' = along size_words (size t) ws /\ x t' = along x_words (x t) ws
  /\ y t' = along y_words (y t) ws /\ rotate t' = along rotate_words (rotate t) ws
  /\ (flipX t' = true <-> flipX t = true \/ Exists (says_flip "h") ws)
  /\ (flipY t' = true <-> flipY t = true \/ Exists (says_flip "v") ws).
Proof.
  induction 1 as [|w ws Hw _ IH]; intros t; cbn [fold_left].
  { rewrite !Exists_nil. split_and!; try done; intuition congruence. }
  destruct (IH (parse_word t w)) as (-> & -> & -> & -> & -> & ->).
  destruct (parse_word_axes t w Hw) as (-> & -> & -> & -> & -> & ->). rewrite !Exists_cons.
  split_and!; try done; intuition congruence.
Qed.

(** C36: what a transform says is said axis by axis: the size is 16, changed by the words grow-n and shrink-n in their order, x is 0 changed by right-n and left-n, y by down-n and up-n, the rotation by rotate-n, where n is what [parseFloat] makes of the text after the first dash and a word with no number there is passed over; the icon is flipped across exactly when some word is a name and [-h], and upside down exactly when one is a name and [-v]; nothing else in the string counts. *)
Theorem parse_by_axis s :
  let t := parseTransformString s in
  let ws := transform_words s in
  size t = along [("grow", num_add); ("shrink", num_sub)] (num_of 16) ws
  /\ x t = along [("right", num_add); ("left", num_sub)] (num_of 0) ws
  /\ y t = along [("down", num_add); ("up", num_sub)] (num_of 0) ws
  /\ rotate t = along [("rotate", num_add)] (num_of 0) ws
  /\ (flipX t = true <-> Exists (says_flip "h") ws)
  /\ (flipY t = true <-> Exists (says_flip "v") ws).
Proof.
  destruct (fold_words_axes (transform_words s) (words_low s)
    (mkTransform (num_of 16) (num_of 0) (num_of 0) (num_of 0) false false)) as (H1 & H2 & H3 & H4 & H5 & H6).
  cbn [size x y rotate flipX flipY] in *. unfold parseTransformString. fold (transform_words s).
  split_and!; try assumption; [rewrite H5|rewrite H6]; split; [intros [[=]|]; done|by right|intros [[=]|]; done|by right].
Qed.

Example parse_by_axis_ex :
  let t := parseTransformString "grow-2 left-3 wobble-1 FLIP-H grow-1 -5 up-x" in
  size t = num_of 19 /\ x t = num_of (-3) /\ y t = num_of 0 /\ flipX t = true /\ flipY t = false.
Proof. vm_compute. split_and!; reflexivity. Qed.

(** * A transform that means nothing *)
Lemma num_eqb_zero a : num_eqb a (num_of 0) = true -> exists s, a = S754_zero s.
Proof. unfold num_eqb, SFeqb. change (num_of 0) with (S754_zero false). destruct a as [s|[]| |[] m e]; cbn; naive_solver. Qed.

Lemma num_eqb_finite a m e : num_eqb a (S754_finite false m e) = true -> a = S754_finite false m e.
Proof.
  unfold num_eqb, SFeqb, SFcompare. destruct a as [s|[]| |[] m' e']; try done.
  destruct (Z.compare_spec e' e) as [->| |]; try done.
  fold (Pos.compare m' m). destruct (Pos.compare_spec m' m) as [->| |]; done.
Qed.

Lemma not_meaningful t : transformIsMeaningful t = false ->
  exists sx sy sr, t = mkTransform (num_of 16) (S754_zero sx) (S754_zero sy) (S754_zero sr) false false.
Proof.
  unfold transformIsMeaningful. destruct t as [sz tx ty r fx fy]. cbn [size x y rotate flipX flipY meaninglessTransform].
  rewrite !orb_false_iff, !negb_false_iff. intros [[[[[H1 H2] H3] H4] ->] ->].
  apply num_eqb_zero in H2 as [? ->], H3 as [? ->], H4 as [? ->]. eexists _, _, _. f_equal.
  apply (num_eqb_finite sz) in H1. exact H1.
Qed.

(** Leaving out a transform that is not meaningful is right: written out, for SVG or
    for CSS, it moves nothing, scales by 1 and turns by 0. *)
Theorem meaningless_is_identity is_ie t cw iw h :
  transformIsMeaningful t = false ->
  inner (transformForSvg t cw iw) = "translate(0, 0)  scale(1, 1)  rotate(0 0 0)"
  /\ transformForCss is_ie t (DNum cw) h false = "translate(0em, 0em) scale(1, 1) rotate(0deg) ".
Proof. intros (sx & sy & sr & ->)%not_meaningful. by destruct is_ie, sx, sy, sr; split. Qed.

Lemma meaningless_is_identity_witness :
  inner (transformForSvg (parseTransformString "grow-2 shrink-2 left--0") (num_of 512) (num_of 512))
  = "translate(0, 0)  scale(1, 1)  rotate(0 0 0)".
Proof.
  exact (proj1 (meaningless_is_identity false (parseTransformString "grow-2 shrink-2 left--0") (num_of 512)
    (num_of 512) DNull eq_refl)).
Defined.
