(* ===== verification/FaRender.v ===== *)
(** From an icon to abstract nodes: [asFoundIcon], [findIcon], the icon, mask and missing
    icon providers, [makeInlineSvgAbstract], the layers, and the [icon], [text],
    [counter] and [layer] methods of the API of [fontawesome.js].

    Objects are values: the [children] and [attributes] a provider changes in place are
    those its caller passes on, so the new ones are returned. *)
From stdpp Require Import base strings list.
From Stdlib Require Import Lia ZArith Ascii SpecFloat.
From S2P Require Import Prelude GoStrings JsObj FaTables FaMeta FaConfig FaRegistry JsNumber FaHtml FaTransform.

Definition PRODUCTION : bool := true.

(** * Parts of an abstract node *)
Definition tag_of (a : abstract) : option string := match a with AEl t _ _ => t | AText _ => None end.
Definition attributes_of (a : abstract) : obj jsval := match a with AEl _ o _ => o | AText _ => [] end.
Definition children_of (a : abstract) : list abstract := match a with AEl _ _ c => c | AText _ => [] end.

Definition el (tag : string) (attributes : list (string * jsval)) (children : list abstract) : abstract :=
  AEl (Some tag) (literal attributes) children.
Definition ostr (o : option string) : jsval := match o with Some s => VStr s | None => VNull end.
Definition odim (o : option Z) : string := match o with Some n => print_int n | None => "null" end.

(** * Found icons *)
Record found_icon := mkFound {
  found : bool; fi_width : option Z; fi_height : option Z; fi_icon : abstract }.
#[export] Instance abstract_inhabited : Inhabited abstract := populate no_element.

Definition nth_path (d : list string) (i : nat) : jsval :=
  match nth_error d i with Some s => VStr s | None => VUndefined end.

Definition css_class (c : obj jsval) (suffix : string) : jsval :=
  VStr (to_str (config_get c "cssPrefix") +:+ "-" +:+ suffix).
Definition duotone_class (k : string) : string := default "undefined" (get k DUOTONE_CLASSES).

Definition asFoundIcon (c : obj jsval) (i : icon) : found_icon :=
  let element :=
    match svgPathData i with
    | PathTwo d =>
        el "g" [("class", css_class c (duotone_class "GROUP"))]
          [el "path" [("class", css_class c (duotone_class "SECONDARY")); ("fill", VStr "currentColor");
                      ("d", nth_path d 0)] [];
           el "path" [("class", css_class c (duotone_class "PRIMARY")); ("fill", VStr "currentColor");
                      ("d", nth_path d 1)] []]
    | PathOne d => el "path" [("fill", VStr "currentColor"); ("d", VStr d)] []
    end in
  mkFound true (Some (width i)) (Some (height i)) element.

(** ** The indicator of a missing icon *)
Definition FILL : list (string * jsval) := [("fill", VStr "currentColor")].
Definition ANIMATION_BASE : list (string * jsval) :=
  [("attributeType", VStr "XML"); ("repeatCount", VStr "indefinite"); ("dur", VStr "2s")].
Definition OPACITY_ANIMATE : list (string * jsval) := ANIMATION_BASE ++ [("attributeName", VStr "opacity")].
Definition ring_path : string :=
  "M156.5,447.7l-12.6,29.5c-18.7-9.5-35.9-21.2-51.5-34.9l22.7-22.7C127.6,430.5,141.5,440,156.5,447.7z M40.6,272H8.5 c1.4,21.2,5.4,41.7,11.7,61.1L50,321.2C45.1,305.5,41.8,289,40.6,272z M40.6,240c1.4-18.8,5.2-37,11.1-54.1l-29.5-12.6 C14.7,194.3,10,216.7,8.5,240H40.6z M64.3,156.5c7.8-14.9,17.2-28.8,28.1-41.5L69.7,92.3c-13.7,15.6-25.5,32.8-34.9,51.5 L64.3,156.5z M397,419.6c-13.9,12-29.4,22.3-46.1,30.4l11.9,29.8c20.7-9.9,39.8-22.6,56.9-37.6L397,419.6z M115,92.4 c13.9-12,29.4-22.3,46.1-30.4l-11.9-29.8c-20.7,9.9-39.8,22.6-56.8,37.6L115,92.4z M447.7,355.5c-7.8,14.9-17.2,28.8-28.1,41.5 l22.7,22.7c13.7-15.6,25.5-32.9,34.9-51.5L447.7,355.5z M471.4,272c-1.4,18.8-5.2,37-11.1,54.1l29.5,12.6 c7.5-21.1,12.2-43.5,13.6-66.8H471.4z M321.2,462c-15.7,5-32.2,8.2-49.2,9.4v32.1c21.2-1.4,41.7-5.4,61.1-11.7L321.2,462z M240,471.4c-18.8-1.4-37-5.2-54.1-11.1l-12.6,29.5c21.1,7.5,43.5,12.2,66.8,13.6V471.4z M462,190.8c5,15.7,8.2,32.2,9.4,49.2h32.1 c-1.4-21.2-5.4-41.7-11.7-61.1L462,190.8z M92.4,397c-12-13.9-22.3-29.4-30.4-46.1l-29.8,11.9c9.9,20.7,22.6,39.8,37.6,56.9 L92.4,397z M272,40.6c18.8,1.4,36.9,5.2,54.1,11.1l12.6-29.5C317.7,14.7,295.3,10,272,8.5V40.6z M190.8,50 c15.7-5,32.2-8.2,49.2-9.4V8.5c-21.2,1.4-41.7,5.4-61.1,11.7L190.8,50z M442.3,92.3L419.6,115c12,13.9,22.3,29.4,30.5,46.1 l29.8-11.9C470,128.5,457.3,109.4,442.3,92.3z M397,92.4l22.7-22.7c-15.6-13.7-32.8-25.5-51.5-34.9l-12.6,29.5 C370.4,72.1,384.4,81.5,397,92.4z".
Definition question_path : string :=
  "M263.7,312h-16c-6.6,0-12-5.4-12-12c0-71,77.4-63.9,77.4-107.8c0-20-17.8-40.2-57.4-40.2c-29.1,0-44.3,9.6-59.2,28.7 c-3.9,5-11.1,6-16.2,2.4l-13.1-9.2c-5.6-3.9-6.9-11.8-2.6-17.2c21.2-27.2,46.4-44.7,91.2-44.7c52.3,0,97.4,29.8,97.4,80.2 c0,67.6-77.4,63.5-77.4,107.8C275.7,306.6,270.3,312,263.7,312z".
Definition exclamation_path : string :=
  "M232.5,134.5l7,168c0.3,6.4,5.6,11.5,12,11.5h9c6.4,0,11.7-5.1,12-11.5l7-168c0.3-6.8-5.2-12.5-12-12.5h-23 C237.7,122,232.2,127.7,232.5,134.5z".

Definition missingIconAbstract (reduceMotion : bool) : abstract :=
  let dot :=
    el "circle" (FILL ++ [("cx", VStr "256"); ("cy", VStr "364"); ("r", VStr "28")])
      (if reduceMotion then []
       else [el "animate" (ANIMATION_BASE ++ [("attributeName", VStr "r"); ("values", VStr "28;14;28;28;14;28;")]) [];
             el "animate" (OPACITY_ANIMATE ++ [("values", VStr "1;0;1;1;0;1;")]) []]) in
  let question :=
    el "path" (FILL ++ [("opacity", VStr "1"); ("d", VStr question_path)])
      (if reduceMotion then [] else [el "animate" (OPACITY_ANIMATE ++ [("values", VStr "1;0;0;0;0;1;")]) []]) in
  let exclamation :=
    if reduceMotion then []
    else [el "path" (FILL ++ [("opacity", VStr "0"); ("d", VStr exclamation_path)])
            [el "animate" (OPACITY_ANIMATE ++ [("values", VStr "0;0;1;1;0;0;")]) []]] in
  el "g" [("class", VStr "missing")]
    ([el "path" (FILL ++ [("d", VStr ring_path)]) []; dot; question] ++ exclamation).

(** ** [findIcon]: what its promise resolves to, and the errors it logs *)
Definition maybeNotifyMissing (c : obj jsval) (iconName prefix : option string) : list string :=
  if negb PRODUCTION && negb (truthy (config_get c "showMissingIcons")) && otruthy iconName
  then ["Icon with name " +:+ QUOTE +:+ okey iconName +:+ QUOTE +:+ " and prefix " +:+ QUOTE
        +:+ okey prefix +:+ QUOTE +:+ " is missing."]
  else [].

Definition find_style_icon (s : fa) (prefix iconName : option string) : option icon :=
  if otruthy iconName && otruthy prefix then
    match get (okey prefix) (styles s) with
    | Some style => get (okey iconName) style
    | None => None
    end
  else None.

Definition findIcon (s : fa) (reduceMotion : bool) (iconName prefix : option string)
  : found_icon * list string :=
  let isFa := bool_decide (prefix = Some "fa") in
  let prefix :=
    if isFa && negb (bool_decide (config_get (config s) "styleDefault" = VNull))
    then getDefaultUsablePrefix s else prefix in
  let sh := if isFa then byOldName s (okey iconName) else null_lookup in
  let iconName := js_or (l_iconName sh) iconName in
  let prefix := js_or (l_prefix sh) prefix in
  match find_style_icon s prefix iconName with
  | Some i => (asFoundIcon (config s) i, [])
  | None =>
      (mkFound false (Some 512%Z) (Some 512%Z)
         (if truthy (config_get (config s) "showMissingIcons") && otruthy iconName
          then missingIconAbstract reduceMotion else no_element),
       maybeNotifyMissing (config s) iconName prefix)
  end.

(** * Providers *)
Definition znum (o : option Z) : num := match o with Some z => num_of z | None => num_of 0 end.

Definition with_transform (v : string) (o : obj jsval) : obj jsval := set "transform" (VStr v) o.

Definition generateAbstractTransformGrouping (main : found_icon) (t : transform)
  (containerWidth iconWidth : option Z) : abstract :=
  let operations := transformForSvg t (znum containerWidth) (znum iconWidth) in
  el "g" [("transform", VStr (outer operations))]
    [el "g" [("transform", VStr (inner operations))]
       [AEl (tag_of (fi_icon main))
          (spread (spread [] (attributes_of (fi_icon main))) [("transform", VStr (path operations))])
          (children_of (fi_icon main))]].

Record content := mkContent { ct_children : list abstract; ct_attributes : obj jsval }.

Definition generateAbstractIcon (ct : content) (main : found_icon) (t : transform) (styles : obj string)
  : content :=
  let styleString := joinStyles styles in
  let attributes :=
    if str_empty styleString then ct_attributes ct else set "style" (VStr styleString) (ct_attributes ct) in
  let nextChild :=
    if transformIsMeaningful t
    then generateAbstractTransformGrouping main t (fi_width main) (fi_width main)
    else fi_icon main in
  mkContent (ct_children ct ++ [nextChild]) attributes.

(** ** Masks *)
Definition ALL_SPACE : list (string * jsval) :=
  [("x", VNum 0); ("y", VNum 0); ("width", VStr "100%"); ("height", VStr "100%")].

(** [force] is [true] when it is not given, and the index when [map] calls. *)
Definition fillBlack (force : jsval) (a : abstract) : abstract :=
  match a with
  | AEl t o cs => if truthy (read "fill" o) || truthy force then AEl t (set "fill" (VStr "black") o) cs else a
  | AText _ => a
  end.
Definition deGroup (a : abstract) : list abstract :=
  if bool_decide (tag_of a = Some "g") then children_of a else [a].

(** [nextUniqueId]: [draw n] is the [n]th value of [Math.random() * 62 | 0]; the result
    is the identifier and the number of values used so far. *)
Definition idPool : string := "0123456789abcdefghijklmnopqrstuvwxyzABCDEFGHIJKLMNOPQRSTUVWXYZ".
Fixpoint draw_id (draw : nat -> nat) (n size : nat) : string :=
  match size with
  | O => ""
  | S k => match String.get (draw n) idPool with Some a => str1 a | None => "undefined" end
           +:+ draw_id draw (S n) k
  end.
Definition nextUniqueId (draw : nat -> nat) (n : nat) : string * nat := (draw_id draw n 12, n + 12).

(** [explicitMaskId || nextUniqueId()] *)
Definition mask_id (draw : nat -> nat) (n : nat) (explicitMaskId : option string) : string * nat :=
  match explicitMaskId with
  | Some s => if str_empty s then nextUniqueId draw n else (s, n)
  | None => nextUniqueId draw n
  end.

Definition generateAbstractMask (draw : nat -> nat) (n : nat) (ct : content) (main mask : found_icon)
  (explicitMaskId : option string) (t : transform) : content * nat :=
  let mainPath := fi_icon main in
  let maskPath := fi_icon mask in
  let trans := transformForSvg t (znum (fi_width mask)) (znum (fi_width main)) in
  let maskRect := el "rect" (ALL_SPACE ++ [("fill", VStr "white")]) [] in
  let innerChildren := imap (fun i c => fillBlack (VNum (Z.of_nat i)) c) (children_of mainPath) in
  let maskInnerGroup :=
    el "g" [("transform", VStr (inner trans))]
      [fillBlack (VBool true)
         (AEl (tag_of mainPath)
            (spread (spread [] (attributes_of mainPath)) [("transform", VStr (path trans))]) innerChildren)] in
  let maskOuterGroup := el "g" [("transform", VStr (outer trans))] [maskInnerGroup] in
  let '(m, n) := mask_id draw n explicitMaskId in
  let maskId := "mask-" +:+ m in
  let '(c, n) := mask_id draw n explicitMaskId in
  let clipId := "clip-" +:+ c in
  let maskTag :=
    el "mask" (ALL_SPACE ++ [("id", VStr maskId); ("maskUnits", VStr "userSpaceOnUse");
                             ("maskContentUnits", VStr "userSpaceOnUse")]) [maskRect; maskOuterGroup] in
  let defs := el "defs" [] [el "clipPath" [("id", VStr clipId)] (deGroup maskPath); maskTag] in
  let rect :=
    el "rect" ([("fill", VStr "currentColor"); ("clip-path", VStr ("url(#" +:+ clipId +:+ ")"));
                ("mask", VStr ("url(#" +:+ maskId +:+ ")"))] ++ ALL_SPACE) [] in
  (mkContent (ct_children ct ++ [defs; rect]) (ct_attributes ct), n).

(** * Inline SVG *)
Record extra := mkExtra {
  ex_classes : list string; ex_styles : obj string; ex_attributes : obj jsval }.

Definition HALF : num := num_div (num_of 1) TWO.
Definition asIcon (children : list abstract) (main mask : found_icon) (attributes : obj jsval)
  (styles : obj string) (t : transform) : list abstract :=
  let attributes :=
    if transformIsMeaningful t && found main && negb (found mask) then
      let ox := num_div (num_div (znum (fi_width main)) (znum (fi_height main))) TWO in
      let origin := nstr (num_add ox (num_div (x t) (num_of 16))) +:+ "em "
                    +:+ nstr (num_add HALF (num_div (y t) (num_of 16))) +:+ "em" in
      set "style" (VStr (joinStyles (spread (spread [] styles) [("transform-origin", origin)]))) attributes
    else attributes in
  [AEl (Some "svg") attributes children].

Definition asSymbol (c : obj jsval) (prefix iconName : jsval) (children : list abstract)
  (attributes : obj jsval) (symbol : jsval) : list abstract :=
  let id :=
    if bool_decide (symbol = VBool true)
    then VStr (to_str prefix +:+ "-" +:+ to_str (config_get c "cssPrefix") +:+ "-" +:+ to_str iconName)
    else symbol in
  [el "svg" [("style", VStr "display: none;")]
     [AEl (Some "symbol") (spread (spread [] attributes) [("id", id)]) children]].

Definition isLabeled (attributes : obj jsval) : bool :=
  existsb (fun label => has label attributes) ["aria-label"; "aria-labelledby"; "title"; "role"].

(** [a.indexOf(c) === -1] for an array of strings. *)
Definition not_in (a : list string) (c : jsval) : bool :=
  match c with VStr s => negb (mem_str s a) | _ => true end.
(** An element of an array, as [join] writes it. *)
Definition join_elem (v : jsval) : string :=
  match v with VUndefined | VNull => "" | _ => to_str v end.

Definition attr_class (c : obj jsval) (iconName : jsval) (classes : list string) : string :=
  let own := [config_get c "replacementClass";
              if truthy iconName then css_class c (to_str iconName) else VStr ""] in
  let own := List.filter (not_in classes) own in
  let own := List.filter (fun v => negb (is_str v "") || truthy v) own in
  join " " (map join_elem own ++ classes).

Record svg_params := mkSvgParams {
  sp_main : found_icon; sp_mask : found_icon;
  sp_prefix : jsval; sp_iconName : jsval;
  sp_transform : transform; sp_symbol : jsval; sp_maskId : option string;
  sp_extra : extra; sp_watchable : bool }.

Definition svg_attributes (c : obj jsval) (p : svg_params) : obj jsval :=
  let shown := if found (sp_mask p) then sp_mask p else sp_main p in
  let given := ex_attributes (sp_extra p) in
  let role := read "role" given in
  let a := spread (spread [] given)
    [("data-prefix", sp_prefix p); ("data-icon", sp_iconName p);
     ("class", VStr (attr_class c (sp_iconName p) (ex_classes (sp_extra p))));
     ("role", if truthy role then role else VStr "img");
     ("viewBox", VStr ("0 0 " +:+ odim (fi_width shown) +:+ " " +:+ odim (fi_height shown)))] in
  let a := if negb (isLabeled given) && negb (truthy (read "aria-hidden" given))
           then set "aria-hidden" (VStr "true") a else a in
  if sp_watchable p then set DATA_FA_I2SVG (VStr "") a else a.

Definition makeInlineSvgAbstract (c : obj jsval) (draw : nat -> nat) (n : nat) (p : svg_params)
  : list abstract * nat :=
  let ct := mkContent [] (svg_attributes c p) in
  let styles := spread [] (ex_styles (sp_extra p)) in
  let '(ct, n) :=
    if found (sp_mask p) && found (sp_main p)
    then generateAbstractMask draw n ct (sp_main p) (sp_mask p) (sp_maskId p) (sp_transform p)
    else (generateAbstractIcon ct (sp_main p) (sp_transform p) styles, n) in
  (if truthy (sp_symbol p)
   then asSymbol c (sp_prefix p) (sp_iconName p) (ct_children ct) (ct_attributes ct) (sp_symbol p)
   else asIcon (ct_children ct) (sp_main p) (sp_mask p) (ct_attributes ct) styles (sp_transform p), n).

(** * Layers *)
Definition with_style (styleString : string) (o : obj jsval) : obj jsval :=
  if str_empty styleString then o else set "style" (VStr styleString) o.

Definition makeLayersTextAbstract (is_ie : bool) (text : string) (w h : dim) (t : transform) (ex : extra)
  (watchable : bool) : list abstract :=
  let attributes := spread (spread [] (ex_attributes ex)) [("class", VStr (join " " (ex_classes ex)))] in
  let attributes := if watchable then set DATA_FA_I2SVG (VStr "") attributes else attributes in
  let styles := spread [] (ex_styles ex) in
  let styles :=
    if transformIsMeaningful t then
      let v := transformForCss is_ie t w h true in
      set "-webkit-transform" v (set "transform" v styles)
    else styles in
  [AEl (Some "span") (with_style (joinStyles styles) attributes) [AText text]].

Definition makeLayersCounterAbstract (text : string) (ex : extra) : list abstract :=
  let attributes := spread (spread [] (ex_attributes ex)) [("class", VStr (join " " (ex_classes ex)))] in
  [AEl (Some "span") (with_style (joinStyles (ex_styles ex)) attributes) [AText text]].

(** * The API: the [abstract] of what the methods return *)

(** A transform of which any part may be missing. *)
Record partial_transform := mkPartial {
  pt_size : option num; pt_x : option num; pt_y : option num; pt_rotate : option num;
  pt_flipX : option bool; pt_flipY : option bool }.
Definition complete (p : partial_transform) : transform :=
  mkTransform (default (size meaninglessTransform) (pt_size p)) (default (x meaninglessTransform) (pt_x p))
    (default (y meaninglessTransform) (pt_y p)) (default (rotate meaninglessTransform) (pt_rotate p))
    (default (flipX meaninglessTransform) (pt_flipX p)) (default (flipY meaninglessTransform) (pt_flipY p)).
Definition no_partial : partial_transform := mkPartial None None None None None None.

(** What stands for an icon: a definition, or what to look it up with. *)
Inductive icon_arg : Type :=
  | ArgDefinition (prefix : option string) (iconName : string) (i : icon)
  | ArgLookup (l : iconLookup).

Record icon_params := mkIconParams {
  ip_transform : partial_transform; ip_symbol : jsval; ip_mask : option icon_arg;
  ip_maskId : option string; ip_classes : list string; ip_attributes : obj jsval;
  ip_styles : obj string }.

Definition resolve_arg (s : fa) (a : icon_arg) : option (option string * string * icon) :=
  match a with
  | ArgDefinition p n i => Some (p, n, i)
  | ArgLookup l => fst (findIconDefinition s l)
  end.

Definition no_mask : found_icon := mkFound false None None no_element.

Definition render (s : fa) (draw : nat -> nat) (n : nat)
  (iconDefinition : option (option string * string * icon))
  (mask : option (option string * string * icon)) (p : icon_params) : option (list abstract * nat) :=
  match iconDefinition with
  | None => None
  | Some (prefix, iconName, i) =>
      Some (makeInlineSvgAbstract (config s) draw n
        (mkSvgParams (asFoundIcon (config s) i)
           (match mask with Some (_, _, m) => asFoundIcon (config s) m | None => no_mask end)
           (ostr prefix) (VStr iconName) (complete (ip_transform p)) (ip_symbol p) (ip_maskId p)
           (mkExtra (ip_classes p) (ip_styles p) (ip_attributes p)) false))
  end.

(** [api.icon = resolveIcons(render)] *)
Definition api_icon (s : fa) (draw : nat -> nat) (n : nat) (a : icon_arg) (p : icon_params)
  : option (list abstract * nat) :=
  let mask := match ip_mask p with Some m => resolve_arg s m | None => None end in
  render s draw n (resolve_arg s a) mask p.

Definition prefixed (c : obj jsval) (suffix : string) : string :=
  to_str (config_get c "cssPrefix") +:+ "-" +:+ suffix.

Definition api_text (s : fa) (is_ie : bool) (text : string) (pt : partial_transform) (classes : list string)
  (attributes : obj jsval) (styles : obj string) : list abstract :=
  makeLayersTextAbstract is_ie text DUndefined DUndefined (complete pt)
    (mkExtra (prefixed (config s) "layers-text" :: classes) styles attributes) false.

Definition api_counter (s : fa) (text : string) (classes : list string)
  (attributes : obj jsval) (styles : obj string) : list abstract :=
  makeLayersCounterAbstract text
    (mkExtra (prefixed (config s) "layers-counter" :: classes) styles attributes).

(** [args]: the abstracts the assembler adds, in order. *)
Definition api_layer (s : fa) (classes : list string) (args : list (list abstract)) : list abstract :=
  [el "span" [("class", VStr (join " " (prefixed (config s) "layers" :: classes)))] (concat args)].

(** [html] of what a method returns. *)
Definition html_of (l : list abstract) : list string := map toHtml l.

(** * Well-formed output *)
Create HintDb html.

Lemma names_ok_keys o : names_ok o <-> forall k, k ∈ keys o -> name_ok k = true.
Proof.
  unfold names_ok, keys. rewrite Forall_forall. split.
  - intros H k (kv & -> & Hkv)%list_elem_of_fmap_1. auto.
  - intros H kv Hkv. apply H. by apply list_elem_of_fmap_2.
Qed.
Lemma names_ok_set k v o : name_ok k = true -> names_ok o -> names_ok (set k v o).
Proof. rewrite !names_ok_keys. intros Hk Ho k' [->|H]%elem_of_keys_set; auto. Qed.
Lemma names_ok_spread o1 o2 : names_ok o1 -> names_ok o2 -> names_ok (spread o1 o2).
Proof. rewrite !names_ok_keys. intros H1 H2 k [H|H]%keys_spread; auto. Qed.
Lemma names_ok_literal l : names_ok l -> names_ok (literal l).
Proof. apply names_ok_spread. constructor. Qed.
Lemma names_ok_app o1 o2 : names_ok o1 -> names_ok o2 -> names_ok (o1 ++ o2).
Proof. intros. by apply Forall_app. Qed.

Notation ok_nodes := (Forall (fun a => nodes_ok a = true)).

Lemma nodes_ok_AEl t o cs :
  nodes_ok (AEl t o cs) = true <-> name_ok (default "undefined" t) = true /\ names_ok o /\ ok_nodes cs.
Proof.
  cbn. rewrite !andb_true_iff, !forallb_forall. unfold names_ok. rewrite !Forall_forall.
  setoid_rewrite list_elem_of_In. split; [intros [[H1 H2] H3]|intros (H1 & H2 & H3)]; auto.
Qed.
Lemma nodes_ok_el t l cs : name_ok t = true -> names_ok l -> ok_nodes cs -> nodes_ok (el t l cs) = true.
Proof. intros H1 H2 H3. apply nodes_ok_AEl. split; [done|]. split; [by apply names_ok_literal|done]. Qed.
#[export] Hint Resolve names_ok_set names_ok_spread names_ok_literal nodes_ok_el Forall_nil_2 : html.

(** Side conditions on names that are written out are evaluated. *)
Ltac ok_nodes :=
  repeat first
    [ assumption | reflexivity
    | match goal with
      | |- names_ok (spread _ _) => apply names_ok_spread
      | |- names_ok (set _ _ _) => apply names_ok_set
      | |- names_ok (literal _) => apply names_ok_literal
      | |- names_ok (_ ++ _) => apply names_ok_app
      | |- names_ok [] => constructor
      | |- names_ok (_ :: _) => constructor
      | |- names_ok FILL => by_decide
      | |- names_ok ANIMATION_BASE => by_decide
      | |- names_ok OPACITY_ANIMATE => by_decide
      | |- names_ok ALL_SPACE => by_decide
      | |- nodes_ok (el _ _ _) = true => apply nodes_ok_el
      | |- nodes_ok (AEl _ _ _) = true => apply nodes_ok_AEl; split_and!
      | |- Forall _ [] => constructor
      | |- Forall _ (_ :: _) => constructor
      | |- Forall _ (_ ++ _) => apply Forall_app; split
      | |- context [if ?b then _ else _] => destruct b
      end ].

Lemma asFoundIcon_ok c i : nodes_ok (fi_icon (asFoundIcon c i)) = true.
Proof. unfold asFoundIcon. cbn [fi_icon]. destruct (svgPathData i); ok_nodes. Qed.
Lemma missingIconAbstract_ok b : nodes_ok (missingIconAbstract b) = true.
Proof. unfold missingIconAbstract. ok_nodes. Qed.
#[export] Hint Resolve asFoundIcon_ok missingIconAbstract_ok : html.

Lemma nodes_ok_parts a : nodes_ok a = true ->
  name_ok (default "undefined" (tag_of a)) = true /\ names_ok (attributes_of a) /\ ok_nodes (children_of a).
Proof. destruct a as [s|t o cs]; [intros; split_and!; [done|constructor..]|]. by intros ?%nodes_ok_AEl. Qed.

Lemma fillBlack_ok f a : nodes_ok a = true -> nodes_ok (fillBlack f a) = true.
Proof.
  destruct a as [s|t o cs]; [done|]. cbn -[nodes_ok]. destruct (_ || _); [|done].
  rewrite !nodes_ok_AEl. intros (? & ? & ?). split_and!; ok_nodes.
Qed.
Lemma deGroup_ok a : nodes_ok a = true -> ok_nodes (deGroup a).
Proof. unfold deGroup. case_bool_decide; [by intros (_ & _ & ?)%nodes_ok_parts|by repeat constructor]. Qed.

Definition ok_content (ct : content) : Prop := names_ok (ct_attributes ct) /\ ok_nodes (ct_children ct).

Lemma grouping_ok main t w1 w2 :
  nodes_ok (fi_icon main) = true -> nodes_ok (generateAbstractTransformGrouping main t w1 w2) = true.
Proof. intros (? & ? & ?)%nodes_ok_parts. unfold generateAbstractTransformGrouping. ok_nodes. Qed.

Lemma generateAbstractIcon_ok ct main t st :
  nodes_ok (fi_icon main) = true -> ok_content ct -> ok_content (generateAbstractIcon ct main t st).
Proof.
  intros Hm [Ha Hc]. unfold generateAbstractIcon. split; cbn [ct_attributes ct_children]; ok_nodes.
  by apply grouping_ok.
Qed.

Lemma generateAbstractMask_ok draw n ct main mask id t :
  nodes_ok (fi_icon main) = true -> nodes_ok (fi_icon mask) = true -> ok_content ct ->
  ok_content (fst (generateAbstractMask draw n ct main mask id t)).
Proof.
  intros Hm Hk [Ha Hc]. pose proof (nodes_ok_parts _ Hm) as (? & ? & Hmc). unfold generateAbstractMask.
  destruct (mask_id draw n id) as [m n1]. destruct (mask_id draw n1 id) as [c n2].
  cbn [fst]. split; cbn [ct_attributes ct_children]; [done|].
  assert (ok_nodes (deGroup (fi_icon mask))) by by apply deGroup_ok.
  ok_nodes. apply fillBlack_ok. ok_nodes.
  apply Forall_lookup. intros i a. rewrite list_lookup_imap. intros (b & Hb & ->)%fmap_Some.
  apply fillBlack_ok. by eapply Forall_lookup in Hmc.
Qed.

Lemma svg_attributes_ok c p : names_ok (ex_attributes (sp_extra p)) -> names_ok (svg_attributes c p).
Proof. intros H. unfold svg_attributes. cbv zeta. ok_nodes. Qed.

Lemma makeInlineSvgAbstract_ok c draw n p :
  nodes_ok (fi_icon (sp_main p)) = true -> nodes_ok (fi_icon (sp_mask p)) = true ->
  names_ok (ex_attributes (sp_extra p)) -> ok_nodes (fst (makeInlineSvgAbstract c draw n p)).
Proof.
  intros Hm Hk Ha. unfold makeInlineSvgAbstract. cbv zeta.
  assert (ok_content (mkContent [] (svg_attributes c p))) as Hc.
  { split; [by apply svg_attributes_ok|constructor]. }
  set (r := if _ && _ then _ else _).
  assert (ok_content (fst r)) as [Ho Hn].
  { subst r. destruct (_ && _); cbn [fst];
      [by apply generateAbstractMask_ok|by apply generateAbstractIcon_ok]. }
  destruct r as [ct n2]. cbn [fst] in *. unfold asSymbol, asIcon. cbv zeta. ok_nodes.
Qed.

Lemma api_icon_svg s draw n a p l n' :
  api_icon s draw n a p = Some (l, n') ->
  exists sp, makeInlineSvgAbstract (config s) draw n sp = (l, n')
    /\ sp_extra sp = mkExtra (ip_classes p) (ip_styles p) (ip_attributes p)
    /\ sp_symbol sp = ip_symbol p
    /\ nodes_ok (fi_icon (sp_main sp)) = true /\ nodes_ok (fi_icon (sp_mask sp)) = true.
Proof.
  unfold api_icon, render. cbv zeta. destruct (resolve_arg s a) as [[[pre nm] i]|]; [|done].
  intros [= H]. eexists. split; [exact H|]. cbn [sp_extra sp_symbol sp_main sp_mask].
  split_and!; [done..|apply asFoundIcon_ok|].
  destruct (match ip_mask p with Some _ => _ | None => _ end) as [[[? ?] m]|]; [apply asFoundIcon_ok|done].
Qed.

Lemma makeInlineSvgAbstract_one c draw n p :
  exists t o cs n', makeInlineSvgAbstract c draw n p = ([AEl (Some t) o cs], n').
Proof.
  unfold makeInlineSvgAbstract. cbv zeta. destruct (if _ && _ then _ else _) as [ct n2].
  destruct (truthy _); unfold asSymbol, asIcon, el; eauto.
Qed.

(** C31: whatever names, classes, styles and attribute values a page asks an icon with, the
    HTML of the icon is one element that reads back as the nodes meant: no value breaks
    out of its place. *)
Theorem icon_html_reads_back s draw n a p l n' :
  names_ok (ip_attributes p) -> api_icon s draw n a p = Some (l, n') ->
  exists root, l = [root] /\ html_of l = [toHtml root] /\ read_html (toHtml root) = Some [reading root].
Proof.
  intros Ha H. apply api_icon_svg in H as (sp & H & He & _ & Hm & Hk).
  destruct (makeInlineSvgAbstract_one (config s) draw n sp) as (t & o & cs & n2 & E).
  assert (ok_nodes (fst (makeInlineSvgAbstract (config s) draw n sp))) as Hok.
  { apply makeInlineSvgAbstract_ok; [done..|]. by rewrite He. }
  rewrite H in E, Hok. simplify_eq. cbn [fst] in Hok. rewrite Forall_singleton in Hok.
  eexists. split; [done|]. split; [done|]. by rewrite toHtml_read.
Qed.

Definition ex_params : icon_params :=
  mkIconParams no_partial (VBool false) None None ["big"; "<b>"] [("title", VStr "5 > 4")] [].
Definition ex_draw (n : nat) : nat := n mod 62.

Definition ex_arg : icon_arg := ArgLookup (mkLookup (Some "fas") (Some "house")).
Definition ex_root : abstract :=
  match api_icon ex_fa ex_draw 0 ex_arg ex_params with Some ([r], _) => r | _ => no_element end.

Lemma icon_html_reads_back_witness :
  exists root, [ex_root] = [root] /\ html_of [ex_root] = [toHtml root]
    /\ read_html (toHtml root) = Some [reading root].
Proof.
  apply (icon_html_reads_back ex_fa ex_draw 0 ex_arg ex_params [ex_root] 0); [by_decide|].
  vm_compute. reflexivity.
Defined.

(** * The attributes of the root *)
Definition written : list string := ["data-prefix"; "data-icon"; "class"; "role"; "viewBox"].
(** Nothing names the icon, and it is not hidden already. *)
Definition hides (given : obj jsval) : bool :=
  negb (has "aria-label" given || has "aria-labelledby" given || has "title" given || has "role" given)
  && negb (truthy (read "aria-hidden" given)).
Lemma hides_unlabelled given :
  negb (isLabeled given) && negb (truthy (read "aria-hidden" given)) = hides given.
Proof. unfold isLabeled, hides. cbn [existsb]. by rewrite orb_false_r, !orb_assoc. Qed.

Lemma svg_attributes_get c p k : NoDup (keys (ex_attributes (sp_extra p))) ->
  k <> "style" -> k ∉ written ->
  get k (svg_attributes c p) =
  if sp_watchable p && str_eqb DATA_FA_I2SVG k then Some (VStr "")
  else if hides (ex_attributes (sp_extra p)) && str_eqb "aria-hidden" k then Some (VStr "true")
  else get k (ex_attributes (sp_extra p)).
Proof.
  intros Hd _ Hk. unfold svg_attributes. cbv zeta. rewrite hides_unlabelled.
  set (given := ex_attributes (sp_extra p)) in *.
  assert (forall l, keys l = written -> get k (spread (spread [] given) l) = get k given) as E.
  { intros l Hl. rewrite get_spread_not_in by by rewrite Hl. rewrite get_spread by done. by destruct (get k given). }
  destruct (sp_watchable p), (hides given); cbn [andb]; rewrite ?get_set, ?E by done;
    repeat case_match; done.
Qed.

Lemma svg_attributes_written c p : 
  get "data-prefix" (svg_attributes c p) = Some (sp_prefix p)
  /\ get "data-icon" (svg_attributes c p) = Some (sp_iconName p)
  /\ get "class" (svg_attributes c p) = Some (VStr (attr_class c (sp_iconName p) (ex_classes (sp_extra p))))
  /\ (sp_watchable p = true -> get DATA_FA_I2SVG (svg_attributes c p) = Some (VStr "")).
Proof.
  unfold svg_attributes. cbv zeta. set (b := negb _ && negb _).
  split_and!; [..|by intros ->; rewrite get_set_eq];
    destruct (sp_watchable p), b; rewrite ?get_set_ne by done; (rewrite get_spread by by_decide); reflexivity.
Qed.

(** Later steps write [style] only. *)
Lemma root_attributes c draw n p : truthy (sp_symbol p) = false ->
  exists o cs n', makeInlineSvgAbstract c draw n p = ([AEl (Some "svg") o cs], n')
    /\ forall k, k <> "style" -> get k o = get k (svg_attributes c p).
Proof.
  intros Hs. unfold makeInlineSvgAbstract. cbv zeta. rewrite Hs.
  set (r := if _ && _ then _ else _).
  assert (forall k, k <> "style" -> get k (ct_attributes (fst r)) = get k (svg_attributes c p)) as E.
  { intros k Hk. subst r. destruct (_ && _); cbn [fst].
    - unfold generateAbstractMask. cbv zeta. destruct (mask_id _ _ _) as [? m1]. by destruct (mask_id draw m1 _).
    - unfold generateAbstractIcon. cbn. destruct (str_empty _); [done|]. by rewrite get_set_ne. }
  destruct r as [ct n2]. cbn [fst] in E. unfold asIcon. cbv zeta. eexists _, _, _. split; [done|].
  intros k Hk. destruct (_ && _); [|by apply E]. rewrite get_set_ne by done. by apply E.
Qed.

(** The root of an icon that is not a symbol: it says which icon it is, its class list,
    and that it was generated when the page is watched; an icon the page gave no label
    is hidden from assistive technology, a labelled one is left as the page has it; every
    other attribute the page gave is kept. *)
Theorem svg_root_attributes c draw n p :
  let given := ex_attributes (sp_extra p) in
  truthy (sp_symbol p) = false -> NoDup (keys given) ->
  exists o cs n', makeInlineSvgAbstract c draw n p = ([AEl (Some "svg") o cs], n')
    /\ get "data-prefix" o = Some (sp_prefix p)
    /\ get "data-icon" o = Some (sp_iconName p)
    /\ get "class" o = Some (VStr (attr_class c (sp_iconName p) (ex_classes (sp_extra p))))
    /\ get "aria-hidden" o = (if hides given then Some (VStr "true") else get "aria-hidden" given)
    /\ get DATA_FA_I2SVG o = (if sp_watchable p then Some (VStr "") else get DATA_FA_I2SVG given)
    /\ forall k, k ∉ written ++ ["style"; "aria-hidden"; DATA_FA_I2SVG] -> get k o = get k given.
Proof.
  intros given Hs Hd. destruct (root_attributes c draw n p Hs) as (o & cs & n' & E & H).
  exists o, cs, n'. split; [done|].
  pose proof (svg_attributes_written c p) as (H1 & H2 & H3 & _).
  assert (forall k, k <> "style" -> k ∉ written -> get k o =
    if sp_watchable p && str_eqb DATA_FA_I2SVG k then Some (VStr "")
    else if hides given && str_eqb "aria-hidden" k then Some (VStr "true") else get k given) as Hg.
  { intros k Hk Hw. rewrite H by done. by apply svg_attributes_get. }
  rewrite !H, H1, H2, H3 by done. split_and!; [done..| | |].
  - rewrite <- H by done. rewrite Hg by by_decide. change (str_eqb _ _) with false at 1.
    rewrite andb_false_r, str_eqb_refl, andb_true_r. done.
  - rewrite <- H by done. rewrite Hg by by_decide. rewrite str_eqb_refl, andb_true_r.
    change (str_eqb "aria-hidden" _) with false. by rewrite andb_false_r.
  - intros k [Hw [H4 [H5 [H6 _]%not_elem_of_cons]%not_elem_of_cons]%not_elem_of_cons]%not_elem_of_app.
    rewrite Hg by done. by rewrite !(proj2 (str_eqb_neq _ k)), !andb_false_r by congruence.
Qed.

Definition ex_svg (symbol : jsval) (mask : found_icon) : svg_params :=
  mkSvgParams (asFoundIcon _default ex_house) mask (VStr "fas") (VStr "house")
    (parseTransformString "grow-2") symbol None (mkExtra ["big"] [("color", "red")] [("id", VStr "x1")]) true.

Lemma svg_root_attributes_witness :
  exists o cs n', makeInlineSvgAbstract _default ex_draw 0 (ex_svg (VBool false) no_mask) = ([AEl (Some "svg") o cs], n')
    /\ get "aria-hidden" o = Some (VStr "true") /\ get "id" o = Some (VStr "x1").
Proof.
  destruct (svg_root_attributes _default ex_draw 0 (ex_svg (VBool false) no_mask) eq_refl ltac:(by_decide))
    as (o & cs & n' & E & _ & _ & _ & Ha & _ & Hk).
  exists o, cs, n'. split; [exact E|]. split; [exact Ha|]. apply Hk. by_decide.
Defined.

(** * Class lists *)

(** Strings a class list can hold. *)
Definition class_ok (s : string) : bool := negb (str_empty s) && negb (str_mem_chr " "%char s).

Definition own_classes (c : obj jsval) (iconName : string) (classes : list string) : list string :=
  List.filter (fun s => negb (mem_str s classes))
    [to_str (config_get c "replacementClass"); to_str (config_get c "cssPrefix") +:+ "-" +:+ iconName].

Lemma attr_class_own c r iconName classes :
  config_get c "replacementClass" = VStr r -> r <> "" -> iconName <> "" ->
  attr_class c (VStr iconName) classes = join " " (own_classes c iconName classes ++ classes).
Proof.
  intros Hr Hre Hi. unfold attr_class, own_classes, css_class. rewrite Hr. cbn [truthy].
  unfold str_empty. rewrite (proj2 (str_eqb_neq _ _) Hi). cbn [negb List.filter not_in to_str].
  set (k := to_str _ +:+ _).
  assert (forall s, s <> "" -> negb (is_str (VStr s) "") || truthy (VStr s) = true) as Hf.
  { intros s Hs. unfold is_str. rewrite bool_decide_eq_false_2 by congruence. done. }
  assert (k <> "") as Hk by (subst k; by destruct (to_str _)).
  destruct (mem_str r classes), (mem_str k classes); cbn [negb List.filter];
    rewrite ?Hf by done; done.
Qed.

Lemma own_classes_nothing c iconName classes :
  own_classes c iconName (own_classes c iconName classes ++ classes) = [].
Proof.
  unfold own_classes. set (a := to_str (config_get c "replacementClass")). set (b := _ +:+ _).
  assert (forall l x, x ∈ l -> negb (mem_str x l) = false) as H
    by (intros l x Hx; by apply negb_false_iff, mem_str_elem).
  cbn [List.filter].
  destruct (mem_str a classes) eqn:Ea, (mem_str b classes) eqn:Eb; cbn [negb app];
    try apply mem_str_elem in Ea; try apply mem_str_elem in Eb;
    rewrite !H; try done; rewrite ?elem_of_cons; auto.
Qed.

(** Showing an icon again that was already generated does not make its class list
    grow: the classes the toolkit adds are added once. *)
Theorem class_list_stable c r iconName classes :
  config_get c "replacementClass" = VStr r -> class_ok r = true ->
  class_ok (to_str (config_get c "cssPrefix") +:+ "-" +:+ iconName) = true -> iconName <> "" ->
  forallb class_ok classes = true ->
  let once := attr_class c (VStr iconName) classes in
  attr_class c (VStr iconName) (split_on " "%char once) = once.
Proof.
  intros Hr Hro Hk Hi Hc once. unfold class_ok in Hro at 1.
  assert (r <> "") as Hre by (intros ->; done).
  subst once. rewrite !(attr_class_own c r iconName) by done.
  set (total := own_classes c iconName classes ++ classes).
  assert (Forall (fun s => class_ok s = true) total) as Ht.
  { apply Forall_app. split; [|by apply Forall_forall; intros s Hs%list_elem_of_In; rewrite forallb_forall in Hc; apply Hc].
    apply Forall_forall. unfold own_classes. rewrite Hr. intros s Hs%list_elem_of_In.
    apply filter_In in Hs as [[<-|[<-|[]]] _]; [done|exact Hk]. }
  destruct (decide (total = [])) as [E|Hn].
  { exfalso. unfold total in E. apply app_eq_nil in E as [E ->]. unfold own_classes in E. cbn in E. by rewrite Hr in E. }
  change " " with (str1 " "%char). rewrite split_on_join; [|done|].
  - assert (own_classes c iconName total = []) as E by apply own_classes_nothing. by rewrite E.
  - eapply Forall_impl; [exact Ht|]. intros s Hs. apply andb_true_iff in Hs as [_ Hs]. by apply negb_true_iff.
Qed.

Lemma class_list_stable_witness :
  attr_class _default (VStr "house") (split_on " "%char (attr_class _default (VStr "house") ["big"; "fa-house"]))
  = attr_class _default (VStr "house") ["big"; "fa-house"].
Proof. apply (class_list_stable _default "svg-inline--fa"); [reflexivity..|discriminate|reflexivity]. Defined.

(** * Masks *)

(** Every [fill] of a tree. *)
Fixpoint fills (a : abstract) : list jsval :=
  match a with
  | AText _ => []
  | AEl _ o cs => (match get "fill" o with Some v => [v] | None => [] end) ++ concat (map fills cs)
  end.

Definition all_black (a : abstract) : bool :=
  match fills a with [] => false | l => forallb (fun v => is_str v "black") l end.

Lemma masked_shape_black c i pt :
  all_black (fillBlack (VBool true)
    (AEl (tag_of (fi_icon (asFoundIcon c i)))
       (spread (spread [] (attributes_of (fi_icon (asFoundIcon c i)))) [("transform", VStr pt)])
       (imap (fun i c => fillBlack (VNum (Z.of_nat i)) c) (children_of (fi_icon (asFoundIcon c i)))))) = true.
Proof.
  unfold asFoundIcon, css_class. cbn [fi_icon].
  generalize (to_str (config_get c "cssPrefix")) as p. intros p.
  destruct (svgPathData i) as [d|d]; [vm_compute; reflexivity|].
  generalize (nth_path d 0) (nth_path d 1). intros d0 d1. vm_compute. reflexivity.
Qed.

Lemma fills_group t v cs : fills (el t [("transform", v)] cs) = concat (map fills cs).
Proof. reflexivity. Qed.

(** a mask: everything drawn of the main icon is painted black on the white of the mask,
    so it is cut out; and the rectangle that is painted refers to the clip path and to the
    mask that were just defined, by two different names. *)
Theorem mask_cuts_out c draw n ct main mask id t :
  exists maskId clipId shape rect ct' n',
    generateAbstractMask draw n ct (asFoundIcon c main) (asFoundIcon c mask) id t = (ct', n')
    /\ ct_attributes ct' = ct_attributes ct
    /\ ct_children ct' = ct_children ct ++
         [el "defs" []
            [el "clipPath" [("id", VStr clipId)] (deGroup (fi_icon (asFoundIcon c mask)));
             el "mask" (ALL_SPACE ++ [("id", VStr maskId); ("maskUnits", VStr "userSpaceOnUse");
                                      ("maskContentUnits", VStr "userSpaceOnUse")])
               [el "rect" (ALL_SPACE ++ [("fill", VStr "white")]) []; shape]]; rect]
    /\ all_black shape = true
    /\ get "mask" (attributes_of rect) = Some (VStr ("url(#" +:+ maskId +:+ ")"))
    /\ get "clip-path" (attributes_of rect) = Some (VStr ("url(#" +:+ clipId +:+ ")"))
    /\ maskId <> clipId.
Proof.
  unfold generateAbstractMask. cbv zeta. destruct (mask_id draw n id) as [m n1].
  destruct (mask_id draw n1 id) as [k n2]. eexists _, _, _, _, _, _.
  split; [reflexivity|]. cbn [ct_attributes ct_children]. split; [done|]. split; [reflexivity|].
  split; [|done]. unfold all_black. rewrite !fills_group. cbn [map concat]. rewrite app_nil_r.
  rewrite fills_group. cbn [map concat]. rewrite app_nil_r. apply masked_shape_black.
Qed.

(** * Which icon is found *)
Lemma findIcon_style s rm p n : p <> "fa" -> p <> "" -> n <> "" ->
  findIcon s rm (Some n) (Some p) =
  match get n (get_obj p (styles s)) with
  | Some i => (asFoundIcon (config s) i, [])
  | None => (mkFound false (Some 512%Z) (Some 512%Z)
      (if truthy (config_get (config s) "showMissingIcons") then missingIconAbstract rm else no_element), [])
  end.
Proof.
  intros Hf Hp Hn. unfold findIcon. rewrite bool_decide_eq_false_2 by congruence. cbn [andb l_iconName l_prefix null_lookup js_or].
  unfold find_style_icon, otruthy, str_empty. rewrite (proj2 (str_eqb_neq _ _) Hp), (proj2 (str_eqb_neq _ _) Hn).
  cbn [negb andb]. unfold okey, get_obj. cbn [default from_option id].
  destruct (get p (styles s)) as [st|]; cbn [default from_option id get]; [|by rewrite andb_true_r].
  destruct (get n st); [done|]. by rewrite andb_true_r.
Qed.

(** A name that the registry resolves through its aliases is an icon that is found,
    and it is an icon that has that name or alias: the lookup tables and the rendering of
    an icon never disagree. *)
Theorem alias_is_found s rm p a n :
  reachable s -> p <> "fa" -> p <> "" -> n <> "" ->
  byAlias s (Some p) (Some a) = Some n ->
  exists i, get n (get_obj p (styles s)) = Some i /\ claims a n i
    /\ findIcon s rm (Some n) (Some p) = (asFoundIcon (config s) i, []).
Proof.
  intros Hr Hf Hp Hn Ha. pose proof (reachable_ok s Hr) as Hok. rewrite byAlias_claimant in Ha by done.
  apply claimant_Some in Ha as (i & Hi & Hc). exists i.
  assert (get n (get_obj p (styles s)) = Some i) as Hg.
  { apply elem_get; [|done]. apply get_obj_wf, Hok. }
  split_and!; [done..|]. by rewrite findIcon_style, Hg.
Qed.

Lemma alias_is_found_witness :
  exists i, findIcon ex_fa true (Some "house") (Some "fas") = (asFoundIcon (config ex_fa) i, []).
Proof.
  destruct (alias_is_found ex_fa true "fas" "home" "house" ex_fa_reachable ltac:(discriminate) ltac:(discriminate)
    ltac:(discriminate) eq_refl) as (i & _ & _ & H). exists i. exact H.
Defined.

(** * Layers *)
Lemma layers_nodes_ok o st text : names_ok o -> nodes_ok (AEl (Some "span") (with_style st o) [AText text]) = true.
Proof. intros H. unfold with_style. ok_nodes. Qed.

(** A counter and a text show their content as it is, whatever characters it holds: it
    reads back as the one text of a [span]. *)
Theorem layer_content_is_text s is_ie text pt classes attributes styles :
  names_ok attributes -> text <> "" ->
  (exists root ats, api_counter s text classes attributes styles = [root]
     /\ read_html (toHtml root) = Some [HEl "span" ats [HText text]])
  /\ (exists root ats, api_text s is_ie text pt classes attributes styles = [root]
     /\ read_html (toHtml root) = Some [HEl "span" ats [HText text]]).
Proof.
  intros Ha Ht.
  assert (str_empty text = false) as E by by apply str_eqb_neq.
  assert (forall o st, names_ok o ->
    read_html (toHtml (AEl (Some "span") (with_style st o) [AText text]))
    = Some [HEl "span" (attr_pairs (with_style st o)) [HText text]]) as H.
  { intros o st Ho. rewrite toHtml_read by by apply layers_nodes_ok. cbn. by rewrite E. }
  split; eexists _, _; (split; [reflexivity|]); apply H; cbv zeta; ok_nodes.
Qed.

Lemma layer_content_is_text_witness :
  (exists root ats, api_counter ex_fa "1 < 2 & 3" ["big"] [("title", VStr "x")] [] = [root]
     /\ read_html (toHtml root) = Some [HEl "span" ats [HText "1 < 2 & 3"]]).
Proof.
  apply (layer_content_is_text ex_fa false "1 < 2 & 3" no_partial ["big"] [("title", VStr "x")] []);
    [by_decide|discriminate].
Defined.
