(* ===== verification/FaBoot.v ===== *)
(** How the parts of the toolkit come together on a page: the icon packs and the core
    script in any order, [domready] and [bootstrap], the style sheet the toolkit puts in
    the head, and the registration of the plugins.

    A plugin's functions are named by strings here; what the functions do is in the
    other files.  The 15 kB of style rules are a parameter of [css]. *)
From stdpp Require Import base strings list.
From Stdlib Require Import Lia ZArith Ascii.
From S2P Require Import Prelude GoStrings JsObj FaTables FaMeta FaConfig FaRegistry FaRender.

(** * Scripts of a page *)
(** [bunker]: an exception of the script is kept from the page in production. *)
Definition bunker {A} (fn : result A) : result (option A) :=
  match fn with
  | Ok a => Ok (Some a)
  | Err e => if PRODUCTION then Ok None else Err e
  end.

(** solid.js, regular.js and brands.js define their icons under two prefixes;
    v4-shims.js hands its shims over; [Core] is fontawesome.js, which builds the tables
    from what it finds and installs the hooks. *)
Inductive script : Type :=
  | Pack (prefix long : string) (icons : obj entry)
  | Shims (l : list shim)
  | Core.
Definition solid_js (icons : obj entry) : script := Pack "fas" "fa-solid" icons.
Definition regular_js (icons : obj entry) : script := Pack "far" "fa-regular" icons.
Definition brands_js (icons : obj entry) : script := Pack "fab" "fa-brands" icons.
Definition v4_shims_js (l : list shim) (s : fa) : fa :=
  if addPack_installed s then addShims l s else with_shims (shims s ++ l) s.
(** The file all.js is the packs followed by the core. *)
Definition all_js (brands regular solid : obj entry) : list script :=
  [brands_js brands; regular_js regular; solid_js solid; Core].

(** The first scripts of a page make the namespace. *)
Definition page_fa (c : obj jsval) (af dom : bool) : fa :=
  mkFA c af dom [] [] false [] [] [] [] [] [] None [].
Definition run_script (s : fa) (x : script) : fa :=
  match x with
  | Pack prefix long icons => defineIcons long icons false (defineIcons prefix icons false s)
  | Shims l => v4_shims_js l s
  | Core => with_hooks (build s)
  end.
Definition run_scripts (xs : list script) (s : fa) : fa := fold_left run_script xs s.

(** What the toolkit knows, without the record of the replacements it started. *)
Definition knowledge (s : fa) : fa :=
  mkFA (config s) (autoFetchSvg s) (is_dom s) (styles s) (shims s) (addPack_installed s) (definitions s)
    (_byUnicode s) (_byLigature s) (_byAlias s) (_byOldName s) (_byOldUnicode s) (_defaultUsablePrefix s) [].

(** A page where the core has run, and one that differs in that it will run now. *)
Definition same_but_core (s s' : fa) : Prop :=
  knowledge s = knowledge (with_hooks (build s'))
  /\ addPack_installed s = true /\ addPack_installed s' = false.

Lemma knowledge_autoReplace s : knowledge (autoReplace s) = knowledge s.
Proof. unfold autoReplace. by destruct (_ && _). Qed.
Lemma autoReplace_installed s : addPack_installed (autoReplace s) = addPack_installed s.
Proof. unfold autoReplace. by destruct (_ && _). Qed.

Lemma same_fields s s' : same_but_core s s' ->
  config s = config s' /\ autoFetchSvg s = autoFetchSvg s' /\ is_dom s = is_dom s' /\ styles s = styles s'
  /\ shims s = shims s' /\ definitions s = definitions s'.
Proof. intros (H & _ & _). unfold knowledge, with_hooks, build in H. cbn in H. by injection H. Qed.

Lemma define_one_same prefix icons s s' :
  same_but_core s s' -> same_but_core (define_one prefix icons false s) (define_one prefix icons false s').
Proof.
  intros H. destruct (same_fields s s' H) as (E1 & E2 & E3 & E4 & E5 & E6). destruct H as (_ & Hi & Hi').
  unfold define_one. rewrite Hi, Hi'. cbn [andb negb]. split_and!.
  - unfold addPack. rewrite knowledge_autoReplace. unfold knowledge, with_hooks, build, add_style, with_styles.
    cbn. by rewrite E1, E2, E3, E4, E5, E6, Hi.
  - unfold addPack. by rewrite autoReplace_installed.
  - done.
Qed.
Lemma defineIcons_same prefix icons s s' :
  same_but_core s s' -> same_but_core (defineIcons prefix icons false s) (defineIcons prefix icons false s').
Proof.
  intros H. unfold defineIcons. destruct (str_eqb prefix "fas"); by repeat apply define_one_same.
Qed.
Lemma run_script_same x s s' : x <> Core ->
  same_but_core s s' -> same_but_core (run_script s x) (run_script s' x).
Proof.
  destruct x as [prefix long icons|l|]; intros Hx H; [|clear Hx|done]; cbn [run_script].
  - by do 2 apply defineIcons_same.
  - destruct (same_fields s s' H) as (E1 & E2 & E3 & E4 & E5 & E6). destruct H as (_ & Hi & Hi').
    unfold v4_shims_js. rewrite Hi, Hi'. split_and!; [|by unfold addShims; rewrite autoReplace_installed|done].
    unfold addShims. rewrite knowledge_autoReplace. unfold knowledge, with_hooks, build, with_shims.
    cbn. by rewrite E1, E2, E3, E4, E5, E6, Hi.
Qed.

(** Before the core ran no hook is installed. *)
Lemma run_script_plain x s : x <> Core -> addPack_installed s = false ->
  addPack_installed (run_script s x) = false.
Proof.
  assert (forall prefix icons s, addPack_installed s = false ->
    addPack_installed (define_one prefix icons false s) = false) as H1
    by (intros p i s0 H; unfold define_one; by rewrite H).
  assert (forall prefix icons s, addPack_installed s = false ->
    addPack_installed (defineIcons prefix icons false s) = false) as H2
    by (intros p i s0 H; unfold defineIcons; destruct (str_eqb p "fas"); auto).
  destruct x as [prefix long icons|l|]; intros Hx H; cbn [run_script]; [by auto| |done].
  unfold v4_shims_js. by rewrite H.
Qed.

(** Wherever the core comes among the scripts, the toolkit knows what it knows when the
    core comes last. *)
Lemma core_last c af dom before after :
  Forall (fun x => x <> Core) before -> Forall (fun x => x <> Core) after ->
  knowledge (run_scripts (before ++ Core :: after) (page_fa c af dom))
  = knowledge (run_scripts (before ++ after ++ [Core]) (page_fa c af dom)).
Proof.
  intros Hb Ha. unfold run_scripts. rewrite !fold_left_app. cbn [fold_left].
  assert (forall s, addPack_installed s = false -> addPack_installed (fold_left run_script before s) = false) as H0.
  { induction Hb as [|x l Hx Hl IH]; intros s Hs; cbn; [done|]. apply IH. by apply run_script_plain. }
  specialize (H0 (page_fa c af dom) eq_refl). set (s0 := fold_left run_script before (page_fa c af dom)) in *.
  assert (same_but_core (run_script s0 Core) s0) as H.
  { split; [done|]. by split. }
  revert H. generalize (run_script s0 Core) as s1. generalize s0 as s2. clear -Ha.
  induction Ha as [|x l Hx Hl IH]; intros s2 s1 H; cbn [fold_left]; [by destruct H|].
  by apply IH, run_script_same.
Qed.

(** ** The order of the packs and shims *)
(** The styles a pack is stored under; the solid icons are stored as ["fa"] too. *)
Definition with_fa (prefix : string) : list string := if str_eqb prefix "fas" then [prefix; "fa"] else [prefix].
Definition prefixes (x : script) : list string :=
  match x with Pack prefix long _ => with_fa prefix ++ with_fa long | _ => [] end.
Definition shims_of (x : script) : list shim := match x with Shims l => l | _ => [] end.
(** The old name, or the old code point in hexadecimal, a shim answers to. *)
Definition shim_id (sh : shim) : string + string :=
  match sh_key sh with AStr name => inl name | ANum code => inr (print_hex code) end.
Definition shim_ids (x : script) : list (string + string) := remove_dups (map shim_id (shims_of x)).
(** No two packs are for one style, and no two lists of shims answer to one old name. *)
Record separate (xs : list script) : Prop := {
  sep_packs : NoDup (flat_map prefixes xs);
  sep_shims : NoDup (flat_map shim_ids xs) }.
(** Of the shims of one list with the same old name the last one counts. *)
Definition last_shim (id : string + string) (l : list shim) : option shim :=
  fold_left (fun acc sh => if decide (shim_id sh = id) then Some sh else acc) l None.
(** On a page without the regular style a shim that leads there leads to the solid one. *)
Definition shim_leads (regular : bool) (sh : shim) : iconLookup :=
  mkLookup (match sh_prefix sh with
            | Some prefix => Some (if str_eqb prefix "far" && negb regular then "fas" else prefix)
            | None => None end) (sh_iconName sh).

(** Every question of the toolkit has the same answer in the two states. *)
Record same_answers (s s' : fa) : Prop := {
  sa_config : config s = config s';
  sa_fetch : autoFetchSvg s = autoFetchSvg s';
  sa_hooks : addPack_installed s = addPack_installed s';
  sa_styles : forall q, get q (styles s) = get q (styles s');
  sa_unicode : forall q u, byUnicode s q u = byUnicode s' q u;
  sa_ligature : forall q t, byLigature s q t = byLigature s' q t;
  sa_alias : forall q a, byAlias s q a = byAlias s' q a;
  sa_oldname : forall n, byOldName s n = byOldName s' n;
  sa_oldunicode : forall u, byOldUnicode s u = byOldUnicode s' u;
  sa_default : getDefaultUsablePrefix s = getDefaultUsablePrefix s';
  sa_find : forall l, findIconDefinition s l = findIconDefinition s' l }.
#[local] Instance same_answers_equiv : Equivalence same_answers.
Proof.
  split; [by split|intros s s' []; by split|intros s1 s2 s3 [] []; split; congruence].
Qed.

Lemma styles_with_fa p icons s q :
  get q (styles (defineIcons p icons false s))
  = if decide (q ∈ with_fa p) then Some (spread (spread [] (get_obj q (styles s))) (normalizeIcons icons))
    else get q (styles s).
Proof.
  unfold defineIcons, with_fa, get_obj. destruct (str_eqb_spec p "fas") as [->|Hne]; rewrite ?styles_define_one, ?get_set.
  - unfold get_obj. rewrite get_set. case_decide as Hq; rewrite !elem_of_cons, elem_of_nil in Hq.
    + destruct Hq as [->|[->|[]]]; reflexivity.
    + destruct (str_eqb_spec "fa" q) as [<-|]; [naive_solver|]. destruct (str_eqb_spec "fas" q) as [<-|]; naive_solver.
  - case_decide as Hq; rewrite list_elem_of_singleton in Hq; [subst; by rewrite str_eqb_refl|].
    by rewrite (proj2 (str_eqb_neq p q)) by congruence.
Qed.
Lemma styles_pack prefix long icons s q : NoDup (prefixes (Pack prefix long icons)) ->
  get q (styles (run_script s (Pack prefix long icons)))
  = if decide (q ∈ prefixes (Pack prefix long icons))
    then Some (spread (spread [] (get_obj q (styles s))) (normalizeIcons icons)) else get q (styles s).
Proof.
  cbn [prefixes run_script]. intros (_ & Hd & _)%NoDup_app. unfold get_obj. rewrite !styles_with_fa. unfold get_obj.
  rewrite styles_with_fa. specialize (Hd q). pose proof (elem_of_app (with_fa prefix) (with_fa long) q).
  unfold get_obj. repeat case_decide; naive_solver.
Qed.
Lemma styles_shims l s : styles (run_script s (Shims l)) = styles s.
Proof. cbn [run_script]. unfold v4_shims_js, addShims. case_match; [by rewrite styles_autoReplace|done]. Qed.
Lemma shims_autoReplace s : shims (autoReplace s) = shims s.
Proof. unfold autoReplace. by case_match. Qed.
Lemma shims_define_one p icons s : shims (define_one p icons false s) = shims s.
Proof. unfold define_one, addPack. case_match; [by rewrite shims_autoReplace|done]. Qed.
Lemma shims_script x s : shims (run_script s x) = shims s ++ shims_of x.
Proof.
  assert (forall p icons s, shims (defineIcons p icons false s) = shims s) as H.
  { intros p icons s0. unfold defineIcons. case_match; by rewrite !shims_define_one. }
  destruct x as [prefix long icons|l|]; cbn [run_script shims_of]; rewrite ?app_nil_r; [by rewrite !H| |done].
  unfold v4_shims_js, addShims. case_match; [by rewrite shims_autoReplace|done].
Qed.
Lemma shims_scripts xs s : shims (run_scripts xs s) = shims s ++ flat_map shims_of xs.
Proof.
  unfold run_scripts. revert s. induction xs as [|x xs IH]; intros s; cbn [fold_left flat_map]; [by rewrite app_nil_r|].
  by rewrite IH, shims_script, <- app_assoc.
Qed.

(** The icons of a pack come under its styles, whatever else is on the page. *)
Lemma styles_scripts xs s q : Forall (fun x => x <> Core) xs -> NoDup (flat_map prefixes xs) ->
  (q ∉ flat_map prefixes xs -> get q (styles (run_scripts xs s)) = get q (styles s))
  /\ (get q (styles s) = None -> forall prefix long icons, Pack prefix long icons ∈ xs -> q ∈ prefixes (Pack prefix long icons) ->
        get q (styles (run_scripts xs s)) = Some (spread [] (normalizeIcons icons))).
Proof.
  unfold run_scripts. intros Hx. revert s. induction Hx as [|x xs Hc Hx IH]; intros s; cbn [flat_map fold_left].
  { intros _. split; [done|]. intros _ p l i H. by apply elem_of_nil in H. }
  intros (Hd & Hap & Hd')%NoDup_app. destruct (IH (run_script s x) Hd') as [IHn IHs].
  assert (q ∉ prefixes x -> get q (styles (run_script s x)) = get q (styles s)) as Hkeep.
  { intros Hq. destruct x as [p l i|l|]; [|by rewrite styles_shims|done]. by rewrite styles_pack, decide_False. }
  split; [intros [Hq1 Hq2]%not_elem_of_app; by rewrite IHn, Hkeep|].
  intros Hnone p l i [E|Hin]%elem_of_cons Hq; [subst x|].
  - rewrite IHn by naive_solver. rewrite styles_pack, decide_True by done. unfold get_obj. by rewrite Hnone.
  - apply (IHs ltac:(rewrite Hkeep; [done|]; intros Hq'; apply (Hap q Hq'), list_elem_of_In, in_flat_map;
      eexists; split; [by apply list_elem_of_In|by apply list_elem_of_In]) p l i Hin Hq).
Qed.

(** *** The shims *)
Lemma last_shim_acc id l acc :
  fold_left (fun acc sh => if decide (shim_id sh = id) then Some sh else acc) l acc
  = match last_shim id l with Some sh => Some sh | None => acc end.
Proof.
  unfold last_shim. revert acc. induction l as [|sh l IH]; intros acc; cbn [fold_left]; [done|].
  rewrite IH. symmetry. rewrite IH. symmetry. repeat case_match; congruence.
Qed.
Lemma last_shim_app id l1 l2 :
  last_shim id (l1 ++ l2) = match last_shim id l2 with Some sh => Some sh | None => last_shim id l1 end.
Proof. unfold last_shim at 1. by rewrite fold_left_app, last_shim_acc. Qed.
Lemma last_shim_in id l : is_Some (last_shim id l) <-> id ∈ map shim_id l.
Proof.
  induction l as [|sh l IH]; cbn [map]; [split; [by intros [? [=]]|by intros ?%elem_of_nil]|].
  rewrite elem_of_cons. unfold last_shim. cbn [fold_left]. rewrite last_shim_acc.
  destruct (last_shim id l) eqn:E; [split; [intros _; right; by apply IH|by eexists]|].
  case_decide; split; [intros _; by left|by eexists|by intros [? [=]]|].
  intros [->|H1]; [done|]. by apply IH in H1 as [? [=]].
Qed.
Lemma last_shim_id id l sh : last_shim id l = Some sh -> shim_id sh = id /\ sh ∈ l.
Proof.
  induction l as [|x l IH]; [done|]. unfold last_shim. cbn [fold_left]. rewrite last_shim_acc.
  destruct (last_shim id l) eqn:E; [intros H; destruct (IH H); split; [done|by right]|].
  case_decide; [|done]. intros [= <-]. split; [done|by left].
Qed.
Lemma last_shim_scripts id xs x : NoDup (flat_map shim_ids xs) -> x ∈ xs -> id ∈ shim_ids x ->
  last_shim id (flat_map shims_of xs) = last_shim id (shims_of x).
Proof.
  induction xs as [|y xs IH]; cbn [flat_map]; intros Hd Hx Hid; [by apply elem_of_nil in Hx|].
  apply NoDup_app in Hd as (_ & Hap & Hd). rewrite last_shim_app. apply elem_of_cons in Hx as [->|Hx].
  - destruct (last_shim id (flat_map shims_of xs)) eqn:E; [exfalso|done].
    assert (id ∈ map shim_id (flat_map shims_of xs)) as H by (apply last_shim_in; by rewrite E).
    apply (Hap id Hid). apply list_elem_of_In, in_map_iff in H as (sh & <- & (z & Hz & Hsh)%in_flat_map).
    apply list_elem_of_In, in_flat_map. exists z. split; [done|]. apply list_elem_of_In, elem_of_remove_dups, list_elem_of_In, in_map_iff. by exists sh.
  - rewrite (IH Hd Hx Hid).
    assert (is_Some (last_shim id (shims_of x))) as [sh ->]; [|done].
    apply last_shim_in. exact (proj1 (elem_of_remove_dups _ _) Hid).
Qed.
Lemma old_answers h l acc :
  (forall n, get n (fst (fold_left (shim_step h) l acc))
     = match last_shim (inl n) l with Some sh => Some (shim_leads h sh) | None => get n (fst acc) end)
  /\ (forall u, get u (snd (fold_left (shim_step h) l acc))
     = match last_shim (inr u) l with Some sh => Some (shim_leads h sh) | None => get u (snd acc) end).
Proof.
  revert acc. induction l as [|sh l IH]; intros acc; cbn [fold_left]; [done|].
  destruct (IH (shim_step h acc sh)) as [IH1 IH2].
  assert (mkLookup (if bool_decide (sh_prefix sh = Some "far") && negb h then Some "fas" else sh_prefix sh) (sh_iconName sh)
    = shim_leads h sh) as El.
  { unfold shim_leads. f_equal. destruct (sh_prefix sh) as [p|]; [|done].
    destruct (str_eqb_spec p "far") as [->|Hne]; [by destruct h|]. rewrite bool_decide_false by congruence. done. }
  assert (forall id, last_shim id (sh :: l) = match last_shim id l with Some x => Some x
    | None => if decide (shim_id sh = id) then Some sh else None end) as Ec
    by (intros id; unfold last_shim at 1; cbn [fold_left]; apply last_shim_acc).
  split; [intros n; rewrite IH1, Ec; destruct (last_shim (inl n) l)|intros u; rewrite IH2, Ec; destruct (last_shim (inr u) l)];
    try done; unfold shim_step; cbv zeta; rewrite El; unfold shim_id; destruct (sh_key sh) as [u'|n']; cbn [fst snd]; rewrite ?get_set.
  - by rewrite decide_False.
  - destruct (str_eqb_spec n' n) as [->|Hne]; [by rewrite decide_True|by rewrite decide_False by congruence].
  - destruct (str_eqb_spec (print_hex u') u) as [->|Hne]; [by rewrite decide_True|by rewrite decide_False by congruence].
  - by rewrite decide_False.
Qed.

(** *** Two orders *)
Lemma fields_script x s : x <> Core ->
  config (run_script s x) = config s /\ autoFetchSvg (run_script s x) = autoFetchSvg s
  /\ definitions (run_script s x) = definitions s /\ (wf s -> wf (run_script s x)).
Proof.
  assert (forall s, config (autoReplace s) = config s /\ autoFetchSvg (autoReplace s) = autoFetchSvg s) as Ha
    by (intros s0; unfold autoReplace; by case_match).
  assert (forall p i s, config (defineIcons p i false s) = config s /\ autoFetchSvg (defineIcons p i false s) = autoFetchSvg s) as Hd.
  { assert (forall p i s, config (define_one p i false s) = config s /\ autoFetchSvg (define_one p i false s) = autoFetchSvg s) as H.
    { intros p i s0. unfold define_one, addPack. case_match; [|done]. by rewrite (proj1 (Ha _)), (proj2 (Ha _)). }
    intros p i s0. unfold defineIcons. case_match; [by rewrite !(proj1 (H _ _ _)), !(proj2 (H _ _ _))|apply H]. }
  destruct x as [p l i|l|]; [intros _|intros _|done]; cbn [run_script].
  - rewrite !(proj1 (Hd _ _ _)), !(proj2 (Hd _ _ _)), !definitions_defineIcons. split_and!; [done..|]. auto with registry.
  - unfold v4_shims_js, addShims. case_match; [|done].
    rewrite (proj1 (Ha _)), (proj2 (Ha _)), definitions_autoReplace. split_and!; [done..|]. intros Hw. by apply wf_autoReplace.
Qed.
Lemma fields_scripts xs s : Forall (fun x => x <> Core) xs ->
  config (run_scripts xs s) = config s /\ autoFetchSvg (run_scripts xs s) = autoFetchSvg s
  /\ definitions (run_scripts xs s) = definitions s /\ (wf s -> wf (run_scripts xs s)).
Proof.
  unfold run_scripts. intros H. revert s. induction H as [|x xs Hx _ IH]; intros s; cbn [fold_left]; [done|].
  destruct (IH (run_script s x)) as (-> & -> & -> & Hw). destruct (fields_script x s Hx) as (-> & -> & -> & Hw').
  split_and!; auto.
Qed.

(** What the answers depend on. *)
Record same_stock (s s' : fa) : Prop := {
  st_config : config s = config s';
  st_fetch : autoFetchSvg s = autoFetchSvg s';
  st_definitions : definitions s = definitions s';
  st_styles : forall q, get q (styles s) = get q (styles s');
  st_shims : forall id, last_shim id (shims s) = last_shim id (shims s') }.
Lemma built_same s s' : same_stock s s' -> wf s -> wf s' ->
  same_answers (with_hooks (build s)) (with_hooks (build s')).
Proof.
  intros [Ec Ef Ed Es El] [[Hn _] _] [[Hn' _] _].
  assert (forall r q, get q (lookup_table (styles s) r) = get q (lookup_table (styles s') r)) as Et
    by (intros r q; rewrite !get_lookup_table by done; by rewrite Es).
  assert (forall q, has q (styles s) = has q (styles s')) as Eh by (intros q; unfold has; by rewrite Es).
  assert (default_prefix (config s) (styles s) = default_prefix (config s') (styles s')) as Ep.
  { unfold default_prefix, getCanonicalPrefix. rewrite Ec. cbv zeta. by rewrite Eh. }
  assert (forall q n, iconFromMapping (styles s) q n = iconFromMapping (styles s') q n) as Em
    by (intros q n; unfold iconFromMapping; by rewrite Es).
  split; try done.
  - intros q t. unfold byUnicode, get_obj. cbn. by rewrite Et.
  - intros q t. unfold byLigature, get_obj. cbn. by rewrite Et.
  - intros q t. unfold byAlias, get_obj. cbn. by rewrite Et.
  - intros n. unfold byOldName. cbn. rewrite !(proj1 (old_answers _ _ _)). by rewrite El, Eh, Ef.
  - intros u. unfold byOldUnicode, byUnicode, get_obj. cbn. rewrite !(proj2 (old_answers _ _ _)), El, Eh, Ef. by rewrite Et.
  - intros l. unfold findIconDefinition, byAlias, getDefaultUsablePrefix. cbn. rewrite Ep, Ed.
    destruct (l_iconName (if bool_decide _ then _ else l)) as [n|]; [|done]. destruct (str_empty n); [done|]. by rewrite Et, Em.
Qed.
Lemma knowledge_same s s' : knowledge s = knowledge s' -> same_answers s s' /\ styles s = styles s'.
Proof.
  intros E.
  assert (forall A (f : fa -> A), (forall x, f (knowledge x) = f x) -> f s = f s') as H
    by (intros A f Hf; by rewrite <- (Hf s), <- (Hf s'), E).
  split; [|by apply H].
  split; [apply (H _ config)|apply (H _ autoFetchSvg)|apply (H _ addPack_installed)
    |intros q; apply (H _ (fun x => get q (styles x)))|intros q t; apply (H _ (fun x => byUnicode x q t))
    |intros q t; apply (H _ (fun x => byLigature x q t))|intros q t; apply (H _ (fun x => byAlias x q t))
    |intros n; apply (H _ (fun x => byOldName x n))|intros u; apply (H _ (fun x => byOldUnicode x u))
    |apply (H _ getDefaultUsablePrefix)|intros l; apply (H _ (fun x => findIconDefinition x l))]; by intros [].
Qed.
(** A page with the scripts in some order: what it holds, and that its tables are built. *)
Lemma core_anywhere c af dom before after :
  Forall (fun x => x <> Core) (before ++ after) ->
  let s0 := run_scripts (before ++ after) (page_fa c af dom) in
  let s := run_scripts (before ++ Core :: after) (page_fa c af dom) in
  same_answers s (with_hooks (build s0)) /\ styles s = styles s0 /\ wf s0
  /\ config s0 = c /\ autoFetchSvg s0 = af /\ definitions s0 = [] /\ shims s0 = flat_map shims_of (before ++ after).
Proof.
  intros H s0 s. pose proof H as [Hb Ha]%Forall_app.
  assert (knowledge s = knowledge (with_hooks (build s0))) as E.
  { unfold s, s0. rewrite core_last by done. unfold run_scripts. by rewrite app_assoc, fold_left_app. }
  destruct (knowledge_same _ _ E) as [Hs Hst]. split; [done|]. split; [done|].
  destruct (fields_scripts (before ++ after) (page_fa c af dom) H) as (Ec & Ef & Ed & Hw).
  split; [apply Hw; split; split; [constructor|done|constructor|done]|].
  split_and!; [done..|]. unfold s0. by rewrite shims_scripts.
Qed.
Lemma pack_styles xs c af dom prefix long icons q n : Forall (fun x => x <> Core) xs -> NoDup (flat_map prefixes xs) ->
  Pack prefix long (plain icons) ∈ xs -> NoDup (keys icons) -> q ∈ prefixes (Pack prefix long (plain icons)) ->
  get n (get_obj q (styles (run_scripts xs (page_fa c af dom)))) = get n icons.
Proof.
  intros Hx Hd Hin Hn Hq. unfold get_obj.
  rewrite (proj2 (styles_scripts xs (page_fa c af dom) q Hx Hd) eq_refl prefix long (plain icons) Hin Hq). cbn [from_option id].
  rewrite get_spread by apply NoDup_normalize. rewrite get_normalize_plain by done. by destruct (get n icons).
Qed.
Lemma order_stock c af dom xs xs' : Forall (fun x => x <> Core) xs -> xs ≡ₚ xs' -> separate xs ->
  same_stock (run_scripts xs (page_fa c af dom)) (run_scripts xs' (page_fa c af dom)).
Proof.
  intros Hx Hp [Hd Hi].
  assert (Forall (fun x => x <> Core) xs') as Hx' by by rewrite <- Hp.
  assert (flat_map prefixes xs ≡ₚ flat_map prefixes xs') as Pp by by apply Permutation_flat_map.
  assert (flat_map shim_ids xs ≡ₚ flat_map shim_ids xs') as Pi by by apply Permutation_flat_map.
  assert (NoDup (flat_map prefixes xs')) as Hd' by by rewrite <- Pp.
  assert (NoDup (flat_map shim_ids xs')) as Hi' by by rewrite <- Pi.
  destruct (fields_scripts xs (page_fa c af dom) Hx) as (Ec & Ef & Ed & _).
  destruct (fields_scripts xs' (page_fa c af dom) Hx') as (Ec' & Ef' & Ed' & _).
  split; [congruence..| |].
  - intros q. destruct (decide (q ∈ flat_map prefixes xs)) as [Hq|Hq].
    + pose proof Hq as ([p l i|l|] & Hin & Hq1)%list_elem_of_In%in_flat_map; [|by destruct Hq1..].
      apply list_elem_of_In in Hq1, Hin.
      rewrite (proj2 (styles_scripts xs (page_fa c af dom) q Hx Hd) eq_refl p l i Hin Hq1).
      rewrite Hp in Hin. by rewrite (proj2 (styles_scripts xs' (page_fa c af dom) q Hx' Hd') eq_refl p l i Hin Hq1).
    + rewrite (proj1 (styles_scripts xs (page_fa c af dom) q Hx Hd) Hq). rewrite Pp in Hq.
      by rewrite (proj1 (styles_scripts xs' (page_fa c af dom) q Hx' Hd') Hq).
  - intros id. rewrite !shims_scripts. cbn [page_fa shims app].
    assert (flat_map shims_of xs ≡ₚ flat_map shims_of xs') as Ps by by apply Permutation_flat_map.
    destruct (decide (id ∈ map shim_id (flat_map shims_of xs))) as [Hq|Hq].
    + apply list_elem_of_In, in_map_iff in Hq as (sh & Hid & (x & Hin & Hsh)%in_flat_map).
      apply list_elem_of_In in Hin.
      assert (id ∈ shim_ids x) as Hx1 by (apply elem_of_remove_dups, list_elem_of_In, in_map_iff; by exists sh).
      rewrite (last_shim_scripts id xs x) by done. rewrite Hp in Hin. by rewrite (last_shim_scripts id xs' x).
    + pose proof (last_shim_in id (flat_map shims_of xs)) as H1. pose proof (last_shim_in id (flat_map shims_of xs')) as H2.
      rewrite <- Ps in H2 at 2. destruct (last_shim id (flat_map shims_of xs)); [exfalso; apply Hq, H1; by eexists|].
      destruct (last_shim id (flat_map shims_of xs')); [exfalso; apply Hq, H2; by eexists|done].
Qed.

(** C22: the packs, the shims and the core may be loaded in any order: as long as no two packs are for the same style and no two lists of shims answer to the same old name, every permutation of the packs and the shims, with the core anywhere among them, leaves a toolkit that gives the same answer to every question - the icons of a style, the icon behind a code point, a ligature, an alias or an old name, the default style and [findIconDefinition] - and in each of them every icon of every pack is there under each style of its pack, no other style is there, and every shim (the last of its list with its old name) leads where it says, or to the solid style when it says regular and that is not there and not fetched. *)
Theorem load_order_irrelevant c af dom before after before' after' :
  Forall (fun x => x <> Core) (before ++ after) -> before ++ after ≡ₚ before' ++ after' -> separate (before ++ after) ->
  let s := run_scripts (before ++ Core :: after) (page_fa c af dom) in
  same_answers s (run_scripts (before' ++ Core :: after') (page_fa c af dom))
  /\ (forall prefix long icons q n, Pack prefix long (plain icons) ∈ before ++ after -> NoDup (keys icons) ->
        q ∈ prefixes (Pack prefix long (plain icons)) -> get n (get_obj q (styles s)) = get n icons)
  /\ (forall q, q ∉ flat_map prefixes (before ++ after) -> has q (styles s) = false)
  /\ (forall l sh, Shims l ∈ before ++ after -> last_shim (shim_id sh) l = Some sh ->
        let answer := shim_leads (has "far" (styles s) || af) sh in
        match sh_key sh with
        | AStr name => byOldName s name = answer
        | ANum code => byOldUnicode s (print_hex code) = answer
        end).
Proof.
  intros Hx Hp Hsep s.
  assert (Forall (fun x => x <> Core) (before' ++ after')) as Hx' by by rewrite <- Hp.
  destruct (core_anywhere c af dom before after Hx) as (Hs & Est & Hw & Ec & Ef & Ed & El).
  destruct (core_anywhere c af dom before' after' Hx') as (Hs' & _ & Hw' & _).
  fold s in Hs, Est. set (s0 := run_scripts (before ++ after) (page_fa c af dom)) in *.
  split_and!.
  - etransitivity; [exact Hs|]. etransitivity; [|symmetry; exact Hs'].
    apply built_same; [|done..]. by apply order_stock.
  - intros prefix long icons q n Hin Hn Hq. rewrite Est. by eapply pack_styles; [|apply sep_packs| |..].
  - intros q Hq. unfold has. rewrite Est. unfold s0. by rewrite (proj1 (styles_scripts _ (page_fa c af dom) q Hx (sep_packs _ Hsep)) Hq).
  - intros l sh Hin Hl. rewrite Est.
    assert (last_shim (shim_id sh) (shims s0) = Some sh) as E.
    { rewrite El, (last_shim_scripts _ _ (Shims l)); [done|apply Hsep|done|].
      apply elem_of_remove_dups, last_shim_in. cbn [shims_of]. by rewrite Hl. }
    unfold shim_id in E. destruct (sh_key sh); [rewrite (sa_oldunicode _ _ Hs)|rewrite (sa_oldname _ _ Hs)];
      [unfold byOldUnicode|unfold byOldName]; cbn [with_hooks build _byOldUnicode _byOldName];
      [rewrite (proj2 (old_answers _ _ _))|rewrite (proj1 (old_answers _ _ _))]; by rewrite E, Ef.
Qed.

Definition ex_house : icon := mkIcon 576 512 [AStr "home"] "f015" (PathOne "M1").
Definition ex_pack : obj icon := [("house", ex_house)].
Definition ex_shim : shim := mkShim (AStr "homey") (Some "far") (Some "house").
Definition ex_before : list script := [solid_js (plain ex_pack)].
Definition ex_after : list script := [Shims [ex_shim]; brands_js (plain [])].
(** The scripts of [ex_before] and [ex_after] the other way round. *)
Lemma load_order_irrelevant_witness :
  let page := page_fa _default false true in
  same_answers (run_scripts (ex_before ++ Core :: ex_after) page)
    (run_scripts ([brands_js (plain []); Shims [ex_shim]] ++ Core :: [solid_js (plain ex_pack)]) page)
  /\ get "house" (get_obj "fa" (styles (run_scripts (ex_before ++ Core :: ex_after) page))) = Some ex_house
  /\ byOldName (run_scripts (ex_before ++ Core :: ex_after) page) "homey" = mkLookup (Some "fas") (Some "house").
Proof.
  destruct (load_order_irrelevant _default false true ex_before ex_after
    [brands_js (plain []); Shims [ex_shim]] [solid_js (plain ex_pack)]) as (Hs & Hi & _ & Ho).
  - repeat constructor; discriminate.
  - change ([solid_js (plain ex_pack); Shims [ex_shim]; brands_js (plain [])]
      ≡ₚ [brands_js (plain []); Shims [ex_shim]; solid_js (plain ex_pack)]). apply (Permutation_rev [_; _; _]).
  - split; by_decide.
  - split; [exact Hs|]. split; [|exact (Ho [ex_shim] ex_shim ltac:(right; left) eq_refl)].
    rewrite (Hi "fas" "fa-solid" ex_pack "fa" "house"); [reflexivity|left|by_decide|right; left].
Defined.

(** * domready *)
(** Functions are numbers; running one may ask for more ([spawns]) or throw
    ([throws]).  [rd_calls] records what was asked for. *)
Record ready := mkReady {
  rd_loaded : bool; rd_listening : bool;
  functions : list nat; timers : list nat; rd_ran : list nat; rd_calls : list nat }.
(** The expressions [/^loaded|^c/] and [/^loaded|^i|^c/] on [document.readyState]. *)
Definition is_loaded (doScroll : bool) (readyState : string) : bool :=
  has_prefix "loaded" readyState || (negb doScroll && has_prefix "i" readyState) || has_prefix "c" readyState.
Definition ready_init (doScroll : bool) (readyState : string) : ready :=
  let loaded := is_loaded doScroll readyState in mkReady loaded (negb loaded) [] [] [] [].
(** On a page with a DOM; without one nothing happens. *)
Definition domready (fn : nat) (r : ready) : ready :=
  if rd_loaded r then mkReady (rd_loaded r) (rd_listening r) (functions r) (timers r ++ [fn]) (rd_ran r) (rd_calls r ++ [fn])
  else mkReady (rd_loaded r) (rd_listening r) (functions r ++ [fn]) (timers r) (rd_ran r) (rd_calls r ++ [fn]).

Section Ready.
Context (spawns : nat -> list nat) (throws : nat -> bool).
Definition run_function (fn : nat) (r : ready) : ready :=
  fold_left (fun r f => domready f r) (spawns fn)
    (mkReady (rd_loaded r) (rd_listening r) (functions r) (timers r) (rd_ran r ++ [fn]) (rd_calls r)).
(** [functions.map(fn => fn())]: an exception ends it. *)
Fixpoint run_functions (l : list nat) (r : ready) : ready :=
  match l with
  | [] => r
  | fn :: l' => let r := run_function fn r in if throws fn then r else run_functions l' r
  end.
Definition listener (r : ready) : ready :=
  run_functions (functions r) (mkReady true false (functions r) (timers r) (rd_ran r) (rd_calls r)).

Inductive ready_event := AskReady (fn : nat) | ContentLoaded | TimerFires.
Definition ready_step (r : ready) (e : ready_event) : ready :=
  match e with
  | AskReady fn => domready fn r
  | ContentLoaded => if rd_listening r then listener r else r
  | TimerFires =>
      match timers r with
      | [] => r
      | fn :: l => run_function fn (mkReady (rd_loaded r) (rd_listening r) (functions r) l (rd_ran r) (rd_calls r))
      end
  end.
Definition ready_run (doScroll : bool) (readyState : string) (es : list ready_event) : ready :=
  fold_left ready_step es (ready_init doScroll readyState).

(** What was asked for and has not run. *)
Definition waiting (r : ready) : list nat := if rd_loaded r then timers r else functions r.
Definition ready_ok (r : ready) : Prop :=
  rd_calls r = rd_ran r ++ waiting r /\ rd_listening r = negb (rd_loaded r)
  /\ (rd_loaded r = false -> timers r = []).

Lemma domready_ok fn r : ready_ok r -> ready_ok (domready fn r).
Proof.
  intros (H1 & H2 & H3). unfold domready, waiting in *. destruct (rd_loaded r) eqn:E; unfold ready_ok, waiting; cbn;
    (split_and!; [by rewrite H1, app_assoc|done|]); [done|]. by apply H3.
Qed.
Lemma domready_fold_ok l r : ready_ok r -> ready_ok (fold_left (fun r f => domready f r) l r).
Proof. revert r. induction l as [|f l IH]; intros r H; cbn; [done|]. by apply IH, domready_ok. Qed.
Lemma domready_fold_loaded l r : rd_loaded r = true ->
  let r' := fold_left (fun r f => domready f r) l r in
  rd_loaded r' = true /\ rd_listening r' = rd_listening r /\ functions r' = functions r
  /\ timers r' = timers r ++ l /\ rd_ran r' = rd_ran r /\ rd_calls r' = rd_calls r ++ l.
Proof.
  revert r. induction l as [|f l IH]; intros r H; cbn; [by rewrite !app_nil_r|].
  specialize (IH (domready f r)). unfold domready in *. rewrite H in *. cbn in IH.
  destruct (IH eq_refl) as (A & B & C & D & E & F). by rewrite <- !app_assoc in *.
Qed.

Lemma run_functions_loaded l r : (forall fn, throws fn = false) -> rd_loaded r = true ->
  let r' := run_functions l r in
  rd_loaded r' = true /\ rd_listening r' = rd_listening r /\ rd_ran r' = rd_ran r ++ l
  /\ exists more, timers r' = timers r ++ more /\ rd_calls r' = rd_calls r ++ more.
Proof.
  intros Ht. revert r. induction l as [|fn l IH]; intros r Hl; cbn [run_functions].
  - cbv zeta. rewrite app_nil_r. split_and!; [done..|]. exists []. by rewrite !app_nil_r.
  - cbv zeta in *. rewrite Ht. unfold run_function.
    set (r0 := mkReady _ _ _ _ (rd_ran r ++ [fn]) _).
    destruct (domready_fold_loaded (spawns fn) r0 Hl) as (A & B & _ & D & E & F).
    destruct (IH _ A) as (G & H & I & more & J & K). split_and!; [done|by rewrite H, B| |].
    + rewrite I, E. cbn. by rewrite <- app_assoc.
    + exists (spawns fn ++ more). rewrite J, K, D, F. cbn. by rewrite <- !app_assoc.
Qed.

Lemma ready_step_ok r e : (forall fn, throws fn = false) -> ready_ok r -> ready_ok (ready_step r e).
Proof.
  intros Ht H. destruct e as [fn| |]; cbn [ready_step].
  - by apply domready_ok.
  - destruct (rd_listening r) eqn:El; [|done]. destruct H as (H1 & H2 & H3).
    rewrite El in H2. symmetry in H2. apply negb_true_iff in H2. unfold waiting in H1. rewrite H2 in H1.
    unfold listener.
    destruct (run_functions_loaded (functions r) (mkReady true false (functions r) (timers r) (rd_ran r) (rd_calls r)) Ht eq_refl)
      as (A & B & C & more & D & E). cbn in *. unfold ready_ok, waiting.
    rewrite A, B, C, D, E, H1, (H3 H2). cbn. by rewrite <- app_assoc.
  - destruct H as (H1 & H2 & H3). destruct (timers r) as [|fn l] eqn:E; [by split_and!|].
    unfold run_function. destruct (rd_loaded r) eqn:El; [|by discriminate H3].
    apply domready_fold_ok. unfold ready_ok, waiting in *. cbn in *. rewrite El in H1. split_and!; [|done|done].
    by rewrite H1, E, <- app_assoc.
Qed.

Lemma ready_steps_ok es r : (forall fn, throws fn = false) -> ready_ok r -> ready_ok (fold_left ready_step es r).
Proof. intros Ht. revert r. induction es as [|e es IH]; intros r H; cbn; [done|]. by apply IH, ready_step_ok. Qed.

Lemma ready_keeps_loaded e r : ready_ok r -> rd_loaded r = true -> rd_loaded (ready_step r e) = true.
Proof.
  intros (_ & H2 & _) H. rewrite H in H2. destruct e; cbn [ready_step].
  - unfold domready. by rewrite H.
  - by rewrite H2.
  - destruct (timers r); [done|]. by apply domready_fold_loaded.
Qed.
Lemma ready_steps_loaded es r : (forall fn, throws fn = false) -> ready_ok r ->
  ContentLoaded ∈ es \/ rd_loaded r = true -> rd_loaded (fold_left ready_step es r) = true.
Proof.
  intros Ht. revert r. induction es as [|e es IH]; intros r Hr H; cbn [fold_left].
  { destruct H as [H|H]; [by apply elem_of_nil in H|done]. }
  apply IH; [by apply ready_step_ok|]. destruct H as [[<-|H]%elem_of_cons|H].
  - right. destruct Hr as (_ & H2 & _). cbn [ready_step].
    destruct (rd_listening r) eqn:E; [by apply run_functions_loaded|]. symmetry in H2. by apply negb_false_iff in H2.
  - by left.
  - right. by apply ready_keeps_loaded.
Qed.

(** Each timer runs the first function that waits. *)
Lemma timers_finish r : (forall fn, spawns fn = []) -> ready_ok r -> rd_loaded r = true ->
  rd_ran (fold_left ready_step (repeat TimerFires (length (timers r))) r) = rd_calls r.
Proof.
  intros Hs. remember (length (timers r)) as n eqn:En. revert r En.
  induction n as [|n IH]; intros r En (H1 & H2 & H3) Hl; unfold waiting in H1; rewrite Hl in H1.
  - cbn. destruct (timers r); [|done]. by rewrite H1, app_nil_r.
  - cbn [repeat fold_left]. destruct (timers r) as [|fn l] eqn:E; [done|].
    assert (ready_step r TimerFires = mkReady (rd_loaded r) (rd_listening r) (functions r) l (rd_ran r ++ [fn]) (rd_calls r)) as ->
      by (cbn [ready_step]; rewrite E; unfold run_function; by rewrite Hs).
    rewrite IH; [done|cbn in *; lia| |done]. unfold ready_ok, waiting. cbn. rewrite Hl in *.
    split_and!; [by rewrite H1, <- app_assoc|done|done].
Qed.
End Ready.

(** C38: [domready] runs every function exactly once and in the order of the calls, whether it was asked before or after the document was ready or by a function that runs, provided no function throws: what has run, followed by what still waits, is what was asked for; and once the document is ready, the timers alone finish the rest. *)
Theorem domready_in_order spawns throws doScroll readyState es :
  (forall fn, throws fn = false) ->
  let r := ready_run spawns throws doScroll readyState es in
  rd_calls r = rd_ran r ++ waiting r
  /\ (ContentLoaded ∈ es \/ is_loaded doScroll readyState = true -> rd_loaded r = true)
  /\ (rd_loaded r = true -> (forall fn, spawns fn = []) ->
      rd_ran (fold_left (ready_step spawns throws) (repeat TimerFires (length (timers r))) r) = rd_calls r).
Proof.
  intros Ht. cbv zeta. unfold ready_run.
  assert (ready_ok (ready_init doScroll readyState)) as H0.
  { unfold ready_ok, waiting, ready_init. cbn. by destruct (is_loaded doScroll readyState). }
  pose proof (ready_steps_ok spawns throws es _ Ht H0) as H. split_and!.
  - by apply H.
  - intros Hl. by apply ready_steps_loaded.
  - intros Hl Hs. by apply timers_finish.
Qed.

Lemma domready_in_order_witness :
  let r := ready_run (fun fn => if fn =? 1 then [3] else []) (fun _ => false) false "loading"
             [AskReady 1; AskReady 2; ContentLoaded; AskReady 4; TimerFires] in
  rd_ran r = [1; 2; 3] /\ timers r = [4] /\ rd_calls r = rd_ran r ++ waiting r.
Proof.
  split; [reflexivity|]. split; [reflexivity|].
  exact (proj1 (domready_in_order (fun fn => if fn =? 1 then [3] else []) (fun _ => false) false "loading"
    [AskReady 1; AskReady 2; ContentLoaded; AskReady 4; TimerFires] (fun _ => eq_refl))).
Defined.

(** A function that throws while the document becomes ready keeps the later ones from
    ever running. *)
Lemma throwing_function_ends_ready fn l :
  fold_left (ready_step (fun _ => []) (fun f => f =? fn)) (map AskReady (fn :: l) ++ [ContentLoaded; TimerFires])
    (ready_init false "loading")
  = mkReady true false (fn :: l) [] [fn] (fn :: l).
Proof.
  rewrite fold_left_app.
  assert (forall l r, rd_loaded r = false -> fold_left (ready_step (fun _ => []) (fun f => f =? fn)) (map AskReady l) r
    = mkReady false (rd_listening r) (functions r ++ l) (timers r) (rd_ran r) (rd_calls r ++ l)) as ->; [| |done].
  - clear l. induction l as [|f l IH]; intros [ld li fs ts ra ca] H; cbn in H; subst ld; cbn; [by rewrite !app_nil_r|].
    rewrite IH by done. cbn. by rewrite <- !app_assoc.
  - cbn. by rewrite Nat.eqb_refl.
Qed.

(** * The style sheet of the toolkit *)
(** [s.replace(new RegExp(p, 'g'), r)] for a literal pattern that is not empty. *)
Fixpoint replace_literal (fuel : nat) (p r s : string) : string :=
  match fuel with
  | O => s
  | S f =>
      match str_drop_prefix p s with
      | Some rest => r +:+ replace_literal f p r rest
      | None => match s with EmptyString => EmptyString | String a s' => String a (replace_literal f p r s') end
      end
  end.
Definition replace_pattern (p r s : string) : string := replace_literal (String.length s) p r s.

Section Css.
(** The rules, and the two names of the configuration. *)
Context (baseStyles : string).
Definition css (cssPrefix replacementClass : string) : string :=
  if str_eqb cssPrefix DEFAULT_CSS_PREFIX && str_eqb replacementClass DEFAULT_REPLACEMENT_CLASS then baseStyles
  else
    replace_pattern ("." +:+ DEFAULT_REPLACEMENT_CLASS) ("." +:+ replacementClass)
      (replace_pattern ("--" +:+ DEFAULT_CSS_PREFIX +:+ "-") ("--" +:+ cssPrefix +:+ "-")
         (replace_pattern ("." +:+ DEFAULT_CSS_PREFIX +:+ "-") ("." +:+ cssPrefix +:+ "-") baseStyles)).

(** A child of the head: its tag, [""] for text, and its text. *)
Record head_child := mkHeadChild { hc_tag : string; hc_text : string }.
Definition is_sheet (d : head_child) : bool :=
  mem_str (of_bytes (map (fun a => let n := byte_val a in if (97 <=? n) && (n <=? 122) then chr (n - 32) else a) (bytes_of (hc_tag d))))
    ["STYLE"; "LINK"].
(** The loop from the last child to the first leaves the first sheet in [beforeChild]. *)
Fixpoint insert_before_sheet (style : head_child) (l : list head_child) : list head_child :=
  match l with
  | [] => [style]
  | d :: l' => if is_sheet d then style :: l else d :: insert_before_sheet style l'
  end.
Definition insertCss (is_dom : bool) (text : string) (head : list head_child) : list head_child :=
  if str_empty text || negb is_dom then head else insert_before_sheet (mkHeadChild "STYLE" text) head.

Record css_state := mkCss { cssInserted : bool; css_head : list head_child }.
(** The configuration can change between the calls. *)
Definition ensureCss (is_dom : bool) (c : obj jsval) (s : css_state) : css_state :=
  if truthy (config_get c "autoAddCss") && negb (cssInserted s) then
    mkCss true (insertCss is_dom (css (to_str (config_get c "cssPrefix")) (to_str (config_get c "replacementClass"))) (css_head s))
  else s.
Definition ensure_all (is_dom : bool) (cs : list (obj jsval)) (s : css_state) : css_state :=
  fold_left (fun s c => ensureCss is_dom c s) cs s.

Lemma insert_before_sheet_split style l : exists l1 l2, l = l1 ++ l2 /\ insert_before_sheet style l = l1 ++ style :: l2
  /\ Forall (fun d => is_sheet d = false) l1 /\ match l2 with [] => True | d :: _ => is_sheet d = true end.
Proof.
  induction l as [|d l IH]; cbn [insert_before_sheet]; [exists [], []; split_and!; done|].
  destruct (is_sheet d) eqn:E; [exists [], (d :: l); by split_and!|].
  destruct IH as (l1 & l2 & -> & -> & H1 & H2). exists (d :: l1), l2. split_and!; [done|done|by constructor|done].
Qed.
Lemma ensure_all_inserted dom cs s : cssInserted s = true -> ensure_all dom cs s = s.
Proof.
  intros H. unfold ensure_all. induction cs as [|c cs IH]; cbn; [done|]. unfold ensureCss at 2.
  by rewrite H, andb_false_r.
Qed.

(** however often and with whatever settings the toolkit asks for its style sheet, it is put into the head at most once, with the names of the first configuration that allows it, and in front of every style sheet of the page, so that the page's own rules come later and win; the other children of the head stay as they are. *)
Theorem sheet_inserted_once cs head :
  let s := ensure_all true cs (mkCss false head) in
  match List.find (fun c => truthy (config_get c "autoAddCss")) cs with
  | None => s = mkCss false head
  | Some c =>
      let text := css (to_str (config_get c "cssPrefix")) (to_str (config_get c "replacementClass")) in
      cssInserted s = true
      /\ (text = "" /\ css_head s = head
          \/ exists l1 l2, head = l1 ++ l2 /\ css_head s = l1 ++ mkHeadChild "STYLE" text :: l2
             /\ Forall (fun d => is_sheet d = false) l1)
  end.
Proof.
  cbv zeta. induction cs as [|c cs IH]; [done|]. cbn [List.find].
  change (ensure_all true (c :: cs) (mkCss false head)) with (ensure_all true cs (ensureCss true c (mkCss false head))).
  destruct (truthy (config_get c "autoAddCss")) eqn:Et.
  2: { assert (ensureCss true c (mkCss false head) = mkCss false head) as -> by (unfold ensureCss; by rewrite Et).
       exact IH. }
  assert (ensureCss true c (mkCss false head) = mkCss true (insertCss true
    (css (to_str (config_get c "cssPrefix")) (to_str (config_get c "replacementClass"))) head)) as ->
    by (unfold ensureCss; by rewrite Et).
  rewrite ensure_all_inserted by done. cbn [cssInserted css_head]. split; [done|].
  unfold insertCss. destruct (str_eqb_spec (css (to_str (config_get c "cssPrefix")) (to_str (config_get c "replacementClass"))) "") as [E|E];
    unfold str_empty; [left|right].
  - split; [done|]. by rewrite E.
  - rewrite (proj2 (str_eqb_neq _ _)) by done. cbn [orb negb].
    destruct (insert_before_sheet_split (mkHeadChild "STYLE" (css (to_str (config_get c "cssPrefix")) (to_str (config_get c "replacementClass")))) head)
      as (l1 & l2 & H1 & H2 & H3 & _). by exists l1, l2.
Qed.
End Css.

(** * Plugins *)
(** What a plugin mixes into the API: a function, which can have properties too, or an
    object of functions. *)
Inductive mix : Type := MFn (fn : string) (props : obj string) | MObj (fns : obj string).
Record plugin := mkPlugin { mixout : obj mix; hooks : obj string; provides : obj string }.
Record registry := mkRegistry { r_hooks : obj (list string); r_providers : obj string }.

Definition put_property (tk : string) (api : obj mix) (sf : string * string) : obj mix :=
  match get tk api with
  | Some (MObj o) => set tk (MObj (set (fst sf) (snd sf) o)) api
  | Some (MFn fn o) => set tk (MFn fn (set (fst sf) (snd sf) o)) api
  | None => set tk (MObj (set (fst sf) (snd sf) [])) api
  end.
Definition mix_one (api : obj mix) (kv : string * mix) : obj mix :=
  match snd kv with
  | MFn fn o => set (fst kv) (MFn fn o) api
  | MObj fns => fold_left (put_property (fst kv)) fns api
  end.
Definition hook_fns (h : string) (hs : obj (list string)) : list string := default [] (get h hs).
Definition push_hook (hs : obj (list string)) (hf : string * string) : obj (list string) :=
  set (fst hf) (hook_fns (fst hf) hs ++ [snd hf]) hs.
Definition register_one (st : obj mix * registry) (p : plugin) : obj mix * registry :=
  (fold_left mix_one (mixout p) (fst st),
   mkRegistry (fold_left push_hook (hooks p) (r_hooks (snd st))) (spread (r_providers (snd st)) (provides p))).
(** [defaultProviderKeys] is empty: every provider of an earlier registration goes. *)
Definition registerPlugins (nextPlugins : list plugin) (mixoutsTo : obj mix) (_ : registry) : obj mix * registry :=
  fold_left register_one nextPlugins (mixoutsTo, mkRegistry [] []).

(** The functions a call of each kind reaches, in the order of the calls. *)
Definition callHooks (hook : string) (r : registry) : list string := hook_fns hook (r_hooks r).
Definition callProvided (hook : string) (r : registry) : option string := get hook (r_providers r).

(** The plugins of the toolkit: what each has, by name. *)
Definition named (owner : string) (l : list string) : obj string := literal (map (fun k => (k, owner +:+ "." +:+ k)) l).
Definition fns (owner : string) (l : list string) : obj mix := literal (map (fun k => (k, MFn (owner +:+ "." +:+ k) [])) l).
Definition InjectCSS : plugin :=
  mkPlugin [("dom", MObj (literal [("css", "css"); ("insertCss", "ensureCss")]))]
    (named "InjectCSS" ["beforeDOMElementCreation"; "beforeI2svg"]) [].
Definition ReplaceElements : plugin :=
  mkPlugin (fns "ReplaceElements" ["icon"]) (named "ReplaceElements" ["mutationObserverCallbacks"])
    (named "ReplaceElements" ["i2svg"; "generateSvgReplacementMutation"; "generateAbstractIcon"]).
Definition Layers : plugin := mkPlugin (fns "Layers" ["layer"]) [] [].
Definition LayersCounter : plugin := mkPlugin (fns "LayersCounter" ["counter"]) [] [].
Definition LayersText : plugin := mkPlugin (fns "LayersText" ["text"]) [] (named "LayersText" ["generateLayersText"]).
Definition PseudoElements : plugin :=
  mkPlugin [] (named "PseudoElements" ["mutationObserverCallbacks"]) (named "PseudoElements" ["pseudoElements2svg"]).
Definition MutationObserver_1 : plugin :=
  mkPlugin [("dom", MObj (named "MutationObserver" ["unwatch"]))] (named "MutationObserver" ["bootstrap"; "noAuto"; "watch"]) [].
Definition PowerTransforms : plugin :=
  mkPlugin [("parse", MObj (named "PowerTransforms" ["transform"]))] (named "PowerTransforms" ["parseNodeAttributes"])
    (named "PowerTransforms" ["generateAbstractTransformGrouping"]).
Definition Masks : plugin :=
  mkPlugin [] (named "Masks" ["parseNodeAttributes"]) (named "Masks" ["generateAbstractMask"]).
Definition MissingIconIndicator : plugin := mkPlugin [] [] (named "MissingIconIndicator" ["missingIconAbstract"]).
Definition SvgSymbols : plugin := mkPlugin [] (named "SvgSymbols" ["parseNodeAttributes"]) [].
Definition plugins : list plugin :=
  [InjectCSS; ReplaceElements; Layers; LayersCounter; LayersText; PseudoElements; MutationObserver_1;
   PowerTransforms; Masks; MissingIconIndicator; SvgSymbols].

Definition of_plugin (h : string) (p : plugin) : list string := match get h (hooks p) with Some fn => [fn] | None => [] end.
(** The last plugin that provides the function. *)
Definition last_provider (k : string) (ps : list plugin) : option string :=
  fold_left (fun acc p => match get k (provides p) with Some fn => Some fn | None => acc end) ps None.

Lemma push_hooks h hs l : NoDup (keys l) ->
  hook_fns h (fold_left push_hook l hs) = hook_fns h hs ++ match get h l with Some fn => [fn] | None => [] end.
Proof.
  revert hs. induction l as [|[k fn] l IH]; intros hs Hd; cbn [fold_left]; [by rewrite app_nil_r|].
  unfold keys in Hd. cbn in Hd. apply NoDup_cons in Hd as [Hk Hd]. rewrite IH by done.
  cbn [get fst snd]. unfold push_hook. cbn [fst snd]. unfold hook_fns at 1. rewrite get_set.
  destruct (str_eqb_spec k h) as [->|Hne]; [|done]. cbn [default].
  assert (get h l = None) as -> by by apply get_None_keys. by rewrite app_nil_r.
Qed.

(** After a registration a hook calls the functions of the plugins that have it, in the order of the plugins, and a provided function is the one of the last plugin that has it; nothing is left of an earlier registration. *)
Theorem registerPlugins_spec ps api r0 h :
  Forall (fun p => NoDup (keys (hooks p)) /\ NoDup (keys (provides p))) ps ->
  callHooks h (snd (registerPlugins ps api r0)) = flat_map (of_plugin h) ps
  /\ callProvided h (snd (registerPlugins ps api r0)) = last_provider h ps.
Proof.
  intros Hw. unfold registerPlugins, callHooks, callProvided, last_provider.
  assert (forall st, 
    hook_fns h (r_hooks (snd (fold_left register_one ps st))) = hook_fns h (r_hooks (snd st)) ++ flat_map (of_plugin h) ps
    /\ get h (r_providers (snd (fold_left register_one ps st)))
       = fold_left (fun acc p => match get h (provides p) with Some fn => Some fn | None => acc end) ps
           (get h (r_providers (snd st)))) as E.
  { induction Hw as [|p ps [Hh Hp] Hw IH]; intros st; cbn [fold_left flat_map]; [by rewrite app_nil_r|].
    destruct (IH (register_one st p)) as [-> ->]. cbn [register_one snd r_hooks r_providers].
    rewrite push_hooks by done. rewrite get_spread by done. by rewrite <- app_assoc. }
  destruct (E (api, mkRegistry [] [])) as [-> ->]. done.
Qed.

Lemma registerPlugins_spec_witness :
  callHooks "parseNodeAttributes" (snd (registerPlugins plugins [] (mkRegistry [] [])))
    = ["PowerTransforms.parseNodeAttributes"; "Masks.parseNodeAttributes"; "SvgSymbols.parseNodeAttributes"]
  /\ callProvided "i2svg" (snd (registerPlugins plugins [] (mkRegistry [] []))) = Some "ReplaceElements.i2svg"
  /\ callHooks "parseNodeAttributes" (snd (registerPlugins plugins [] (mkRegistry [] []))) = flat_map (of_plugin "parseNodeAttributes") plugins.
Proof.
  split; [vm_compute; reflexivity|]. split; [vm_compute; reflexivity|].
  apply (registerPlugins_spec plugins [] (mkRegistry [] []) "parseNodeAttributes").
  repeat (apply Forall_cons; split); [..|by apply Forall_nil]; split; by_decide.
Defined.

(** The API after the registration. *)
Lemma api_methods : keys (fst (registerPlugins plugins [("dom", MObj (named "dom" ["i2svg"; "watch"]))] (mkRegistry [] [])))
  = ["dom"; "icon"; "layer"; "counter"; "text"; "parse"]
  /\ (exists o, get "dom" (fst (registerPlugins plugins [("dom", MObj (named "dom" ["i2svg"; "watch"]))] (mkRegistry [] []))) = Some (MObj o)
       /\ keys o = ["i2svg"; "watch"; "css"; "insertCss"; "unwatch"]).
Proof. split; [vm_compute; reflexivity|]. eexists. split; vm_compute; reflexivity. Qed.
