(* ===== verification/FaEnv.v ===== *)
(** What [fontawesome.js] finds where it runs, its performance marks, and the methods [noAuto],
    [dom.i2svg] and [dom.watch] of its API. *)
From stdpp Require Import base strings list sets.
From Stdlib Require Import Lia ZArith Ascii.
From S2P Require Import Prelude JsObj FaTables FaMeta FaConfig FaBoot.

(** * The globals of a page *)
(** A name that is read with [typeof] first: there, not there, or a getter that throws. *)
Inductive global (A : Type) := Present (a : A) | Missing | Throws.
Arguments Present {A} a.
Arguments Missing {A}.
Arguments Throws {A}.
Record window_obj := mkWindow { w_document : bool; w_navigator : option (option string) }.
Record document_obj := mkDocument {
  o_documentElement : bool; o_head : bool; o_addEventListener : bool; o_createElement : bool }.
Record performance_obj := mkPerformance { p_mark : bool; p_measure : bool }.
Record globals := mkGlobals {
  g_window : global window_obj; g_document : global document_obj; g_MutationObserver : global unit;
  g_performance : global performance_obj }.
(** What the toolkit keeps of them: an empty object where there is nothing. *)
Record env := mkEnv { WINDOW : window_obj; DOCUMENT : document_obj; MUTATION_OBSERVER : bool; PERFORMANCE : option performance_obj }.
Definition no_window : window_obj := mkWindow false None.
Definition no_document : document_obj := mkDocument false false false false.
(** The four tests in one [try]: a getter that throws ends the rest; [None] is the stand-in
    whose functions do nothing. *)
Definition read_env (g : globals) : env :=
  let e0 := mkEnv no_window no_document false None in
  match g_window g with
  | Throws => e0
  | w =>
    let e1 := match w with Present w => mkEnv w no_document false None | _ => e0 end in
    match g_document g with
    | Throws => e1
    | d =>
      let e2 := match d with Present d => mkEnv (WINDOW e1) d false None | _ => e1 end in
      match g_MutationObserver g with
      | Throws => e2
      | m =>
        let e3 := match m with Present _ => mkEnv (WINDOW e2) (DOCUMENT e2) true None | _ => e2 end in
        match g_performance g with
        | Present p => mkEnv (WINDOW e3) (DOCUMENT e3) (MUTATION_OBSERVER e3) (Some p)
        | _ => e3
        end
      end
    end
  end.
Definition userAgent (e : env) : string := match w_navigator (WINDOW e) with Some (Some ua) => ua | _ => "" end.
Definition IS_BROWSER (e : env) : bool := w_document (WINDOW e).
Definition IS_DOM (e : env) : bool :=
  let d := DOCUMENT e in o_documentElement d && o_head d && o_addEventListener d && o_createElement d.
Definition IS_IE (e : env) : bool := str_contains "MSIE" (userAgent e) || str_contains "Trident/" (userAgent e).

(** Without a document nothing that needs one is tried, whatever else is there. *)
Lemma worker_has_no_dom g : (forall d, g_document g <> Present d) -> IS_DOM (read_env g) = false.
Proof.
  intros H. unfold read_env. destruct (g_window g); [|..|done];
    (destruct (g_document g) as [d| |]; [by destruct (H d)|..|done]);
    destruct (g_MutationObserver g); [|..|done| | |done]; by destruct (g_performance g).
Qed.

(** * Performance marks *)
Inductive perf_call := Mark (name : string) | Measure (name from upto : string).
Section Perf.
(** [config.measurePerformance] when the script runs, and the object. *)
Context (measurePerformance : bool) (perf : option performance_obj).
Definition measures : bool :=
  measurePerformance && match perf with Some p => p_mark p && p_measure p | None => false end.
Definition preamble : string := of_bytes (map (fun a => if chr_eqb a "'"%char then DQ else a) (bytes_of "FA '7.2.0'")).
Definition begins (name : string) : string := preamble +:+ " " +:+ name +:+ " begins".
Definition ends (name : string) : string := preamble +:+ " " +:+ name +:+ " ends".
Definition perf_out (l : list perf_call) : list perf_call := if measures then l else [].
(** [begin name] gives a function, which is called at the [end]. *)
Definition perf_begin (name : string) : list perf_call := perf_out [Mark (begins name)].
Definition perf_end (name : string) : list perf_call :=
  perf_out [Mark (ends name); Measure (preamble +:+ " " +:+ name) (begins name) (ends name)].
(** Measured work: what is begun and ended, and what is done in between. *)
Inductive work := Work (name : string) (inner : list work).
Fixpoint perform (w : work) : list perf_call :=
  match w with Work name inner => perf_begin name ++ flat_map perform inner ++ perf_end name end.
(** [performance.measure] throws unless both its marks have been made. *)
Fixpoint measurable (made : list string) (l : list perf_call) : Prop :=
  match l with
  | [] => True
  | Mark name :: l' => measurable (name :: made) l'
  | Measure _ from upto :: l' => from ∈ made /\ upto ∈ made /\ measurable made l'
  end.
Fixpoint marks (l : list perf_call) : list string :=
  match l with [] => [] | Mark name :: l' => name :: marks l' | Measure _ _ _ :: l' => marks l' end.
Lemma measurable_app made l1 l2 :
  measurable made (l1 ++ l2) <-> measurable made l1 /\ measurable (reverse (marks l1) ++ made) l2.
Proof.
  revert made. induction l1 as [|[name|name from upto] l1 IH]; intros made; cbn [app measurable marks].
  - change (reverse [] ++ made) with made. tauto.
  - rewrite IH, reverse_cons, <- app_assoc. done.
  - rewrite IH. tauto.
Qed.
Lemma measurable_weaken made made' l : made ⊆ made' -> measurable made l -> measurable made' l.
Proof.
  revert made made'. induction l as [|[name|name from upto] l IH]; intros made made' Hs; cbn [measurable]; [done|..].
  - apply IH. set_solver.
  - intros (? & ? & ?). split; [by apply Hs|]. split; [by apply Hs|]. by eapply IH.
Qed.
Section WorkInd.
Context (P : work -> Prop) (HP : forall name inner, Forall P inner -> P (Work name inner)).
Fixpoint work_nested_ind (w : work) : P w :=
  match w with
  | Work name inner => HP name inner ((fix go l : Forall P l :=
      match l with [] => Forall_nil_2 P | x :: l' => Forall_cons_2 P x l' (work_nested_ind x) (go l') end) inner)
  end.
End WorkInd.
(** No measure of the toolkit throws, however its work is nested. *)
Lemma measures_never_throw w made : measurable made (perform w).
Proof.
  revert made. induction w as [name inner IH] using work_nested_ind. intros made. cbn [perform].
  unfold perf_begin, perf_end, perf_out. destruct measures.
  - cbn [app measurable]. apply measurable_app. split.
    + clear -IH. generalize (begins name :: made). induction IH as [|w inner Hw _ IHl]; intros m; [done|]. cbn [flat_map].
      apply measurable_app. by split.
    + cbn [measurable]. split_and!; set_solver.
  - rewrite app_nil_r. cbn [app]. revert made. induction IH as [|w inner Hw _ IHl]; intros m; [done|]. cbn [flat_map].
    apply measurable_app. by split.
Qed.
End Perf.

(** * The API *)
(** What a method does: the functions it reaches in order, or a promise that is rejected. *)
Inductive api_result := Reached (calls : list string) | Rejected (message : string).
Definition noAuto (c : obj jsval) (r : registry) : obj jsval * list string :=
  (config_put (config_put c "autoReplaceSvg" (VBool false)) "observeMutations" (VBool false), callHooks "noAuto" r).
(** [callProvided] of a function that nobody provides calls nothing. *)
Definition provided (hook : string) (r : registry) : list string :=
  match callProvided hook r with Some fn => [fn] | None => [] end.
Definition i2svg (is_dom : bool) (r : registry) : api_result :=
  if is_dom then Reached (callHooks "beforeI2svg" r ++ provided "pseudoElements2svg" r ++ provided "i2svg" r)
  else Rejected "Operation requires a DOM of some kind.".
(** The settings at once, and what the function that is handed to [domready] does. *)
Definition watch (c : obj jsval) (r : registry) : obj jsval * list string :=
  let c := if bool_decide (config_get c "autoReplaceSvg" = VBool false) then config_put c "autoReplaceSvg" (VBool true) else c in
  (config_put c "observeMutations" (VBool true), "autoReplace" :: callHooks "watch" r).

Lemma config_get_put c k v k' : is_Some (config_key k) -> is_Some (config_key k') ->
  config_get (config_put c k v) k' = if bool_decide (config_key k = config_key k') then v else config_get c k'.
Proof.
  intros [x Hx] [y Hy]. unfold config_get, config_put. rewrite Hx, Hy, read_set.
  destruct (str_eqb_spec x y) as [->|Hne]; [by rewrite bool_decide_true|]. rewrite bool_decide_false by congruence. done.
Qed.
(** The last of [watch] and [noAuto] decides, and [watch] keeps a way of replacing that was
    chosen. *)
Lemma last_of_watch_noAuto c r :
  let off := fst (noAuto c r) in let on := fst (watch c r) in
  config_get off "autoReplaceSvg" = VBool false /\ config_get off "observeMutations" = VBool false
  /\ config_get (fst (watch off r)) "autoReplaceSvg" = VBool true
  /\ config_get on "observeMutations" = VBool true
  /\ (config_get c "autoReplaceSvg" <> VBool false -> config_get on "autoReplaceSvg" = config_get c "autoReplaceSvg").
Proof.
  assert (forall k, k ∈ ["autoReplaceSvg"; "observeMutations"] -> config_key k = Some k) as Hk.
  { assert (Forall (fun k => config_key k = Some k) ["autoReplaceSvg"; "observeMutations"]) as Hall by by_decide.
    by rewrite Forall_forall in Hall. }
  assert (forall k k' x v, k ∈ ["autoReplaceSvg"; "observeMutations"] -> k' ∈ ["autoReplaceSvg"; "observeMutations"] ->
    config_get (config_put x k v) k' = if bool_decide (k = k') then v else config_get x k') as Hg.
  { intros k k' x v H1%Hk H2%Hk. rewrite config_get_put by (by eexists). rewrite H1, H2. do 2 case_bool_decide; congruence. }
  assert (forall x, config_get (fst (watch x r)) "autoReplaceSvg"
    = if bool_decide (config_get x "autoReplaceSvg" = VBool false) then VBool true else config_get x "autoReplaceSvg") as Hw.
  { intros x. unfold watch. cbn [fst]. rewrite Hg by (by left || by right; left). rewrite bool_decide_false by done.
    case_bool_decide; [|done]. rewrite Hg by (by left || by right; left). by rewrite bool_decide_true. }
  cbv zeta. rewrite !Hw. unfold noAuto, watch. cbn [fst]. rewrite !Hg by (by left || by right; left).
  rewrite (bool_decide_false ("observeMutations" = "autoReplaceSvg")) by done. rewrite !bool_decide_true by done.
  split_and!; try done. intros Hc. by rewrite bool_decide_false.
Qed.
