(* ===== verification/FaDom.v ===== *)
(** The page: a model of the nodes the toolkit reads and writes, the parsers of a node's
    style, classes and attributes, [parseMeta], [convertSVG], and the mutators.

    A page is a tree.  A node that was in the page has a number; a node that
    [convertSVG] makes has none.  What the browser computes from layout or by its own
    HTML writer and parser is a field of [host]. *)
From stdpp Require Import base strings list.
From Stdlib Require Import Lia ZArith Ascii SpecFloat.
From S2P Require Import Prelude GoStrings JsObj FaTables FaMeta FaConfig FaRegistry JsNumber FaHtml FaTransform FaRender.

(** * Nodes *)
Definition attr_list : Type := list (string * string).
Inductive dom : Type :=
  | DText (s : string)
  | DComment (s : string)
  | DEl (id : option nat) (svg : bool) (tag : string) (attrs : attr_list) (children : list dom).

Definition attrs_of (d : dom) : attr_list := match d with DEl _ _ _ a _ => a | _ => [] end.
Definition child_nodes (d : dom) : list dom := match d with DEl _ _ _ _ cs => cs | _ => [] end.
Definition id_of (d : dom) : option nat := match d with DEl i _ _ _ _ => i | _ => None end.

(** [getAttribute]: the first attribute of the name. *)
Definition getAttribute (k : string) (d : dom) : option string := get k (attrs_of d).

(** An attribute list after [setAttribute]: a new attribute goes to the end. *)
Fixpoint put_attr (k v : string) (l : attr_list) : attr_list :=
  match l with
  | [] => [(k, v)]
  | (k', v') :: l => if str_eqb k' k then (k', v) :: l else (k', v') :: put_attr k v l
  end.

Record host := mkHost {
  is_ie : bool;
  reduceMotion : bool;
  has_classList : bool;
  innerText : dom -> option string;
  innerHTML : dom -> string;
  outerHTML : dom -> string;
  parse_html : string -> list dom;
  valid_name : string -> bool;
  layers_size : dom -> num * num;
  draw : nat -> nat }.

(** * Classes *)
Definition ascii_ws (a : ascii) : bool := let n := byte_val a in ((n =? 9) || (n =? 10) || (n =? 12) || (n =? 13) || (n =? 32))%nat.
Fixpoint tokens_from (cur : list ascii) (l : list ascii) : list string :=
  match l with
  | [] => match cur with [] => [] | _ => [of_bytes (rev cur)] end
  | a :: l =>
      if ascii_ws a then match cur with [] => tokens_from [] l | _ => of_bytes (rev cur) :: tokens_from [] l end
      else tokens_from (a :: cur) l
  end.
(** [classList]: the words of the attribute, each once. *)
Definition classList (d : dom) : list string :=
  first_occurrences [] (tokens_from [] (bytes_of (default "" (getAttribute "class" d)))).

Definition classArray (h : host) (d : dom) : list string :=
  if has_classList h then classList d
  else List.filter (fun i => negb (str_empty i)) (split_on " "%char (default "" (getAttribute "class" d))).

(** * Parsers *)
Definition style_decl (acc : obj string) (decl : string) : obj string :=
  match split_on ":"%char decl with
  | prop :: value :: values =>
      if str_empty prop then acc else set prop (js_trim (join ":" (value :: values))) acc
  | _ => acc
  end.
(** With no [style] the result is an empty array, which has no properties either. *)
Definition styleParser (d : dom) : obj string :=
  match getAttribute "style" d with
  | Some style => if str_empty style then [] else fold_left style_decl (split_on ";"%char style) []
  | None => []
  end.

(** [toHex] of a string of code units below 256: each is one character. *)
Definition toHex (unicode : string) : option string :=
  match unicode with
  | String a EmptyString => Some (print_hex (Z.of_nat (byte_val a)))
  | _ => None
  end.

Record parsed_class := mkParsedClass { pc_prefix : option string; pc_iconName : jsval; pc_rest : list string }.
Definition name_or_undefined (o : option string) : jsval := match o with Some n => VStr n | None => VUndefined end.

Definition classParser (h : host) (s : fa) (d : dom) : result parsed_class :=
  let existingPrefix := getAttribute "data-prefix" d in
  let existingIconName := getAttribute "data-icon" d in
  let text := match innerText h d with Some t => js_trim t | None => "" end in
  res_map (fun val =>
    let prefix := if otruthy (c_prefix val) then c_prefix val else getDefaultUsablePrefix s in
    let existing := otruthy existingPrefix && otruthy existingIconName in
    let prefix := if existing then existingPrefix else prefix in
    let iconName := if existing then ostr existingIconName else ostr (c_iconName val) in
    if truthy iconName && otruthy prefix then mkParsedClass prefix iconName (c_rest val)
    else
      let iconName :=
        if otruthy prefix && negb (str_empty text) then
          let t := default "" (innerText h d) in
          let lig := byLigature s (okey prefix) t in
          if otruthy lig then name_or_undefined lig
          else name_or_undefined (byUnicode s (okey prefix) (okey (toHex t)))
        else iconName in
      let iconName :=
        if negb (truthy iconName) && autoFetchSvg s then
          match child_nodes d with DText t :: _ => VStr t | _ => iconName end
        else iconName in
      mkParsedClass prefix iconName (c_rest val))
    (getCanonicalIcon s (classArray h d) false).

Definition is_class_or_style (o : option string) : bool :=
  bool_decide (o = Some "class") || bool_decide (o = Some "style").
(** The condition reads [acc.name], not the name of the attribute. *)
Definition attributesParser (d : dom) : obj string :=
  fold_left (fun acc attr => if is_class_or_style (get "name" acc) then acc else set (fst attr) (snd attr) acc)
    (attrs_of d) [].

(** * The meta data of a node *)
Record meta := mkMeta {
  m_iconName : jsval; m_prefix : option string; m_transform : transform; m_mask : canonical;
  m_maskId : option string; m_symbol : jsval; m_extra : extra }.

Definition blankMeta : meta :=
  mkMeta VNull None meaninglessTransform (mkCanonical None None []) None (VBool false) (mkExtra [] [] []).

(** What the [parseNodeAttributes] hooks of the plugins add, in the order of the plugins. *)
Record plugin_meta := mkPluginMeta {
  pm_transform : option transform; pm_mask : option (canonical * option string); pm_symbol : option jsval }.
Definition chainHooks {A N : Type} (hookFns : list (A -> N -> result A)) (accumulator : A) (node : N) : result A :=
  fold_left (fun acc hookFn => res_bind acc (fun a => hookFn a node)) hookFns (Ok accumulator).

Definition PowerTransforms_parse (acc : plugin_meta) (d : dom) : result plugin_meta :=
  let t := getAttribute "data-fa-transform" d in
  Ok (if otruthy t then mkPluginMeta (Some (parseTransformString (okey t))) (pm_mask acc) (pm_symbol acc) else acc).
Definition Masks_parse (s : fa) (acc : plugin_meta) (d : dom) : result plugin_meta :=
  let maskData := getAttribute "data-fa-mask" d in
  res_map (fun mask =>
    let mask := if otruthy (c_prefix mask) then mask
                else mkCanonical (getDefaultUsablePrefix s) (c_iconName mask) (c_rest mask) in
    mkPluginMeta (pm_transform acc) (Some (mask, getAttribute "data-fa-mask-id" d)) (pm_symbol acc))
    (if otruthy maskData then getCanonicalIcon s (map js_trim (split_on " "%char (okey maskData))) false
     else Ok emptyCanonicalIcon).
Definition SvgSymbols_parse (acc : plugin_meta) (d : dom) : result plugin_meta :=
  let symbol := match getAttribute "data-fa-symbol" d with
    | None => VBool false
    | Some s => if str_empty s then VBool true else VStr s
    end in
  Ok (mkPluginMeta (pm_transform acc) (pm_mask acc) (Some symbol)).

Definition parseNodeAttributes (s : fa) : list (plugin_meta -> dom -> result plugin_meta) :=
  [PowerTransforms_parse; Masks_parse s; SvgSymbols_parse].

Definition parseMeta (h : host) (s : fa) (with_style : bool) (d : dom) : result meta :=
  res_bind (classParser h s d) (fun cls =>
  res_map (fun pm =>
    mkMeta (pc_iconName cls) (pc_prefix cls) (default meaninglessTransform (pm_transform pm))
      (default (mkCanonical None None []) (option_map fst (pm_mask pm)))
      (match pm_mask pm with Some (_, i) => i | None => None end)
      (default (VBool false) (pm_symbol pm))
      (mkExtra (pc_rest cls) (if with_style then styleParser d else [])
         (map (fun kv => (fst kv, VStr (snd kv))) (attributesParser d))))
    (chainHooks (parseNodeAttributes s) (mkPluginMeta None None None) d)).

Example styleParser_ex :
  styleParser (DEl None false "i" [("style", "color: red;background:url(http://x); top;")] [])
  = [("color", "red"); ("background", "url(http://x)")].
Proof. vm_compute. reflexivity. Qed.

(** * Attribute lists *)
Lemma get_put_attr k v l k' : get k' (put_attr k v l) = if str_eqb k k' then Some v else get k' l.
Proof.
  induction l as [|[k1 v1] l IH]; cbn; [done|]. destruct (str_eqb_spec k1 k) as [->|Hk]; cbn.
  - by destruct (str_eqb k k').
  - rewrite IH. destruct (str_eqb_spec k1 k') as [->|]; [|done].
    by rewrite (proj2 (str_eqb_neq k k')) by congruence.
Qed.

(** * Styles *)
Definition style_name_ok (s : string) : bool :=
  negb (str_empty s) && negb (str_mem_chr ";"%char s) && negb (str_mem_chr ":"%char s).
Definition style_value_ok (v : string) : bool := negb (str_mem_chr ";"%char v) && str_eqb (js_trim v) v.
Definition style_ok (kv : string * string) : bool := style_name_ok (fst kv) && style_value_ok (snd kv).

Lemma str_mem_chr_app c s t : str_mem_chr c (s +:+ t) = str_mem_chr c s || str_mem_chr c t.
Proof. induction s as [|a s IH]; [done|]. cbn. by rewrite IH, orb_assoc. Qed.

Lemma js_trim_left_blank v : js_trim (" " +:+ v) = js_trim v.
Proof. done. Qed.

Lemma style_decl_written acc k v : style_ok (k, v) = true ->
  style_decl acc (k +:+ ": " +:+ js_trim v) = set k v acc.
Proof.
  unfold style_ok, style_name_ok, style_value_ok. cbn [fst snd].
  intros [[[Hk _]%andb_true_iff Hc]%andb_true_iff [_ Hv]%andb_true_iff]%andb_true_iff.
  apply str_eqb_eq in Hv. rewrite Hv. apply negb_true_iff in Hk, Hc. unfold style_decl.
  change (k +:+ ": " +:+ v) with (k +:+ str1 ":"%char +:+ (" " +:+ v)).
  rewrite split_on_app by done.
  destruct (split_on ":"%char (" " +:+ v)) as [|p ps] eqn:E; [by destruct (split_on_not_nil ":"%char (" " +:+ v))|].
  rewrite Hk. change ":" with (str1 ":"%char). by rewrite <- E, join_split_on, js_trim_left_blank, Hv.
Qed.

Definition decl_text (kv : string * string) : string := fst kv +:+ ": " +:+ js_trim (snd kv).
Lemma joinStyles_join st :
  joinStyles st = join ";" (map decl_text st ++ [""]).
Proof.
  unfold joinStyles, reduce.
  assert (forall acc, fold_left (fun acc kv => acc +:+ fst kv +:+ ": " +:+ js_trim (snd kv) +:+ ";") st acc
    = acc +:+ join ";" (map decl_text st ++ [""])) as H; [|by rewrite H].
  induction st as [|kv st IH]; intros acc; cbn [fold_left map app]; [by rewrite str_app_nil_r|].
  rewrite IH. destruct (map decl_text st ++ [""]) as [|p ps] eqn:E; [by destruct (map decl_text st)|].
  change (join ";" (decl_text kv :: p :: ps)) with (decl_text kv +:+ ";" +:+ join ";" (p :: ps)).
  unfold decl_text. by rewrite <- !str_app_assoc.
Qed.

Lemma decl_text_no_semicolon kv : style_ok kv = true -> str_mem_chr ";"%char (decl_text kv) = false.
Proof.
  unfold style_ok, style_name_ok, style_value_ok, decl_text.
  intros [[[_ Hk]%andb_true_iff _]%andb_true_iff [Hv Ht]%andb_true_iff]%andb_true_iff.
  apply str_eqb_eq in Ht. rewrite Ht, !str_mem_chr_app. apply negb_true_iff in Hk, Hv. by rewrite Hk, Hv.
Qed.

Lemma fold_set_id {A} (o acc : obj A) : fold_left (fun acc kv => set (fst kv) (snd kv) acc) o acc = spread acc o.
Proof. done. Qed.

(** the [style] attribute: what [joinStyles] writes, [styleParser] reads as the same
    properties, each set in order; so the styles of a generated icon survive being read
    back from the page. *)
Theorem styles_roundtrip id svg tag st cs :
  st <> [] -> forallb style_ok st = true ->
  styleParser (DEl id svg tag [("style", joinStyles st)] cs) = literal st.
Proof.
  intros Hn Hok. rewrite forallb_forall in Hok. unfold styleParser, getAttribute. cbn [attrs_of get].
  rewrite str_eqb_refl.
  assert (str_empty (joinStyles st) = false) as ->.
  { destruct st as [|[k v] st]; [done|]. apply str_eqb_neq. rewrite joinStyles_join. cbn [map app].
    intros E. assert (str_mem_chr ":"%char (join ";" (decl_text (k, v) :: map decl_text st ++ [""])) = true) as H.
    { destruct (map decl_text st ++ [""]) as [|p ps] eqn:E2; [by destruct (map decl_text st)|].
      change (join ";" (decl_text (k, v) :: p :: ps)) with (decl_text (k, v) +:+ ";" +:+ join ";" (p :: ps)).
      unfold decl_text. rewrite !str_mem_chr_app. cbn. by rewrite orb_true_r. }
    by rewrite E in H. }
  rewrite joinStyles_join. change ";" with (str1 ";"%char) at 1. rewrite split_on_join; [|by destruct (map decl_text st)|].
  2: { apply Forall_app. split; [|by repeat constructor]. apply Forall_fmap, Forall_forall.
       intros kv Hkv%list_elem_of_In. by apply decl_text_no_semicolon, Hok. }
  rewrite fold_left_app. cbn [fold_left].
  assert (forall acc, fold_left style_decl (map decl_text st) acc = spread acc st) as ->; [|done].
  unfold spread. clear Hn. induction st as [|[k v] st IH]; intros acc; cbn [map fold_left fst snd]; [done|].
  rewrite <- IH by (intros kv Hkv; apply Hok; by right). f_equal.
  apply style_decl_written. apply Hok. by left.
Qed.

Lemma styles_roundtrip_witness :
  styleParser (DEl None false "i" [("style", joinStyles [("color", "red"); ("background", "url(http://x)")])] [])
  = [("color", "red"); ("background", "url(http://x)")].
Proof. exact (styles_roundtrip None false "i" [("color", "red"); ("background", "url(http://x)")] [] ltac:(discriminate) eq_refl). Defined.

(** * Attributes *)
Lemma attributesParser_fold l acc :
  is_class_or_style (get "name" acc) = false ->
  Forall (fun attr => fst attr = "name" -> is_class_or_style (Some (snd attr)) = false) l ->
  fold_left (fun acc attr => if is_class_or_style (get "name" acc) then acc else set (fst attr) (snd attr) acc) l acc
  = spread acc l.
Proof.
  intros Ha Hl. revert acc Ha. induction Hl as [|[k v] l Hk Hl IH]; intros acc Ha; [done|].
  cbn [fold_left fst snd]. rewrite Ha, IH; [done|]. rewrite get_set.
  destruct (str_eqb_spec k "name") as [->|]; [by apply Hk|done].
Qed.

(** The attributes an icon takes over from its node: all of them, [class] and [style]
    included, in the order of the page.  The test that is there to leave these two out
    looks at the wrong object. *)
Theorem attributesParser_keeps_all d k :
  NoDup (keys (attrs_of d)) ->
  Forall (fun attr => fst attr = "name" -> is_class_or_style (Some (snd attr)) = false) (attrs_of d) ->
  get k (attributesParser d) = getAttribute k d.
Proof.
  intros Hd Hn. unfold attributesParser. rewrite attributesParser_fold by done.
  rewrite get_spread by done. unfold getAttribute. by destruct (get k (attrs_of d)).
Qed.

Lemma attributesParser_keeps_all_witness :
  get "class" (attributesParser (DEl None false "i" [("class", "fas fa-house"); ("style", "top:1px"); ("name", "x")] []))
  = Some "fas fa-house".
Proof.
  rewrite attributesParser_keeps_all; [reflexivity|by_decide|].
  repeat constructor; intros H; try discriminate H; reflexivity.
Defined.

(** * Reading a generated icon again *)

Lemma classParser_keeps h s d p n :
  getAttribute "data-prefix" d = Some p -> getAttribute "data-icon" d = Some n -> p <> "" -> n <> "" ->
  exists rest, classParser h s d = Ok (mkParsedClass (Some p) (VStr n) rest).
Proof.
  intros Hp Hn Hpe Hne. unfold classParser. rewrite Hp, Hn.
  destruct (getCanonicalIcon_ok s (classArray h d) false) as [c ->]. cbn [res_map]. exists (c_rest c).
  assert (forall x, x <> "" -> otruthy (Some x) = true) as T
    by (intros x Hx; unfold otruthy, str_empty; by rewrite (proj2 (str_eqb_neq x "") Hx)).
  cbv zeta. rewrite !T by done. cbn [andb ostr]. change (truthy (VStr n)) with (otruthy (Some n)).
  by rewrite !T.
Qed.

(** A node that says which icon it is, as every generated icon does, is read as that icon,
    whatever its classes and its text. *)
Theorem classParser_keeps_icon h s d p n :
  getAttribute "data-prefix" d = Some p -> getAttribute "data-icon" d = Some n -> p <> "" -> n <> "" ->
  exists rest, classParser h s d = Ok (mkParsedClass (Some p) (VStr n) rest).
Proof. apply classParser_keeps. Qed.

Definition ex_host : host :=
  mkHost false true true (fun _ => None) (fun _ => "") (fun _ => "") (fun _ => []) (fun _ => true)
    (fun _ => (num_of 1, num_of 1)) (fun n => n mod 62).

Lemma classParser_keeps_icon_witness :
  exists rest, classParser ex_host ex_fa
    (DEl None true "svg" [("data-prefix", "far"); ("data-icon", "bell"); ("class", "fas fa-house")] [])
    = Ok (mkParsedClass (Some "far") (VStr "bell") rest).
Proof. apply classParser_keeps_icon; [reflexivity|reflexivity|discriminate|discriminate]. Defined.
