(* ===== verification/FaReplace.v ===== *)
(** Replacing the nodes of a page by icons: [convertSVG], the two mutators, [perform],
    [generateMutation] and [onTree] of [fontawesome.js].

    A page is the tree below its document node, the trees that were cut off from it - a
    node in one of them still has a parent, unless it is the root - and the classes of its
    root element.  An exception thrown while nodes are changed leaves the changes made so
    far: an outcome is the trees and the exception, if any. *)
From stdpp Require Import base strings list.
From Stdlib Require Import Lia ZArith Ascii SpecFloat.
From S2P Require Import Prelude GoStrings JsObj FaTables FaMeta FaConfig FaRegistry JsNumber FaHtml FaTransform FaRender FaDom.

Definition ascii_lower_chr (a : ascii) : ascii :=
  let n := byte_val a in if ((65 <=? n) && (n <=? 90))%nat then chr (n + 32) else a.
Definition ascii_lower (s : string) : string := of_bytes (map ascii_lower_chr (bytes_of s)).

Section Replace.
Context (h : host).

(** * Making nodes *)

(** [setAttribute]: an HTML element lowers the name; a name with characters no name has
    throws. *)
Definition setAttribute (svg : bool) (k v : string) (l : attr_list) : result attr_list :=
  if valid_name h k then Ok (put_attr (if svg then k else ascii_lower k) v l)
  else Err "InvalidCharacterError".

Fixpoint set_attributes (svg : bool) (o : obj jsval) (l : attr_list) : result attr_list :=
  match o with
  | [] => Ok l
  | (k, v) :: o => res_bind (setAttribute svg k (to_str v) l) (set_attributes svg o)
  end.

(** [svg] is the choice of [ceFn], which the children share. *)
Fixpoint convert (svg : bool) (a : abstract) : result dom :=
  match a with
  | AText s => Ok (DText s)
  | AEl tag o cs =>
      let tag := default "undefined" tag in
      res_bind (set_attributes svg o []) (fun attrs =>
      res_map (DEl None svg (if svg then tag else ascii_lower tag) attrs)
        ((fix convert_list (l : list abstract) : result (list dom) :=
           match l with
           | [] => Ok []
           | c :: l => res_bind (convert svg c) (fun d => res_map (cons d) (convert_list l))
           end) cs))
  end.
Definition convertSVG (a : abstract) : result dom := convert (bool_decide (tag_of a = Some "svg")) a.

(** * The tree *)
Fixpoint descendants (d : dom) : list dom :=
  match d with
  | DEl _ _ _ _ cs => concat (map (fun c => c :: descendants c) cs)
  | _ => []
  end.
Definition has_id (i : option nat) (d : dom) : bool :=
  match i, id_of d with Some j, Some k => (j =? k)%nat | _, _ => false end.
(** The node of a number, if it is still in the tree. *)
Definition find_node (i : option nat) (root : dom) : option dom := List.find (has_id i) (descendants root).

(** Putting nodes in the place of one. *)
Fixpoint subst_node (i : option nat) (news : dom -> list dom) (d : dom) : dom :=
  match d with
  | DEl id svg t a cs =>
      DEl id svg t a (concat (map (fun c => if has_id i c then news c else [subst_node i news c]) cs))
  | _ => d
  end.

(** The tree of the page, and the trees cut off from it. *)
Record forest := mkForest { in_page : dom; cut_off : list dom }.
Definition trees (F : forest) : list dom := in_page F :: cut_off F.
(** The node of a number, if it has a parent; and the node wherever it is. *)
Definition find_parented (i : option nat) (F : forest) : option dom :=
  List.find (has_id i) (concat (map descendants (trees F))).
Definition find_anywhere (i : option nat) (F : forest) : option dom :=
  List.find (has_id i) (concat (map (fun t => t :: descendants t) (trees F))).
Definition subst_forest (i : option nat) (news : dom -> list dom) (F : forest) : forest :=
  mkForest (subst_node i news (in_page F)) (map (subst_node i news) (cut_off F)).
Definition cut (ds : list dom) (F : forest) : forest := mkForest (in_page F) (cut_off F ++ ds).
(** Changing a node in place, a root as well. *)
Definition update_node (i : option nat) (f : dom -> dom) (d : dom) : dom :=
  if has_id i d then f d else subst_node i (fun c => [f c]) d.
Definition update_forest (i : option nat) (f : dom -> dom) (F : forest) : forest :=
  mkForest (update_node i f (in_page F)) (map (update_node i f) (cut_off F)).

(** * Mutators *)
Definition mutation : Type := (option nat * list abstract)%type.
Definition outcome : Type := (forest * option string)%type.

Definition nodeAsComment (d : dom) : string :=
  " " +:+ outerHTML h d +:+ " " +:+ "Font Awesome fontawesome.com ".

(** The nodes made before the first that cannot be. *)
Fixpoint convert_all (l : list abstract) : list dom * option string :=
  match l with
  | [] => ([], None)
  | a :: l =>
      match convertSVG a with
      | Ok d => let '(ds, e) := convert_all l in (d :: ds, e)
      | Err e => ([], Some e)
      end
  end.

(** A node without a parent stays as it is; one that went with an ancestor still has one,
    and its icons are made all the same. *)
Definition mutate_replace (c : obj jsval) (m : mutation) (F : forest) : outcome :=
  match find_parented (fst m) F with
  | None => (F, None)
  | Some node =>
      match convert_all (snd m) with
      | (news, Some e) => (subst_forest (fst m) (fun d => news ++ [d]) F, Some e)
      | (news, None) =>
          let keep := bool_decide (getAttribute DATA_FA_I2SVG node = None)
                      && truthy (config_get c "keepOriginalSource") in
          (cut [node] (subst_forest (fst m) (fun d =>
             news ++ (if keep then [DComment (nodeAsComment d)] else [])) F), None)
      end
  end.

Definition delete {A} (k : string) (o : obj A) : obj A := List.filter (fun kv => negb (str_eqb (fst kv) k)) o.
Definition removeAttribute (k : string) (l : attr_list) : attr_list := delete k l.

(** The classes that go to the generated icon; the others stay on the node. *)
Definition for_svg (c : obj jsval) (cls : string) : bool :=
  is_str (config_get c "replacementClass") cls
  || str_contains (to_str (config_get c "cssPrefix") +:+ "-") cls.

(** The node is changed whether it has a parent or not; its old children lose theirs. *)
Definition mutate_nest (c : obj jsval) (m : mutation) (F : forest) : outcome :=
  match find_anywhere (fst m) F with
  | None => (F, None)
  | Some node =>
      if existsb (is_str (config_get c "replacementClass")) (classArray h node) then mutate_replace c m F
      else
        match snd m with
        | AEl t o cs :: rest =>
            let o := delete "id" o in
            let '(o, cls) :=
              match read "class" o with
              | VStr k =>
                  if str_empty k then (o, None)
                  else
                    let words := split_on " "%char k in
                    let toSvg := List.filter (for_svg c) words in
                    let toNode := List.filter (fun w => negb (for_svg c w)) words in
                    (set "class" (VStr (join " " toSvg)) o, Some toNode)
              | _ => (o, None)
              end in
            let html := join nl_str (map toHtml (AEl t o cs :: rest)) in
            let attrs (l : attr_list) :=
              let l := match cls with
                | None => l
                | Some [] => removeAttribute "class" l
                | Some ws => put_attr "class" (join " " ws) l
                end in
              put_attr DATA_FA_I2SVG "" l in
            (cut (child_nodes node) (update_forest (fst m) (fun d =>
               match d with
               | DEl id svg t a _ => DEl id svg t (attrs a) (parse_html h html)
               | _ => d
               end) F), None)
        | _ => (F, Some "TypeError")
        end
  end.

Definition getMutator (c : obj jsval) : mutation -> forest -> outcome :=
  let v := config_get c "autoReplaceSvg" in
  if bool_decide (v = VBool true) then mutate_replace c
  else if str_eqb (to_str v) "nest" then mutate_nest c else mutate_replace c.

(** The body of the frame: the mutations in order, up to the first exception. *)
Fixpoint run_mutations (mutator : mutation -> forest -> outcome) (l : list mutation) (F : forest) : outcome :=
  match l with
  | [] => (F, None)
  | m :: l =>
      match mutator m F with
      | (F, None) => run_mutations mutator l F
      | (F, Some e) => (F, Some e)
      end
  end.

(** * From a node to a mutation *)
Definition jstr (v : jsval) : option string := match v with VStr s => Some s | _ => None end.
Definition unfound : found_icon := mkFound false (Some 512%Z) (Some 512%Z) no_element.

Definition generateLayersText (d : dom) (m : meta) : list abstract :=
  let '(w, hh) := if is_ie h then (DNum (fst (layers_size h d)), DNum (snd (layers_size h d))) else (DNull, DNull) in
  makeLayersTextAbstract (is_ie h) (innerHTML h d) w hh (m_transform m) (m_extra m) true.

Definition generateSvgReplacementMutation (s : fa) (n : nat) (m : meta) : list abstract * nat :=
  let main := fst (findIcon s (reduceMotion h) (jstr (m_iconName m)) (m_prefix m)) in
  let mask :=
    if otruthy (c_iconName (m_mask m))
    then fst (findIcon s (reduceMotion h) (c_iconName (m_mask m)) (c_prefix (m_mask m))) else unfound in
  makeInlineSvgAbstract (config s) (draw h) n
    (mkSvgParams main mask (ostr (m_prefix m)) (m_iconName m) (m_transform m) (m_symbol m) (m_maskId m)
       (m_extra m) true).

Definition generateMutation (s : fa) (n : nat) (d : dom) : result (mutation * nat) :=
  res_map (fun m =>
    if mem_str LAYERS_TEXT_CLASSNAME (ex_classes (m_extra m))
    then ((id_of d, generateLayersText d m), n)
    else let '(l, n) := generateSvgReplacementMutation s n m in ((id_of d, l), n))
    (parseMeta h s (negb (is_str (config_get (config s) "autoReplaceSvg") "nest")) d).

(** * [onTree] *)
Definition getKnownPrefixes : list string := Ht ++ lo.
Definition search_prefixes (s : fa) : list string :=
  let prefixes := if autoFetchSvg s then getKnownPrefixes else Z_families ++ keys (styles s) in
  if mem_str "fa" prefixes then prefixes else prefixes ++ ["fa"].

(** What the query selects: [.fa-layers-text:not([data-fa-i2svg])] and the same for each prefix. *)
Definition selected (classes : list string) (d : dom) : bool :=
  match d with
  | DEl _ _ _ _ _ =>
      existsb (fun k => mem_str k classes) (classList d) && negb (has DATA_FA_I2SVG (attrs_of d))
  | _ => false
  end.
Definition query_classes (s : fa) : list string := LAYERS_TEXT_CLASSNAME :: search_prefixes s.
Definition candidates (s : fa) (root : dom) : list dom :=
  List.filter (selected (query_classes s)) (descendants root).

Fixpoint collect (s : fa) (n : nat) (l : list dom) : list mutation * nat :=
  match l with
  | [] => ([], n)
  | d :: l =>
      match generateMutation s n d with
      | Ok (m, n) => let '(ms, n) := collect s n l in (m :: ms, n)
      | Err _ => collect s n l
      end
  end.

Record page := mkPage { nodes : forest; html_class : list string }.
Definition tree (p : page) : dom := in_page (nodes p).
Definition hcl (suffix : string) : string := HTML_CLASS_I2SVG_BASE_CLASS +:+ "-" +:+ suffix.
Definition hclAdd (suffix : string) (l : list string) : list string :=
  if mem_str (hcl suffix) l then l else l ++ [hcl suffix].
Definition hclRemove (suffix : string) (l : list string) : list string :=
  List.filter (fun c => negb (str_eqb c (hcl suffix))) l.

Definition query_root (r : root) (t : dom) : option dom :=
  match r with Document => Some t | Node i => find_node (Some i) t end.

(** The part of [onTree] that runs at once: the mutations to perform, or nothing to do. *)
Definition onTree_begin (s : fa) (n : nat) (r : root) (p : page) : option (page * list mutation * nat) :=
  match query_root r (tree p) with
  | None => None
  | Some root =>
      match candidates s root with
      | [] => None
      | cands =>
          let '(ms, n) := collect s n cands in
          Some (mkPage (nodes p) (hclRemove "complete" (hclAdd "pending" (html_class p))), ms, n)
      end
  end.

Definition onTree_callback (l : list string) : list string :=
  hclRemove "pending" (hclAdd "complete" (hclAdd "active" l)).
(** [perform], when the frame runs; [c] is the configuration of that moment. *)
Definition perform (c : obj jsval) (ms : list mutation) (p : page) : page * option string :=
  match ms with
  | [] => (mkPage (nodes p) (onTree_callback (html_class p)), None)
  | _ =>
      match run_mutations (getMutator c) ms (nodes p) with
      | (F, None) => (mkPage F (onTree_callback (html_class p)), None)
      | (F, Some e) => (mkPage F (html_class p), Some e)
      end
  end.

Definition onTree (s : fa) (n : nat) (r : root) (p : page) : page * option string * nat :=
  match onTree_begin s n r p with
  | None => (p, None, n)
  | Some (p, ms, n) => (perform (config s) ms p, n)
  end.

(** [onNode]: one node, and no callback. *)
Definition onNode (s : fa) (n : nat) (d : dom) (F : forest) : outcome * nat :=
  match generateMutation s n d with
  | Ok (m, n) => (run_mutations (getMutator (config s)) [m] F, n)
  | Err e => ((F, Some e), n)
  end.
End Replace.

(** * Induction on trees *)
Lemma abstract_tree_ind (P : abstract -> Prop) :
  (forall s, P (AText s)) -> (forall t o cs, Forall P cs -> P (AEl t o cs)) -> forall a, P a.
Proof.
  intros HT HE. fix IH 1. intros [s|t o cs]; [apply HT|]. apply HE.
  induction cs as [|c cs IHcs]; constructor; [apply IH|apply IHcs].
Qed.
Lemma dom_tree_ind (P : dom -> Prop) :
  (forall s, P (DText s)) -> (forall s, P (DComment s)) ->
  (forall i svg t a cs, Forall P cs -> P (DEl i svg t a cs)) -> forall d, P d.
Proof.
  intros HT HC HE. fix IH 1. intros [s|s|i svg t a cs]; [apply HT|apply HC|]. apply HE.
  induction cs as [|c cs IHcs]; constructor; [apply IH|apply IHcs].
Qed.

(** * The two ways of writing a node *)

(** What a reader of the page sees. *)
Fixpoint view (d : dom) : html :=
  match d with
  | DText s => HText s
  | DComment _ => HText ""
  | DEl _ _ t a cs => HEl t a (merge (map view cs))
  end.

(** Attribute names are distinct, as the properties of an object are. *)
Fixpoint distinct (a : abstract) : Prop :=
  match a with
  | AText _ => True
  | AEl _ o cs => NoDup (keys o) /\ Forall id (map distinct cs)
  end.
Lemma distinct_el t o cs : distinct (AEl t o cs) <-> NoDup (keys o) /\ Forall distinct cs.
Proof. cbn. by rewrite Forall_map. Qed.

Section ConvertFacts.
Context (h : host).

Lemma put_attr_new k v l : k ∉ keys l -> put_attr k v l = l ++ [(k, v)].
Proof.
  unfold keys. induction l as [|[k' v'] l IH]; cbn; [done|]. intros [Hk Hl]%not_elem_of_cons.
  rewrite (proj2 (str_eqb_neq _ _)) by congruence. by rewrite IH.
Qed.

Lemma keys_attr_pairs o : keys (attr_pairs o) = keys o.
Proof. unfold keys, attr_pairs. induction o as [|kv o IH]; cbn; [done|]. by rewrite IH. Qed.

Lemma set_attributes_svg o l l' : set_attributes h true o l = Ok l' -> NoDup (keys l ++ keys o) ->
  l' = l ++ attr_pairs o.
Proof.
  revert l. induction o as [|[k v] o IH]; intros l; cbn [set_attributes].
  { intros [= ->] _. by rewrite app_nil_r. }
  unfold setAttribute. destruct (valid_name h k); cbn [res_bind]; [|done]. intros H Hd.
  unfold keys in Hd. cbn in Hd. fold (keys l) (keys o) in Hd.
  assert (k ∉ keys l) as Hk.
  { apply NoDup_app in Hd as (_ & Hd & _). intros Hi. apply (Hd k Hi). left. }
  rewrite put_attr_new in H by done. apply IH in H.
  - rewrite H, <- app_assoc. done.
  - unfold keys. rewrite fmap_app. cbn. fold (keys l) (keys o). by rewrite <- app_assoc.
Qed.

Fixpoint convert_list (svg : bool) (l : list abstract) : result (list dom) :=
  match l with
  | [] => Ok []
  | c :: l => res_bind (convert h svg c) (fun d => res_map (cons d) (convert_list svg l))
  end.

Lemma convert_el svg t o cs :
  convert h svg (AEl t o cs) =
  res_bind (set_attributes h svg o []) (fun attrs =>
    res_map (DEl None svg (if svg then default "undefined" t else ascii_lower (default "undefined" t)) attrs)
      (convert_list svg cs)).
Proof.
  cbn [convert]. destruct (set_attributes h svg o []); cbn [res_bind]; [|done]. f_equal.
  induction cs as [|c cs IH]; [done|]. cbn [convert_list]. by rewrite <- IH.
Qed.

Lemma convert_el_ok svg t o cs d : convert h svg (AEl t o cs) = Ok d ->
  exists attrs ds, set_attributes h svg o [] = Ok attrs /\ convert_list svg cs = Ok ds
    /\ d = DEl None svg (if svg then default "undefined" t else ascii_lower (default "undefined" t)) attrs ds.
Proof.
  rewrite convert_el. destruct (set_attributes h svg o []) as [attrs|]; cbn [res_bind]; [|done].
  destruct (convert_list svg cs) as [ds|]; cbn [res_map]; [|done]. intros [= <-]. eauto.
Qed.

Lemma convert_list_Forall2 svg cs ds : convert_list svg cs = Ok ds <-> Forall2 (fun c d => convert h svg c = Ok d) cs ds.
Proof.
  revert ds. induction cs as [|c cs IH]; intros ds; cbn [convert_list].
  { split; [by intros [= <-]|]. by intros ->%Forall2_nil_inv_l. }
  transitivity (exists d ds', convert h svg c = Ok d /\ convert_list svg cs = Ok ds' /\ ds = d :: ds').
  - destruct (convert h svg c) as [d|]; cbn [res_bind]; [|naive_solver].
    destruct (convert_list svg cs) as [ds'|]; cbn [res_map]; naive_solver.
  - split.
    + intros (d & ds' & Hd & Hds%IH & ->). by constructor.
    + intros (d & ds' & Hd & Hds & ->)%Forall2_cons_inv_l. exists d, ds'. split_and!; [done|by apply IH|done].
Qed.

Lemma convert_view a d : distinct a -> convert h true a = Ok d -> view d = reading a.
Proof.
  revert d. induction a as [s|t o cs IH] using abstract_tree_ind; intros d.
  { by intros _ [= <-]. }
  intros [Hd Hcs]%distinct_el (attrs & ds & Ha & Hds & ->)%convert_el_ok. cbn [view reading].
  apply set_attributes_svg in Ha as ->; [|done]. cbn [app]. f_equal. f_equal.
  apply convert_list_Forall2 in Hds. clear Hd o t. induction Hds as [|c d cs ds Hc Hds IHds]; [done|].
  apply Forall_cons in IH as [IHc IH]. apply Forall_cons in Hcs as [Hcd Hcs].
  cbn [map]. by rewrite (IHc d Hcd Hc), IHds.
Qed.

Lemma set_attributes_valid svg o l : Forall (fun k => valid_name h k = true) (keys o) ->
  exists l', set_attributes h svg o l = Ok l'.
Proof.
  unfold keys. revert l. induction o as [|[k v] o IH]; intros l; cbn; [eauto|].
  intros [Hk Ho]%Forall_cons. unfold setAttribute. rewrite Hk. cbn [res_bind]. by apply IH.
Qed.

Fixpoint names_valid (a : abstract) : Prop :=
  match a with
  | AText _ => True
  | AEl _ o cs => Forall (fun k => valid_name h k = true) (keys o) /\ Forall id (map names_valid cs)
  end.

Lemma convert_valid svg a : names_valid a -> exists d, convert h svg a = Ok d.
Proof.
  induction a as [s|t o cs IH] using abstract_tree_ind; [by eexists|].
  cbn [names_valid]. intros [Ho Hcs]. rewrite convert_el.
  destruct (set_attributes_valid svg o [] Ho) as [attrs ->]. cbn [res_bind].
  assert (exists ds, convert_list svg cs = Ok ds) as [ds ->]; [|by eexists].
  rewrite Forall_map in Hcs. clear Ho. induction cs as [|c cs IHcs]; [by eexists|].
  apply Forall_cons in IH as [IHc IH]. apply Forall_cons in Hcs as [Hc Hcs].
  cbn [convert_list]. destruct (IHc Hc) as [d ->]. destruct (IHcs IH Hcs) as [ds ->]. by eexists.
Qed.
End ConvertFacts.

(** C24: an icon can be put in the page as nodes ([convertSVG]) or as text that the browser
    parses ([toHtml]): when the browser accepts the attribute names, both give the same
    tree. *)
Theorem convertSVG_agrees_toHtml h o cs :
  let a := AEl (Some "svg") o cs in
  distinct a -> nodes_ok a = true -> names_valid h a ->
  exists d, convertSVG h a = Ok d /\ read_html (toHtml a) = Some [view d].
Proof.
  intros a Hd Hn Hv. destruct (convert_valid h true a Hv) as [d E]. exists d.
  split; [exact E|]. rewrite toHtml_read by done. by rewrite (convert_view h a d Hd E).
Qed.

Lemma convertSVG_agrees_toHtml_witness :
  exists d, convertSVG ex_host (AEl (Some "svg") [("class", VStr "a<b")] [AEl (Some "path") [("d", VStr "M0 0")] []])
    = Ok d /\ read_html (toHtml (AEl (Some "svg") [("class", VStr "a<b")] [AEl (Some "path") [("d", VStr "M0 0")] []]))
    = Some [view d].
Proof.
  apply convertSVG_agrees_toHtml; [|reflexivity|].
  - apply distinct_el. split; [by_decide|]. repeat constructor; by_decide.
  - repeat constructor.
Defined.

(** * What is generated is not selected again *)
Definition class_words (s : string) : list string := first_occurrences [] (tokens_from [] (bytes_of s)).
Definition class_value (o : obj jsval) : string := match get "class" o with Some v => to_str v | None => "" end.
Definition hit (q : list string) (s : string) : bool := existsb (fun k => mem_str k q) (class_words s).
Definition quiet (q : list string) (o : obj jsval) : bool := has DATA_FA_I2SVG o || negb (hit q (class_value o)).

Fixpoint tame (q : list string) (a : abstract) : Prop :=
  match a with
  | AText _ => True
  | AEl _ o cs => NoDup (keys o) /\ quiet q o = true /\ Forall id (map (tame q) cs)
  end.
Lemma tame_AEl q t o cs : tame q (AEl t o cs) <-> NoDup (keys o) /\ quiet q o = true /\ Forall (tame q) cs.
Proof. cbn. by rewrite Forall_map. Qed.

(** The icons use classes of their own: none of them is searched for. *)
Definition free_classes (c : obj jsval) (q : list string) : bool :=
  forallb (fun k => negb (hit q (to_str (css_class c (duotone_class k))))) ["GROUP"; "PRIMARY"; "SECONDARY"]
  && negb (hit q "missing").

Section Tame.
Context (q : list string).

Lemma get_attr_pairs k o : get k (attr_pairs o) = option_map to_str (get k o).
Proof. induction o as [|[k1 v1] o IH]; cbn; [done|]. by destruct (str_eqb k1 k). Qed.

Lemma selected_attr_pairs i svg t o ds : quiet q o = true -> selected q (DEl i svg t (attr_pairs o) ds) = false.
Proof.
  unfold quiet, selected, classList, getAttribute, hit, class_value, class_words, has. cbn [attrs_of].
  rewrite !get_attr_pairs. destruct (get DATA_FA_I2SVG o); cbn [option_map]; [by rewrite andb_false_r|].
  destruct (get "class" o); cbn; [by intros ->%negb_true_iff|done].
Qed.

Notation unselected := (fun d => selected q d = false).

Lemma tame_convert h a d : tame q a -> convert h true a = Ok d -> Forall unselected (d :: descendants d).
Proof.
  revert d. induction a as [s|t o cs IH] using abstract_tree_ind; intros d.
  { intros _ [= <-]. by repeat constructor. }
  intros (Hd & Hq & Hcs)%tame_AEl (attrs & ds & Ha & Hds & ->)%convert_el_ok.
  apply set_attributes_svg in Ha as ->; [|done]. cbn [app]. constructor; [by apply selected_attr_pairs|].
  cbn [descendants]. apply convert_list_Forall2 in Hds. clear Hd Hq.
  induction Hds as [|c d cs ds Hc Hds IHds]; [constructor|].
  apply Forall_cons in IH as [IHc IH]. apply Forall_cons in Hcs as [Hcd Hcs].
  cbn [map concat]. apply Forall_app. split; [by apply IHc|by apply IHds].
Qed.

(** ** The providers *)
Definition marked (o : obj jsval) : Prop := NoDup (keys o) /\ has DATA_FA_I2SVG o = true.
Lemma marked_set k v o : marked o -> marked (set k v o).
Proof. intros [Hd Hh]. split; [by apply NoDup_set|]. rewrite has_keys in *. apply elem_of_keys_set. by right. Qed.
Lemma marked_spread o l : marked o -> marked (spread (spread [] o) l).
Proof.
  intros [Hd Hh]. split; [apply NoDup_spread, NoDup_spread; constructor|].
  rewrite has_keys in *. apply keys_spread. left. apply keys_spread. by right.
Qed.
Lemma marked_quiet o : marked o -> quiet q o = true.
Proof. intros [_ H]. unfold quiet. by rewrite H. Qed.

Lemma tame_el t l cs : quiet q (literal l) = true -> Forall (tame q) cs -> tame q (el t l cs).
Proof. intros. apply tame_AEl. split_and!; [apply NoDup_literal|done..]. Qed.
Lemma tame_marked t o cs : marked o -> Forall (tame q) cs -> tame q (AEl t o cs).
Proof. intros Hm ?. apply tame_AEl. split_and!; [apply Hm|by apply marked_quiet|done]. Qed.
Lemma no_class_quiet o : get "class" o = None -> quiet q o = true.
Proof. intros H. unfold quiet, class_value. rewrite H. by rewrite orb_true_r. Qed.

Lemma quiet_class v l : get "class" (literal (("class", v) :: l)) = Some v -> hit q (to_str v) = false ->
  quiet q (literal (("class", v) :: l)) = true.
Proof. intros H Hh. unfold quiet, class_value. by rewrite H, Hh, orb_true_r. Qed.

Ltac tame :=
  repeat first
    [ assumption
    | match goal with
      | |- tame _ (el _ _ _) => apply tame_el
      | |- Forall _ [] => constructor
      | |- Forall _ (_ :: _) => constructor
      | |- Forall _ (_ ++ _) => apply Forall_app; split
      | |- context [if ?b then _ else _] => destruct b
      | |- quiet _ (literal _) = true => apply no_class_quiet; reflexivity
      end ].

Lemma tame_missing b : hit q "missing" = false -> tame q (missingIconAbstract b).
Proof.
  intros H. unfold missingIconAbstract. apply tame_el; [|tame].
  unfold quiet. change (class_value _) with "missing". by rewrite H, orb_true_r.
Qed.

Lemma tame_found c i : free_classes c q = true -> tame q (fi_icon (asFoundIcon c i)).
Proof.
  unfold free_classes. cbn [forallb]. rewrite !andb_true_iff, !negb_true_iff. intros [(H1 & H2 & H3 & _) _].
  unfold asFoundIcon. cbn [fi_icon]. destruct (svgPathData i); [tame|].
  repeat first [apply tame_el | apply Forall_nil_2 | apply Forall_cons_2];
    apply quiet_class; done.
Qed.

Lemma quiet_set k v o : k <> "class" -> quiet q o = true -> quiet q (set k v o) = true.
Proof.
  intros Hk. unfold quiet, class_value, has. rewrite !get_set, (proj2 (str_eqb_neq k "class") Hk).
  by destruct (str_eqb k DATA_FA_I2SVG).
Qed.
Lemma quiet_copy o : NoDup (keys o) -> quiet q o = true -> quiet q (spread [] o) = true.
Proof.
  intros Hd. unfold quiet, class_value, has. rewrite !get_spread by done. cbn [get].
  by destruct (get DATA_FA_I2SVG o), (get "class" o).
Qed.
Lemma tame_copy t o cs k v : NoDup (keys o) -> quiet q o = true -> k <> "class" -> Forall (tame q) cs ->
  tame q (AEl t (spread (spread [] o) [(k, v)]) cs).
Proof.
  intros Hd Hq Hk Hcs. apply tame_AEl. split_and!; [apply NoDup_spread, NoDup_spread; constructor| |done].
  apply quiet_set; [done|]. by apply quiet_copy.
Qed.

Lemma tame_parts a : tame q a ->
  NoDup (keys (attributes_of a)) /\ quiet q (attributes_of a) = true /\ Forall (tame q) (children_of a).
Proof.
  destruct a as [s|t o cs]; [|by intros ?%tame_AEl].
  intros _. split_and!; [constructor|by apply no_class_quiet|constructor].
Qed.

Lemma tame_fillBlack f a : tame q a -> tame q (fillBlack f a).
Proof.
  destruct a as [s|t o cs]; [done|]. unfold fillBlack. destruct (_ || _); [|done].
  rewrite !tame_AEl. intros (? & ? & ?). split_and!; [by apply NoDup_set|by apply quiet_set|done].
Qed.
Lemma tame_deGroup a : tame q a -> Forall (tame q) (deGroup a).
Proof. unfold deGroup. case_bool_decide; [by intros (_ & _ & ?)%tame_parts|by repeat constructor]. Qed.

Lemma tame_grouping main t w1 w2 : tame q (fi_icon main) -> tame q (generateAbstractTransformGrouping main t w1 w2).
Proof.
  intros (? & ? & ?)%tame_parts. unfold generateAbstractTransformGrouping. tame. by apply tame_copy.
Qed.

(** Root attributes that mark the icon, children that are not selected. *)
Definition tame_content (ct : content) : Prop := marked (ct_attributes ct) /\ Forall (tame q) (ct_children ct).

Lemma tame_generateAbstractIcon ct main t st :
  tame q (fi_icon main) -> tame_content ct -> tame_content (generateAbstractIcon ct main t st).
Proof.
  intros Hm [Ha Hc]. unfold generateAbstractIcon. split; cbn [ct_attributes ct_children].
  - destruct (str_empty _); [done|]. by apply marked_set.
  - tame. by apply tame_grouping.
Qed.

Lemma tame_generateAbstractMask dr n ct main mask id t :
  tame q (fi_icon main) -> tame q (fi_icon mask) -> tame_content ct ->
  tame_content (fst (generateAbstractMask dr n ct main mask id t)).
Proof.
  intros Hm Hk [Ha Hc]. pose proof (tame_parts _ Hm) as (? & ? & Hmc). unfold generateAbstractMask.
  destruct (mask_id dr n id) as [m n1]. destruct (mask_id dr n1 id) as [c n2].
  cbn [fst]. split; cbn [ct_attributes ct_children]; [done|].
  assert (Forall (tame q) (deGroup (fi_icon mask))) by by apply tame_deGroup.
  tame. apply tame_fillBlack. apply tame_copy; [done..|].
  apply Forall_lookup. intros i a. rewrite list_lookup_imap. intros (b & Hb & ->)%fmap_Some.
  apply tame_fillBlack. by eapply Forall_lookup in Hmc.
Qed.

Lemma marked_svg_attributes c p : sp_watchable p = true -> marked (svg_attributes c p).
Proof.
  intros Hw. unfold svg_attributes. cbv zeta. rewrite Hw. split.
  - apply NoDup_set. destruct (_ && _); [apply NoDup_set|]; apply NoDup_spread, NoDup_spread; constructor.
  - apply has_keys, elem_of_keys_set. by left.
Qed.

(** What an icon for a node of the page is made of: one [svg], not selected, and nothing
    in it is. *)
Lemma tame_makeInlineSvgAbstract c dr n p :
  sp_watchable p = true -> tame q (fi_icon (sp_main p)) -> tame q (fi_icon (sp_mask p)) ->
  exists o cs n', makeInlineSvgAbstract c dr n p = ([AEl (Some "svg") o cs], n') /\ tame q (AEl (Some "svg") o cs).
Proof.
  intros Hw Hm Hk. unfold makeInlineSvgAbstract. cbv zeta.
  assert (tame_content (mkContent [] (svg_attributes c p))) as Hc.
  { split; [by apply marked_svg_attributes|constructor]. }
  set (r := if _ && _ then _ else _).
  assert (tame_content (fst r)) as [Ho Hn].
  { subst r. destruct (_ && _); cbn [fst]; [by apply tame_generateAbstractMask|by apply tame_generateAbstractIcon]. }
  destruct r as [ct n2]. cbn [fst] in *. unfold asSymbol, asIcon, el. cbv zeta.
  destruct (truthy (sp_symbol p)); eexists _, _, _; (split; [reflexivity|]).
  - apply tame_AEl. split_and!; [apply NoDup_literal|by apply no_class_quiet|].
    apply Forall_singleton. apply tame_marked; [|done]. by apply marked_spread.
  - apply tame_marked; [|done]. destruct (_ && _); [|done]. by apply marked_set.
Qed.

End Tame.

(** * [onTree] leaves nothing to replace *)
Section Settle.
Context (h : host) (q : list string).
Notation unselected := (fun d => selected q d = false).

Definition clean (d : dom) : Prop := Forall unselected (d :: descendants d).

Lemma set_attributes_keeps svg o l l' k : set_attributes h svg o l = Ok l' ->
  k ∈ keys l \/ (k ∈ keys o /\ ascii_lower k = k) -> k ∈ keys l'.
Proof.
  assert (forall k' v (l : attr_list), keys (put_attr k' v l) = if decide (k' ∈ keys l) then keys l else keys l ++ [k']) as Hp.
  { intros k' v l0. unfold keys. induction l0 as [|[k1 v1] l0 IH]; cbn; [by rewrite decide_False by apply not_elem_of_nil|].
    destruct (str_eqb_spec k1 k') as [->|Hne]; cbn; [by rewrite decide_True by left|].
    rewrite IH. repeat case_decide; try done; rewrite elem_of_cons in *; naive_solver. }
  revert l. induction o as [|[k1 v1] o IH]; intros l; cbn [set_attributes].
  { intros [= ->] [?|[?%elem_of_nil _]]; done. }
  unfold setAttribute. destruct (valid_name h k1); cbn [res_bind]; [|done]. intros H Hk. apply (IH _ H).
  rewrite Hp. unfold keys in Hk at 2. cbn in Hk. rewrite elem_of_cons in Hk.
  destruct Hk as [Hk|[[->|Hk] Hl]]; [..|by right].
  - left. case_decide; [done|]. apply elem_of_app. by left.
  - left. assert ((if svg then k1 else ascii_lower k1) = k1) as -> by by destruct svg.
    case_decide; [done|]. apply elem_of_app. right. left.
Qed.

Lemma clean_span o text d : marked o -> convertSVG h (AEl (Some "span") o [AText text]) = Ok d -> clean d.
Proof.
  intros [_ Ho%has_keys]. unfold convertSVG. change (bool_decide _) with false.
  intros (attrs & ds & Ha & Hds & ->)%convert_el_ok. cbn [convert_list convert res_bind res_map] in Hds.
  injection Hds as <-. repeat constructor. unfold selected. cbn [attrs_of].
  assert (has DATA_FA_I2SVG attrs = true) as ->; [|by rewrite andb_false_r].
  apply has_keys. eapply set_attributes_keeps; [exact Ha|]. right. split; [done|reflexivity].
Qed.

Lemma clean_svg o cs d : tame q (AEl (Some "svg") o cs) -> convertSVG h (AEl (Some "svg") o cs) = Ok d -> clean d.
Proof. intros Ht Hc. by eapply tame_convert. Qed.

Definition clean_result (l : list abstract) : Prop := forall ds, convert_all h l = (ds, None) -> Forall clean ds.

Lemma clean_one a : (forall d, convertSVG h a = Ok d -> clean d) -> clean_result [a].
Proof.
  intros Ha ds. cbn. destruct (convertSVG h a) as [d|]; [|done]. intros [= <-]. constructor; [by apply Ha|constructor].
Qed.

Lemma marked_class_set o cls : marked (set DATA_FA_I2SVG (VStr "") (spread (spread [] o) [("class", VStr cls)])).
Proof.
  split; [apply NoDup_set, NoDup_spread, NoDup_spread; constructor|].
  apply has_keys, elem_of_keys_set. by left.
Qed.

Lemma clean_generateLayersText d m : clean_result (generateLayersText h d m).
Proof.
  unfold generateLayersText. destruct (if is_ie h then _ else _) as [w hh]. apply clean_one. intros d'.
  apply clean_span. unfold with_style. destruct (str_empty _); [|apply marked_set]; apply marked_class_set.
Qed.

Lemma tame_findIcon s rm n p : free_classes (config s) q = true -> tame q (fi_icon (fst (findIcon s rm n p))).
Proof.
  intros Hf. unfold findIcon. cbv zeta.
  destruct (find_style_icon _ _ _); cbn [fst fi_icon]; [by apply tame_found|].
  destruct (_ && _); [|by repeat constructor]. apply tame_missing.
  apply andb_true_iff in Hf as [_ Hf]. by apply negb_true_iff.
Qed.

Lemma clean_generateMutation s n d i l n' : free_classes (config s) q = true ->
  generateMutation h s n d = Ok ((i, l), n') -> i = id_of d /\ clean_result l.
Proof.
  intros Hf. unfold generateMutation. destruct (parseMeta _ _ _ _) as [m|]; cbn [res_map]; [|done].
  destruct (mem_str _ _); [intros [= <- <- <-]; split; [done|apply clean_generateLayersText]|].
  destruct (generateSvgReplacementMutation h s n m) as [l' n2] eqn:E. intros [= <- <- <-]. split; [done|].
  unfold generateSvgReplacementMutation in E. cbv zeta in E.
  edestruct (tame_makeInlineSvgAbstract q) as (o & cs & n3 & E2 & Ht); [..|rewrite E2 in E; injection E as <- _].
  - reflexivity.
  - apply tame_findIcon, Hf.
  - cbn [sp_mask]. destruct (otruthy _); [apply tame_findIcon, Hf|by repeat constructor].
  - apply clean_one. intros d'. by apply clean_svg.
Qed.

(** ** Where the selected nodes of a changed tree come from *)
Lemma descendants_el i svg t a cs x :
  x ∈ descendants (DEl i svg t a cs) <-> exists c, c ∈ cs /\ x ∈ c :: descendants c.
Proof.
  cbn [descendants]. rewrite list_elem_of_In, in_concat. setoid_rewrite in_map_iff. setoid_rewrite list_elem_of_In.
  split; [intros (l & (c & <- & Hc) & Hx)|intros (c & Hc & Hx)]; eauto.
Qed.

Lemma subst_node_id i news d : id_of (subst_node i news d) = id_of d.
Proof. by destruct d. Qed.
Lemma subst_node_selected i news d : selected q (subst_node i news d) = selected q d.
Proof. by destruct d. Qed.
Lemma has_id_subst i j news d : has_id j (subst_node i news d) = has_id j d.
Proof. unfold has_id. by rewrite subst_node_id. Qed.

Lemma subst_selected i news d x :
  (forall n, Forall clean (news n)) -> x ∈ descendants (subst_node i news d) -> selected q x = true ->
  exists y, y ∈ descendants d /\ selected q y = true /\ id_of y = id_of x /\ has_id i y = false.
Proof.
  intros Hn. revert x. induction d as [s|s|j svg t a cs IH] using dom_tree_ind; intros x;
    [by intros ?%elem_of_nil..|].
  cbn [subst_node]. rewrite descendants_el. intros (c & Hc & Hx) Hsel.
  apply list_elem_of_In, in_concat in Hc as (l & (c0 & <- & Hc0)%in_map_iff & Hc).
  apply list_elem_of_In in Hc0. rewrite Forall_forall in IH.
  destruct (has_id i c0) eqn:Ei.
  - pose proof (Hn c0) as Hcl. rewrite Forall_forall in Hcl. apply list_elem_of_In, Hcl in Hc.
    unfold clean in Hc. rewrite Forall_forall in Hc. apply Hc in Hx. congruence.
  - destruct Hc as [<-|[]]. apply elem_of_cons in Hx as [->|Hx].
    + exists c0. rewrite subst_node_selected in Hsel. rewrite subst_node_id.
      split_and!; [|done..]. apply descendants_el. exists c0. split; [done|by left].
    + destruct (IH c0 Hc0 x Hx Hsel) as (y & Hy & ? & ? & ?). exists y. split_and!; [|done..].
      apply descendants_el. exists c0. split; [done|by right].
Qed.

Lemma clean_comment s : clean (DComment s).
Proof. by repeat constructor. Qed.

Lemma mutate_replace_selected c m F F' x :
  clean_result (snd m) -> mutate_replace h c m F = (F', None) -> x ∈ descendants (in_page F') -> selected q x = true ->
  exists y, y ∈ descendants (in_page F) /\ selected q y = true /\ id_of y = id_of x /\ has_id (fst m) y = false.
Proof.
  intros Hm. unfold mutate_replace. destruct (find_parented (fst m) F) as [node|] eqn:Ef.
  - destruct (convert_all h (snd m)) as [news [e|]] eqn:E; [done|]. intros [= <-].
    apply subst_selected. intros d. apply Forall_app. split; [by apply Hm|].
    destruct (_ && _); repeat constructor.
  - intros [= <-] Hx Hsel. exists x. split_and!; [done..|].
    apply (find_none _ _ Ef). apply in_concat. exists (descendants (in_page F)). split; [by left|by apply list_elem_of_In].
Qed.

Lemma run_replace_selected c ms F F' x :
  Forall (fun m => clean_result (snd m)) ms -> run_mutations (mutate_replace h c) ms F = (F', None) ->
  x ∈ descendants (in_page F') -> selected q x = true ->
  exists y, y ∈ descendants (in_page F) /\ selected q y = true /\ id_of y = id_of x
    /\ Forall (fun m => has_id (fst m) y = false) ms.
Proof.
  intros Hms. revert F. induction Hms as [|m ms Hm Hms IH]; intros F; cbn [run_mutations].
  { intros [= <-] Hx Hs. exists x. split_and!; [done..|constructor]. }
  destruct (mutate_replace h c m F) as [F1 [e|]] eqn:E; [done|]. intros Hr Hx Hs.
  destruct (IH F1 Hr Hx Hs) as (y & Hy & Hsy & Hi & Hf).
  destruct (mutate_replace_selected c m F F1 y Hm E Hy Hsy) as (z & Hz & Hsz & Hiz & Hmz).
  exists z. split_and!; [done..|congruence|]. constructor; [done|]. eapply Forall_impl; [exact Hf|].
  intros m' H. unfold has_id in *. by rewrite Hiz.
Qed.
End Settle.

Section OnTree.
Context (h : host) (s : fa).

Lemma parseMeta_ok b d : exists m, parseMeta h s b d = Ok m.
Proof.
  unfold parseMeta, classParser. destruct (getCanonicalIcon_ok s (classArray h d) false) as [c ->].
  cbn [res_map]. cbv zeta. destruct (if _ && _ then _ else _) as [p nm r]. cbn [res_bind].
  unfold chainHooks, parseNodeAttributes. cbn [fold_left res_bind]. unfold PowerTransforms_parse. cbn [res_bind].
  unfold Masks_parse. destruct (otruthy (getAttribute "data-fa-mask" d)).
  - destruct (getCanonicalIcon_ok s (map js_trim (split_on " "%char (okey (getAttribute "data-fa-mask" d)))) false)
      as [k ->]. cbn [res_map res_bind SvgSymbols_parse]. by eexists.
  - cbn [res_map res_bind SvgSymbols_parse]. by eexists.
Qed.

Lemma generateMutation_ok n d : exists l n', generateMutation h s n d = Ok ((id_of d, l), n').
Proof.
  unfold generateMutation. destruct (parseMeta_ok (negb (is_str (config_get (config s) "autoReplaceSvg") "nest")) d)
    as [m ->]. cbn [res_map]. destruct (mem_str _ _); [by eexists _, _|].
  destruct (generateSvgReplacementMutation h s n m) as [l n']. by eexists _, _.
Qed.

Lemma collect_all q n l ms n' : free_classes (config s) q = true -> collect h s n l = (ms, n') ->
  Forall2 (fun d m => fst m = id_of d /\ clean_result h q (snd m)) l ms.
Proof.
  intros Hf. revert n ms. induction l as [|d l IH]; intros n ms; cbn [collect]; [intros [= <- _]; constructor|].
  destruct (generateMutation_ok n d) as (a & n1 & E). rewrite E.
  destruct (collect h s n1 l) as [ms' n2] eqn:Ec. intros [= <- <-].
  constructor; [|by eapply IH]. split; [done|]. by apply (clean_generateMutation h q s n d) in E as [_ ?].
Qed.

Lemma getMutator_replace c : str_eqb (to_str (config_get c "autoReplaceSvg")) "nest" = false ->
  getMutator h c = mutate_replace h c.
Proof. intros H. unfold getMutator. case_bool_decide; [done|]. by rewrite H. Qed.

Lemma candidates_nil t : (forall x, x ∈ descendants t -> selected (query_classes s) x = true -> False) ->
  candidates s t = [].
Proof.
  intros H. unfold candidates. destruct (List.filter _ _) as [|x l] eqn:E; [done|]. exfalso.
  assert (In x (List.filter (selected (query_classes s)) (descendants t))) as Hx by (rewrite E; by left).
  apply filter_In in Hx as [Hx Hs]. apply (H x); [by apply list_elem_of_In|done].
Qed.
End OnTree.

(** C10: [onTree] settles: in the replacing mode, after a run that threw no exception nothing
    that it searches for is left in the page, so a second run, such as the one the
    observer starts for the nodes the first one put in, changes nothing. *)
Theorem onTree_settles h s n t off hc p' n' :
  str_eqb (to_str (config_get (config s) "autoReplaceSvg")) "nest" = false ->
  free_classes (config s) (query_classes s) = true ->
  Forall (fun d => id_of d <> None) (candidates s t) ->
  onTree h s n Document (mkPage (mkForest t off) hc) = (p', None, n') ->
  candidates s (tree p') = [] /\ onTree h s n' Document p' = (p', None, n').
Proof.
  intros Hm Hf Hid Ho.
  assert (candidates s (tree p') = []) as E.
  { unfold onTree, onTree_begin in Ho. cbn [query_root tree nodes in_page] in Ho.
    destruct (candidates s t) as [|d cands] eqn:Ec; [by injection Ho as <- _|]. rewrite <- Ec in *.
    destruct (collect h s n (candidates s t)) as [ms n2] eqn:El. injection Ho as Hp _.
    pose proof (collect_all h s (query_classes s) n _ ms n2 Hf El) as Hall.
    unfold perform in Hp. cbn [nodes html_class] in Hp.
    destruct ms as [|m ms]; [rewrite Ec in Hall; by inversion Hall|].
    rewrite getMutator_replace in Hp by done.
    destruct (run_mutations (mutate_replace h (config s)) (m :: ms) (mkForest t off)) as [F1 [e|]] eqn:Er; [done|].
    injection Hp as <-. unfold tree. cbn [nodes]. apply candidates_nil. intros x Hx Hs.
    assert (Forall (fun m => clean_result h (query_classes s) (snd m)) (m :: ms)) as Hc.
    { clear - Hall. induction Hall as [|? ? ? ? [_ ?]]; by constructor. }
    destruct (run_replace_selected h (query_classes s) _ _ _ _ x Hc Er Hx Hs) as (y & Hy & Hsy & _ & Hn).
    assert (y ∈ candidates s t) as Hyc by (apply list_elem_of_In, filter_In; split; [by apply list_elem_of_In|done]).
    rewrite Forall_forall in Hid. pose proof (Hid y Hyc) as Hi.
    clear - Hall Hn Hyc Hi. induction Hall as [|d m' l ms' [Hfst _] Hall IH]; [by apply elem_of_nil in Hyc|].
    apply Forall_cons in Hn as [Hn1 Hn]. apply elem_of_cons in Hyc as [->|Hyc]; [|by apply IH].
    rewrite Hfst in Hn1. unfold has_id in Hn1. destruct (id_of d) as [k|]; [|done]. by rewrite Nat.eqb_refl in Hn1. }
  split; [done|]. unfold onTree, onTree_begin. cbn [query_root]. by rewrite E.
Qed.

(** ** A page *)
Definition ex_page : page :=
  mkPage (mkForest (DEl None false "#document" []
    [DEl (Some 0) false "html" []
      [DEl (Some 1) false "body" []
        [DText "see "; DEl (Some 2) false "i" [("class", "fas fa-house big"); ("title", "home")] [];
         DEl (Some 3) false "p" [] [DEl (Some 4) false "i" [("class", "fas fa-nothing"); ("data-fa-symbol", "")] []];
         DEl (Some 5) false "span" [("class", "fa-layers-text")] [DText "12"]]]]) []) [].

Lemma onTree_settles_witness :
  let r := onTree ex_host ex_fa 0 Document ex_page in
  candidates ex_fa (tree (fst (fst r))) = [] /\ List.length (candidates ex_fa (tree ex_page)) = 3.
Proof.
  split; [|vm_compute; reflexivity].
  refine (proj1 (onTree_settles ex_host ex_fa 0 (tree ex_page) [] [] (fst (fst (onTree ex_host ex_fa 0 Document ex_page))) 0 _ _ _ _));
    [vm_compute; reflexivity|vm_compute; reflexivity| |vm_compute; reflexivity].
  assert (forallb (fun d => match id_of d with Some _ => true | None => false end) (candidates ex_fa (tree ex_page)) = true)
    as H by (vm_compute; reflexivity).
  rewrite forallb_forall in H. apply Forall_forall. intros d Hd%list_elem_of_In%H Hn. by rewrite Hn in Hd.
Defined.

Lemma find_app {A} (f : A -> bool) l1 l2 :
  List.find f (l1 ++ l2) = match List.find f l1 with Some x => Some x | None => List.find f l2 end.
Proof. induction l1 as [|a l1 IH]; cbn; [done|]. by destruct (f a). Qed.

(** * An attribute the browser refuses *)
Section BadName.
Context (h : host) (s : fa).

Definition symbol_of (d : dom) : jsval :=
  match getAttribute "data-fa-symbol" d with
  | None => VBool false
  | Some v => if str_empty v then VBool true else VStr v
  end.

Lemma parseMeta_fields b d m : parseMeta h s b d = Ok m ->
  m_symbol m = symbol_of d
  /\ ex_attributes (m_extra m) = map (fun kv => (fst kv, VStr (snd kv))) (attributesParser d).
Proof.
  unfold parseMeta. destruct (classParser h s d) as [cls|]; cbn [res_bind]; [|done].
  unfold chainHooks, parseNodeAttributes. cbn [fold_left res_bind]. unfold PowerTransforms_parse, Masks_parse.
  cbn [res_bind]. destruct (if otruthy (getAttribute "data-fa-mask" d) then _ else _) as [k|]; [|done].
  cbn [res_map res_bind SvgSymbols_parse]. by intros [= <-].
Qed.

Lemma set_attributes_bad svg o l k : k ∈ keys o -> valid_name h k = false ->
  exists e, set_attributes h svg o l = Err e.
Proof.
  unfold keys. revert l. induction o as [|[k1 v1] o IH]; intros l; cbn; [by intros ?%elem_of_nil|].
  intros [->|Hk]%elem_of_cons Hv; unfold setAttribute; [rewrite Hv; by eexists|].
  destruct (valid_name h k1); cbn [res_bind]; [by apply IH|by eexists].
Qed.

Lemma convertSVG_bad t o cs k : k ∈ keys o -> valid_name h k = false -> exists e, convertSVG h (AEl t o cs) = Err e.
Proof.
  intros Hk Hv. unfold convertSVG. rewrite convert_el.
  destruct (set_attributes_bad (bool_decide (tag_of (AEl t o cs) = Some "svg")) o [] k Hk Hv) as [e ->].
  by eexists.
Qed.

Lemma keys_map_vstr (o : obj string) : keys (map (fun kv => (fst kv, VStr (snd kv))) o) = keys o.
Proof. unfold keys. induction o as [|kv o IH]; cbn; [done|]. by rewrite IH. Qed.

Lemma svg_attributes_keeps c p k : k ∈ keys (ex_attributes (sp_extra p)) -> k ∈ keys (svg_attributes c p).
Proof.
  intros H. unfold svg_attributes. cbv zeta.
  destruct (sp_watchable p), (_ && _); rewrite ?elem_of_keys_set, !keys_spread; auto.
Qed.

(** Every attribute of the node is an attribute of what is generated for it. *)
Lemma generateMutation_keeps n d k m n' : symbol_of d = VBool false -> k ∈ keys (attributesParser d) -> k <> "style" ->
  generateMutation h s n d = Ok (m, n') -> exists t o cs, m = (id_of d, [AEl t o cs]) /\ k ∈ keys o.
Proof.
  intros Hs Hk Hst. unfold generateMutation. destruct (parseMeta h s _ d) as [mt|] eqn:E; cbn [res_map]; [|done].
  apply parseMeta_fields in E as [Hsym Hat]. rewrite <- keys_map_vstr, <- Hat in Hk. rewrite Hs in Hsym.
  destruct (mem_str _ _).
  - intros [= <- <-]. unfold generateLayersText. destruct (if is_ie h then _ else _) as [w hh].
    unfold makeLayersTextAbstract. cbv zeta. eexists _, _, _. split; [reflexivity|].
    unfold with_style. destruct (str_empty _); rewrite ?elem_of_keys_set, !keys_spread; auto.
  - destruct (generateSvgReplacementMutation h s n mt) as [l n2] eqn:E2. intros [= <- <-].
    unfold generateSvgReplacementMutation in E2. cbv zeta in E2.
    edestruct root_attributes as (o & cs & n3 & E3 & Hg); [|rewrite E3 in E2; injection E2 as <- _].
    { cbn [sp_symbol]. by rewrite Hsym. }
    eexists _, _, _. split; [reflexivity|]. specialize (Hg k Hst).
    apply has_keys. unfold has. rewrite Hg. apply has_keys, svg_attributes_keeps. done.
Qed.

Lemma subst_node_same i t : subst_node i (fun d => [] ++ [d]) t = t.
Proof.
  induction t as [v|v|j svg tg a cs IH] using dom_tree_ind; [done..|]. cbn [subst_node]. f_equal.
  induction IH as [|c cs Hc _ IHcs]; [done|]. cbn [map concat]. rewrite IHcs. destruct (has_id i c); [done|].
  by rewrite Hc.
Qed.
Lemma subst_forest_same i F : subst_forest i (fun d => [] ++ [d]) F = F.
Proof.
  destruct F as [t off]. unfold subst_forest. cbn [in_page cut_off]. rewrite subst_node_same. f_equal.
  induction off as [|d off IH]; cbn [map]; [done|]. by rewrite subst_node_same, IH.
Qed.
Lemma find_in_page i F d : find_node i (in_page F) = Some d -> find_parented i F = Some d.
Proof. intros H. unfold find_parented, trees. cbn [map concat]. rewrite find_app. unfold find_node in H. by rewrite H. Qed.
End BadName.

(** C40: one attribute that the browser accepts in HTML but not in [setAttribute] stops
    everything: when the first node to replace has one, [onTree] throws in its frame, no
    node of the page is replaced, not even the others, and the root element stays marked
    as pending. *)
Theorem bad_attribute_stops_all h s n t off hc d rest k :
  str_eqb (to_str (config_get (config s) "autoReplaceSvg")) "nest" = false ->
  candidates s t = d :: rest -> find_node (id_of d) t = Some d ->
  getAttribute "data-fa-symbol" d = None ->
  k ∈ keys (attributesParser d) -> k <> "style" -> valid_name h k = false ->
  exists e n', onTree h s n Document (mkPage (mkForest t off) hc)
    = (mkPage (mkForest t off) (hclRemove "complete" (hclAdd "pending" hc)), Some e, n').
Proof.
  intros Hm Hc Hf Hs Hk Hst Hv. unfold onTree, onTree_begin. cbn [query_root tree nodes in_page]. rewrite Hc.
  cbn [collect]. destruct (generateMutation_ok h s n d) as (l & n1 & E). rewrite E.
  assert (symbol_of d = VBool false) as Hsym by (unfold symbol_of; by rewrite Hs).
  destruct (generateMutation_keeps h s n d k _ n1 Hsym Hk Hst E) as (tg & o & cs & Em & Ho).
  injection Em as ->. destruct (collect h s n1 rest) as [ms n2]. unfold perform. cbn [nodes html_class].
  rewrite getMutator_replace by done. cbn [run_mutations]. unfold mutate_replace at 1. cbn [fst snd].
  rewrite (find_in_page (id_of d) (mkForest t off) d Hf). cbn [convert_all]. destruct (convertSVG_bad h tg o cs k Ho Hv) as [e ->]. rewrite subst_forest_same.
  by eexists _, _.
Qed.

Definition vue_host : host :=
  mkHost false true true (fun _ => None) (fun _ => "") (fun _ => "") (fun _ => [])
    (fun k => negb (str_mem_chr "@"%char k)) (fun _ => (num_of 1, num_of 1)) (fun n => n mod 62).
Definition vue_icon : dom := DEl (Some 1) false "i" [("class", "fas fa-house"); ("@click", "go()")] [].
Definition vue_tree : dom :=
  DEl None false "#document" [] [vue_icon; DEl (Some 2) false "i" [("class", "fas fa-house")] []].

Lemma bad_attribute_stops_all_witness :
  exists e n', onTree vue_host ex_fa 0 Document (mkPage (mkForest vue_tree []) [])
    = (mkPage (mkForest vue_tree []) ["fontawesome-i2svg-pending"], Some e, n').
Proof.
  apply (bad_attribute_stops_all vue_host ex_fa 0 vue_tree [] [] vue_icon
    [DEl (Some 2) false "i" [("class", "fas fa-house")] []] "@click");
    try (vm_compute; reflexivity); [by_decide|discriminate].
Defined.
(** A node that went with the icon around it has a parent still: its icon is made, and
    the exception comes after the outer one was replaced. *)
Example nested_icon_throws :
  let page := mkPage (mkForest (DEl None false "#document" []
    [DEl (Some 2) false "i" [("class", "fas fa-house")] [vue_icon]; DEl (Some 3) false "i" [("class", "fas fa-house")] []]) []) [] in
  let '(p, e, _) := onTree vue_host ex_fa 0 Document page in
  e = Some "InvalidCharacterError" /\ length (candidates ex_fa (tree p)) = 1.
Proof. vm_compute. split; reflexivity. Qed.

(** * Replacing in place *)
Section InPlace.
Context (h : host).

Definition fresh (i : nat) (d : dom) : Prop := has_id (Some i) d = false /\ find_node (Some i) d = None.

Lemma subst_fresh i news d : find_node (Some i) d = None -> subst_node (Some i) news d = d.
Proof.
  unfold find_node. intros H. pose proof (find_none _ _ H) as Hn. clear H.
  assert (forall x, x ∈ descendants d -> has_id (Some i) x = false) as H
    by (intros x Hx; apply Hn; by apply list_elem_of_In).
  clear Hn. revert H. induction d as [v|v|j svg tg a cs IH] using dom_tree_ind; [done..|]. intros H.
  cbn [subst_node]. f_equal. setoid_rewrite descendants_el in H.
  induction cs as [|c cs IHcs]; [done|]. apply Forall_cons in IH as [Hc IH]. cbn [map concat].
  rewrite IHcs; [|done|intros x (c' & ? & ?); apply H; exists c'; split; [by right|done]].
  rewrite (H c) by (exists c; split; [by left|by left]).
  rewrite Hc; [done|]. intros x Hx. apply H. exists c. split; [by left|by right].
Qed.

Lemma subst_list_fresh i news l : Forall (fresh i) l ->
  concat (map (fun c => if has_id (Some i) c then news c else [subst_node (Some i) news c]) l) = l.
Proof.
  induction 1 as [|c l [Hc Hf] _ IH]; [done|]. cbn [map concat]. rewrite IH, Hc. by rewrite subst_fresh.
Qed.

Lemma find_node_fresh i l : Forall (fresh i) l ->
  List.find (has_id (Some i)) (concat (map (fun c => c :: descendants c) l)) = None.
Proof.
  induction 1 as [|c l [Hc Hf] _ IH]; [done|]. cbn [map concat app List.find]. rewrite Hc.
  rewrite find_app. unfold find_node in Hf. by rewrite Hf.
Qed.
End InPlace.

(** The replacing mutator puts the generated node exactly where the node was, followed by
    a comment with its source if the configuration keeps it and the node was not itself
    generated; its siblings stay as they are. *)
Theorem replace_in_place h c r svg tg ats i nsvg ntg nats ncs l1 l2 a d :
  let node := DEl (Some i) nsvg ntg nats ncs in
  Forall (fresh i) l1 -> Forall (fresh i) l2 -> convertSVG h a = Ok d ->
  mutate_replace h c (Some i, [a]) (mkForest (DEl r svg tg ats (l1 ++ node :: l2)) [])
  = (mkForest (DEl r svg tg ats (l1 ++ d
      :: (if negb (has DATA_FA_I2SVG nats) && truthy (config_get c "keepOriginalSource")
          then [DComment (nodeAsComment h node)] else []) ++ l2)) [node], None).
Proof.
  intros node H1 H2 Hd. unfold mutate_replace. cbn [fst snd].
  rewrite (find_in_page _ (mkForest (DEl r svg tg ats (l1 ++ node :: l2)) []) node).
  2: { unfold find_node. cbn [in_page descendants]. rewrite map_app, concat_app, find_app, find_node_fresh by done.
    cbn. by rewrite Nat.eqb_refl. }
  cbn [convert_all]. rewrite Hd. f_equal. unfold cut, subst_forest. cbn [in_page cut_off map app subst_node]. do 2 f_equal.
  rewrite map_app, concat_app, subst_list_fresh by done. cbn [map concat].
  assert (has_id (Some i) node = true) as -> by (cbn; by rewrite Nat.eqb_refl).
  rewrite subst_list_fresh by done. f_equal. cbn [app]. f_equal. f_equal.
  unfold getAttribute, node. cbn [attrs_of]. unfold has.
  destruct (get DATA_FA_I2SVG nats); [by rewrite bool_decide_eq_false_2|by rewrite bool_decide_eq_true_2].
Qed.

Lemma replace_in_place_witness :
  mutate_replace ex_host _default (Some 1, [el "svg" [("id", VStr "x")] []])
    (mkForest (DEl None false "p" [] ([DText "a"] ++ DEl (Some 1) false "i" [] [] :: [DText "b"])) [])
  = (mkForest (DEl None false "p" [] [DText "a"; DEl None true "svg" [("id", "x")] [];
      DComment "  Font Awesome fontawesome.com "; DText "b"]) [DEl (Some 1) false "i" [] []], None).
Proof.
  exact (replace_in_place ex_host _default None false "p" [] 1 false "i" [] [] [DText "a"] [DText "b"]
    (el "svg" [("id", VStr "x")] []) _
    ltac:(repeat constructor) ltac:(repeat constructor) eq_refl).
Defined.
