(* ===== verification/FaPseudo.v ===== *)
(** Icons in the [::before] and [::after] boxes of a node: the plugin PseudoElements of
    fontawesome.js (the tables of font families, the reading of a computed style,
    [replaceForPosition], the selectors of the style sheets, [searchPseudoElements]).

    The computed style of a box is an argument; its [content] is a list of UTF-16 code
    units, because the characters of the icon fonts lie beyond Latin-1.  Other strings
    are code units below 256.  [replaceForPosition] waits for [findIcon] after it has
    marked the node: it is two steps, [replaceForPosition] and [insert_icon], between
    which other steps can fall.  How long a search lasts is not measured ([perf]). *)
From stdpp Require Import base strings list relations.
From Stdlib Require Import Lia ZArith Ascii.
From S2P Require Import Prelude GoStrings JsObj FaTables FaMeta FaConfig FaRegistry JsNumber FaHtml FaTransform FaRender FaDom FaReplace.

(** * Font families and weights *)
Definition _FONT_FAMILY_WEIGHT_TO_PREFIX : obj (obj string) := Eval vm_compute in
  spread (spread (spread (spread [] [("FontAwesome", literal [("normal", "fas"); ("400", "fas")])]) Kt) fo) hl.
(** [toLowerCase] on code units below 256. *)
Definition lower_latin1 (a : ascii) : ascii :=
  let n := byte_val a in
  if (65 <=? n) && (n <=? 90) || (192 <=? n) && (n <=? 222) && negb (n =? 215) then chr (n + 32) else a.
Definition toLowerCase (s : string) : string := of_bytes (map lower_latin1 (bytes_of s)).
Definition FONT_FAMILY_WEIGHT_TO_PREFIX : obj (obj string) := Eval vm_compute in
  reduce _FONT_FAMILY_WEIGHT_TO_PREFIX (fun acc weights key => set (toLowerCase key) weights acc) [].
Definition FONT_FAMILY_WEIGHT_FALLBACK : obj string := Eval vm_compute in
  reduce FONT_FAMILY_WEIGHT_TO_PREFIX (fun acc weights fontFamily =>
    match js_or (get "900" weights) (option_map snd (head weights)) with
    | Some p => set fontFamily p acc
    | None => acc
    end) [].

(** [replace(/^['"]|['"]$/g, '')]: one quote at each end. *)
Definition is_quote (a : ascii) : bool := let n := byte_val a in (n =? 39) || (n =? 34).
Definition drop_quote (l : list ascii) : list ascii :=
  match l with a :: l' => if is_quote a then l' else l | [] => [] end.
Definition unquote (s : string) : string :=
  of_bytes (reverse (drop_quote (reverse (drop_quote (bytes_of s))))).

(** [parseInt] without a radix. *)
Definition digit_val (a : ascii) : option Z :=
  let n := Z.of_nat (byte_val a) in
  if ((48 <=? n) && (n <=? 57))%Z then Some (n - 48)%Z
  else if ((97 <=? n) && (n <=? 102))%Z then Some (n - 87)%Z
  else if ((65 <=? n) && (n <=? 70))%Z then Some (n - 55)%Z
  else None.
Fixpoint int_digits (radix : Z) (l : list ascii) (acc : option Z) : option Z :=
  match l with
  | [] => acc
  | a :: l' =>
      match digit_val a with
      | Some d => if (d <? radix)%Z then int_digits radix l' (Some (default 0 acc * radix + d)%Z) else acc
      | None => acc
      end
  end.
Definition parseInt (s : string) : option Z :=
  let l := js_trim_left (bytes_of s) in
  let '(neg, l) :=
    match l with
    | a :: l' => if byte_val a =? 45 then (true, l') else if byte_val a =? 43 then (false, l') else (false, l)
    | [] => (false, [])
    end in
  let n :=
    match l with
    | z :: x :: l' =>
        if (byte_val z =? 48) && ((byte_val x =? 120) || (byte_val x =? 88)) then int_digits 16 l' None
        else int_digits 10 l None
    | _ => int_digits 10 l None
    end in
  if neg : bool then option_map Z.opp n else n.

Definition getPrefix (fontFamily fontWeight : string) : option string :=
  let fontFamilySanitized := toLowerCase (unquote fontFamily) in
  let fontWeightSanitized := match parseInt fontWeight with None => "normal" | Some n => print_int n end in
  js_or (get fontWeightSanitized (get_obj fontFamilySanitized FONT_FAMILY_WEIGHT_TO_PREFIX))
    (get fontFamilySanitized FONT_FAMILY_WEIGHT_FALLBACK).

(** [fontFamily.match(FONT_FAMILY_PATTERN)]: the text from the first match on.  All that
    follows [Font ?Awesome] in the pattern is optional. *)
Fixpoint drop_nocase (p l : list ascii) : option (list ascii) :=
  match p, l with
  | [], _ => Some l
  | a :: p', b :: l' => if chr_eqb a (lower_latin1 b) then drop_nocase p' l' else None
  | _ :: _, [] => None
  end.
Definition font_awesome_here (l : list ascii) : bool :=
  match drop_nocase (bytes_of "font") l with
  | None => false
  | Some r =>
      match drop_nocase (bytes_of "awesome") r with
      | Some _ => true
      | None => match r with
                | a :: r' => (byte_val a =? 32) && bool_decide (is_Some (drop_nocase (bytes_of "awesome") r'))
                | [] => false
                end
      end
  end.
Fixpoint match_font_family (l : list ascii) : option (list ascii) :=
  if font_awesome_here l then Some l
  else match l with [] => None | _ :: l' => match_font_family l' end.

(** * The content of a box *)
Definition units : Type := list Z.
Definition units_of (s : string) : units := map (fun a => Z.of_nat (byte_val a)) (bytes_of s).
(** [replace(CLEAN_CONTENT_PATTERN, '')] *)
Definition clean (content : units) : units := List.filter (fun u => negb (u =? 34)%Z) content.
Definition is_lead (u : Z) : bool := ((55296 <=? u) && (u <=? 56319))%Z.
Definition is_trail (u : Z) : bool := ((56320 <=? u) && (u <=? 57343))%Z.
(** [codePointAt(0)], and the first item of [[...s]]. *)
Definition first_code_point (l : units) : option Z :=
  match l with
  | [] => None
  | u :: v :: _ => if is_lead u && is_trail v then Some (65536 + 1024 * (u - 55296) + (v - 56320))%Z else Some u
  | [u] => Some u
  end.
Definition hexValueFromContent (content : units) : option string := option_map print_hex (first_code_point (clean content)).

Definition SECONDARY_UNICODE_RANGE : Z * Z := (1105920, 1112319)%Z.
Record computed := mkComputed {
  font_family : string; font_weight : string; content : units; font_feature_settings : string }.
Definition isSecondaryLayer (styles : computed) : bool :=
  let hasStylisticSet := str_contains "ss01" (font_feature_settings styles) in
  let cleaned := clean (content styles) in
  let isPrependTen :=
    match first_code_point cleaned with
    | Some c => ((fst SECONDARY_UNICODE_RANGE <=? c) && (c <=? snd SECONDARY_UNICODE_RANGE))%Z
    | None => false
    end in
  let isDoubled := match cleaned with [u; v] => (u =? v)%Z | _ => false end in
  isPrependTen || isDoubled || hasStylisticSet.

(** * One box of one node *)
Definition pending_attribute (position : string) : string :=
  DATA_FA_PSEUDO_ELEMENT_PENDING +:+
  match str_drop_prefix ":" position with Some r => "-" +:+ r | None => position end.
Definition is_element (d : dom) : bool := match d with DEl _ _ _ _ _ => true | _ => false end.
Definition made_for (position : string) (d : dom) : bool :=
  is_element d && bool_decide (getAttribute DATA_FA_PSEUDO_ELEMENT d = Some position).
(** [removeChild] of the first child that was made for the position. *)
Fixpoint remove_made (position : string) (l : list dom) : list dom :=
  match l with
  | [] => []
  | d :: l' => if made_for position d then l' else d :: remove_made position l'
  end.
Definition with_children (f : list dom -> list dom) (d : dom) : dom :=
  match d with DEl i svg t a cs => DEl i svg t a (f cs) | _ => d end.
Definition with_attributes (f : attr_list -> attr_list) (d : dom) : dom :=
  match d with DEl i svg t a cs => DEl i svg t (f a) cs | _ => d end.

(** What is handed to the continuation of [findIcon]. *)
Record pseudo_icon := mkPseudoIcon {
  pi_iconName : option string; pi_prefix : option string; pi_identifier : option string }.

(** Up to the call of [findIcon]: the node, and the icon that is on its way. *)
Definition replaceForPosition (s : fa) (styles : computed) (position : string) (node : dom)
  : dom * option pseudo_icon :=
  match getAttribute (pending_attribute position) node with
  | Some _ => (node, None)
  | None =>
      let already := List.find (made_for position) (child_nodes node) in
      let fontFamilyMatch := match_font_family (bytes_of (font_family styles)) in
      match already, fontFamilyMatch with
      | Some _, None => (with_children (remove_made position) node, None)
      | _, Some matched =>
          if negb (bool_decide (content styles = units_of "none")) && negb (bool_decide (content styles = [])) then
            let prefix := getPrefix (font_family styles) (font_weight styles) in
            let hexValue := default "null" (hexValueFromContent (content styles)) in
            let isV4 := has_prefix "FontAwesome" (of_bytes matched) in
            let iconIdentifier := byUnicode s (okey prefix) hexValue in
            let v4 := byOldUnicode s hexValue in
            let '(iconName, prefix) :=
              if isV4 && otruthy (l_iconName v4) && otruthy (l_prefix v4) then (l_iconName v4, l_prefix v4)
              else (iconIdentifier, prefix) in
            let shown :=
              match already with
              | None => false
              | Some c =>
                  bool_decide (name_or_undefined prefix = match getAttribute DATA_PREFIX c with Some p => VStr p | None => VNull end)
                  && bool_decide (name_or_undefined iconIdentifier = match getAttribute DATA_ICON c with Some p => VStr p | None => VNull end)
              end in
            if otruthy iconName && negb (isSecondaryLayer styles) && negb shown then
              let node := with_attributes (put_attr (pending_attribute position) (to_str (name_or_undefined iconIdentifier))) node in
              (match already with Some _ => with_children (remove_made position) node | None => node end,
               Some (mkPseudoIcon iconName prefix iconIdentifier))
            else (node, None)
          else (node, None)
      | None, None => (node, None)
      end
  end.

(** The parameters of the icon: [blankMeta], and the mark of the position. *)
Definition pseudo_params (s : fa) (h : host) (position : string) (i : pseudo_icon) : svg_params :=
  let main := fst (findIcon s (reduceMotion h) (pi_iconName i) (pi_prefix i)) in
  mkSvgParams main (mkFound false None None no_element) (name_or_undefined (pi_prefix i))
    (name_or_undefined (pi_identifier i)) (m_transform blankMeta) (m_symbol blankMeta) (m_maskId blankMeta)
    (mkExtra [] [] (set DATA_FA_PSEUDO_ELEMENT (VStr position) [])) true.
Definition pseudo_abstract (s : fa) (h : host) (n : nat) (position : string) (i : pseudo_icon) : list abstract * nat :=
  makeInlineSvgAbstract (config s) (draw h) n (pseudo_params s h position i).

(** The continuation of [findIcon]: the new element goes to the front or to the end, and
    is replaced by what the HTML of the icon parses to. *)
Definition insert_icon (s : fa) (h : host) (n : nat) (position : string) (i : pseudo_icon) (node : dom) : dom * nat :=
  let '(abstract, n) := pseudo_abstract s h n position i in
  let element := parse_html h (join nl_str (map toHtml abstract)) in
  let node := with_children (fun cs => if str_eqb position "::before" then element ++ cs else cs ++ element) node in
  (with_attributes (removeAttribute (pending_attribute position)) node, n).

(** * Which nodes have such boxes *)
(** Where a node hangs: [None] without a parent; else whether that is the head of the
    document, and its tag as the DOM tells it. *)
Definition place_of_node : Type := option (bool * string).
Definition toUpperCase_tag (s : string) : string :=
  of_bytes (map (fun a => let n := byte_val a in if (97 <=? n) && (n <=? 122) then chr (n - 32) else a) (bytes_of s)).
Definition processable (parent : place_of_node) (d : dom) : bool :=
  match d with
  | DEl _ _ tag _ _ =>
      negb (match parent with Some (true, _) => true | _ => false end)
      && negb (mem_str (toUpperCase_tag tag) TAGNAMES_TO_SKIP_FOR_PSEUDOELEMENTS)
      && negb (otruthy (getAttribute DATA_FA_PSEUDO_ELEMENT d))
      && match parent with None => true | Some (_, t) => negb (str_eqb t "svg") end
  | _ => false
  end.

Definition hasPseudoElement (selector : string) : bool :=
  negb (str_empty selector) && existsb (fun p => str_contains p selector) PSEUDO_ELEMENTS.

(** The separators of [split(/,(?![^()]*\))/)]: a comma after which no closing bracket
    comes before an opening one. *)
Fixpoint closes_first (l : list ascii) : bool :=
  match l with
  | [] => false
  | a :: l' => if byte_val a =? 41 then true else if byte_val a =? 40 then false else closes_first l'
  end.
Fixpoint split_selectors (cur l : list ascii) : list string :=
  match l with
  | [] => [of_bytes (rev cur)]
  | a :: l' =>
      if (byte_val a =? 44) && negb (closes_first l') then of_bytes (rev cur) :: split_selectors [] l'
      else split_selectors (a :: cur) l'
  end.
(** [String.prototype.replace] of a string: the first occurrence. *)
Fixpoint replace_first (p : string) (s : string) : string :=
  match str_drop_prefix p s with
  | Some r => r
  | None => match s with EmptyString => EmptyString | String a s' => String a (replace_first p s') end
  end.
Definition add_selector (set : list string) (selector : string) : list string :=
  if hasPseudoElement selector then
    let selectorWithoutPseudo := fold_left (fun acc p => replace_first p acc) PSEUDO_ELEMENTS selector in
    if str_empty selectorWithoutPseudo || str_eqb selectorWithoutPseudo "*" || mem_str selectorWithoutPseudo set
    then set else set ++ [selectorWithoutPseudo]
  else set.
(** A [Set], in the order of insertion. *)
Definition parseCSSRuleForPseudos (selectorText : string) : list string :=
  if str_empty selectorText then []
  else
    let selectors := map js_trim (split_selectors [] (bytes_of selectorText)) in
    let selectors := flat_map (fun selector =>
      if str_contains "(" selector then [selector] else map js_trim (split_on ","%char selector)) selectors in
    fold_left add_selector selectors [].

(** A style sheet: the selectors of its rules ([None] for a rule without one), or
    [None] when its rules cannot be read. *)
Definition stylesheet : Type := option (list (option string)).
Definition add_rule (set : list string) (rule : option string) : list string :=
  fold_left (fun set x => if mem_str x set then set else set ++ [x])
    (parseCSSRuleForPseudos (default "" rule)) set.
Definition selectors_of (sheets : list stylesheet) : list string :=
  fold_left (fun set sheet => match sheet with Some rules => fold_left add_rule rules set | None => set end) sheets [].
Definition unreadable (c : obj jsval) (sheets : list stylesheet) : nat :=
  if truthy (config_get c "searchPseudoElementsWarnings")
  then length (List.filter (fun s => match s with None => true | Some _ => false end) sheets) else 0.

(** The nodes of a search, with their parents.  [query] is [root.querySelectorAll],
    [None] where it throws; the result [None] is the early return. *)
Definition search_nodes {N : Type} (c : obj jsval) (given : option (list N)) (query : string -> option (list N))
    (sheets : list stylesheet) : option (list N) :=
  match given with
  | Some nodes => Some nodes
  | None =>
      if truthy (config_get c "searchPseudoElementsFullScan") then Some (default [] (query "*"))
      else
        match selectors_of sheets with
        | [] => None
        | sel => Some (default [] (query (join ", " sel)))
        end
  end.
Definition searched (nodes : list (place_of_node * dom)) : list (place_of_node * dom) :=
  List.filter (fun pd => processable (fst pd) (snd pd)) nodes.

(** * Families and prefixes *)
Definition known_prefixes : list string := Eval vm_compute in flat_map (fun kv => keys (snd kv)) _PREFIX_TO_STYLE.
Definition prefixes_known : bool :=
  forallb (fun kv => forallb (fun wp => mem_str (snd wp) known_prefixes && negb (str_empty (snd wp))) (snd kv)
                     && has (fst kv) FONT_FAMILY_WEIGHT_FALLBACK) FONT_FAMILY_WEIGHT_TO_PREFIX
  && forallb (fun fp => mem_str (snd fp) known_prefixes && has (fst fp) FONT_FAMILY_WEIGHT_TO_PREFIX)
       FONT_FAMILY_WEIGHT_FALLBACK.
Lemma prefixes_known_true : prefixes_known = true.
Proof. vm_compute. reflexivity. Qed.

(** Whatever the computed font family and weight are, [getPrefix] gives either nothing or a prefix the toolkit has a style for; it gives one exactly for the families of the table, in any case of letters and with or without quotes, and for every weight. *)
Theorem getPrefix_known fontFamily fontWeight :
  (forall p, getPrefix fontFamily fontWeight = Some p -> p ∈ known_prefixes)
  /\ (is_Some (getPrefix fontFamily fontWeight)
      <-> toLowerCase (unquote fontFamily) ∈ keys FONT_FAMILY_WEIGHT_TO_PREFIX).
Proof.
  pose proof prefixes_known_true as H. unfold prefixes_known in H.
  apply andb_true_iff in H as [H1 H2]. rewrite forallb_forall in H1, H2.
  unfold getPrefix. cbv zeta.
  set (fam := toLowerCase (unquote fontFamily)).
  set (w := match parseInt fontWeight with None => _ | Some n => _ end).
  assert (forall p, get fam FONT_FAMILY_WEIGHT_FALLBACK = Some p ->
    p ∈ known_prefixes /\ fam ∈ keys FONT_FAMILY_WEIGHT_TO_PREFIX) as Hf.
  { intros p [Hp Hh]%get_Some_elem%list_elem_of_In%H2%andb_true_iff. cbn [fst snd] in *.
    split; [by apply mem_str_elem|by apply has_keys]. }
  assert (forall p, get w (get_obj fam FONT_FAMILY_WEIGHT_TO_PREFIX) = Some p ->
    p ∈ known_prefixes /\ p <> "" /\ fam ∈ keys FONT_FAMILY_WEIGHT_TO_PREFIX) as Hw.
  { intros p Hp. unfold get_obj in Hp. destruct (get fam FONT_FAMILY_WEIGHT_TO_PREFIX) as [ws|] eqn:E; [|done].
    cbn [default] in Hp. assert (fam ∈ keys FONT_FAMILY_WEIGHT_TO_PREFIX) by (apply has_keys, has_get; eauto).
    apply get_Some_elem, list_elem_of_In, H1 in E. cbn [fst snd] in E. apply andb_true_iff in E as [E _].
    rewrite forallb_forall in E. apply get_Some_elem, list_elem_of_In, E in Hp. cbn [fst snd] in Hp.
    apply andb_true_iff in Hp as [Hp Hn]. split_and!; [by apply mem_str_elem| |done].
    by apply negb_true_iff, str_eqb_neq in Hn. }
  split.
  - intros p. unfold js_or. destruct (get w _) as [q|] eqn:E; [|by intros [? _]%Hf].
    destruct (str_empty q); [by intros [? _]%Hf|intros [= <-]; by apply Hw].
  - split.
    + intros [p Hp]. revert Hp. unfold js_or. destruct (get w _) as [q|] eqn:E; [|by intros [_ ?]%Hf].
      destruct (str_empty q); [by intros [_ ?]%Hf|intros _; by apply (Hw q)].
    + intros Hk. apply has_keys, has_get in Hk as [ws Hws].
      apply get_Some_elem, list_elem_of_In, H1 in Hws. cbn [fst snd] in Hws.
      apply andb_true_iff in Hws as [_ Hh]. apply has_get in Hh as [p Hp]. unfold js_or.
      destruct (get w _) as [q|]; [|by rewrite Hp]. destruct (str_empty q); [by rewrite Hp|done].
Qed.

(** * Examples *)
Example getPrefix_free : getPrefix (QUOTE +:+ "Font Awesome 7 Free" +:+ QUOTE) "900" = Some "fas".
Proof. vm_compute. reflexivity. Qed.
Example getPrefix_fallback : getPrefix "'FONT AWESOME 7 BRANDS'" "900" = Some "fab".
Proof. vm_compute. reflexivity. Qed.
Example selectors_ex : parseCSSRuleForPseudos ".a::before, .b:is(.c, .d):after , p, ul > ::before,*::after" =
  [".a"; ".b:is(.c, .d)"; "ul > "].
Proof. vm_compute. reflexivity. Qed.
Example pending_ex : pending_attribute "::before" = "data-fa-pseudo-element-pending-:before".
Proof. reflexivity. Qed.

(** * The children that were made for a box *)
Definition made_count (position : string) (l : list dom) : nat := length (List.filter (made_for position) l).
Lemma made_count_app p l1 l2 : made_count p (l1 ++ l2) = made_count p l1 + made_count p l2.
Proof. unfold made_count. by rewrite List.filter_app, length_app. Qed.
Lemma made_count_cons p d l : made_count p (d :: l) = (if made_for p d then 1 else 0) + made_count p l.
Proof. unfold made_count. cbn. by destruct (made_for p d). Qed.
Lemma made_for_one p q d : made_for p d = true -> made_for q d = true -> p = q.
Proof.
  unfold made_for. intros [_ H1%bool_decide_eq_true]%andb_true_iff [_ H2%bool_decide_eq_true]%andb_true_iff.
  congruence.
Qed.
Lemma remove_made_count p l : made_count p (remove_made p l) = made_count p l - 1.
Proof.
  induction l as [|d l IH]; cbn [remove_made]; [done|]. destruct (made_for p d) eqn:E.
  - rewrite made_count_cons, E. lia.
  - by rewrite !made_count_cons, E.
Qed.
Lemma remove_made_other p q l : p <> q -> made_count q (remove_made p l) = made_count q l.
Proof.
  intros Hpq. induction l as [|d l IH]; cbn [remove_made]; [done|]. rewrite made_count_cons.
  destruct (made_for p d) eqn:E.
  - destruct (made_for q d) eqn:Eq; [|done]. exfalso. by eapply Hpq, made_for_one.
  - by rewrite made_count_cons, IH.
Qed.
Lemma made_count_zero p l : made_count p l = 0 <-> List.find (made_for p) l = None.
Proof.
  induction l as [|d l IH]; [done|]. rewrite made_count_cons. cbn. destruct (made_for p d); [|done].
  by split; [lia|].
Qed.
Lemma remove_made_none p l : made_count p l = 0 -> remove_made p l = l.
Proof.
  induction l as [|d l IH]; [done|]. rewrite made_count_cons. cbn [remove_made].
  destruct (made_for p d); [lia|]. intros H. by rewrite IH.
Qed.

Lemma get_removeAttribute k k' l :
  get k' (removeAttribute k l) = if str_eqb k k' then None else get k' l.
Proof.
  unfold removeAttribute, FaReplace.delete. induction l as [|[k1 v1] l IH]; cbn; [by destruct (str_eqb k k')|].
  destruct (str_eqb_spec k1 k) as [->|Hk]; cbn.
  - rewrite IH. by destruct (str_eqb_spec k k').
  - destruct (str_eqb_spec k1 k') as [->|Hk1]; [|done].
    by rewrite (proj2 (str_eqb_neq k k')) by congruence.
Qed.

(** What the first step does to a node. *)
Lemma replaceForPosition_cases s styles p i svg t a cs :
  (exists cs', replaceForPosition s styles p (DEl i svg t a cs) = (DEl i svg t a cs', None)
     /\ (cs' = cs \/ cs' = remove_made p cs))
  \/ exists v icon, get (pending_attribute p) a = None
     /\ replaceForPosition s styles p (DEl i svg t a cs)
        = (DEl i svg t (put_attr (pending_attribute p) v a) (remove_made p cs), Some icon).
Proof.
  unfold replaceForPosition, getAttribute. cbn [attrs_of child_nodes with_children with_attributes].
  destruct (get (pending_attribute p) a) as [w|] eqn:Ep; [left; by eauto|].
  destruct (match_font_family _) as [m|].
  2: { left. destruct (List.find (made_for p) cs); by eauto. }
  destruct (List.find (made_for p) cs) as [c|] eqn:Ef.
  - destruct (_ && _); [|left; by eauto]. cbv zeta. destruct (if _ && _ && _ then _ else _) as [n q].
    destruct (_ && _ && _); [right; by eauto 10|left; by eauto].
  - destruct (_ && _); [|left; by eauto]. cbv zeta. destruct (if _ && _ && _ then _ else _) as [n q].
    destruct (_ && _ && _); [right|left; by eauto].
    rewrite (remove_made_none p cs) by by apply made_count_zero. by eauto 10.
Qed.

(** * The icon that is inserted *)
(** What the HTML standard says of markup of an SVG.  The parser writes the name of an
    attribute in small letters and then, for these, as SVG has it. *)
Definition SVG_ATTRIBUTES : list string :=
  ["attributeName"; "attributeType"; "baseFrequency"; "baseProfile"; "calcMode"; "clipPathUnits"; "diffuseConstant";
   "edgeMode"; "filterUnits"; "glyphRef"; "gradientTransform"; "gradientUnits"; "kernelMatrix"; "kernelUnitLength";
   "keyPoints"; "keySplines"; "keyTimes"; "lengthAdjust"; "limitingConeAngle"; "markerHeight"; "markerUnits";
   "markerWidth"; "maskContentUnits"; "maskUnits"; "numOctaves"; "pathLength"; "patternContentUnits";
   "patternTransform"; "patternUnits"; "pointsAtX"; "pointsAtY"; "pointsAtZ"; "preserveAlpha"; "preserveAspectRatio";
   "primitiveUnits"; "refX"; "refY"; "repeatCount"; "repeatDur"; "requiredExtensions"; "requiredFeatures";
   "specularConstant"; "specularExponent"; "spreadMethod"; "startOffset"; "stdDeviation"; "stitchTiles";
   "surfaceScale"; "systemLanguage"; "tableValues"; "targetX"; "targetY"; "textLength"; "viewBox"; "viewTarget";
   "xChannelSelector"; "yChannelSelector"; "zoomAndPan"].
(** Start tags that end the SVG, and elements that hold HTML or plain text. *)
Definition NOT_SVG_TAGS : list string :=
  ["b"; "big"; "blockquote"; "body"; "br"; "center"; "code"; "dd"; "div"; "dl"; "dt"; "em"; "embed"; "font"; "h1"; "h2";
   "h3"; "h4"; "h5"; "h6"; "head"; "hr"; "i"; "img"; "li"; "listing"; "menu"; "meta"; "nobr"; "ol"; "p"; "pre"; "ruby";
   "s"; "small"; "span"; "strong"; "strike"; "sub"; "sup"; "table"; "tt"; "u"; "ul"; "var";
   "title"; "desc"; "foreignobject"; "script"; "style"].
(** HTML elements in which the parser does not make an SVG of the tag [svg]; formulas in
    MathML, where the hypothesis below fails as well, are left aside. *)
Definition NO_MARKUP : list string :=
  ["TEXTAREA"; "TITLE"; "STYLE"; "XMP"; "IFRAME"; "NOEMBED"; "NOFRAMES"; "NOSCRIPT"; "SCRIPT"; "PLAINTEXT"; "SELECT";
   "HTML"; "HEAD"; "FRAMESET"; "COLGROUP"; "MATH"].
Definition holds_markup (d : dom) : bool :=
  match d with DEl _ _ tag _ _ => negb (mem_str (toUpperCase_tag tag) NO_MARKUP) | _ => false end.
Definition small_letter (a : ascii) : bool :=
  let n := byte_val a in (97 <=? n) && (n <=? 122) || (48 <=? n) && (n <=? 57) || (n =? 45).
(** A name the parser keeps as it is written. *)
Definition kept_name (k : string) : bool :=
  mem_str k SVG_ATTRIBUTES
  || negb (str_empty k) && forallb small_letter (bytes_of k) && negb (mem_str k (map toLowerCase SVG_ATTRIBUTES)).
Definition svg_tag (t : string) : bool :=
  negb (str_empty t) && forallb small_letter (bytes_of t) && negb (mem_str t NOT_SVG_TAGS).
Fixpoint svg_markup (a : abstract) : bool :=
  match a with
  | AText _ => false
  | AEl t o cs => svg_tag (default "undefined" t) && forallb (fun kv => kept_name (fst kv)) o && forallb svg_markup cs
  end.
(** A text without NUL and carriage return, which the parser replaces. *)
Definition kept_text (s : string) : bool :=
  forallb (fun a => negb (byte_val a =? 0) && negb (byte_val a =? 13)) (bytes_of s).

(** An SVG element written with such names is parsed to one SVG element, with the
    attributes that were written; of two attributes of a name the first is kept. *)
Definition svg_html_law (h : host) : Prop := forall o cs,
  nodes_ok (AEl (Some "svg") o cs) = true -> svg_markup (AEl (Some "svg") o cs) = true ->
  exists a cs', parse_html h (toHtml (AEl (Some "svg") o cs)) = [DEl None true "svg" a cs']
    /\ forall k, match get k o with
                 | None => get k a = None
                 | Some v => kept_text (to_str v) = true -> get k a = Some (to_str v)
                 end.

(** The parser of the page, for markup that takes the place of a child of [node]. *)
Definition parses_svg (h : host) (node : dom) : Prop := holds_markup node = true -> svg_html_law h.

(** The icon of a box is written with such names. *)
Definition kept_names (o : obj jsval) : Prop := forall k, k ∈ keys o -> kept_name k = true.
Lemma kept_names_svg_attributes c sp : kept_names (ex_attributes (sp_extra sp)) -> kept_names (svg_attributes c sp).
Proof.
  intros H. unfold svg_attributes. cbv zeta.
  assert (forall l, kept_names l -> kept_names (spread (spread [] (ex_attributes (sp_extra sp))) l)) as Hs.
  { intros l Hl k. rewrite !keys_spread. intros [[[]%elem_of_nil|Hk]|Hk]; auto. }
  assert (forall k v o, kept_name k = true -> kept_names o -> kept_names (set k v o)) as Ht
    by (intros k v o Hk Ho k' [->|Hk']%elem_of_keys_set; auto).
  assert (forall a b c d e : jsval, kept_names
    [("data-prefix", a); ("data-icon", b); ("class", c); ("role", d); ("viewBox", e)]) as Hl.
  { intros a b c0 d e k. unfold keys. cbn. rewrite !elem_of_cons, elem_of_nil.
    intros [->|[->|[->|[->|[->|[]]]]]]; vm_compute; reflexivity. }
  destruct (sp_watchable sp), (negb _ && negb _); 
    repeat match goal with |- kept_names (set _ _ _) => apply Ht; [vm_compute; reflexivity|] end; apply Hs, Hl.
Qed.
Lemma findIcon_svg s rm n p : svg_markup (fi_icon (fst (findIcon s rm n p))) = true.
Proof.
  unfold findIcon. cbv zeta. destruct (find_style_icon _ _ _) as [i|]; cbn [fst fi_icon].
  - unfold asFoundIcon. cbn [fi_icon]. destruct (svgPathData i); vm_compute; reflexivity.
  - destruct (_ && _); [destruct rm|]; vm_compute; reflexivity.
Qed.
(** [blankMeta] has no transform, no mask, no symbol and no style. *)
Lemma pseudo_abstract_is s h n p i :
  let sp := pseudo_params s h p i in
  pseudo_abstract s h n p i = ([AEl (Some "svg") (svg_attributes (config s) sp) [fi_icon (sp_main sp)]], n).
Proof. reflexivity. Qed.
Lemma pseudo_svg s h p i : let sp := pseudo_params s h p i in
  svg_markup (AEl (Some "svg") (svg_attributes (config s) sp) [fi_icon (sp_main sp)]) = true.
Proof.
  cbv zeta. set (sp := pseudo_params s h p i). cbn [svg_markup forallb default].
  rewrite (findIcon_svg s (reduceMotion h) (pi_iconName i) (pi_prefix i) : svg_markup (fi_icon (sp_main sp)) = true).
  change (svg_tag "svg") with true. cbn [andb]. rewrite andb_true_r. apply forallb_forall. intros [k v] Hk.
  apply (kept_names_svg_attributes (config s) sp).
  - intros k'. change (keys (ex_attributes (sp_extra sp))) with [DATA_FA_PSEUDO_ELEMENT]. rewrite list_elem_of_singleton.
    intros ->. vm_compute. reflexivity.
  - unfold keys. apply list_elem_of_fmap. exists (k, v). split; [done|by apply list_elem_of_In].
Qed.

Lemma findIcon_ok s rm n p : nodes_ok (fi_icon (fst (findIcon s rm n p))) = true.
Proof.
  unfold findIcon. cbv zeta. destruct (find_style_icon _ _ _); cbn [fst fi_icon].
  - apply asFoundIcon_ok.
  - destruct (_ && _); [apply missingIconAbstract_ok|done].
Qed.

Lemma insert_icon_adds s h n p icon i svg t a cs : let node := DEl i svg t a cs in
  p ∈ ["::before"; "::after"] -> svg_html_law h ->
  exists d, insert_icon s h n p icon node
    = (DEl i svg t (removeAttribute (pending_attribute p) a)
         (if str_eqb p "::before" then [d] ++ cs else cs ++ [d]), snd (pseudo_abstract s h n p icon))
    /\ made_for p d = true
    /\ (forall q, pi_prefix icon = Some q -> kept_text q = true -> getAttribute DATA_PREFIX d = Some q)
    /\ (forall q, pi_identifier icon = Some q -> kept_text q = true -> getAttribute DATA_ICON d = Some q).
Proof.
  intros node Hpos Hlaw. unfold insert_icon. rewrite pseudo_abstract_is. cbn [snd].
  pose proof (pseudo_svg s h p icon) as Hsvg. cbv zeta in Hsvg. set (sp := pseudo_params s h p icon) in *.
  assert (nodes_ok (AEl (Some "svg") (svg_attributes (config s) sp) [fi_icon (sp_main sp)]) = true) as Hok.
  { assert (ok_nodes (fst (makeInlineSvgAbstract (config s) (draw h) n sp))) as H.
    { apply makeInlineSvgAbstract_ok; [apply findIcon_ok|done|]. by_decide. }
    change (fst (makeInlineSvgAbstract (config s) (draw h) n sp)) with (fst (pseudo_abstract s h n p icon)) in H.
    rewrite pseudo_abstract_is in H. cbn [fst] in H. by rewrite Forall_singleton in H. }
  cbn [map join]. destruct (Hlaw _ _ Hok Hsvg) as (a' & cs' & -> & Ha).
  destruct (svg_attributes_written (config s) sp) as (W1 & W2 & _ & _).
  exists (DEl None true "svg" a' cs'). split; [by destruct (str_eqb p "::before")|].
  unfold made_for, getAttribute. cbn [is_element attrs_of andb]. split_and!.
  - pose proof (Ha DATA_FA_PSEUDO_ELEMENT) as H. rewrite svg_attributes_get in H by by_decide. cbn in H.
    apply bool_decide_eq_true, H. rewrite !elem_of_cons, elem_of_nil in Hpos.
    destruct Hpos as [->|[->|[]]]; vm_compute; reflexivity.
  - intros q Hq Hk. pose proof (Ha DATA_PREFIX) as H. unfold DATA_PREFIX in H |- *. rewrite W1 in H.
    cbn [sp pseudo_params sp_prefix] in H. rewrite Hq in H. by apply H.
  - intros q Hq Hk. pose proof (Ha DATA_ICON) as H. unfold DATA_ICON in H |- *. rewrite W2 in H.
    cbn [sp pseudo_params sp_iconName] in H. rewrite Hq in H. by apply H.
Qed.

(** * Searches that overlap *)
(** A node, and the icons for its boxes that wait for [findIcon]. *)
Record box_state := mkBox { bx_node : dom; bx_jobs : list (string * pseudo_icon) }.
Definition positions : list string := ["::before"; "::after"].
Definition jobs_for (p : string) (jobs : list (string * pseudo_icon)) : nat :=
  length (List.filter (fun j => str_eqb (fst j) p) jobs).
(** Another search may reach the node, with other styles and another state of the
    toolkit, before an icon is inserted; icons are inserted in any order. *)
Inductive box_step (h : host) : box_state -> box_state -> Prop :=
  | box_begin s styles p node jobs node' o : p ∈ positions ->
      replaceForPosition s styles p node = (node', o) ->
      box_step h (mkBox node jobs) (mkBox node' (jobs ++ match o with Some i => [(p, i)] | None => [] end))
  | box_insert s n p i l1 l2 node :
      box_step h (mkBox node (l1 ++ (p, i) :: l2)) (mkBox (fst (insert_icon s h n p i node)) (l1 ++ l2)).

Definition box_ok (p : string) (b : box_state) : Prop :=
  jobs_for p (bx_jobs b) + made_count p (child_nodes (bx_node b)) <= 1
  /\ (jobs_for p (bx_jobs b) = 0 <-> getAttribute (pending_attribute p) (bx_node b) = None).
Definition boxes_ok (b : box_state) : Prop :=
  is_element (bx_node b) = true /\ (forall p, p ∈ positions -> box_ok p b)
  /\ Forall (fun j => fst j ∈ positions) (bx_jobs b).

Lemma jobs_for_app p l1 l2 : jobs_for p (l1 ++ l2) = jobs_for p l1 + jobs_for p l2.
Proof. unfold jobs_for. by rewrite List.filter_app, length_app. Qed.
Lemma jobs_for_cons p q i l : jobs_for p ((q, i) :: l) = (if str_eqb q p then 1 else 0) + jobs_for p l.
Proof. unfold jobs_for. cbn. by destruct (str_eqb q p). Qed.
Lemma pending_inj p q : p ∈ positions -> q ∈ positions ->
  str_eqb (pending_attribute p) (pending_attribute q) = str_eqb p q.
Proof.
  unfold positions. rewrite !elem_of_cons, !elem_of_nil.
  intros [->|[->|[]]] [->|[->|[]]]; by vm_compute.
Qed.

Lemma boxes_ok_step h b b' : svg_html_law h -> box_step h b b' -> boxes_ok b -> boxes_ok b'.
Proof.
  intros Hh Hs (He & Hb & Hj). destruct Hs as [s styles p node jobs node' o Hp Hr|s n p i l1 l2 node];
    cbn [bx_node bx_jobs] in *; destruct node as [|? |id svg t a cs]; try discriminate He.
  - destruct (replaceForPosition_cases s styles p id svg t a cs) as [(cs' & E & Hcs)|(v & icon & Hn & E)];
      rewrite E in Hr; injection Hr as <- <-.
    + rewrite app_nil_r. split; [done|]. split; [|done]. intros q Hq. destruct (Hb q Hq) as [H1 H2].
      split; [|exact H2]. cbn [bx_jobs bx_node child_nodes] in *. destruct Hcs as [-> | ->]; [done|].
      destruct (decide (p = q)) as [->|Hne]; [rewrite remove_made_count; lia|].
      by rewrite remove_made_other.
    + split; [done|]. split.
      * intros q Hq. destruct (Hb q Hq) as [H1 H2]. unfold box_ok in *. unfold getAttribute in *.
        cbn [bx_jobs bx_node child_nodes attrs_of] in *.
        rewrite jobs_for_app, jobs_for_cons, get_put_attr, pending_inj by done.
        change (jobs_for q []) with 0. destruct (str_eqb_spec p q) as [->|Hne].
        -- assert (jobs_for q jobs = 0) as -> by (by apply H2). rewrite remove_made_count.
           split; [lia|]. by split.
        -- rewrite remove_made_other by done. split; [lia|]. rewrite <- H2. lia.
      * apply Forall_app. split; [done|]. by constructor.
  - apply Forall_app in Hj as [Hj1 Hj2]. apply Forall_cons in Hj2 as [Hp Hj2]. cbn [fst] in Hp.
    destruct (insert_icon_adds s h n p i id svg t a cs Hp Hh) as (d & -> & Hd & _). cbn [fst].
    split; [done|]. split; [|by apply Forall_app].
    intros q Hq. destruct (Hb q Hq) as [H1 H2]. unfold box_ok in *. unfold getAttribute in *.
    cbn [bx_jobs bx_node child_nodes attrs_of] in *. rewrite jobs_for_app, jobs_for_cons in H1, H2.
    rewrite jobs_for_app, get_removeAttribute, pending_inj by done.
    assert (made_count q (if str_eqb p "::before" then [d] ++ cs else cs ++ [d])
            = (if str_eqb p q then 1 else 0) + made_count q cs) as ->.
    { assert (made_count q [d] = if str_eqb p q then 1 else 0) as Ed.
      { rewrite made_count_cons. change (made_count q []) with 0. destruct (str_eqb_spec p q) as [->|Hne]; [by rewrite Hd|].
        destruct (made_for q d) eqn:Eq; [|done]. exfalso. by eapply Hne, made_for_one. }
      destruct (str_eqb p "::before"); rewrite made_count_app, Ed; lia. }
    destruct (str_eqb p q); [|split; [lia|]; rewrite <- H2; lia].
    split; [lia|]. split; [done|]. intros _. lia.
Qed.

(** C14: however many searches reach a node while icons for it are being fetched, and in whatever order the icons arrive, there is never more than one icon for a box, never more than one on its way, and the mark that keeps the others out goes when the icon arrives; this is for a node the HTML parser makes elements in (no text area, for example), and takes of the parser what the HTML standard says of an SVG element written with names it keeps, which those of the icons are. *)
Theorem one_icon_per_box h node b :
  parses_svg h node -> holds_markup node = true ->
  (forall p, p ∈ positions ->
     made_count p (child_nodes node) <= 1 /\ getAttribute (pending_attribute p) node = None) ->
  rtc (box_step h) (mkBox node []) b ->
  forall p, p ∈ positions ->
    jobs_for p (bx_jobs b) + made_count p (child_nodes (bx_node b)) <= 1
    /\ (jobs_for p (bx_jobs b) = 0 <-> getAttribute (pending_attribute p) (bx_node b) = None).
Proof.
  intros Hlaw He Hn Hs. specialize (Hlaw He). assert (boxes_ok (mkBox node [])) as H0.
  { split; [by destruct node|]. split; [|by constructor]. intros p Hp. destruct (Hn p Hp) as [H1 H2]. by split. }
  revert H0. remember (mkBox node []) as b0 eqn:E0. clear E0.
  induction Hs as [b|b b1 b2 Hb _ IH]; intros H0; [by apply H0|].
  by apply IH, (boxes_ok_step h b b1 Hlaw Hb).
Qed.

(** * A search that finds its own icon *)
Lemma shown_is_kept s styles p node node1 icon q name id svg t a cs c :
  replaceForPosition s styles p node = (node1, Some icon) ->
  pi_prefix icon = Some q -> pi_identifier icon = Some name ->
  get (pending_attribute p) a = None -> List.find (made_for p) cs = Some c ->
  getAttribute DATA_PREFIX c = Some q -> getAttribute DATA_ICON c = Some name ->
  replaceForPosition s styles p (DEl id svg t a cs) = (DEl id svg t a cs, None).
Proof.
  intros H Hq Hi Ha Hc Hcp Hci. unfold replaceForPosition in H |- *. unfold getAttribute at 1.
  cbn [attrs_of child_nodes]. rewrite Ha, Hc.
  destruct (getAttribute (pending_attribute p) node); [done|].
  destruct (match_font_family _) as [m|]; [|by destruct (List.find (made_for p) (child_nodes node))].
  assert (forall A B : Type, forall (o : option A) (x : B), match o with Some _ => x | None => x end = x) as Hm
    by (by intros A B []).
  rewrite Hm in H. destruct (negb _ && _); [|done]. cbv zeta in H |- *.
  destruct (if _ && _ && _ then _ else _) as [n pr]. destruct (_ && _ && _); [|done].
  injection H as _ <-. cbn [pi_prefix pi_identifier] in *. subst pr. rewrite Hi, Hcp, Hci. cbn [name_or_undefined].
  rewrite !bool_decide_eq_true_2 by done. cbn [andb negb]. by rewrite andb_false_r.
Qed.

(** C33: once the icon of a box has arrived, a further search with the same computed style leaves the node alone, when the character has a name in the style the font stands for (a Font Awesome 4 character without one is drawn again by every search) and neither the style nor the name has a NUL or a carriage return in it, which the HTML parser would replace; of the parser it takes what [one_icon_per_box] does. *)
Theorem second_search_idle s h n styles p id svg t a cs node1 icon q name :
  parses_svg h (DEl id svg t a cs) -> holds_markup (DEl id svg t a cs) = true ->
  p ∈ positions -> made_count p cs <= 1 ->
  replaceForPosition s styles p (DEl id svg t a cs) = (node1, Some icon) ->
  pi_prefix icon = Some q -> pi_identifier icon = Some name -> kept_text q = true -> kept_text name = true ->
  let node2 := fst (insert_icon s h n p icon node1) in
  replaceForPosition s styles p node2 = (node2, None).
Proof.
  intros Hh Hm Hpos Hc Hr Hq Hi Tq Tn. cbv zeta. specialize (Hh Hm).
  destruct (replaceForPosition_cases s styles p id svg t a cs) as [(cs' & E & _)|(v & i & Hn & E)];
    rewrite E in Hr; [done|]. injection Hr as <- <-.
  destruct (insert_icon_adds s h n p i id svg t (put_attr (pending_attribute p) v a) (remove_made p cs) Hpos Hh)
    as (d & -> & Hd & Hp & Hn2). cbn [fst].
  specialize (Hp q Hq Tq). specialize (Hn2 name Hi Tn).
  eapply (shown_is_kept s styles p (DEl id svg t a cs)); [exact E|exact Hq|exact Hi| | |exact Hp|exact Hn2].
  - by rewrite get_removeAttribute, str_eqb_refl.
  - assert (List.find (made_for p) (remove_made p cs) = None) as Hf.
    { apply made_count_zero. rewrite remove_made_count. lia. }
    destruct (str_eqb p "::before"); [cbn; by rewrite Hd|].
    revert Hf. generalize (remove_made p cs) as l. induction l as [|x l IH]; cbn; [by rewrite Hd|].
    destruct (made_for p x); [done|]. exact IH.
Qed.

(** ** Concrete runs *)
Definition reading_host : host :=
  mkHost false true true (fun _ => None) (fun _ => "") (fun _ => "")
    (fun html => match read_html html with Some (HEl _ a _ :: _) => [DEl None true "svg" a []] | _ => [] end)
    (fun _ => true) (fun _ => (num_of 1, num_of 1)) (fun n => n mod 62).
Lemma reading_host_law : svg_html_law reading_host.
Proof.
  intros o cs H _. exists (attr_pairs o), []. cbn [parse_html reading_host]. rewrite toHtml_read by done. cbn.
  split; [done|]. intros k. rewrite get_attr_pairs. by destruct (get k o).
Qed.

Definition ex_box_styles : computed :=
  mkComputed (QUOTE +:+ "Font Awesome 7 Free" +:+ QUOTE) "900" [34; 61461; 34]%Z "normal".
Definition ex_box_node : dom := DEl (Some 1) false "A" [("class", "home")] [DText "home"].
Definition ex_pending : dom :=
  DEl (Some 1) false "A" [("class", "home"); ("data-fa-pseudo-element-pending-:before", "house")] [DText "home"].
Definition ex_icon : pseudo_icon := mkPseudoIcon (Some "house") (Some "fas") (Some "house").

Lemma one_icon_per_box_witness :
  exists b, rtc (box_step reading_host) (mkBox ex_box_node []) b
    /\ made_count "::before" (child_nodes (bx_node b)) = 1 /\ bx_jobs b = []
    /\ forall p, p ∈ positions ->
       jobs_for p (bx_jobs b) + made_count p (child_nodes (bx_node b)) <= 1
       /\ (jobs_for p (bx_jobs b) = 0 <-> getAttribute (pending_attribute p) (bx_node b) = None).
Proof.
  pose (b := mkBox (fst (insert_icon ex_fa reading_host 0 "::before" ex_icon ex_pending)) []).
  assert (rtc (box_step reading_host) (mkBox ex_box_node []) b) as Hs.
  { eapply rtc_l.
    { apply (box_begin _ ex_fa ex_box_styles "::before" ex_box_node [] ex_pending (Some ex_icon));
        [by_decide|vm_compute; reflexivity]. }
    eapply rtc_l.
    { apply (box_begin _ ex_fa ex_box_styles "::before" ex_pending [("::before", ex_icon)] ex_pending None);
        [by_decide|vm_compute; reflexivity]. }
    eapply rtc_l; [|apply rtc_refl].
    apply (box_insert reading_host ex_fa 0 "::before" ex_icon [] [] ex_pending). }
  exists b. split; [exact Hs|]. split; [vm_compute; reflexivity|]. split; [reflexivity|].
  apply (one_icon_per_box reading_host ex_box_node b (fun _ => reading_host_law) eq_refl); [|exact Hs].
  intros p Hp. unfold positions in Hp. rewrite !elem_of_cons, elem_of_nil in Hp.
  destruct Hp as [->|[->|[]]]; split; vm_compute; first [reflexivity | repeat constructor].
Defined.

Lemma second_search_idle_witness :
  replaceForPosition ex_fa ex_box_styles "::before" ex_box_node = (ex_pending, Some ex_icon)
  /\ let node2 := fst (insert_icon ex_fa reading_host 0 "::before" ex_icon ex_pending) in
     replaceForPosition ex_fa ex_box_styles "::before" node2 = (node2, None).
Proof.
  assert (replaceForPosition ex_fa ex_box_styles "::before" ex_box_node = (ex_pending, Some ex_icon)) as E
    by (vm_compute; reflexivity).
  split; [exact E|].
  exact (second_search_idle ex_fa reading_host 0 ex_box_styles "::before" (Some 1) false "A" [("class", "home")]
    [DText "home"] ex_pending ex_icon "fas" "house" (fun _ => reading_host_law) eq_refl ltac:(by_decide) (Nat.le_0_l 1)
    E eq_refl eq_refl eq_refl eq_refl).
Defined.

(** ** Where a search goes astray *)
(** A selector that ends in a combinator is left of [ul > ::before]; [querySelectorAll]
    refuses the whole list for it, and the search visits nothing. *)
Lemma combinator_stops_search {N : Type} c (query : string -> option (list N)) :
  truthy (config_get c "searchPseudoElementsFullScan") = false ->
  query "ul > , .icon" = None ->
  search_nodes c None query [Some [Some "ul > ::before"; Some ".icon::before"]] = Some [].
Proof.
  intros Hc Hq. unfold search_nodes. rewrite Hc.
  change (selectors_of [Some [Some "ul > ::before"; Some ".icon::before"]]) with ["ul > "; ".icon"].
  cbn [join]. change ("ul > " +:+ ", " +:+ ".icon") with "ul > , .icon". by rewrite Hq.
Qed.

(** Without a name of the character in the style of the font, a Font Awesome 4 icon is
    drawn again by every search: what is written on it is never what is compared. *)
Lemma unnamed_v4_redrawn s styles p node node1 icon :
  replaceForPosition s styles p node = (node1, Some icon) -> pi_identifier icon = None ->
  forall id svg t a cs, get (pending_attribute p) a = None ->
  snd (replaceForPosition s styles p (DEl id svg t a cs)) = Some icon.
Proof.
  intros H Hi id svg t a cs Ha. unfold replaceForPosition in H |- *. unfold getAttribute at 1.
  cbn [attrs_of child_nodes]. rewrite Ha. destruct (getAttribute (pending_attribute p) node); [done|].
  destruct (match_font_family _) as [m|]; [|by destruct (List.find (made_for p) (child_nodes node))].
  assert (forall A B : Type, forall (o : option A) (x : B), match o with Some _ => x | None => x end = x) as Hm
    by (by intros A B []).
  rewrite Hm in H |- *. destruct (negb _ && negb _); [|done]. cbv zeta in H |- *.
  destruct (if _ && _ && _ then _ else _) as [n pr].
  destruct (_ && _ && _) eqn:E in H; [|done]. injection H as _ <-. cbn [pi_identifier] in Hi.
  apply andb_true_iff in E as [-> _]. rewrite Hi. cbn [name_or_undefined andb].
  destruct (List.find (made_for p) cs) as [c|]; [|done].
  rewrite (bool_decide_eq_false_2 (VUndefined = _)) by by destruct (getAttribute DATA_ICON c).
  by rewrite andb_false_r.
Qed.
