(* ===== verification/FaObserver.v ===== *)
(** Watching the page: what the mutation observer of [fontawesome.js] does with a record,
    and when it listens at all: [observe], [disconnect], [disableObservation],
    [enableObservation] and the [bootstrap], [watch], [unwatch] and [noAuto] that drive
    them, as a state machine. *)
From stdpp Require Import base strings list relations.
From Stdlib Require Import Lia ZArith Ascii.
From S2P Require Import Prelude GoStrings JsObj FaTables FaMeta FaConfig FaRegistry JsNumber FaHtml FaTransform FaRender FaDom FaReplace.

(** * Records *)
Definition isWatched (d : dom) : bool := has DATA_FA_I2SVG (attrs_of d).
Definition hasPrefixAndIcon (d : dom) : bool :=
  otruthy (getAttribute DATA_PREFIX d) && otruthy (getAttribute DATA_ICON d).
Definition hasBeenReplaced (c : obj jsval) (d : dom) : bool :=
  mem_str (to_str (config_get c "replacementClass")) (classList d).

Inductive mutation_record : Type :=
  | ChildList (addedNodes : list dom)
  | Attributes (attributeName : string)
  | CharacterData.

(** What is done with the target of a record. *)
Inductive action : Type :=
  | PseudoElementsTree
  | TreeCallback
  | PseudoElementsNode
  | SetIcon (prefix : string) (iconName : option string)
  | NodeCallback.

Definition handle_record (h : host) (s : fa) (target : dom) (hasParent : bool) (r : mutation_record)
  : result (list action) :=
  let pseudo := truthy (config_get (config s) "searchPseudoElements") in
  match r with
  | ChildList (d :: _) =>
      Ok (if isWatched d then [] else (if pseudo then [PseudoElementsTree] else []) ++ [TreeCallback])
  | Attributes attributeName =>
      let first := if hasParent && pseudo then [PseudoElementsNode] else [] in
      if isWatched target && mem_str attributeName ATTRIBUTES_WATCHED_FOR_MUTATION then
        if str_eqb attributeName "class" && hasPrefixAndIcon target then
          res_map (fun c =>
            first ++ [SetIcon (okey (js_or (c_prefix c) (getDefaultUsablePrefix s)))
                              (if otruthy (c_iconName c) then c_iconName c else None)])
            (getCanonicalIcon s (classArray h target) false)
        else Ok (first ++ (if hasBeenReplaced (config s) target then [NodeCallback] else []))
      else Ok first
  | _ => Ok []
  end.

(** The target after [SetIcon]. *)
Definition set_icon (prefix : string) (iconName : option string) (d : dom) : dom :=
  match d with
  | DEl i svg t a cs =>
      let a := put_attr DATA_PREFIX prefix a in
      DEl i svg t (match iconName with Some n => put_attr DATA_ICON n a | None => a end) cs
  | _ => d
  end.

Section Generated.
Context (h : host) (s : fa).

Lemma generated_marked n d m n' : symbol_of d = VBool false -> generateMutation h s n d = Ok (m, n') ->
  exists t o cs, m = (id_of d, [AEl t o cs]) /\ has DATA_FA_I2SVG o = true.
Proof.
  intros Hs. unfold generateMutation. destruct (parseMeta h s _ d) as [mt|] eqn:E; cbn [res_map]; [|done].
  apply parseMeta_fields in E as [Hsym _]. rewrite Hs in Hsym.
  destruct (mem_str _ _).
  - intros [= <- <-]. unfold generateLayersText. destruct (if is_ie h then _ else _) as [w hh].
    unfold makeLayersTextAbstract. cbv zeta. eexists _, _, _. split; [reflexivity|].
    unfold with_style. destruct (str_empty _); [|apply marked_set]; apply marked_class_set.
  - destruct (generateSvgReplacementMutation h s n mt) as [l n2] eqn:E2. intros [= <- <-].
    unfold generateSvgReplacementMutation in E2. cbv zeta in E2.
    edestruct root_attributes as (o & cs & n3 & E3 & Hg); [|rewrite E3 in E2; injection E2 as <- _].
    { cbn [sp_symbol]. by rewrite Hsym. }
    eexists _, _, _. split; [reflexivity|]. unfold has. rewrite Hg by done.
    match goal with |- context [svg_attributes ?c ?p] => exact (proj2 (marked_svg_attributes c p eq_refl)) end.
Qed.
End Generated.

(** The observer does not chase its own output: the record of a generated icon put in
    the page starts nothing. *)
Theorem own_output_ignored h s n d m n' target hasParent :
  getAttribute "data-fa-symbol" d = None ->
  generateMutation h s n d = Ok (m, n') ->
  forall news, convert_all h (snd m) = (news, None) ->
  handle_record h s target hasParent (ChildList news) = Ok [].
Proof.
  intros Hs Hg news. assert (symbol_of d = VBool false) as Hsym by (unfold symbol_of; by rewrite Hs).
  destruct (generated_marked h s n d m n' Hsym Hg) as (t & o & cs & -> & Ho). cbn [snd convert_all].
  unfold convertSVG. destruct (convert h _ _) as [dn|] eqn:E; [|done]. intros [= <-].
  apply convert_el_ok in E as (attrs & ds & Ha & _ & ->). cbn [handle_record]. unfold isWatched. cbn [attrs_of].
  assert (has DATA_FA_I2SVG attrs = true) as ->; [|done].
  apply has_keys in Ho. apply has_keys. eapply set_attributes_keeps; [exact Ha|]. by right.
Qed.

Definition ex_i : dom := DEl (Some 2) false "i" [("class", "fas fa-house big")] [].
Definition ex_generated : mutation :=
  match generateMutation ex_host ex_fa 0 ex_i with Ok (m, _) => m | Err _ => (None, []) end.
Lemma own_output_ignored_witness :
  handle_record ex_host ex_fa ex_i true (ChildList (fst (convert_all ex_host (snd ex_generated)))) = Ok []
  /\ length (snd ex_generated) = 1.
Proof.
  split; [|vm_compute; reflexivity].
  apply (own_output_ignored ex_host ex_fa 0 ex_i ex_generated 0 ex_i true); vm_compute; reflexivity.
Defined.

(** changing the class of a shown icon: the observer writes the icon that the classes now
    name on the node, and the record of that change makes it generate the node again; so
    the node is read as the icon the classes name. *)
Theorem class_change_regenerates h s i svg t a cs hasParent c n :
  let d := DEl i svg t a cs in
  isWatched d = true -> hasPrefixAndIcon d = true -> hasBeenReplaced (config s) d = true ->
  truthy (config_get (config s) "searchPseudoElements") = false ->
  getCanonicalIcon s (classArray h d) false = Ok c ->
  c_iconName c = Some n -> n <> "" ->
  let p := okey (js_or (c_prefix c) (getDefaultUsablePrefix s)) in
  let d' := set_icon p (Some n) d in
  p <> "" ->
  handle_record h s d hasParent (Attributes "class") = Ok [SetIcon p (Some n)]
  /\ handle_record h s d' hasParent (Attributes DATA_ICON) = Ok [NodeCallback]
  /\ exists rest, classParser h s d' = Ok (mkParsedClass (Some p) (VStr n) rest).
Proof.
  intros d Hw Hpi Hb Hps Hc Hn Hne p d' Hp.
  assert (forall k, k <> DATA_PREFIX -> k <> DATA_ICON -> get k (attrs_of d') = get k a) as Hk.
  { intros k H1 H2. unfold d'. cbn. rewrite !get_put_attr, !(proj2 (str_eqb_neq _ k)) by congruence. done. }
  split_and!.
  - unfold handle_record. rewrite Hps, andb_false_r, Hw, Hpi. cbn [andb].
    change (mem_str "class" ATTRIBUTES_WATCHED_FOR_MUTATION) with true. rewrite str_eqb_refl. cbn [andb].
    rewrite Hc. cbn [res_map app]. rewrite Hn. unfold otruthy, str_empty. by rewrite (proj2 (str_eqb_neq n "") Hne).
  - unfold handle_record. rewrite Hps, andb_false_r.
    assert (isWatched d' = true) as ->.
    { unfold isWatched, has in *. by rewrite Hk. }
    assert (hasBeenReplaced (config s) d' = true) as ->.
    { unfold hasBeenReplaced, classList, getAttribute in *. by rewrite Hk. }
    done.
  - assert (getAttribute "data-prefix" d' = Some p /\ getAttribute "data-icon" d' = Some n) as [H1 H2].
    { unfold getAttribute, d'. cbn. rewrite !get_put_attr. done. }
    by apply classParser_keeps.
Qed.

Definition ex_shown : dom :=
  DEl (Some 7) true "svg" [("class", "svg-inline--fa fas fa-home"); ("data-prefix", "fas"); ("data-icon", "bell");
                           ("data-fa-i2svg", "")] [].
Lemma class_change_regenerates_witness :
  handle_record ex_host ex_fa ex_shown true (Attributes "class") = Ok [SetIcon "fas" (Some "house")]
  /\ exists rest, classParser ex_host ex_fa (set_icon "fas" (Some "house") ex_shown)
       = Ok (mkParsedClass (Some "fas") (VStr "house") rest).
Proof.
  destruct (class_change_regenerates ex_host ex_fa (Some 7) true "svg"
    [("class", "svg-inline--fa fas fa-home"); ("data-prefix", "fas"); ("data-icon", "bell"); ("data-fa-i2svg", "")] []
    true (mkCanonical (Some "fas") (Some "house") ["svg-inline--fa"]) "house") as (H1 & _ & H3);
    [vm_compute; reflexivity..|discriminate|vm_compute; discriminate|].
  split; [exact H1|exact H3].
Defined.

(** * When the observer listens *)

(** The observers made, numbered; the ones that are connected; the last one; the two
    flags; and the searches for pseudo elements under way. *)
Record watch_state := mkWatch {
  created : nat; active : list nat; mo : option nat; disabled : bool; _unwatched : bool; searches : nat }.
Definition watch_init : watch_state := mkWatch 0 [] None false false 0.

(** [observe]; [on] is [config.observeMutations]. *)
Definition observe (on : bool) (w : watch_state) : watch_state :=
  if on then mkWatch (S (created w)) (active w ++ [created w]) (Some (created w)) (disabled w) (_unwatched w) (searches w)
  else w.
Definition disconnect (w : watch_state) : watch_state :=
  match mo w with
  | Some i => mkWatch (created w) (List.filter (fun j => negb (j =? i)%nat) (active w)) (mo w) (disabled w)
                (_unwatched w) (searches w)
  | None => w
  end.
Definition with_disabled (b : bool) (w : watch_state) : watch_state :=
  mkWatch (created w) (active w) (mo w) b (_unwatched w) (searches w).
Definition disableObservation : watch_state -> watch_state := with_disabled true.
Definition enableObservation : watch_state -> watch_state := with_disabled false.

(** The hooks of [MutationObserver$1], [noAuto] and the ends of [searchPseudoElements]. *)
Definition on_bootstrap (observeMutations : bool) (w : watch_state) : watch_state := observe observeMutations w.
(** [dom.watch] sets [config.observeMutations] first. *)
Definition on_watch (w : watch_state) : watch_state :=
  if _unwatched w then enableObservation w else observe true w.
Definition on_unwatch (w : watch_state) : watch_state :=
  let w := disableObservation w in mkWatch (created w) (active w) (mo w) (disabled w) true (searches w).
Definition on_noAuto (w : watch_state) : watch_state := disconnect w.
Definition search_begin (w : watch_state) : watch_state :=
  let w := disableObservation w in
  mkWatch (created w) (active w) (mo w) (disabled w) (_unwatched w) (S (searches w)).
Definition search_end (w : watch_state) : watch_state :=
  let w := enableObservation w in
  mkWatch (created w) (active w) (mo w) (disabled w) (_unwatched w) (searches w - 1).

(** The observers whose callback does something with a record. *)
Definition listening (w : watch_state) : list nat := if disabled w then [] else active w.

Inductive watch_step (w : watch_state) : watch_state -> Prop :=
  | ws_bootstrap on : watch_step w (on_bootstrap on w)
  | ws_watch : watch_step w (on_watch w)
  | ws_unwatch : watch_step w (on_unwatch w)
  | ws_noAuto : watch_step w (on_noAuto w)
  | ws_search : watch_step w (search_begin w)
  | ws_searched : 0 < searches w -> watch_step w (search_end w).
Definition watch_reachable (w : watch_state) : Prop := rtc watch_step watch_init w.

Record watch_wf (w : watch_state) : Prop := {
  wf_active : NoDup (active w);
  wf_known : Forall (fun i => i < created w) (active w);
  wf_last : mo w = match created w with O => None | S k => Some k end }.

Lemma watch_wf_observe on w : watch_wf w -> watch_wf (observe on w).
Proof.
  destruct on; [|done]. intros [Ha Hk Hm]. split; cbn; [| |done].
  - apply NoDup_app. split_and!; [done| |apply NoDup_singleton].
    intros i Hi ->%list_elem_of_singleton. rewrite Forall_forall in Hk. apply Hk in Hi. lia.
  - apply Forall_app. split; [|by repeat constructor]. eapply Forall_impl; [exact Hk|]. cbn. lia.
Qed.
Lemma watch_wf_disconnect w : watch_wf w -> watch_wf (disconnect w).
Proof.
  unfold disconnect. intros [Ha Hk Hm]. destruct (mo w) eqn:E; [|split; by rewrite ?E].
  split; cbn; [| |done].
  - apply NoDup_ListNoDup, List.NoDup_filter. by apply NoDup_ListNoDup.
  - rewrite Forall_forall in *. intros i [Hi _]%list_elem_of_In%filter_In. apply Hk. by apply list_elem_of_In.
Qed.
Lemma watch_step_wf w w' : watch_step w w' -> watch_wf w -> watch_wf w'.
Proof.
  intros [on| | | | |Hs] Hw; [by apply watch_wf_observe| |by destruct Hw; constructor
    |by apply watch_wf_disconnect|by destruct Hw; constructor..].
  unfold on_watch. destruct (_unwatched w); [by destruct Hw; constructor|by apply watch_wf_observe].
Qed.
Lemma watch_reachable_wf w : watch_reachable w -> watch_wf w.
Proof.
  intros H. assert (watch_wf watch_init) as Hi by (split; [constructor..|reflexivity]).
  revert Hi. induction H; eauto using watch_step_wf.
Qed.

(** In every run, each observer is connected at most once, and [noAuto] stops the last
    one that was made, and only that one. *)
Theorem noAuto_stops_last w : watch_reachable w ->
  NoDup (active w)
  /\ (forall i, i ∈ active (on_noAuto w) <-> i ∈ active w /\ S i <> created w).
Proof.
  intros Hr. destruct (watch_reachable_wf w Hr) as [Ha Hk Hm]. split; [done|]. intros i.
  unfold on_noAuto, disconnect. rewrite Hm. rewrite Forall_forall in Hk. destruct (created w) as [|k].
  - split; [|by intros [? _]]. intros Hi. apply Hk in Hi. lia.
  - cbn. rewrite !list_elem_of_In, filter_In, negb_true_iff, Nat.eqb_neq. naive_solver lia.
Qed.

Fixpoint watches (k : nat) (w : watch_state) : watch_state := match k with O => w | S k => on_watch (watches k w) end.
Lemma watches_state k : watches k (on_bootstrap true watch_init)
  = mkWatch (S k) (seq 0 (S k)) (Some k) false false 0.
Proof.
  induction k as [|k IH]; [done|]. cbn [watches]. rewrite IH. unfold on_watch, observe. cbn [_unwatched created active disabled searches].
  by rewrite (seq_S (S k)).
Qed.

Lemma noAuto_stops_last_witness :
  active (on_noAuto (watches 1 (on_bootstrap true watch_init))) = [0].
Proof.
  assert (watch_reachable (watches 1 (on_bootstrap true watch_init))) as Hr.
  { eapply rtc_l; [apply (ws_bootstrap _ true)|]. eapply rtc_l; [apply ws_watch|]. constructor. }
  pose proof (proj2 (noAuto_stops_last _ Hr) 0) as [_ H].
  assert (0 ∈ active (on_noAuto (watches 1 (on_bootstrap true watch_init)))) as _.
  { apply H. split; [by_decide|discriminate]. }
  vm_compute. reflexivity.
Defined.

(** Watching a page that is already watched adds an observer each time: after the
    bootstrap and [k] calls of [dom.watch] every change is handled [k + 1] times, and
    [noAuto], which is to end automatic replacement, leaves [k] of the observers
    listening. *)
Theorem watch_accumulates k :
  let w := watches k (on_bootstrap true watch_init) in
  length (listening w) = S k /\ listening (on_noAuto w) = seq 0 k.
Proof.
  cbv zeta. rewrite watches_state. unfold listening, on_noAuto, disconnect. cbn [disabled active mo].
  split; [by rewrite length_seq|]. rewrite seq_S, List.filter_app. cbn [List.filter Nat.add].
  rewrite Nat.eqb_refl, app_nil_r.
  assert (forall l, Forall (fun i => i < k) l -> List.filter (fun j => negb (j =? k)%nat) l = l) as H.
  { induction 1 as [|i l Hi _ IH]; cbn; [done|]. rewrite (proj2 (Nat.eqb_neq i k)) by lia. by rewrite IH. }
  apply H, Forall_forall. intros i [_ ?]%elem_of_seq. lia.
Qed.

(** A search for pseudo elements that ends turns observation on, whatever was asked in
    between: [unwatch] during a search is undone by its end. *)
Theorem search_undoes_unwatch w :
  watch_reachable w -> 0 < searches w ->
  watch_reachable (search_end (on_unwatch w))
  /\ listening (on_unwatch w) = [] /\ listening (search_end (on_unwatch w)) = active w.
Proof.
  intros Hr Hs. split; [|done]. eapply rtc_r; [eapply rtc_r; [exact Hr|apply ws_unwatch]|].
  by apply ws_searched.
Qed.

Lemma search_undoes_unwatch_witness :
  listening (search_end (on_unwatch (search_begin (on_bootstrap true watch_init)))) = [0].
Proof.
  assert (watch_reachable (search_begin (on_bootstrap true watch_init))) as Hr.
  { eapply rtc_l; [apply (ws_bootstrap _ true)|]. eapply rtc_l; [apply ws_search|]. constructor. }
  exact (proj2 (proj2 (search_undoes_unwatch _ Hr ltac:(cbn; lia)))).
Defined.
